(* ===== verification/_CoqProject ===== *)
-Q . S2P
Prelude.v
JsString.v
JsNumber.v
JsNumberFacts.v
JsValue.v
JsValueFacts.v
JsSort.v
JsJson.v
JsRegex.v
JsRegexFacts.v
JsJsonFacts.v
JsJsonRoundtrip.v
JsStorable.v
JsLiteral.v
BillingExpr.v
BillingConditions.v
BillingRules.v
BillingSplit.v
BillingLoss.v
BillingEditor.v
TierExpr.v
TierExprFacts.v
StatusCodeRules.v
StatusCodeRisk.v
ModelMapping.v
Seed.v
Messages.v
MessagesFacts.v
Chat.v
ChatFacts.v
AdvancedCustom.v
AdvancedCustomFacts.v
NavModules.v
SidebarConfig.v
MaintenanceConfig.v
ChannelForm.v
ChannelSettingsFacts.v
ChannelFormFacts.v
ChannelTags.v
ChannelUtils.v
ChannelUtilsFacts.v
Passkey.v
ModelPricing.v
ModelPricingFacts.v
PricingEditor.v
TieredEditor.v
TieredEditorFacts.v
TieredEditorEdits.v
GroupSettings.v
GroupPage.v
GroupTableFacts.v
GroupPageFacts.v
GroupRulesFacts.v
UpstreamSync.v
UpstreamPage.v
UpstreamChoices.v
UpstreamMerge.v
UpstreamPageFacts.v
UpstreamSyncFacts.v
UpstreamEndpoints.v
ParamModes.v
ParamOverride.v
ParamDrafts.v
ParamDialog.v
ParamIds.v
ParamOrder.v
ParamDialogFacts.v
ParamCheck.v
ParamRoundtrip.v
ParamDraftFacts.v
ParamPrune.v
ParamSave.v
SecureVerify.v
SecureVerifyFacts.v
SecureOutcome.v
SecurePages.v
SecurePagesFacts.v
Catalog.v
CatalogFacts.v
TableUrl.v
