(* ===== verification/Prelude.v ===== *)
(** * Verification of the client-side logic of the token gateway

    The repository is a gateway for language models: a Go server and a web
    application.  This development models the logic of the web application
    (web/default/src, TypeScript): the editors that read and write the texts
    the server stores (billing expressions, status code rules, model mappings,
    channel settings), the playground's chat, and the rules that decide which
    parts of the interface a user sees.  Paths below are relative to
    src/web/default/src.

    ** The language

    - JsString: strings are lists of 16-bit code units; the string methods the
      sources call.
    - JsNumber, JsNumberFacts: numbers are binary64 values (the Standard
      Library's [spec_float]); conversion to and from text.
    - JsValue, JsValueFacts: dynamically typed values, objects with their
      property order, property access that throws on [undefined] and [null],
      [String], [Number] and [Boolean].
    - JsJson, JsJsonFacts, JsJsonRoundtrip: [JSON.parse] and [JSON.stringify];
      a printed value reads back, for values whose numbers read back.
    - JsStorable: the objects that survive printing, and loops that assign
      the entries of an object.
    - JsRegex, JsRegexFacts: the backtracking matcher for the patterns of the
      sources, which are written as in the sources and parsed by [re].
    - JsSort: sorting of strings by code unit, and by a comparison function;
      the order of numbers.

    An exception is [Throw] of the type [res] defined below; [catch] is
    [try ... catch].  Fuel appears in three places, each time with a bound
    that covers every run: the matcher and [JSON.parse] get a multiple of the
    length of their input (running out is an error that the round trip
    theorems exclude), and the loops over a text get its length.

    ** The components

    - BillingExpr models features/pricing/lib/billing-expr.ts.
      BillingConditions and BillingRules have the printed conditions and rules
      and what of them reads back, BillingSplit how a combined text is split,
      BillingLoss the two round trips with their exceptions (a comparison or
      search of a parameter; texts that need quoting), BillingEditor that the
      editor's loops stop.
    - TierExpr, TierExprFacts: features/pricing/lib/tier-expr.ts, the visual
      tier editor; several tiers are accepted only if they generate the same
      text again, a single one also when its price is lost.
    - StatusCodeRules: lib/http-status-code-rules.ts; merging ranges refines
      the union of sets of codes.
    - StatusCodeRisk: features/channels/lib/status-code-risk-guard.ts.
    - ModelMapping: features/channels/lib/model-mapping-validation.ts.
    - Seed: features/pricing/lib/seed.ts, with the machine arithmetic of
      [Math.imul] and of the shifts written out.
    - Messages, MessagesFacts: the playground's messages
      (features/playground/lib/message-utils.ts): [parseThinkTags] against an
      inductive description of tagged texts, independence of the chunks.
    - Chat, ChatFacts: features/playground/lib/payload-builder.ts and the
      hooks use-chat-handler.ts and use-stream-request.ts as one state machine
      whose events are the callbacks of the event source; safety along any
      run and the result of a complete stream.
    - AdvancedCustom, AdvancedCustomFacts:
      features/channels/lib/advanced-custom.ts; the platform's URL parser is a
      parameter.
    - NavModules: lib/nav-modules.ts.  SidebarConfig:
      hooks/use-sidebar-config.ts.
    - ChannelForm, ChannelSettingsFacts, ChannelFormFacts:
      features/channels/lib/channel-form.ts: the checks of the schema, the two
      stored texts, the payloads, and the way back to the form.
    - ChannelTags: the tag mode of the list of channels
      (aggregateChannelsByTag in features/channels/lib/channel-utils.ts), a
      loop over rows that the result and a map of positions share, refines
      grouping by tag, cell by cell; the mean response time is kept in the
      numbers of the language, and its recurrence is exact for rationals.
    - ChannelUtils, ChannelUtilsFacts: the other helpers of the list
      (channel-utils.ts, multi-key-utils.ts, upstream-update-utils.ts,
      constants.ts): keys, models, groups, labels; what the form stores about
      upstream models is what the list shows.
    - MaintenanceConfig: features/system-settings/maintenance/config.ts, the
      administrator's editor of the header and the sidebar.  What it stores is
      what NavModules and SidebarConfig read, and whatever text is stored, the
      editor works on a complete and typed configuration.
    - ModelPricing, ModelPricingFacts: the stored tables of model prices
      (features/system-settings/models: pricing-format.ts,
      model-pricing-snapshots.ts and the operations of
      model-ratio-visual-editor.tsx).  What the rows show after a
      submission is stated case by case ([row_after]), with the ratios that a
      left-over price hides; the signature of a row tells changed rows apart.
    - PricingEditor: model-pricing-core.ts and the panel of
      model-pricing-sheet.tsx as a state machine; along any sequence of edits
      the ratios of the form follow the typed prices, and what is committed is
      what the row of the model shows, unless a fixed price is left in the form.
    - Passkey: the base64url conversions of lib/passkey.ts; the platform's
      [atob] and [btoa] are written out; every buffer of bytes is read back.
    - JsLiteral: objects built by assignments of distinct keys.
    - ParamModes, ParamOverride, ParamDrafts, ParamDialog:
      features/channels/components/dialogs/param-override-editor-dialog.tsx,
      the editor of the rules that rewrite a request.  Identifiers come from a
      counter and the clock; computations with the counter are a state monad
      whose state survives an exception.  The dialog is a machine whose events
      are the handlers of the component ([handle], [step]); the clock, the
      translation function and the messages of the engine are parameters.
      ParamIds has the rules for computations with the counter (they only
      raise it), ParamOrder the order of the rules, ParamDialogFacts the
      invariant of the dialog along every run, ParamCheck what the check
      accepts, ParamRoundtrip that saved rules are opened and saved as the
      same text, ParamDraftFacts and ParamPrune what the editors of the
      structured values show next, ParamSave the step to the channel form.
      The state updaters run once, as in a production build.
    - UpstreamSync, UpstreamPage: the synchronisation of prices with upstream
      channels (features/system-settings/models/upstream-ratio-sync*.ts, tsx,
      channel-selector-dialog.tsx).  The differences and the choices are
      objects of the language; the page is a machine whose events are the
      handlers and the answers of the server, which may store a table or not
      and may fail at any request.  UpstreamChoices has what the choices can
      be, UpstreamMerge what the merge writes into the ten tables of
      ModelPricing, UpstreamPageFacts the invariant and the requests,
      UpstreamSyncFacts the theorems (with [eventually]: after every way the
      server may answer), UpstreamEndpoints the dialog of channels.
    - TieredEditor: features/system-settings/models/tiered-pricing-editor.tsx,
      the editor inside the panel of PricingEditor.  The component keeps tiers,
      a text and rule groups of its own and writes the draft of the panel by
      effects; a step is a handler followed by the renderings, each with its
      four effects in their order ([render], [settle]).  TieredEditorFacts has
      that five renderings are enough, that afterwards the draft holds what is
      shown, and what opening a draft and selecting another model do;
      TieredEditorEdits that edits have the effect of the pure functions on
      tiers and rules, which lock rules whose text cannot be read and throw
      when printing or reading throws, and runs in which an edit is lost.
    - GroupSettings, GroupPage: the settings of groups
      (features/system-settings/models: group-ratio-visual-editor.tsx,
      group-special-usable-editor.tsx, group-ratio-form.tsx and the groups of
      ratio-settings-card.tsx).  Every handler of the lists reads JSON of any
      shape and writes JSON, as the code does; the page is a machine with the
      form, the rows of the table and their effect, the rules, the dialogs and
      the reloading of the options.  GroupTableFacts has what the rows store
      and that they are read back, GroupPageFacts the invariant of the page
      and what saving leaves (texts of the lists as they were, typed ones laid
      out anew), GroupRulesFacts the special rules, the ratios
      between groups and the order of the automatic groups.
    - SecureVerify: secure verification (lib/secure-verification.ts,
      features/auth/secure-verification: api.ts and
      hooks/use-secure-verification.ts, and the credentials of
      lib/passkey.ts).  The hook is its state and the asynchronous functions
      that wait, each with where it waits; a step is a call of one of its
      functions or the settling of what a waiting one awaits, in any order.
      SecureVerifyFacts has that the buffers of a credential reach the server
      as they were, and relates every execution to the exchange that the
      server accepts ([exchange], [reaches]); SecureOutcome has how a
      verification ends, that every call settles once and that the answers are
      bounded.  SecurePages has the dialog and its two pages, the key of a
      channel (channel-mutate-drawer.tsx) and the passkey card
      (passkey-card.tsx); SecurePagesFacts that their executions are executions
      of the hook, whose key is shown, and runs in which it goes wrong.  The
      calls of use-passkey-management.ts are at the end of both: registering
      and removing resolve with [true] only when the server accepted, else
      with a notice and the status as it was, and clear their flags.  The
      exceptions of the platform are named and their texts a parameter; the
      pages' own messages are not modelled.
    - Catalog, CatalogFacts: the catalogue of models (features/pricing:
      lib/filters.ts, lib/price.ts, lib/dynamic-price.ts and hooks).  The list
      is the models that match every filter, in an order that the comparison
      does not contradict; the state of the filters refines what the page
      shows, and the filters that are said to be active are those that count; prices are modelled up to the number that is formatted, and the
      list shows the price of the cheapest group.
    - TableUrl: hooks/use-table-url-state.ts, the page and the
      filters of a table in the URL.  What the router makes of the search
      parameters is a parameter, which drops the keys that are [undefined];
      the filters and the page that are written are read back, through the
      transformers of the columns, as those of the usage log.
    ** Conventions

    A definition carries the name it has in the source.  A loop body or a
    branch that the source writes in line gets a name of its own.  Optional
    arguments are [option]; a value of an unchecked type is a [jsval].
    Theorems that are properties of the program carry an identifier in their
    comment; a theorem with hypotheses is followed by an instance of it at a
    concrete input.

    ** Not modelled

    [toLowerCase] has the simple mappings of the Latin, Greek, Cyrillic and
    full-width letters ([JsString.lower_unit]); the other mappings of Unicode,
    those that depend on the context or change the length, are left out.

    The server (Go); the former interface (web/classic); React components,
    routes and styles, which render what the modelled functions return; the
    HTTP client; writing to [localStorage]; [zod], which runs the object
    schema of the channel form; [evalExprLocally] of tier-expr.ts, which runs
    a text as a program of the host; the formatting of dates, which the
    platform's locale data decides. *)
From Stdlib Require Export Lia ZArith NArith.
From stdpp Require Export prelude.

(** ** Errors: the JavaScript exceptions the modelled code can raise *)

(** The kinds of exception that reach a [catch] of the modelled code. *)
Inductive jserror :=
  | TypeError
  | SyntaxError
  | RangeError.

(** A computation that returns a value or throws. *)
Inductive res (A : Type) :=
  | Ok (a : A)
  | Throw (e : jserror).
Arguments Ok {A} a.
Arguments Throw {A} e.

#[export] Instance jserror_eq_dec : EqDecision jserror.
Proof. solve_decision. Defined.

#[export] Instance res_eq_dec `{EqDecision A} : EqDecision (res A).
Proof. solve_decision. Defined.

Definition res_bind {A B} (c : res A) (k : A -> res B) : res B :=
  match c with
  | Ok a => k a
  | Throw e => Throw e
  end.

Definition res_map {A B} (f : A -> B) (c : res A) : res B :=
  res_bind c (fun a => Ok (f a)).

Lemma Ok_inj {A} (a b : A) : Ok a = Ok b -> a = b.
Proof. congruence. Qed.

(** [try { c } catch { h }] *)
Definition catch {A} (c : res A) (h : A) : A :=
  match c with
  | Ok a => a
  | Throw _ => h
  end.

Declare Scope js_scope.
Delimit Scope js_scope with js.
Notation "'let*' x ':=' c 'in' k" := (res_bind c (fun x => k))
  (at level 10, x pattern, k at level 200) : js_scope.
Open Scope js_scope.

(** [map] with a callback that may throw: the first throw stops the loop. *)
Fixpoint res_mapM {A B} (f : A -> res B) (l : list A) : res (list B) :=
  match l with
  | [] => Ok []
  | x :: l' => let* y := f x in let* ys := res_mapM f l' in Ok (y :: ys)
  end.

(** ** Tactics *)

(** Split every boolean conjunction and decide the common boolean tests. *)
Ltac bool_hyps :=
  repeat match goal with
  | H : _ && _ = true |- _ => apply andb_true_iff in H as [? ?]
  | H : _ || _ = false |- _ => apply orb_false_iff in H as [? ?]
  | H : negb _ = true |- _ => apply negb_true_iff in H
  | H : negb _ = false |- _ => apply negb_false_iff in H
  | H : bool_decide _ = true |- _ => apply bool_decide_eq_true in H
  | H : bool_decide _ = false |- _ => apply bool_decide_eq_false in H
  | H : N.eqb _ _ = true |- _ => apply N.eqb_eq in H
  | H : N.eqb _ _ = false |- _ => apply N.eqb_neq in H
  | H : N.leb _ _ = true |- _ => apply N.leb_le in H
  | H : N.ltb _ _ = true |- _ => apply N.ltb_lt in H
  | H : N.ltb _ _ = false |- _ => apply N.ltb_ge in H
  | H : N.leb _ _ = false |- _ => apply N.leb_gt in H
  | H : Z.leb _ _ = true |- _ => apply Z.leb_le in H
  | H : Z.ltb _ _ = true |- _ => apply Z.ltb_lt in H
  | H : Z.leb _ _ = false |- _ => apply Z.leb_gt in H
  | H : Z.ltb _ _ = false |- _ => apply Z.ltb_ge in H
  end.

(** Destruct the scrutinee of a [match] or [if] of the goal, with its equation. *)
Ltac case_goal :=
  match goal with
  | |- context [match ?x with _ => _ end] => destruct x eqn:?; simplify_eq/=
  end.

(** Close a concrete decidable goal, or its negation, by computation. *)
Ltac decide_now :=
  first [ apply (bool_decide_eq_true_1 _); vm_compute; reflexivity
        | apply (bool_decide_eq_false_1 _); vm_compute; reflexivity ].

(** ** Generic lemmas on lists *)

Create HintDb s2p discriminated.
Create Rewrite HintDb s2p.

Lemma forallb_impl {A} (f g : A -> bool) l :
  (forall x, f x = true -> g x = true) -> forallb f l = true -> forallb g l = true.
Proof.
  intros Hfg. induction l as [|x l IH]; simpl; [done|].
  intros H. bool_hyps. by rewrite Hfg, IH.
Qed.

Lemma forallb_app_iff {A} (f : A -> bool) l1 l2 :
  forallb f (l1 ++ l2) = true <-> forallb f l1 = true /\ forallb f l2 = true.
Proof. rewrite forallb_app. apply andb_true_iff. Qed.

Lemma forallb_Forall {A} (f : A -> bool) l :
  forallb f l = true <-> Forall (fun x => f x = true) l.
Proof.
  induction l as [|x l IH]; cbn [forallb].
  - split; [constructor|done].
  - by rewrite andb_true_iff, Forall_cons, IH.
Qed.

(** *** Removing duplicates as [Array.from(new Set(l))] does: the first
    occurrence of each element stays, in order. *)
Section dedup.
Context {A : Type} `{EqDecision A}.

Fixpoint dedup_from (seen : list A) (l : list A) : list A :=
  match l with
  | [] => []
  | x :: l' =>
      if bool_decide (x ∈ seen) then dedup_from seen l'
      else x :: dedup_from (x :: seen) l'
  end.

Definition dedup (l : list A) : list A := dedup_from [] l.

Lemma elem_of_dedup_from seen l x :
  x ∈ dedup_from seen l <-> x ∈ l /\ x ∉ seen.
Proof.
  revert seen. induction l as [|y l IH]; intros seen; simpl.
  { rewrite elem_of_nil. naive_solver. }
  case_bool_decide as Hy; rewrite ?elem_of_cons, IH, ?elem_of_cons.
  - split; [naive_solver|]. intros [[->|?] ?]; [done|naive_solver].
  - split.
    + intros [->|[? Hn]]; [naive_solver|]. split; [by right|]. intros ?. apply Hn. by right.
    + intros [[->|?] Hn]; [by left|]. destruct (decide (x = y)) as [->|]; [by left|].
      right. split; [done|]. by intros [->|?].
Qed.

Lemma elem_of_dedup l x : x ∈ dedup l <-> x ∈ l.
Proof.
  unfold dedup. rewrite elem_of_dedup_from, elem_of_nil. naive_solver.
Qed.

Lemma NoDup_dedup_from seen l : NoDup (dedup_from seen l).
Proof.
  revert seen. induction l as [|y l IH]; intros seen; simpl; [constructor|].
  case_bool_decide; [done|]. constructor; [|done].
  rewrite elem_of_dedup_from, elem_of_cons. naive_solver.
Qed.

Lemma NoDup_dedup l : NoDup (dedup l).
Proof. apply NoDup_dedup_from. Qed.

Lemma dedup_from_id seen l :
  NoDup l -> (forall x, x ∈ l -> x ∉ seen) -> dedup_from seen l = l.
Proof.
  revert seen. induction l as [|y l IH]; intros seen Hnd Hs; simpl; [done|].
  apply NoDup_cons in Hnd as [Hy Hnd].
  rewrite bool_decide_eq_false_2 by (apply Hs; by left).
  f_equal. apply IH; [done|]. intros x Hx. rewrite elem_of_cons.
  intros [->|?]; [done|]. eapply Hs; [by right|done].
Qed.

Lemma dedup_id l : NoDup l -> dedup l = l.
Proof. intros. apply dedup_from_id; [done|]. intros ? _. apply not_elem_of_nil. Qed.

Lemma dedup_from_ext s1 s2 l : (forall x, x ∈ s1 <-> x ∈ s2) -> dedup_from s1 l = dedup_from s2 l.
Proof.
  revert s1 s2. induction l as [|y l IH]; intros s1 s2 Hs; cbn [dedup_from]; [done|].
  rewrite (bool_decide_ext (y ∈ s1) (y ∈ s2)) by apply Hs. case_bool_decide; [by apply IH|].
  f_equal. apply IH. intros x. by rewrite !elem_of_cons, Hs.
Qed.

Lemma dedup_from_snoc (seen l : list A) x :
  dedup_from seen (l ++ [x])
  = if bool_decide (x ∈ seen \/ x ∈ l) then dedup_from seen l else dedup_from seen l ++ [x].
Proof.
  revert seen. induction l as [|y l IH]; intros seen; cbn [app dedup_from].
  - rewrite (bool_decide_ext (x ∈ seen \/ x ∈ []) (x ∈ seen)) by (rewrite elem_of_nil; tauto). done.
  - rewrite !IH, (bool_decide_ext (x ∈ y :: seen \/ x ∈ l) (x ∈ seen \/ x ∈ y :: l))
      by (rewrite !elem_of_cons; tauto).
    destruct (decide (y ∈ seen)) as [Hy|Hy].
    + rewrite (bool_decide_eq_true_2 (y ∈ seen)) by done.
      rewrite (bool_decide_ext (x ∈ seen \/ x ∈ y :: l) (x ∈ seen \/ x ∈ l)); [done|].
      rewrite elem_of_cons. naive_solver.
    + rewrite (bool_decide_eq_false_2 (y ∈ seen)) by done. by destruct (bool_decide (x ∈ seen \/ _)).
Qed.

Lemma dedup_snoc (l : list A) x :
  dedup (l ++ [x]) = if bool_decide (x ∈ l) then dedup l else dedup l ++ [x].
Proof.
  unfold dedup. rewrite dedup_from_snoc.
  by rewrite (bool_decide_ext (x ∈ [] \/ x ∈ l) (x ∈ l)) by (rewrite elem_of_nil; tauto).
Qed.

Lemma dedup_from_length seen l : (length (dedup_from seen l) <= length l)%nat.
Proof.
  revert seen. induction l as [|y l IH]; intros seen; cbn [dedup_from length]; [done|].
  case_bool_decide; cbn [length]; [etransitivity; [apply IH|lia]|]. apply le_n_S, IH.
Qed.

Lemma dedup_length l : (length (dedup l) <= length l)%nat.
Proof. apply dedup_from_length. Qed.

Lemma dedup_idemp l : dedup (dedup l) = dedup l.
Proof. apply dedup_id, NoDup_dedup. Qed.
End dedup.

#[export] Hint Resolve NoDup_dedup : s2p.
#[export] Hint Rewrite @elem_of_dedup : s2p.
