(* ===== verification/JsString.v ===== *)
(** * Strings of the language

    A JavaScript string is a sequence of 16-bit code units; here a list of
    [N].  The file defines the literals ([js]), the methods of
    [String.prototype] that the modelled sources call, and their lemmas. *)
From Stdlib Require Import Ascii String.
From S2P Require Import Prelude.
Export String.StringSyntax.
Open Scope N_scope.

Abbreviation jstr := (list N).

(** ** Literals *)

Definition bytes_of (s : string) : list N := map N_of_ascii (list_ascii_of_string s).

(** A code point as one or two code units. *)
Definition utf16 (cp : N) : list N :=
  if cp <? 65536 then [cp]
  else let v := cp - 65536 in [55296 + v / 1024; 56320 + v mod 1024].

(** UTF-8 bytes (of a source file) as code units. *)
Fixpoint utf8_units (fuel : nat) (l : list N) : list N :=
  match fuel with
  | O => []
  | S fuel =>
      match l with
      | [] => []
      | a :: l1 =>
          if a <? 128 then a :: utf8_units fuel l1
          else match l1 with
          | [] => []
          | b :: l2 =>
              if a <? 224 then ((a - 192) * 64 + (b - 128)) :: utf8_units fuel l2
              else match l2 with
              | [] => []
              | c :: l3 =>
                  if a <? 240
                  then ((a - 224) * 4096 + (b - 128) * 64 + (c - 128)) :: utf8_units fuel l3
                  else match l3 with
                  | [] => []
                  | d :: l4 =>
                      utf16 ((a - 240) * 262144 + (b - 128) * 4096 + (c - 128) * 64 + (d - 128))
                      ++ utf8_units fuel l4
                  end
              end
          end
      end
  end.

(** [js "..."] is the string literal of the source. *)
Definition js (s : string) : jstr :=
  let b := bytes_of s in utf8_units (length b) b.

Arguments js s%_string.

(** [jsq] is the same with a backquote standing for a double quote. *)
Definition jsq (s : string) : jstr := map (fun c => if c =? 96 then 34 else c) (js s).

Arguments jsq s%_string.

(** ** Characters *)

Definition is_digit (c : N) : bool := (48 <=? c) && (c <=? 57).

(** WhiteSpace and LineTerminator: what [trim] removes and [\s] matches. *)
Definition is_ws (c : N) : bool :=
  ((9 <=? c) && (c <=? 13)) || (c =? 32) || (c =? 160) || (c =? 5760)
  || ((8192 <=? c) && (c <=? 8202)) || (c =? 8232) || (c =? 8233)
  || (c =? 8239) || (c =? 8287) || (c =? 12288) || (c =? 65279).

Definition is_line_terminator (c : N) : bool :=
  (c =? 10) || (c =? 13) || (c =? 8232) || (c =? 8233).

Definition is_word (c : N) : bool :=
  is_digit c || ((65 <=? c) && (c <=? 90)) || (c =? 95) || ((97 <=? c) && (c <=? 122)).

(** ** [String.prototype] *)

Definition str_truthy (s : jstr) : bool := match s with [] => false | _ => true end.

(** [a || b] on strings. *)
Definition str_or (a b : jstr) : jstr := match a with [] => b | _ => a end.

Fixpoint drop_ws (s : jstr) : jstr :=
  match s with
  | c :: s' => if is_ws c then drop_ws s' else s
  | [] => []
  end.

Definition trim (s : jstr) : jstr := rev (drop_ws (rev (drop_ws s))).

Fixpoint starts_with (p s : jstr) : bool :=
  match p, s with
  | [], _ => true
  | a :: p', b :: s' => (a =? b) && starts_with p' s'
  | _ :: _, [] => false
  end.

Definition ends_with (p s : jstr) : bool := starts_with (rev p) (rev s).

(** [s.indexOf(p)] from the start of the suffix [s]. *)
Fixpoint index_of (p s : jstr) : option nat :=
  if starts_with p s then Some 0%nat
  else match s with
       | [] => None
       | _ :: s' => S <$> index_of p s'
       end.

(** [s.indexOf(p, from)] *)
Definition index_of_from (p s : jstr) (from : nat) : option nat :=
  (fun i => (from + i)%nat) <$> index_of p (drop from s).

Definition includes (p s : jstr) : bool :=
  match index_of p s with Some _ => true | None => false end.

Definition has_char (c : N) (s : jstr) : bool := existsb (N.eqb c) s.

(** [s.substring(a, b)] and [s.slice(a, b)] for indices [0 <= a <= b]. *)
Definition substring (a b : nat) (s : jstr) : jstr := take (b - a) (drop a s).

(** [s.slice(-k)] *)
Definition slice_last (k : nat) (s : jstr) : jstr := drop (length s - k) s.

(** [s.slice(0, -k)] *)
Definition slice_but_last (k : nat) (s : jstr) : jstr := take (length s - k) s.

(** [s.split(c)] for a one-unit separator. *)
Fixpoint split_char (c : N) (s : jstr) : list jstr :=
  match s with
  | [] => [[]]
  | x :: s' =>
      if x =? c then [] :: split_char c s'
      else match split_char c s' with
           | [] => [[x]]
           | w :: ws => (x :: w) :: ws
           end
  end.

Fixpoint join (sep : jstr) (l : list jstr) : jstr :=
  match l with
  | [] => []
  | [s] => s
  | s :: l' => s ++ sep ++ join sep l'
  end.

(** [s.replaceAll(c, t)] for a one-unit pattern. *)
Definition replace_char (c : N) (t s : jstr) : jstr :=
  flat_map (fun x => if x =? c then t else [x]) s.

(** The upper case of a small letter. *)
Definition upper_unit (c : N) : N := if (97 <=? c) && (c <=? 122) then c - 32 else c.

(** Lower case of one code unit: the simple case mappings of ASCII, Latin-1,
    Latin Extended-A, Greek, Cyrillic and the full-width letters; an
    approximation of [toLowerCase], which knows all of Unicode. *)
Definition lower_unit (c : N) : N :=
  if (65 <=? c) && (c <=? 90) then c + 32
  else if (192 <=? c) && (c <=? 222) && negb (c =? 215) then c + 32
  else if (256 <=? c) && (c <=? 303) && N.even c then c + 1
  else if (306 <=? c) && (c <=? 310) && N.even c then c + 1
  else if (313 <=? c) && (c <=? 327) && N.odd c then c + 1
  else if (330 <=? c) && (c <=? 374) && N.even c then c + 1
  else if (913 <=? c) && (c <=? 939) && negb (c =? 930) then c + 32
  else if (1024 <=? c) && (c <=? 1039) then c + 80
  else if (1040 <=? c) && (c <=? 1071) then c + 32
  else if (65313 <=? c) && (c <=? 65338) then c + 32
  else if c =? 8490 then 107
  else c.

Definition to_lower (s : jstr) : jstr := map lower_unit s.

(** Order of strings as [<] and [Array.prototype.sort] compare them: by code
    unit. *)
Fixpoint str_ltb (a b : jstr) : bool :=
  match a, b with
  | _, [] => false
  | [], _ :: _ => true
  | x :: a', y :: b' => (x <? y) || ((x =? y) && str_ltb a' b')
  end.

(** [l.split(",").map(trim).filter(Boolean)], the list idiom of the sources. *)
Definition split_trim_filter (s : jstr) : list jstr :=
  List.filter str_truthy (map trim (split_char 44 s)).

(** The value a table gives to a key. *)
Definition assoc {A} (k : jstr) (l : list (jstr * A)) : option A :=
  snd <$> List.find (fun kv => bool_decide (k = kv.1)) l.

(** ** Lemmas *)

Create HintDb jsstr discriminated.

Lemma starts_with_spec p s : starts_with p s = true <-> exists t, s = p ++ t.
Proof.
  revert s. induction p as [|a p IH]; intros s; simpl.
  { split; eauto. }
  destruct s as [|b s].
  { split; [done|]. by intros [t ?]. }
  rewrite andb_true_iff, N.eqb_eq, IH. split.
  - intros [-> [t ->]]. eauto.
  - intros [t ?]. simplify_eq. eauto.
Qed.

Lemma starts_with_app p t : starts_with p (p ++ t) = true.
Proof. apply starts_with_spec. eauto. Qed.

Lemma has_char_false c s : has_char c s = false <-> c ∉ s.
Proof.
  unfold has_char. rewrite <-not_true_iff_false, existsb_exists. split.
  - intros H Hin. apply H. exists c. rewrite <-list_elem_of_In, N.eqb_refl. done.
  - intros H (x & Hx & ->%N.eqb_eq). by apply H, list_elem_of_In.
Qed.

Lemma forallb_not_elem (f : N -> bool) c s :
  forallb f s = true -> f c = false -> c ∉ s.
Proof.
  intros Hs Hc Hin. rewrite forallb_forall in Hs.
  apply list_elem_of_In in Hin. by rewrite (Hs _ Hin) in Hc.
Qed.

(** *** [trim] *)

(** No white space at either end. *)
Definition trimmed (s : jstr) : bool :=
  match s with [] => true | c :: _ => negb (is_ws c) end
  && match rev s with [] => true | c :: _ => negb (is_ws c) end.

Lemma drop_ws_id s :
  match s with [] => true | c :: _ => negb (is_ws c) end = true -> drop_ws s = s.
Proof. destruct s as [|c s]; simpl; [done|]. intros ->%negb_true_iff. done. Qed.

Lemma trim_id s : trimmed s = true -> trim s = s.
Proof.
  unfold trimmed, trim. intros [H1 H2]%andb_true_iff.
  rewrite (drop_ws_id s) by done. rewrite drop_ws_id by done. apply rev_involutive.
Qed.

Lemma drop_ws_suffix s : exists w, forallb is_ws w = true /\ s = w ++ drop_ws s.
Proof.
  induction s as [|c s (w & Hw & IH)]; simpl.
  { by exists []. }
  destruct (is_ws c) eqn:E.
  - exists (c :: w). simpl. rewrite E, Hw. by rewrite <-IH.
  - by exists [].
Qed.

Lemma drop_ws_head s :
  match drop_ws s with [] => true | c :: _ => negb (is_ws c) end = true.
Proof.
  induction s as [|c s IH]; simpl; [done|]. destruct (is_ws c) eqn:E; [done|].
  by rewrite E.
Qed.

(** [trim] removes only white space, at the two ends. *)
Lemma trim_decompose s :
  exists w1 w2, forallb is_ws w1 = true /\ forallb is_ws w2 = true /\ s = w1 ++ trim s ++ w2.
Proof.
  destruct (drop_ws_suffix s) as (w1 & H1 & E1).
  destruct (drop_ws_suffix (rev (drop_ws s))) as (w2 & H2 & E2).
  exists w1, (rev w2). split; [done|]. split.
  { apply forallb_forall. intros x Hx%in_rev. revert x Hx. by apply forallb_forall. }
  unfold trim. rewrite <-rev_app_distr, <-E2, rev_involutive. done.
Qed.

Lemma trim_trimmed s : trimmed (trim s) = true.
Proof.
  unfold trimmed. apply andb_true_iff. split.
  - destruct (drop_ws_suffix (rev (drop_ws s))) as (w2 & H2 & E2).
    apply (f_equal (@rev N)) in E2. rewrite rev_app_distr, rev_involutive in E2.
    fold (trim s) in E2. pose proof (drop_ws_head s) as Hh.
    destruct (trim s) as [|c t] eqn:Et; [done|]. by rewrite E2 in Hh.
  - unfold trim. rewrite rev_involutive. apply drop_ws_head.
Qed.

Lemma trim_idemp s : trim (trim s) = trim s.
Proof. apply trim_id, trim_trimmed. Qed.

Lemma trim_nil s : trim s = [] -> forallb is_ws s = true.
Proof.
  intros H. destruct (trim_decompose s) as (w1 & w2 & H1 & H2 & E). rewrite H in E. cbn [app] in E.
  by rewrite E, forallb_app, H1, H2.
Qed.

Lemma elem_of_trim c s : c ∈ trim s -> c ∈ s.
Proof.
  intros H. destruct (trim_decompose s) as (w1 & w2 & _ & _ & ->).
  apply elem_of_app. right. apply elem_of_app. by left.
Qed.

Lemma forallb_trim f s : forallb f s = true -> forallb f (trim s) = true.
Proof.
  intros H. apply forallb_forall. intros x Hx%list_elem_of_In%elem_of_trim.
  rewrite forallb_forall in H. by apply H, list_elem_of_In.
Qed.

(** *** [split] and [join] *)

Lemma split_char_cons c s : exists w ws, split_char c s = w :: ws.
Proof.
  induction s as [|x s (w & ws & IH)]; simpl; [eauto|].
  destruct (x =? c); [eauto|]. rewrite IH. eauto.
Qed.

Lemma split_char_app c w s :
  c ∉ w -> split_char c (w ++ c :: s) = w :: split_char c s.
Proof.
  induction w as [|x w IH]; simpl; intros H.
  - by rewrite N.eqb_refl.
  - apply not_elem_of_cons in H as [? H]. rewrite IH by done.
    by destruct (N.eqb_spec x c); [subst|].
Qed.

Lemma split_char_none c w : c ∉ w -> split_char c w = [w].
Proof.
  induction w as [|x w IH]; simpl; intros H; [done|].
  apply not_elem_of_cons in H as [? H]. rewrite IH by done.
  by destruct (N.eqb_spec x c); [subst|].
Qed.

Lemma split_char_join c l :
  Forall (fun w => c ∉ w) l -> l <> [] -> split_char c (join [c] l) = l.
Proof.
  induction l as [|w l IH]; intros H Hne; [done|].
  apply Forall_cons in H as [Hw H]. destruct l as [|w' l].
  - simpl. by apply split_char_none.
  - change (join [c] (w :: w' :: l)) with (w ++ c :: join [c] (w' :: l)).
    rewrite split_char_app by done. by rewrite IH.
Qed.

Lemma split_char_parts c s : Forall (fun w => c ∉ w) (split_char c s).
Proof.
  induction s as [|x s IH]; simpl.
  { repeat constructor. apply not_elem_of_nil. }
  destruct (N.eqb_spec x c) as [->|Hne].
  { constructor; [apply not_elem_of_nil|done]. }
  destruct (split_char c s) as [|w ws].
  - repeat constructor. apply not_elem_of_cons. split; [done|]. apply not_elem_of_nil.
  - apply Forall_cons in IH as [Hw Hws]. constructor; [|done].
    by apply not_elem_of_cons.
Qed.

(** What the list idiom [split_trim_filter] yields: parts that are trimmed,
    not empty, and without the separator. *)
Definition clean_part (w : jstr) : Prop := trimmed w = true /\ w <> [] /\ 44 ∉ w.

Lemma split_trim_filter_clean s : Forall clean_part (split_trim_filter s).
Proof.
  unfold split_trim_filter. apply Forall_forall. intros w Hw.
  apply list_elem_of_In, filter_In in Hw as [Hw Ht].
  apply list_elem_of_In, list_elem_of_fmap in Hw as (v & -> & Hv).
  split; [apply trim_trimmed|]. split; [by destruct (trim v)|].
  pose proof (split_char_parts 44 s) as Hp. rewrite Forall_forall in Hp.
  intros Hin%elem_of_trim. by apply (Hp _ Hv).
Qed.

Lemma filter_truthy_id l : Forall clean_part l -> List.filter str_truthy (map trim l) = l.
Proof.
  induction 1 as [|w l (Ht & Hne & _) _ IH]; simpl; [done|].
  rewrite trim_id by done. destruct w as [|c w]; [done|]. simpl. by rewrite IH.
Qed.

(** Parsing what [join(",")] printed gives the list back. *)
Lemma split_trim_filter_join l :
  Forall clean_part l -> split_trim_filter (join [44] l) = l.
Proof.
  intros H. destruct l as [|w l']; [done|]. unfold split_trim_filter.
  rewrite split_char_join; [by apply filter_truthy_id| |done].
  eapply Forall_impl; [done|]. by intros ? (_ & _ & ?).
Qed.

Lemma split_trim_filter_idemp s :
  split_trim_filter (join [44] (split_trim_filter s)) = split_trim_filter s.
Proof. apply split_trim_filter_join, split_trim_filter_clean. Qed.

#[export] Hint Resolve trim_trimmed split_trim_filter_clean starts_with_app : jsstr.

(** *** Ends, search *)

Lemma rev_head_app (a b : jstr) c t : rev b = c :: t -> exists t', rev (a ++ b) = c :: t'.
Proof. intros H. rewrite rev_app_distr, H. simpl. eauto. Qed.

(** A text is trimmed when its first and last parts are. *)
Lemma trimmed_ends a m b :
  a <> [] -> b <> [] -> trimmed a = true -> trimmed b = true -> trimmed (a ++ m ++ b) = true.
Proof.
  intros Ha Hb Hta Htb. unfold trimmed in *. apply andb_true_iff in Hta as [Hta _].
  apply andb_true_iff in Htb as [_ Htb]. apply andb_true_iff. split.
  { by destruct a. }
  destruct (rev b) as [|c t] eqn:E.
  { apply (f_equal (@rev N)) in E. by rewrite rev_involutive in E. }
  destruct (rev_head_app (a ++ m) b c t E) as [t' Ht'].
  by rewrite app_assoc, Ht'.
Qed.

Lemma trimmed_forallb f s :
  (forall c, f c = true -> is_ws c = false) -> forallb f s = true -> trimmed s = true.
Proof.
  intros Hf Hs. assert (H : forall c t, s = c :: t \/ rev s = c :: t -> is_ws c = false).
  { intros c t [E|E]; apply Hf; rewrite forallb_forall in Hs; apply Hs.
    - rewrite E. by left.
    - apply in_rev. rewrite E. by left. }
  unfold trimmed. apply andb_true_iff.
  split; [destruct s as [|c t] eqn:E|destruct (rev s) as [|c t] eqn:E]; try done;
    apply negb_true_iff; eapply H; eauto.
Qed.

Lemma includes_app p a b : includes p (a ++ p ++ b) = true.
Proof.
  unfold includes. induction a as [|c a IH]; cbn [app].
  - assert (index_of p (p ++ b) = Some 0%nat) as ->; [|done].
    destruct (p ++ b) eqn:E; cbn [index_of]; rewrite <-E, starts_with_app; done.
  - cbn [index_of]. destruct (starts_with p (c :: a ++ p ++ b)); [done|].
    by destruct (index_of p (a ++ p ++ b)).
Qed.

Lemma includes_missing p s c : c ∈ p -> c ∉ s -> includes p s = false.
Proof.
  unfold includes. intros Hp. induction s as [|d s IH]; intros Hs.
  - cbn [index_of]. destruct p; [by apply not_elem_of_nil in Hp|]. done.
  - cbn [index_of]. assert (starts_with p (d :: s) = false) as ->.
    { destruct (starts_with p (d :: s)) eqn:E; [|done].
      apply starts_with_spec in E as [t E]. exfalso. apply Hs. rewrite E.
      apply elem_of_app. by left. }
    apply not_elem_of_cons in Hs as [_ Hs]. specialize (IH Hs).
    by destruct (index_of p s).
Qed.
