(* ===== verification/JsNumber.v ===== *)
(** * Numbers of the language

    A JavaScript number is an IEEE 754 binary64 value: the [spec_float] of the
    Standard Library at precision 53 and exponent 1024, with its correctly
    rounded operations.  The file adds what the modelled sources use of
    [Number], [Math] and of the conversions between numbers and strings. *)
From Corelib Require Export SpecFloat.
From S2P Require Import Prelude JsString.
Open Scope Z_scope.

Abbreviation num := spec_float.

#[export] Instance spec_float_eq_dec : EqDecision spec_float.
Proof. solve_decision. Defined.

Definition prec64 : Z := 53.
Definition emax64 : Z := 1024.

(** ** Arithmetic and comparison *)

Definition nadd : num -> num -> num := SFadd prec64 emax64.
Definition nsub : num -> num -> num := SFsub prec64 emax64.
Definition nmul : num -> num -> num := SFmul prec64 emax64.
Definition ndiv : num -> num -> num := SFdiv prec64 emax64.
Definition nneg : num -> num := SFopp.
Definition nabs : num -> num := SFabs.

Definition nltb (x y : num) : bool := SFltb x y.
Definition nleb (x y : num) : bool := SFleb x y.
(** [===] on numbers: [NaN] differs from itself, the two zeros are equal. *)
Definition neqb (x y : num) : bool := SFeqb x y.

Definition nan : num := S754_nan.
Definition nzero : num := S754_zero false.

(** The number nearest to an integer. *)
Definition num_of_Z (z : Z) : num := binary_normalize prec64 emax64 z 0 false.

Definition is_nan (x : num) : bool := match x with S754_nan => true | _ => false end.

(** [Number.isFinite] *)
Definition is_finite (x : num) : bool :=
  match x with S754_nan | S754_infinity _ => false | _ => true end.

(** A number is truthy unless it is zero or [NaN]. *)
Definition num_truthy (x : num) : bool :=
  match x with S754_nan | S754_zero _ => false | _ => true end.

(** The finite value as a fraction [n / d] with [d > 0], sign apart. *)
Definition num_frac (m : positive) (e : Z) : Z * Z :=
  if 0 <=? e then (Z.pos m * 2 ^ e, 1) else (Z.pos m, 2 ^ (- e)).

Definition apply_sign (s : bool) (z : Z) : Z := if s then - z else z.

(** The signed zero of the sign [s] or the number nearest to [z]. *)
Definition num_of_Z_sign (s : bool) (z : Z) : num :=
  if z =? 0 then S754_zero s else num_of_Z z.

(** [Math.floor], [Math.ceil], [Math.trunc] and [Math.round]. *)
Definition round_by (f : Z -> Z -> Z) (x : num) : num :=
  match x with
  | S754_finite s m e =>
      if 0 <=? e then x
      else let '(n, d) := num_frac m e in num_of_Z_sign s (f (apply_sign s n) d)
  | _ => x
  end.

Definition nfloor : num -> num := round_by Z.div.
Definition nceil : num -> num := round_by (fun n d => - ((- n) / d)).
Definition ntrunc : num -> num := round_by Z.quot.
Definition nround : num -> num := round_by (fun n d => (2 * n + d) / (2 * d)).

(** [Number.isInteger] *)
Definition is_integer (x : num) : bool := is_finite x && neqb (ntrunc x) x.

(** [Math.max] and [Math.min] of two numbers. *)
Definition nmax (x y : num) : num :=
  if is_nan x || is_nan y then nan
  else match x, y with
       | S754_zero sx, S754_zero sy => S754_zero (sx && sy)
       | _, _ => if nltb x y then y else x
       end.
Definition nmin (x y : num) : num :=
  if is_nan x || is_nan y then nan
  else match x, y with
       | S754_zero sx, S754_zero sy => S754_zero (sx || sy)
       | _, _ => if nltb y x then y else x
       end.

(** The integer part of a finite number ([ToIntegerOrInfinity]). *)
Definition num_to_Z (x : num) : Z :=
  match x with
  | S754_finite s m e => let '(n, d) := num_frac m e in apply_sign s (n / d)
  | _ => 0
  end.

(** [ToInt32] and [ToUint32] of an integer. *)
Definition to_uint32 (z : Z) : Z := z mod 2 ^ 32.
Definition to_int32 (z : Z) : Z :=
  let u := to_uint32 z in if u <? 2 ^ 31 then u else u - 2 ^ 32.

(** ** Decimal digits *)

Fixpoint digits_rev (fuel : nat) (n : N) : jstr :=
  match fuel with
  | O => []
  | S fuel => if (n <? 10)%N then [48 + n]%N
              else (48 + n mod 10)%N :: digits_rev fuel (n / 10)%N
  end.

(** The decimal digits of a natural number. *)
Definition show_N (n : N) : jstr := rev (digits_rev (S (N.to_nat (N.log2 n))) n).

Definition show_Z (z : Z) : jstr :=
  if z <? 0 then (45 :: show_N (Z.to_N (- z)))%N else show_N (Z.to_N z).

Definition show_nat (n : nat) : jstr := show_N (N.of_nat n).

Definition read_digits (s : jstr) : N := fold_left (fun a c => 10 * a + (c - 48))%N s 0%N.

(** ** String to number *)

(** The number nearest to [m * 10 ^ e], with a sign.  Exponents beyond the
    range of binary64 are decided without computing the power. *)
Definition num_of_dec (s : bool) (m : Z) (e : Z) : num :=
  match m with
  | Zpos p =>
      let d := Z.of_nat (length (show_Z m)) in
      if 400 <? d + e then S754_infinity s
      else if d + e <? -400 then S754_zero s
      else if 0 <=? e
      then binary_normalize prec64 emax64 (apply_sign s (m * 10 ^ e)) 0 s
      else let '(mz, ez, lz) := SFdiv_core_binary prec64 emax64 m 0 (10 ^ (- e)) 0 in
           binary_round_aux prec64 emax64 s mz ez lz
  | _ => S754_zero s
  end.

Fixpoint span_digits (s : jstr) : jstr * jstr :=
  match s with
  | c :: s' => if is_digit c then let '(d, r) := span_digits s' in (c :: d, r) else ([], s)
  | [] => ([], [])
  end.

(** The exponent part: [None] is a syntax error, an absent part is 0. *)
Definition parse_exponent (s : jstr) : option Z :=
  match s with
  | [] => Some 0
  | c :: s' =>
      if ((c =? 101) || (c =? 69))%N then
        let '(neg, ds) := match s' with
                          | 45%N :: t => (true, t)
                          | 43%N :: t => (false, t)
                          | _ => (false, s')
                          end in
        if str_truthy ds && forallb is_digit ds
        then Some (apply_sign neg (Z.of_N (read_digits ds)))
        else None
      else None
  end.

(** An unsigned decimal literal: mantissa and power of ten. *)
Definition parse_decimal (s : jstr) : option (Z * Z) :=
  let '(i, r) := span_digits s in
  let '(f, r2) := match r with
                  | 46%N :: r' => span_digits r'
                  | _ => ([], r)
                  end in
  if str_truthy (i ++ f) then
    match parse_exponent r2 with
    | Some e => Some (Z.of_N (read_digits (i ++ f)), e - Z.of_nat (length f))
    | None => None
    end
  else None.

Definition hex_val (c : N) : option N :=
  if is_digit c then Some (c - 48)%N
  else if ((97 <=? c) && (c <=? 102))%N then Some (c - 87)%N
  else if ((65 <=? c) && (c <=? 70))%N then Some (c - 55)%N
  else None.

Fixpoint parse_radix (b : N) (acc : N) (s : jstr) : option N :=
  match s with
  | [] => Some acc
  | c :: s' => match hex_val c with
               | Some v => if (v <? b)%N then parse_radix b (b * acc + v)%N s' else None
               | None => None
               end
  end.

Definition parse_prefixed (b : N) (s : jstr) : num :=
  match s with
  | [] => nan
  | _ => match parse_radix b 0 s with Some n => num_of_Z (Z.of_N n) | None => nan end
  end.

Definition parse_signed (neg : bool) (s : jstr) : num :=
  if bool_decide (s = js "Infinity") then S754_infinity neg
  else match parse_decimal s with
       | Some (m, e) => num_of_dec neg m e
       | None => nan
       end.

(** [Number(s)] for a string. *)
Definition num_of_str (s0 : jstr) : num :=
  match trim s0 with
  | [] => nzero
  | (48%N :: c :: t) as s =>
      if ((c =? 120) || (c =? 88))%N then parse_prefixed 16 t
      else if ((c =? 111) || (c =? 79))%N then parse_prefixed 8 t
      else if ((c =? 98) || (c =? 66))%N then parse_prefixed 2 t
      else parse_signed false s
  | 45%N :: t => parse_signed true t
  | 43%N :: t => parse_signed false t
  | s => parse_signed false s
  end.

(** [Number.parseInt(s, 10)]: the longest prefix of digits. *)
Definition parse_int (s0 : jstr) : num :=
  let '(neg, s) := match drop_ws s0 with
                   | 45%N :: t => (true, t)
                   | 43%N :: t => (false, t)
                   | t => (false, t)
                   end in
  match (span_digits s).1 with
  | [] => nan
  | ds => num_of_Z_sign neg (apply_sign neg (Z.of_N (read_digits ds)))
  end.

(** The exponent of a decimal literal, when digits follow it. *)
Definition exponent_prefix (s : jstr) : jstr :=
  match s with
  | c :: t =>
      if ((c =? 101) || (c =? 69))%N then
        let '(sg, r) := match t with
                        | 45%N :: u => ([45%N], u)
                        | 43%N :: u => ([43%N], u)
                        | _ => ([], t)
                        end in
        match (span_digits r).1 with [] => [] | ds => c :: sg ++ ds end
      else []
  | [] => []
  end.

(** The longest prefix that is an unsigned decimal literal. *)
Definition decimal_prefix (s : jstr) : jstr :=
  let '(i, r) := span_digits s in
  let '(f, r2) := match r with
                  | 46%N :: r' => let '(f, r2) := span_digits r' in (46%N :: f, r2)
                  | _ => ([], r)
                  end in
  i ++ f ++ exponent_prefix r2.

(** [parseFloat(s)] *)
Definition parse_float (s0 : jstr) : num :=
  let '(neg, s) := match drop_ws s0 with
                   | 45%N :: t => (true, t)
                   | 43%N :: t => (false, t)
                   | t => (false, t)
                   end in
  if starts_with (js "Infinity") s then S754_infinity neg
  else match parse_decimal (decimal_prefix s) with
       | Some (m, e) => num_of_dec neg m e
       | None => nan
       end.

(** ** Number to string *)

(** [10 ^ t <= n / d] *)
Definition pow10_le (t n d : Z) : bool :=
  if 0 <=? t then 10 ^ t * d <=? n else d <=? n * 10 ^ (- t).

(** The [x] with [10 ^ (x - 1) <= n / d < 10 ^ x], from an estimate. *)
Definition dec_exponent (m : positive) (e : Z) : Z :=
  let '(n, d) := num_frac m e in
  let x := ((Z.log2 (Z.pos m) + e) * 30103) / 100000 + 1 in
  if pow10_le x n d then x + 1
  else if pow10_le (x - 1) n d then x else x - 1.

(** The candidates with [k] digits: the two [s * 10 ^ (x - k)] around the
    value; the answer is [(s, x)] with [s] of [k] digits. *)
Definition digits_at (m : positive) (e x : Z) (k : Z) : option (Z * Z) :=
  let '(n, d) := num_frac m e in
  let sc := k - x in
  let '(n', d') := if 0 <=? sc then (n * 10 ^ sc, d) else (n, d * 10 ^ (- sc)) in
  let s := n' / d' in
  let lo := bool_decide (num_of_dec false s (x - k) = S754_finite false m e) in
  let hi := bool_decide (num_of_dec false (s + 1) (x - k) = S754_finite false m e) in
  let up := if s + 1 =? 10 ^ k then (10 ^ (k - 1), x + 1) else (s + 1, x) in
  if lo && (negb hi || (2 * (n' mod d') <=? d')) then Some (s, x)
  else if hi then Some up
  else None.

Fixpoint shortest_from (fuel : nat) (m : positive) (e x k : Z) : Z * Z * Z :=
  match fuel with
  | O => (Z.pos m, x, k)
  | S fuel => match digits_at m e x k with
              | Some (s, x') => (s, x', k)
              | None => shortest_from fuel m e x (k + 1)
              end
  end.

(** The shortest digits that read back as the number: [(s, x, k)] with the
    value [s * 10 ^ (x - k)] and [k] digits; 17 digits always suffice. *)
Definition shortest (m : positive) (e : Z) : Z * Z * Z :=
  shortest_from 17 m e (dec_exponent m e) 1.

Definition zeros (n : Z) : jstr := repeat 48%N (Z.to_nat n).

(** The layout of [Number.prototype.toString]. *)
Definition layout (s x k : Z) : jstr :=
  let ds := show_Z s in
  if (k <=? x) && (x <=? 21) then ds ++ zeros (x - k)
  else if (0 <? x) && (x <=? 21)
  then take (Z.to_nat x) ds ++ js "." ++ drop (Z.to_nat x) ds
  else if (-6 <? x) && (x <=? 0) then js "0." ++ zeros (- x) ++ ds
  else let ex := x - 1 in
       let es := (if ex <? 0 then js "-" else js "+") ++ show_Z (Z.abs ex) in
       match ds with
       | [c] => c :: js "e" ++ es
       | c :: t => c :: js "." ++ t ++ js "e" ++ es
       | [] => []
       end.

(** [String(x)] for a number. *)
Definition num_to_str (x : num) : jstr :=
  match x with
  | S754_nan => js "NaN"
  | S754_zero _ => js "0"
  | S754_infinity s => (if s then js "-" else []) ++ js "Infinity"
  | S754_finite s m e =>
      let '(ds, ex, k) := shortest m e in
      (if s then js "-" else []) ++ layout ds ex k
  end.

(** [x.toFixed(f)] for [0 <= f <= 100]. *)
Definition to_fixed (x : num) (f : Z) : jstr :=
  match x with
  | S754_nan => js "NaN"
  | S754_infinity _ => num_to_str x
  | S754_zero _ | S754_finite _ _ _ =>
      let '(sg, n, d) := match x with
                         | S754_finite s m e => let '(n, d) := num_frac m e in (s, n, d)
                         | _ => (false, 0, 1)
                         end in
      if 10 ^ 21 * d <=? n then num_to_str x
      else
        let r := (2 * n * 10 ^ f + d) / (2 * d) in
        let ds := show_Z r in
        let ds' := zeros (f + 1 - Z.of_nat (length ds)) ++ ds in
        let cut := (length ds' - Z.to_nat f)%nat in
        (if sg then js "-" else [])
        ++ (if f =? 0 then ds else take cut ds' ++ js "." ++ drop cut ds')
  end.
