(* ===== verification/JsNumberFacts.v ===== *)
(** * Facts on decimal digits

    Printing a natural number gives digits, and reading them gives the number
    back. *)
From S2P Require Import Prelude JsString JsNumber.
Open Scope N_scope.

Lemma digits_rev_digits fuel n : forallb is_digit (digits_rev fuel n) = true.
Proof.
  revert n. induction fuel as [|fuel IH]; intros n; cbn [digits_rev]; [done|].
  assert (forall d, d < 10 -> is_digit (48 + d) = true) as Hd.
  { intros d ?. unfold is_digit. apply andb_true_iff. split; apply N.leb_le; lia. }
  destruct (N.ltb_spec n 10); cbn [forallb]; rewrite Hd by (try apply N.mod_lt; lia); [done|].
  apply IH.
Qed.

Lemma read_digits_snoc s c : read_digits (s ++ [c]) = 10 * read_digits s + (c - 48).
Proof. unfold read_digits. by rewrite fold_left_app. Qed.

Lemma read_digits_rev fuel n :
  n < 2 ^ N.of_nat fuel -> read_digits (rev (digits_rev fuel n)) = n.
Proof.
  revert n. induction fuel as [|fuel IH]; intros n Hn; cbn [digits_rev].
  { cbn in Hn. replace n with 0 by lia. done. }
  destruct (N.ltb_spec n 10); cbn [rev].
  { rewrite read_digits_snoc. cbn. lia. }
  rewrite read_digits_snoc, IH.
  - rewrite (N.add_comm 48), N.add_sub. symmetry. by apply N.div_mod.
  - apply N.Div0.div_lt_upper_bound. rewrite Nat2N.inj_succ, N.pow_succ_r' in Hn. lia.
Qed.

Lemma show_N_digits n : forallb is_digit (show_N n) = true.
Proof.
  unfold show_N. pose proof (digits_rev_digits (S (N.to_nat (N.log2 n))) n) as H.
  apply forallb_Forall in H. apply forallb_Forall. by apply Forall_rev.
Qed.

Lemma show_N_ne n : show_N n <> [].
Proof.
  unfold show_N. cbn [digits_rev]. intros H. apply (f_equal (@length _)) in H.
  rewrite length_rev in H. by destruct (n <? 10).
Qed.

Lemma read_digits_show_N n : read_digits (show_N n) = n.
Proof.
  unfold show_N. apply read_digits_rev. rewrite Nat2N.inj_succ, N2Nat.id.
  destruct (N.eq_dec n 0) as [->|]; [done|]. apply N.log2_spec. lia.
Qed.

Lemma show_N_inj n m : show_N n = show_N m -> n = m.
Proof. intros H. by rewrite <-(read_digits_show_N n), H, read_digits_show_N. Qed.

Lemma digit_not_ws c : is_digit c = true -> is_ws c = false.
Proof.
  unfold is_digit, is_ws. intros H. bool_hyps.
  rewrite ?orb_false_iff, ?andb_false_iff, ?N.eqb_neq, ?N.leb_gt. lia.
Qed.

Lemma digits_trimmed s : forallb is_digit s = true -> trimmed s = true.
Proof. apply trimmed_forallb, digit_not_ws. Qed.

(** No unit outside of the digits occurs in a number. *)
Lemma show_N_missing n c : is_digit c = false -> c ∉ show_N n.
Proof. apply forallb_not_elem, show_N_digits. Qed.

#[export] Hint Resolve show_N_digits show_N_ne : s2p.

Lemma show_Z_inj a b : show_Z a = show_Z b -> a = b.
Proof.
  unfold show_Z. assert (forall n m, 45 :: show_N n <> show_N m) as Hne.
  { intros n m H. apply (show_N_missing m 45); [done|]. rewrite <-H. by left. }
  destruct (Z.ltb_spec a 0), (Z.ltb_spec b 0); intros H'.
  - injection H' as H'%show_N_inj. lia.
  - by apply Hne in H'.
  - symmetry in H'. by apply Hne in H'.
  - apply show_N_inj in H'. lia.
Qed.
