(* ===== verification/JsValue.v ===== *)
(** * Values of the language

    The values that flow through the dynamically typed parts of the sources
    (what [JSON.parse] returns, [unknown], [Partial<...>]), property access,
    and the conversions [Boolean], [String] and [Number]. *)
From S2P Require Import Prelude JsString JsNumber.
Open Scope N_scope.

(** [VFun] is a built-in function found on a prototype: it only appears when
    a property name such as [constructor] is looked up on a plain object. *)
Inductive jsval :=
  | VUndef
  | VNull
  | VBool (b : bool)
  | VNum (x : num)
  | VStr (s : jstr)
  | VArr (l : list jsval)
  | VObj (o : list (jstr * jsval))
  | VFun (name : jstr).

Abbreviation jsobj := (list (jstr * jsval)).

(** ** Objects: own properties in the order [Object.keys] lists them *)

Fixpoint olookup (k : jstr) (o : jsobj) : option jsval :=
  match o with
  | [] => None
  | (k', v) :: o' => if bool_decide (k = k') then Some v else olookup k o'
  end.

(** A canonical array index: these keys come first, in ascending order. *)
Definition array_index (k : jstr) : option N :=
  if str_truthy k && forallb is_digit k then
    let n := read_digits k in
    if bool_decide (show_N n = k) && (n <? 4294967295) then Some n else None
  else None.

(** Where a new key goes: an index before the first larger index or the first
    other key, any other key at the end. *)
Fixpoint oinsert (k : jstr) (v : jsval) (o : jsobj) : jsobj :=
  match o with
  | [] => [(k, v)]
  | (k', v') :: o' =>
      match array_index k with
      | None => (k', v') :: oinsert k v o'
      | Some n =>
          match array_index k' with
          | Some n' => if n <? n' then (k, v) :: o else (k', v') :: oinsert k v o'
          | None => (k, v) :: o
          end
      end
  end.

Fixpoint oreplace (k : jstr) (v : jsval) (o : jsobj) : jsobj :=
  match o with
  | [] => []
  | (k', v') :: o' => if bool_decide (k = k') then (k, v) :: o' else (k', v') :: oreplace k v o'
  end.

(** [o[k] = v] *)
Definition oset (k : jstr) (v : jsval) (o : jsobj) : jsobj :=
  match olookup k o with
  | Some _ => oreplace k v o
  | None => oinsert k v o
  end.

(** [delete o[k]] *)
Definition odelete (k : jstr) (o : jsobj) : jsobj :=
  List.filter (fun kv => negb (bool_decide (k = fst kv))) o.

(** [{ ...a, ...b }] *)
Definition ospread (a b : jsobj) : jsobj := fold_left (fun acc kv => oset kv.1 kv.2 acc) b a.

(** An object literal: the properties are set in order. *)
Definition obj_of (l : jsobj) : jsobj := ospread [] l.

Definition okeys (o : jsobj) : list jstr := map fst o.
Definition ovalues (o : jsobj) : list jsval := map snd o.

(** ** Property access *)

Definition object_prototype_names : list jstr :=
  [js "constructor"; js "hasOwnProperty"; js "isPrototypeOf"; js "propertyIsEnumerable";
   js "toLocaleString"; js "toString"; js "valueOf"; js "__defineGetter__";
   js "__defineSetter__"; js "__lookupGetter__"; js "__lookupSetter__"; js "__proto__"].

(** The value a property has when it is not an own property. *)
Definition inherited (k : jstr) : jsval :=
  if bool_decide (k ∈ object_prototype_names) then VFun k else VUndef.

Definition oget (k : jstr) (o : jsobj) : jsval := default (inherited k) (olookup k o).

(** [v.k]; it throws on [undefined] and [null]. *)
Definition vget (k : jstr) (v : jsval) : res jsval :=
  match v with
  | VUndef | VNull => Throw TypeError
  | VObj o => Ok (oget k o)
  | VArr l =>
      Ok (if bool_decide (k = js "length") then VNum (num_of_Z (Z.of_nat (length l)))
          else match array_index k with
               | Some n => default VUndef (l !! N.to_nat n)
               | None => inherited k
               end)
  | VStr s =>
      Ok (if bool_decide (k = js "length") then VNum (num_of_Z (Z.of_nat (length s)))
          else match array_index k with
               | Some n => match s !! N.to_nat n with Some c => VStr [c] | None => VUndef end
               | None => inherited k
               end)
  | _ => Ok (inherited k)
  end.

(** [v?.k] *)
Definition vget_opt (k : jstr) (v : jsval) : res jsval :=
  match v with VUndef | VNull => Ok VUndef | _ => vget k v end.

(** [Object.entries(v)] of an object or an array. *)
Definition entries (v : jsval) : jsobj :=
  match v with
  | VObj o => o
  | VArr l => zip_with (fun i x => (show_nat i, x)) (seq 0 (length l)) l
  | VStr s => zip_with (fun i c => (show_nat i, VStr [c])) (seq 0 (length s)) s
  | _ => []
  end.

(** ** Conversions *)

(** [Boolean(v)] *)
Definition truthy (v : jsval) : bool :=
  match v with
  | VUndef | VNull => false
  | VBool b => b
  | VNum x => num_truthy x
  | VStr s => str_truthy s
  | VArr _ | VObj _ | VFun _ => true
  end.

(** [a || b] *)
Definition vor (a b : jsval) : jsval := if truthy a then a else b.

Lemma vor_idemp a b : vor (vor a b) b = vor a b.
Proof. unfold vor. destruct (truthy a) eqn:E; [by rewrite E|]. by destruct (truthy b). Qed.

(** [a ?? b] *)
Definition vcoalesce (a b : jsval) : jsval :=
  match a with VUndef | VNull => b | _ => a end.

Definition is_string (v : jsval) : bool := match v with VStr _ => true | _ => false end.
Definition is_array (v : jsval) : bool := match v with VArr _ => true | _ => false end.
(** [v && typeof v === 'object'] *)
Definition is_object (v : jsval) : bool :=
  match v with VArr _ | VObj _ => true | _ => false end.
(** [v && typeof v === 'object' && !Array.isArray(v)] *)
Definition is_plain_object (v : jsval) : bool := match v with VObj _ => true | _ => false end.
Definition is_true (v : jsval) : bool := match v with VBool true => true | _ => false end.
Definition is_false (v : jsval) : bool := match v with VBool false => true | _ => false end.

(** [v === s] for a string literal [s]. *)
Definition str_is (s : jstr) (v : jsval) : bool :=
  match v with VStr t => bool_decide (t = s) | _ => false end.

(** [v.trim()]: only strings have the method. *)
Definition vtrim (v : jsval) : res jstr :=
  match v with VStr s => Ok (trim s) | _ => Throw TypeError end.

(** [v?.trim() || ""] *)
Definition vtrim_opt (v : jsval) : res jstr :=
  match v with VUndef | VNull => Ok [] | _ => vtrim v end.

(** [v == null] *)
Definition is_nullish (v : jsval) : bool := match v with VUndef | VNull => true | _ => false end.

(** [String(v)].  An object whose own [toString] is not a function (no value
    of the model is callable as one) cannot be converted. *)
Fixpoint to_str (v : jsval) : res jstr :=
  match v with
  | VUndef => Ok (js "undefined")
  | VNull => Ok (js "null")
  | VBool true => Ok (js "true")
  | VBool false => Ok (js "false")
  | VNum x => Ok (num_to_str x)
  | VStr s => Ok s
  | VArr l =>
      res_map (join (js ","))
        ((fix go (l : list jsval) : res (list jstr) :=
            match l with
            | [] => Ok []
            | x :: l' =>
                let* s := match x with
                          | VUndef | VNull => Ok []
                          | _ => to_str x
                          end in
                let* ss := go l' in Ok (s :: ss)
            end) l)
  | VObj o =>
      match olookup (js "toString") o with
      | Some _ => Throw TypeError
      | None => Ok (js "[object Object]")
      end
  | VFun k => Ok (js "function " ++ k ++ js "() { [native code] }")
  end.

(** [Number(v)] *)
Definition to_num (v : jsval) : res num :=
  match v with
  | VUndef => Ok nan
  | VNull => Ok nzero
  | VBool b => Ok (if b then num_of_Z 1 else nzero)
  | VNum x => Ok x
  | VStr s => Ok (num_of_str s)
  | VArr _ | VObj _ | VFun _ => res_map num_of_str (to_str v)
  end.

(** ** Lemmas on objects *)

Definition okeys_nodup (o : jsobj) : Prop := NoDup (okeys o).

Lemma olookup_None k o : olookup k o = None <-> k ∉ okeys o.
Proof.
  induction o as [|[k' v] o IH]; simpl.
  { split; [intros _; apply not_elem_of_nil|done]. }
  case_bool_decide as Hk; rewrite not_elem_of_cons.
  - split; [done|]. by intros [? _].
  - rewrite IH. naive_solver.
Qed.

Lemma olookup_oreplace k v o j :
  k ∈ okeys o -> olookup j (oreplace k v o) = if bool_decide (j = k) then Some v else olookup j o.
Proof.
  induction o as [|[k' v'] o IH]; simpl; [by intros ?%not_elem_of_nil|].
  rewrite elem_of_cons. intros Hin.
  destruct (decide (k = k')) as [->|Hne].
  - rewrite bool_decide_eq_true_2 by done. simpl.
    destruct (decide (j = k')) as [->|?].
    + by rewrite !bool_decide_eq_true_2 by done.
    + by rewrite !bool_decide_eq_false_2 by done.
  - rewrite bool_decide_eq_false_2 by done. simpl.
    destruct Hin as [?|Hin]; [done|]. rewrite IH by done.
    destruct (decide (j = k')) as [->|?].
    + rewrite bool_decide_eq_true_2 by done. by rewrite bool_decide_eq_false_2 by done.
    + by rewrite (bool_decide_eq_false_2 (j = k')) by done.
Qed.

Lemma olookup_oinsert k v o j :
  k ∉ okeys o -> olookup j (oinsert k v o) = if bool_decide (j = k) then Some v else olookup j o.
Proof.
  induction o as [|[k' v'] o IH]; simpl; [done|].
  rewrite not_elem_of_cons. intros [Hne Hin].
  destruct (array_index k) as [n|]; [destruct (array_index k') as [n'|];
    [destruct (n <? n')|]|]; simpl; try done.
  all: rewrite IH by done.
  all: destruct (decide (j = k')) as [->|?];
    [rewrite bool_decide_eq_true_2 by done; by rewrite bool_decide_eq_false_2 by done
    |by rewrite (bool_decide_eq_false_2 (j = k')) by done].
Qed.

(** Reading back what an assignment wrote, and nothing else changes. *)
Lemma olookup_oset k v o j :
  olookup j (oset k v o) = if bool_decide (j = k) then Some v else olookup j o.
Proof.
  unfold oset. destruct (olookup k o) as [w|] eqn:E.
  - apply olookup_oreplace. destruct (decide (k ∈ okeys o)); [done|].
    exfalso. by apply olookup_None in n; rewrite n in E.
  - apply olookup_oinsert. by apply olookup_None.
Qed.

Lemma olookup_oset_eq k v o : olookup k (oset k v o) = Some v.
Proof. rewrite olookup_oset. by rewrite bool_decide_eq_true_2. Qed.

Lemma olookup_oset_ne k v o j : j <> k -> olookup j (oset k v o) = olookup j o.
Proof. intros. rewrite olookup_oset. by rewrite bool_decide_eq_false_2. Qed.

Lemma olookup_odelete k o j :
  olookup j (odelete k o) = if bool_decide (j = k) then None else olookup j o.
Proof.
  induction o as [|[k' v] o IH]; simpl; [by case_bool_decide|].
  destruct (decide (k = k')) as [->|Hne].
  - rewrite (bool_decide_eq_true_2 (k' = k')) by done. simpl. rewrite IH.
    by destruct (bool_decide (j = k')).
  - rewrite (bool_decide_eq_false_2 (k = k')) by done. simpl. rewrite IH.
    destruct (decide (j = k')) as [->|?].
    + rewrite (bool_decide_eq_true_2 (k' = k')) by done.
      by rewrite bool_decide_eq_false_2 by done.
    + by rewrite (bool_decide_eq_false_2 (j = k')) by done.
Qed.

Lemma okeys_oreplace k v o : okeys (oreplace k v o) = okeys o.
Proof.
  induction o as [|[k' v'] o IH]; simpl; [done|].
  case_bool_decide; simplify_eq/=; [done|]. by rewrite IH.
Qed.

Lemma okeys_oinsert k v o x : x ∈ okeys (oinsert k v o) <-> x = k \/ x ∈ okeys o.
Proof.
  induction o as [|[k' v'] o IH]; simpl.
  { by rewrite elem_of_cons. }
  destruct (array_index k) as [n|]; [destruct (array_index k') as [n'|];
    [destruct (n <? n')|]|]; simpl; rewrite ?elem_of_cons, ?IH; naive_solver.
Qed.

Lemma okeys_oset k v o x : x ∈ okeys (oset k v o) <-> x = k \/ x ∈ okeys o.
Proof.
  unfold oset. destruct (olookup k o) as [w|] eqn:E.
  - rewrite okeys_oreplace. split; [by right|]. intros [->|?]; [|done].
    destruct (decide (k ∈ okeys o)) as [|n]; [done|].
    by apply olookup_None in n; rewrite n in E.
  - apply okeys_oinsert.
Qed.

Lemma NoDup_oinsert k v o : k ∉ okeys o -> okeys_nodup o -> okeys_nodup (oinsert k v o).
Proof.
  unfold okeys_nodup. induction o as [|[k' v'] o IH]; simpl.
  { intros. constructor; [apply not_elem_of_nil|constructor]. }
  rewrite not_elem_of_cons. intros [Hne Hin] Hnd. pose proof Hnd as [Hk' Hnd']%NoDup_cons.
  assert (NoDup (k :: k' :: okeys o)) by (constructor; [by apply not_elem_of_cons|done]).
  assert (NoDup (k' :: okeys (oinsert k v o))).
  { constructor; [rewrite okeys_oinsert; naive_solver|by apply IH]. }
  by destruct (array_index k) as [n|]; [destruct (array_index k') as [n'|];
    [destruct (n <? n')|]|].
Qed.

(** No operation on objects duplicates a key. *)
Lemma NoDup_oset k v o : okeys_nodup o -> okeys_nodup (oset k v o).
Proof.
  intros Hnd. unfold oset. destruct (olookup k o) eqn:E.
  - unfold okeys_nodup. by rewrite okeys_oreplace.
  - apply NoDup_oinsert; [by apply olookup_None|done].
Qed.

Lemma NoDup_odelete k o : okeys_nodup o -> okeys_nodup (odelete k o).
Proof.
  unfold okeys_nodup. induction o as [|[k' v] o IH]; simpl; [done|].
  intros [Hk' Hnd]%NoDup_cons. destruct (negb _); simpl; [|by apply IH].
  constructor; [|by apply IH]. contradict Hk'.
  apply list_elem_of_fmap in Hk' as (kv & -> & Hkv).
  apply list_elem_of_In, filter_In in Hkv as [Hkv _].
  apply list_elem_of_fmap. exists kv. split; [done|]. by apply list_elem_of_In.
Qed.

Lemma NoDup_ospread a b : okeys_nodup a -> okeys_nodup (ospread a b).
Proof.
  unfold ospread. revert a. induction b as [|[k v] b IH]; simpl; intros a Ha; [done|].
  apply IH. by apply NoDup_oset.
Qed.

Lemma oget_oset_eq k v o : oget k (oset k v o) = v.
Proof. unfold oget. by rewrite olookup_oset_eq. Qed.

Lemma oget_oset_ne k v o j : j <> k -> oget j (oset k v o) = oget j o.
Proof. intros. unfold oget. by rewrite olookup_oset_ne. Qed.

#[export] Hint Resolve NoDup_oset NoDup_odelete NoDup_ospread : s2p.
#[export] Hint Rewrite olookup_oset_eq oget_oset_eq : s2p.
