(* ===== verification/JsValueFacts.v ===== *)
(** * Facts on objects

    What object literals and spreads hold. *)
From S2P Require Import Prelude JsString JsNumber JsValue.
Open Scope N_scope.

Lemma olookup_ospread a b k :
  okeys_nodup b ->
  olookup k (ospread a b) = match olookup k b with Some v => Some v | None => olookup k a end.
Proof.
  unfold okeys_nodup, ospread. revert a. induction b as [|[k' v] b IH]; intros a H; [done|].
  cbn [okeys map fst] in H. apply NoDup_cons in H as [Hk H]. cbn [fold_left fst snd olookup].
  rewrite IH, olookup_oset by done. case_bool_decide as E; [subst|].
  - apply olookup_None in Hk. by rewrite Hk.
  - done.
Qed.

Lemma olookup_obj_of l k : okeys_nodup l -> olookup k (obj_of l) = olookup k l.
Proof. intros H. unfold obj_of. rewrite olookup_ospread by done. by destruct (olookup k l). Qed.

Lemma oget_lookup k v o : olookup k o = Some v -> oget k o = v.
Proof. unfold oget. by intros ->. Qed.

Lemma olookup_elem k v o : olookup k o = Some v -> (k, v) ∈ o.
Proof.
  induction o as [|[k' v'] o IH]; [done|]. cbn [olookup]. case_bool_decide; [|right; by apply IH].
  intros [= ->]. subst. by left.
Qed.

(** [o[k] = v]: assigning to [__proto__] adds no property. *)
Definition assign_own (key : jstr) (v : jsval) (o : jsobj) : jsobj :=
  if bool_decide (key = js "__proto__") then o else oset key v o.

(** ** Objects with the same properties *)

Definition same_props (a b : jsobj) : Prop := forall k, olookup k a = olookup k b.

#[export] Instance same_props_equiv : Equivalence same_props.
Proof.
  split; [by intros a k|by intros a b H k|]. intros a b c H H' k. by rewrite H.
Qed.

#[export] Instance olookup_proper k : Proper (same_props ==> eq) (olookup k).
Proof. intros a b H. apply H. Qed.

#[export] Instance oget_proper k : Proper (same_props ==> eq) (oget k).
Proof. intros a b H. unfold oget. by rewrite (H k). Qed.

#[export] Instance oset_proper k v : Proper (same_props ==> same_props) (oset k v).
Proof. intros a b H j. by rewrite !olookup_oset, (H j). Qed.
