(* ===== verification/JsSort.v ===== *)
(** * Sorting

    [Array.prototype.sort] without a comparison function, on strings: by code
    units.  Equal strings cannot be told apart, so that the merge sort of the
    library is the stable sort of the language.  With a comparison function:
    [sort_by], which is stable, and what the language prescribes whenever the
    comparison is consistent.  For numbers, [nltb] is a strict order, and the
    sign of a difference is antisymmetric, so that [(a, b) => f(a) - f(b)]
    never says both [a > b] and [b > a]. *)
From Stdlib Require Import SpecFloat.
From stdpp Require Import sorting.
From S2P Require Import Prelude JsString JsNumber.
Open Scope N_scope.

Definition str_le (a b : jstr) : Prop := str_ltb b a = false.

#[export] Instance str_le_dec : RelDecision str_le.
Proof. intros a b. unfold str_le. apply _. Defined.

Definition sort_strings (l : list jstr) : list jstr := merge_sort str_le l.

Lemma str_ltb_irrefl a : str_ltb a a = false.
Proof.
  induction a as [|x a IH]; [done|]. cbn [str_ltb]. by rewrite N.ltb_irrefl, N.eqb_refl.
Qed.

Lemma str_ltb_total a b : str_ltb a b = true \/ a = b \/ str_ltb b a = true.
Proof.
  revert b. induction a as [|x a IH]; intros [|y b]; cbn [str_ltb]; auto.
  destruct (N.lt_trichotomy x y) as [H|[->|H]].
  - left. by rewrite (proj2 (N.ltb_lt _ _)) by done.
  - rewrite N.ltb_irrefl, N.eqb_refl. destruct (IH b) as [?|[->|?]]; auto.
  - right. right. by rewrite (proj2 (N.ltb_lt _ _)) by done.
Qed.

Lemma str_ltb_cons x a y b :
  str_ltb (x :: a) (y :: b) = true <-> x < y \/ (x = y /\ str_ltb a b = true).
Proof.
  cbn [str_ltb]. destruct (N.ltb_spec x y); [split; [by left|done]|].
  destruct (N.eqb_spec x y); split; try (by right); try done; intros [?|[? ?]]; (done || lia).
Qed.

Lemma str_ltb_trans a b c : str_ltb a b = true -> str_ltb b c = true -> str_ltb a c = true.
Proof.
  revert b c. induction a as [|x a IH]; intros [|y b] [|z c]; try done.
  rewrite !str_ltb_cons. intros [?|[-> ?]] [?|[-> ?]]; [left; lia|left; lia|left; lia|].
  right. split; [done|]. by eapply IH.
Qed.

#[export] Instance str_le_total : Total str_le.
Proof.
  intros a b. unfold str_le. destruct (str_ltb b a) eqn:E; [|by left]. right.
  destruct (str_ltb a b) eqn:E'; [|done]. pose proof (str_ltb_trans _ _ _ E E') as H.
  by rewrite str_ltb_irrefl in H.
Qed.

#[export] Instance str_le_trans : Transitive str_le.
Proof.
  intros a b c. unfold str_le. intros H1 H2. apply not_true_iff_false. intros H3.
  destruct (str_ltb_total a b) as [H|[->|H]]; [|congruence|congruence].
  pose proof (str_ltb_trans _ _ _ H3 H). congruence.
Qed.

Lemma str_le_antisym a b : str_le a b -> str_le b a -> a = b.
Proof.
  unfold str_le. intros H1 H2. destruct (str_ltb_total a b) as [H|[->|H]]; congruence.
Qed.

Lemma sort_strings_sorted l : StronglySorted str_le (sort_strings l).
Proof. apply StronglySorted_merge_sort; apply _. Qed.

Lemma elem_of_sort_strings l x : x ∈ sort_strings l <-> x ∈ l.
Proof. unfold sort_strings. by rewrite merge_sort_Permutation. Qed.

Lemma NoDup_sort_strings l : NoDup (sort_strings l) <-> NoDup l.
Proof. unfold sort_strings. by rewrite merge_sort_Permutation. Qed.

(** A sorted list without duplicates is determined by its elements. *)
Lemma sort_strings_unique l l' :
  NoDup l -> NoDup l' -> (forall x, x ∈ l <-> x ∈ l') -> sort_strings l = sort_strings l'.
Proof.
  intros H1 H2 H. apply (StronglySorted_unique_strong str_le).
  - intros a b _ _. apply str_le_antisym.
  - apply sort_strings_sorted.
  - apply sort_strings_sorted.
  - apply NoDup_Permutation; [by apply NoDup_sort_strings|by apply NoDup_sort_strings|].
    intros x. by rewrite !elem_of_sort_strings.
Qed.

Section numbers.
#[local] Open Scope Z_scope.

(** ** The order of numbers *)

(** A number by its class, exponent and mantissa. *)
Definition num_key (x : num) : Z * Z * Z :=
  match x with
  | S754_infinity true => (-2, 0, 0)
  | S754_finite true m e => (-1, - e, Z.neg m)
  | S754_finite false m e => (1, e, Z.pos m)
  | S754_infinity false => (2, 0, 0)
  | _ => (0, 0, 0)
  end.

Definition key_lt (a b : Z * Z * Z) : Prop :=
  let '(a1, a2, a3) := a in let '(b1, b2, b3) := b in
  a1 < b1 \/ a1 = b1 /\ (a2 < b2 \/ a2 = b2 /\ a3 < b3).

Lemma nltb_key x y : nltb x y = true <-> is_nan x = false /\ is_nan y = false /\ key_lt (num_key x) (num_key y).
Proof.
  unfold nltb, SFltb. destruct x as [[]|[]| |[] m e], y as [[]|[]| |[] n f]; cbn;
    try (split; [intros H; try discriminate H|intros (H1 & H2 & H3)]; (lia || (split_and!; [done..|lia]) || done)).
  all: rewrite <-?Pos.compare_cont_spec; change (Pos.compare_cont Eq m n) with (m ?= n)%positive;
    destruct (Z.compare_spec e f), (Pos.compare_spec m n); cbn [CompOpp];
    (split; [intros H'; try discriminate H'; split_and!; try done; lia|intros (_ & _ & H3); (reflexivity || lia)]).
Qed.

Lemma nltb_trans x y z : nltb x y = true -> nltb y z = true -> nltb x z = true.
Proof.
  rewrite !nltb_key. intros (Hx & _ & H1) (_ & Hz & H2). split_and!; [done..|]. unfold key_lt in *.
  destruct (num_key x) as [[x1 x2] x3], (num_key y) as [[y1 y2] y3], (num_key z) as [[z1 z2] z3]. lia.
Qed.

Lemma nltb_irrefl x : nltb x x = false.
Proof.
  apply not_true_iff_false. rewrite nltb_key. intros (_ & _ & H). unfold key_lt in H.
  destruct (num_key x) as [[x1 x2] x3]. lia.
Qed.

(** [x > 0] *)
Definition positive_num (x : num) : bool := nltb nzero x.

Lemma normalize_sign m e s : positive_num (binary_normalize prec64 emax64 m e s) = true -> positive_num (binary_normalize prec64 emax64 (- m) e s) = false.
Proof.
  assert (Hround : forall m e, positive_num (binary_round prec64 emax64 true m e) = false).
  { intros p e'. unfold binary_round, binary_round_aux. destruct (shl_align _ _ _) as [mz ez].
    destruct (shr_fexp prec64 emax64 (Z.pos mz) ez loc_Exact) as [mrs' e1]. destruct (shr_fexp prec64 emax64 _ e1 loc_Exact) as [mrs'' e2].
    destruct (shr_m mrs''); [done| |done]. by destruct (Z.leb _ _). }
  destruct m as [|p|p]; [by destruct s|intros _; apply Hround|]. cbn [binary_normalize Z.opp]. rewrite Hround. done.
Qed.

Lemma nsub_sign x y : positive_num (nsub x y) = true -> positive_num (nsub y x) = false.
Proof.
  unfold nsub. destruct x as [[]|[]| |[] m e], y as [[]|[]| |[] n f]; try done; cbn [SFsub]; cbv zeta;
    rewrite (Z.min_comm f e); intros H; apply normalize_sign in H; (etransitivity; [|exact H]); do 2 f_equal; lia.
Qed.

End numbers.

(** ** Sorting by a comparison function *)

Section sort_by.
Context {A : Type} (after : A -> A -> bool).   (* [compare(a, b) > 0] *)

(** [x] goes before the first element that is not before it. *)
Fixpoint insert_by (x : A) (l : list A) : list A :=
  match l with
  | [] => [x]
  | y :: l' => if after x y then y :: insert_by x l' else x :: l
  end.

Definition sort_by (l : list A) : list A := foldr insert_by [] l.

Lemma insert_by_perm x l : insert_by x l ≡ₚ x :: l.
Proof.
  induction l as [|y l IH]; [done|]. cbn [insert_by]. destruct (after x y); [|done].
  rewrite IH. apply Permutation_swap.
Qed.

Lemma sort_by_perm l : sort_by l ≡ₚ l.
Proof. induction l as [|x l IH]; [done|]. cbn [sort_by foldr]. fold (sort_by l). by rewrite insert_by_perm, IH. Qed.

(** No element is followed by one that the comparison puts before it. *)
Definition in_order : list A -> Prop := Sorted (fun a b => after a b = false).

Lemma insert_by_in_order x l : (forall a b, after a b = true -> after b a = false) -> in_order l -> in_order (insert_by x l).
Proof.
  intros Ha. induction 1 as [|y l Hs IH Hd]; [by repeat constructor|]. cbn [insert_by]. destruct (after x y) eqn:E.
  - constructor; [done|]. destruct l as [|z l]; cbn [insert_by]; [constructor; by apply Ha|].
    destruct (after x z); constructor; [by inversion Hd|by apply Ha].
  - constructor; [by constructor|by constructor].
Qed.

Lemma sort_by_in_order l : (forall a b, after a b = true -> after b a = false) -> in_order (sort_by l).
Proof. intros Ha. induction l as [|x l IH]; [constructor|]. by apply insert_by_in_order. Qed.

(** Sorting by a condition is a partition that keeps the order. *)
Lemma sort_by_condition (p : A -> bool) l :
  (forall a b, after a b = negb (p a) && p b) ->
  sort_by l = List.filter p l ++ List.filter (fun x => negb (p x)) l.
Proof.
  intros Ha. induction l as [|x l IH]; [done|]. cbn [sort_by foldr List.filter]. fold (sort_by l). rewrite IH.
  destruct (p x) eqn:Ex; cbn [negb].
  - destruct (List.filter p l ++ _) as [|y l'] eqn:E; [by apply app_eq_nil in E as [-> ->]|].
    cbn [insert_by]. rewrite Ha, Ex. cbn [negb andb]. by rewrite <-E.
  - assert (Hrest : forall r, Forall (fun y => p y = false) r -> insert_by x r = x :: r).
    { intros [|y r] Hr; [done|]. cbn [insert_by]. rewrite Ha, Ex, (Forall_inv Hr). done. }
    assert (Hfront : forall f r, Forall (fun y => p y = true) f -> insert_by x (f ++ r) = f ++ insert_by x r).
    { induction f as [|y f IHf]; intros r Hf; [done|]. cbn [insert_by app]. rewrite Ha, Ex, (Forall_inv Hf). cbn [negb andb].
      f_equal. apply IHf. by apply Forall_inv_tail in Hf. }
    rewrite Hfront, Hrest; [done|apply List.Forall_forall; intros y [_ Hy]%filter_In; by apply negb_true_iff in Hy|].
    apply List.Forall_forall. by intros y [_ Hy]%filter_In.
Qed.

End sort_by.
