(* ===== verification/JsJson.v ===== *)
(** * [JSON.parse] and [JSON.stringify] *)
From S2P Require Import Prelude JsString JsNumber JsValue.
Open Scope N_scope.

(** ** Parsing *)

Fixpoint skip_json_ws (s : jstr) : jstr :=
  match s with
  | c :: s' => if (c =? 32) || (c =? 10) || (c =? 13) || (c =? 9) then skip_json_ws s' else s
  | [] => []
  end.

Definition hex4 (a b c d : N) : option N :=
  match hex_val a, hex_val b, hex_val c, hex_val d with
  | Some a, Some b, Some c, Some d => Some (a * 4096 + b * 256 + c * 16 + d)
  | _, _, _, _ => None
  end.

(** The one-letter escapes. *)
Definition unescape (c : N) : option N :=
  if (c =? 34) || (c =? 92) || (c =? 47) then Some c
  else if c =? 98 then Some 8
  else if c =? 102 then Some 12
  else if c =? 110 then Some 10
  else if c =? 114 then Some 13
  else if c =? 116 then Some 9
  else None.

(** The rest of a string after its opening quote. *)
Fixpoint parse_str (s : jstr) : res (jstr * jstr) :=
  match s with
  | [] => Throw SyntaxError
  | c :: s1 =>
      if c =? 34 then Ok ([], s1)
      else if c =? 92 then
        match s1 with
        | [] => Throw SyntaxError
        | e :: s2 =>
            if e =? 117 then
              match s2 with
              | h1 :: h2 :: h3 :: h4 :: s6 =>
                  match hex4 h1 h2 h3 h4 with
                  | Some u => let* r := parse_str s6 in Ok (u :: r.1, r.2)
                  | None => Throw SyntaxError
                  end
              | _ => Throw SyntaxError
              end
            else match unescape e with
                 | Some u => let* r := parse_str s2 in Ok (u :: r.1, r.2)
                 | None => Throw SyntaxError
                 end
        end
      else if c <? 32 then Throw SyntaxError
      else let* r := parse_str s1 in Ok (c :: r.1, r.2)
  end.

(** The extent of a number: sign, integer, fraction, exponent; each part is
    the text read and what follows it. *)
Definition sign_part (s : jstr) : jstr * jstr :=
  match s with
  | c :: t => if c =? 45 then ([c], t) else ([], s)
  | [] => ([], [])
  end.

Definition leading_zero (i : jstr) : bool := match i with c :: _ :: _ => c =? 48 | _ => false end.

Definition frac_part (s : jstr) : option (jstr * jstr) :=
  match s with
  | c :: t =>
      if c =? 46 then
        let '(f, r) := span_digits t in if str_truthy f then Some (c :: f, r) else None
      else Some ([], s)
  | [] => Some ([], [])
  end.

Definition exponent_sign (s : jstr) : jstr * jstr :=
  match s with
  | c :: t => if (c =? 45) || (c =? 43) then ([c], t) else ([], s)
  | [] => ([], [])
  end.

Definition exponent_part (s : jstr) : option (jstr * jstr) :=
  match s with
  | c :: t =>
      if (c =? 101) || (c =? 69) then
        let '(es, t') := exponent_sign t in
        let '(x, r) := span_digits t' in
        if str_truthy x then Some (c :: es ++ x, r) else None
      else Some ([], s)
  | [] => Some ([], [])
  end.

Definition json_number (s : jstr) : option (jstr * jstr) :=
  let '(sg, s1) := sign_part s in
  let '(i, s2) := span_digits s1 in
  if negb (str_truthy i) || leading_zero i then None
  else match frac_part s2 with
       | None => None
       | Some (f, s3) =>
           match exponent_part s3 with
           | None => None
           | Some (x, s4) => Some (sg ++ i ++ f ++ x, s4)
           end
       end.

(** Values, array elements and object members; every call consumes input, so
    twice the length of the text bounds the depth of the recursion.  Running out of
    fuel is [RangeError], which [parse] never returns. *)
Fixpoint parse_value (fuel : nat) (s0 : jstr) : res (jsval * jstr) :=
  match fuel with
  | O => Throw RangeError
  | S fuel =>
      match skip_json_ws s0 with
      | [] => Throw SyntaxError
      | c :: t =>
          if c =? 123 then
            match skip_json_ws t with
            | 125 :: r => Ok (VObj [], r)
            | t' => parse_members fuel [] t'
            end
          else if c =? 91 then
            match skip_json_ws t with
            | 93 :: r => Ok (VArr [], r)
            | t' => parse_elements fuel t'
            end
          else if c =? 34 then let* r := parse_str t in Ok (VStr r.1, r.2)
          else if starts_with (js "true") (c :: t) then Ok (VBool true, drop 3 t)
          else if starts_with (js "false") (c :: t) then Ok (VBool false, drop 4 t)
          else if starts_with (js "null") (c :: t) then Ok (VNull, drop 3 t)
          else match json_number (c :: t) with
               | Some (n, r) => Ok (VNum (num_of_str n), r)
               | None => Throw SyntaxError
               end
      end
  end
with parse_elements (fuel : nat) (s : jstr) : res (jsval * jstr) :=
  match fuel with
  | O => Throw RangeError
  | S fuel =>
      let* r := parse_value fuel s in
      match skip_json_ws r.2 with
      | 44 :: t => let* l := parse_elements fuel t in
                   match l.1 with
                   | VArr l' => Ok (VArr (r.1 :: l'), l.2)
                   | _ => Throw SyntaxError
                   end
      | 93 :: t => Ok (VArr [r.1], t)
      | _ => Throw SyntaxError
      end
  end
with parse_members (fuel : nat) (acc : jsobj) (s : jstr) : res (jsval * jstr) :=
  match fuel with
  | O => Throw RangeError
  | S fuel =>
      match skip_json_ws s with
      | 34 :: t =>
          let* k := parse_str t in
          match skip_json_ws k.2 with
          | 58 :: t2 =>
              let* v := parse_value fuel t2 in
              let acc' := oset k.1 v.1 acc in
              match skip_json_ws v.2 with
              | 44 :: t3 => parse_members fuel acc' t3
              | 125 :: t3 => Ok (VObj acc', t3)
              | _ => Throw SyntaxError
              end
          | _ => Throw SyntaxError
          end
      | _ => Throw SyntaxError
      end
  end.

(** [JSON.parse(s)] *)
Definition json_parse (s : jstr) : res jsval :=
  let* r := parse_value (2 * length s + 2) s in
  match skip_json_ws r.2 with
  | [] => Ok r.1
  | _ => Throw SyntaxError
  end.

(** ** Printing *)

Definition hex_digit (n : N) : N := if n <? 10 then 48 + n else 87 + n.

Definition unicode_escape (c : N) : jstr :=
  [92; 117; hex_digit (c / 4096); hex_digit (c / 256 mod 16);
   hex_digit (c / 16 mod 16); hex_digit (c mod 16)].

Definition is_high_surrogate (c : N) : bool := (55296 <=? c) && (c <=? 56319).
Definition is_low_surrogate (c : N) : bool := (56320 <=? c) && (c <=? 57343).

Definition escape_unit (c : N) : jstr :=
  if c =? 34 then [92; 34]
  else if c =? 92 then [92; 92]
  else if c =? 8 then [92; 98]
  else if c =? 12 then [92; 102]
  else if c =? 10 then [92; 110]
  else if c =? 13 then [92; 114]
  else if c =? 9 then [92; 116]
  else if c <? 32 then unicode_escape c
  else [c].

(** The characters of a JSON string; lone surrogates are escaped. *)
Fixpoint escape_str (s : jstr) : jstr :=
  match s with
  | [] => []
  | c :: s1 =>
      if is_high_surrogate c then
        match s1 with
        | d :: s2 => if is_low_surrogate d then c :: d :: escape_str s2
                     else unicode_escape c ++ escape_str s1
        | [] => unicode_escape c
        end
      else if is_low_surrogate c then unicode_escape c ++ escape_str s1
      else escape_unit c ++ escape_str s1
  end.

(** [JSON.stringify(s)] for a string. *)
Definition json_quote (s : jstr) : jstr := 34 :: escape_str s ++ [34].

(** The brackets around the parts, with the line breaks of a gap. *)
Definition json_wrap (op cl : N) (gap ind : jstr) (parts : list jstr) : jstr :=
  match parts, gap with
  | [], _ => [op; cl]
  | _, [] => op :: join [44] parts ++ [cl]
  | _, _ => let ind' := ind ++ gap in
            op :: 10 :: ind' ++ join (44 :: 10 :: ind') parts ++ 10 :: ind ++ [cl]
  end.

(** [JSON.stringify] of a value, [None] standing for [undefined]. *)
Fixpoint json_print (gap ind : jstr) (v : jsval) : option jstr :=
  match v with
  | VUndef | VFun _ => None
  | VNull => Some (js "null")
  | VBool true => Some (js "true")
  | VBool false => Some (js "false")
  | VNum x => Some (if is_finite x then num_to_str x else js "null")
  | VStr s => Some (json_quote s)
  | VArr l =>
      Some (json_wrap 91 93 gap ind
        ((fix go (l : list jsval) : list jstr :=
            match l with
            | [] => []
            | x :: l' => default (js "null") (json_print gap (ind ++ gap) x) :: go l'
            end) l))
  | VObj o =>
      Some (json_wrap 123 125 gap ind
        ((fix go (o : jsobj) : list jstr :=
            match o with
            | [] => []
            | (k, x) :: o' =>
                match json_print gap (ind ++ gap) x with
                | Some t => (json_quote k ++ 58 :: (match gap with [] => [] | _ => [32] end) ++ t)
                            :: go o'
                | None => go o'
                end
            end) o))
  end.

(** [JSON.stringify(v)] and [JSON.stringify(v, null, 2)] of an object or
    array, which always have a text. *)
Definition stringify (v : jsval) : jstr := default (js "undefined") (json_print [] [] v).
Definition stringify2 (v : jsval) : jstr := default (js "undefined") (json_print [32; 32] [] v).
