(* ===== verification/JsRegex.v ===== *)
(** * Regular expressions of the language

    The backtracking matcher of the language specification: patterns are
    parsed from the text the sources write, matching passes a continuation,
    quantifiers are greedy or lazy, groups capture, and an iteration of a
    quantifier may not match the empty string. *)
From S2P Require Import Prelude JsString JsNumber.
Open Scope N_scope.

(** ** Patterns *)

Inductive citem :=
  | CRange (a b : N)
  | CDigit (neg : bool)
  | CWord (neg : bool)
  | CSpace (neg : bool).

Inductive regex :=
  | REmpty
  | RFail
  | RChar (c : N)
  | RAny (dotall : bool)
  | RClass (neg : bool) (items : list citem)
  | RSeq (a b : regex)
  | RAlt (a b : regex)
  | RGroup (i : nat) (r : regex)
  | RRep (min : nat) (max : option nat) (greedy : bool) (r : regex)
  | RBegin
  | REnd
  | RWordB (neg : bool)
  | RBackref (i : nat).

Definition citem_has (c : N) (i : citem) : bool :=
  match i with
  | CRange a b => (a <=? c) && (c <=? b)
  | CDigit n => xorb n (is_digit c)
  | CWord n => xorb n (is_word c)
  | CSpace n => xorb n (is_ws c)
  end.

Definition class_has (neg : bool) (items : list citem) (c : N) : bool :=
  xorb neg (existsb (citem_has c) items).

(** The patterns that match exactly one code unit, as predicates. *)
Definition any_has (dotall : bool) (c : N) : bool := dotall || negb (is_line_terminator c).

(** ** Matching *)

(** The unit before the position, the text after it, the captures. *)
Record mstate := MState { m_prev : option N; m_rest : jstr; m_caps : list (option jstr) }.

(** [consume c t s] is the state [s] after reading [c], with [t] left. *)
Definition consume (c : N) (t : jstr) (s : mstate) : mstate := MState (Some c) t (m_caps s).

Definition set_cap (i : nat) (v : option jstr) (s : mstate) : mstate :=
  MState (m_prev s) (m_rest s) (<[i := v]> (m_caps s)).

(** The text between two states of a match. *)
Definition between (s s' : mstate) : jstr :=
  take (length (m_rest s) - length (m_rest s')) (m_rest s).

(** The groups of a pattern, which an iteration of a quantifier resets. *)
Fixpoint groups_of (r : regex) : list nat :=
  match r with
  | RSeq a b | RAlt a b => groups_of a ++ groups_of b
  | RGroup i r => i :: groups_of r
  | RRep _ _ _ r => groups_of r
  | _ => []
  end.

Definition reset_caps (gs : list nat) (s : mstate) : mstate :=
  match gs with
  | [] => s
  | _ => fold_left (fun s i => set_cap i None s) gs s
  end.

Definition one_char (p : N -> bool) (k : mstate -> option mstate) (s : mstate) : option mstate :=
  match m_rest s with
  | c :: t => if p c then k (consume c t s) else None
  | [] => None
  end.

Definition word_at (o : option N) : bool := match o with Some c => is_word c | None => false end.

Fixpoint consume_all (w : jstr) (s : mstate) : mstate :=
  match w with
  | [] => s
  | c :: w' => consume_all w' (consume c (drop 1 (m_rest s)) s)
  end.

(** The loop of a quantifier around the matcher [mr] of its body.  Each turn
    lowers [min] or reads a unit, so [min + length + 1] turns suffice. *)
Fixpoint rep_loop (mr : (mstate -> option mstate) -> mstate -> option mstate)
    (gs : list nat) (greedy : bool) (k : mstate -> option mstate)
    (fuel : nat) (min : nat) (max : option nat) (s : mstate) : option mstate :=
  match fuel with
  | O => None
  | S fuel =>
      match max with
      | Some O => k s
      | _ =>
          let d y :=
            if bool_decide (min = 0%nat) && (length (m_rest y) =? length (m_rest s))%nat
            then None
            else rep_loop mr gs greedy k fuel (Nat.pred min) (Nat.pred <$> max) y in
          let xr := reset_caps gs s in
          if negb (bool_decide (min = 0%nat)) then mr d xr
          else if greedy then match mr d xr with Some z => Some z | None => k s end
          else match k s with Some z => Some z | None => mr d xr end
      end
  end.

Fixpoint rmatch (r : regex) (k : mstate -> option mstate) (s : mstate) {struct r} : option mstate :=
  match r with
  | REmpty => k s
  | RFail => None
  | RChar c => one_char (N.eqb c) k s
  | RAny dotall => one_char (any_has dotall) k s
  | RClass neg items => one_char (class_has neg items) k s
  | RSeq a b => rmatch a (rmatch b k) s
  | RAlt a b => match rmatch a k s with Some z => Some z | None => rmatch b k s end
  | RGroup i r => rmatch r (fun s' => k (set_cap i (Some (between s s')) s')) s
  | RRep min max greedy r =>
      rep_loop (rmatch r) (groups_of r) greedy k (min + S (length (m_rest s))) min max s
  | RBegin => match m_prev s with None => k s | Some _ => None end
  | REnd => match m_rest s with [] => k s | _ => None end
  | RWordB neg =>
      if xorb neg (xorb (word_at (m_prev s)) (word_at (head (m_rest s)))) then k s else None
  | RBackref i =>
      match m_caps s !! i with
      | Some (Some w) => if starts_with w (m_rest s) then k (consume_all w s) else None
      | _ => k s
      end
  end.

(** ** [exec], [test], [replace], [split] *)

(** A match: the text before it, its text, the text after it, the captures
    ([None] for a group that took no part). *)
Record match_result := Match {
  mr_before : jstr; mr_text : jstr; mr_after : jstr; mr_caps : list (option jstr)
}.

Definition ngroups (r : regex) : nat := S (foldr Nat.max 0%nat (groups_of r)).

Definition match_at (r : regex) (prev : option N) (s : jstr) : option mstate :=
  rmatch r Some (MState prev s (repeat None (ngroups r))).

(** The leftmost match in [s], after a text of which [seen] is what was
    skipped (reversed) and [prev] the last unit. *)
Fixpoint search (r : regex) (seen : jstr) (prev : option N) (s : jstr) : option match_result :=
  match match_at r prev s with
  | Some e => Some (Match (rev seen) (take (length s - length (m_rest e)) s) (m_rest e) (m_caps e))
  | None => match s with
            | [] => None
            | c :: s' => search r (c :: seen) (Some c) s'
            end
  end.

(** [s.match(r)] without the [g] flag. *)
Definition re_exec (r : regex) (s : jstr) : option match_result := search r [] None s.
Definition re_test (r : regex) (s : jstr) : bool := bool_decide (is_Some (re_exec r s)).

(** The captures of [s.match(r)], group 0 being the whole match. *)
Definition re_match (r : regex) (s : jstr) : option (list (option jstr)) :=
  (fun m => Some (mr_text m) :: drop 1 (mr_caps m)) <$> re_exec r s.

Definition cap (i : nat) (m : list (option jstr)) : option jstr := mjoin (m !! i).
Definition cap_str (i : nat) (m : list (option jstr)) : jstr := default [] (cap i m).

Definition last_of (prev : option N) (s : jstr) : option N :=
  match last s with Some c => Some c | None => prev end.

(** The successive matches with the [g] flag; [fuel] counts the positions. *)
Fixpoint re_all_from (fuel : nat) (r : regex) (prev : option N) (s : jstr) : list match_result :=
  match fuel with
  | O => []
  | S fuel =>
      match search r [] prev s with
      | None => []
      | Some m =>
          let prev' := last_of (last_of prev (mr_before m)) (mr_text m) in
          match mr_text m, mr_after m with
          | [], [] => [m]
          | [], c :: t =>
              m :: match re_all_from fuel r (Some c) t with
                   | [] => []
                   | m' :: l => Match (c :: mr_before m') (mr_text m') (mr_after m') (mr_caps m') :: l
                   end
          | _, rest => m :: re_all_from fuel r prev' rest
          end
      end
  end.

Definition re_all (r : regex) (s : jstr) : list match_result :=
  re_all_from (S (length s)) r None s.

(** [s.replace(r, f)] without and with the [g] flag. *)
Definition re_replace (r : regex) (f : list (option jstr) -> jstr) (s : jstr) : jstr :=
  match re_exec r s with
  | Some m => mr_before m ++ f (Some (mr_text m) :: drop 1 (mr_caps m)) ++ mr_after m
  | None => s
  end.

Definition re_replace_all (r : regex) (f : list (option jstr) -> jstr) (s : jstr) : jstr :=
  let ms := re_all r s in
  flat_map (fun m => mr_before m ++ f (Some (mr_text m) :: drop 1 (mr_caps m))) ms
  ++ match last ms with Some m => mr_after m | None => s end.

(** [s.split(r)] for a pattern without groups: [cur] is the part being read
    (reversed), [skip] the units of a separator still to drop. *)
Fixpoint re_split_from (r : regex) (skip : nat) (prev : option N) (cur s : jstr) : list jstr :=
  match s with
  | [] => [rev cur]
  | c :: s' =>
      match skip with
      | S n => re_split_from r n (Some c) cur s'
      | O =>
          match match_at r prev s with
          | Some e =>
              match (length s - length (m_rest e))%nat with
              | O => re_split_from r 0 (Some c) (c :: cur) s'
              | S n => rev cur :: re_split_from r n (Some c) [] s'
              end
          | None => re_split_from r 0 (Some c) (c :: cur) s'
          end
      end
  end.

Definition re_split (r : regex) (s : jstr) : list jstr :=
  match s with
  | [] => match match_at r None [] with Some _ => [] | None => [[]] end
  | _ => re_split_from r 0 None [] s
  end.

(** ** The syntax of patterns *)

Definition class_escape (c : N) : option citem :=
  if c =? 100 then Some (CDigit false)
  else if c =? 68 then Some (CDigit true)
  else if c =? 119 then Some (CWord false)
  else if c =? 87 then Some (CWord true)
  else if c =? 115 then Some (CSpace false)
  else if c =? 83 then Some (CSpace true)
  else None.

Definition hex4_val (a b c d : N) : N :=
  default 0 (hex_val a) * 4096 + default 0 (hex_val b) * 256
  + default 0 (hex_val c) * 16 + default 0 (hex_val d).

(** The unit an escape stands for, and the rest of the pattern. *)
Definition char_escape (c : N) (s : jstr) : N * jstr :=
  if c =? 110 then (10, s)
  else if c =? 114 then (13, s)
  else if c =? 116 then (9, s)
  else if c =? 117 then
    match s with
    | a :: b :: d :: e :: s' => (hex4_val a b d e, s')
    | _ => (c, s)
    end
  else (c, s).

Definition class_atom (s : jstr) : option (citem * jstr) :=
  match s with
  | [] => None
  | 92 :: c :: s' =>
      match class_escape c with
      | Some i => Some (i, s')
      | None => let '(x, s'') := char_escape c s' in Some (CRange x x, s'')
      end
  | c :: s' => Some (CRange c c, s')
  end.

Fixpoint parse_class (fuel : nat) (s : jstr) : option (list citem * jstr) :=
  match fuel with
  | O => None
  | S fuel =>
      match s with
      | 93 :: s' => Some ([], s')
      | _ =>
          '(a, s1) ← class_atom s;
          match a, s1 with
          | CRange x _, 45 :: s2 =>
              match s2 with
              | 93 :: _ => '(l, r) ← parse_class fuel s1; Some (a :: l, r)
              | _ => '(b, s3) ← class_atom s2;
                     '(l, r) ← parse_class fuel s3;
                     match b with
                     | CRange y _ => Some (CRange x y :: l, r)
                     | _ => None
                     end
              end
          | _, _ => '(l, r) ← parse_class fuel s1; Some (a :: l, r)
          end
      end
  end.

Definition read_nat (s : jstr) : nat := N.to_nat (read_digits s).

Definition lazy_mark (s : jstr) : bool * jstr :=
  match s with 63 :: s' => (false, s') | _ => (true, s) end.

(** The quantifier after an atom, if there is one. *)
Definition quantify (r : regex) (s : jstr) : regex * jstr :=
  let rep min max s := let '(g, s') := lazy_mark s in (RRep min max g r, s') in
  match s with
  | 42 :: s' => rep 0%nat None s'
  | 43 :: s' => rep 1%nat None s'
  | 63 :: s' => rep 0%nat (Some 1%nat) s'
  | 123 :: s' =>
      let '(a, s1) := span_digits s' in
      match s1 with
      | 125 :: s2 => rep (read_nat a) (Some (read_nat a)) s2
      | 44 :: s2 =>
          let '(b, s3) := span_digits s2 in
          rep (read_nat a) (match b with [] => None | _ => Some (read_nat b) end) (drop 1 s3)
      | _ => (r, s)
      end
  | _ => (r, s)
  end.

Definition rseq (a b : regex) : regex := match b with REmpty => a | _ => RSeq a b end.

(** Alternatives and sequences; [n] is the number of the next group. *)
Fixpoint parse_alt (fuel : nat) (dotall : bool) (n : nat) (s : jstr) : option (regex * nat * jstr) :=
  match fuel with
  | O => None
  | S fuel =>
      '(a, n1, s1) ← parse_seq fuel dotall n s;
      match s1 with
      | 124 :: s2 => '(b, n2, s3) ← parse_alt fuel dotall n1 s2; Some (RAlt a b, n2, s3)
      | _ => Some (a, n1, s1)
      end
  end
with parse_seq (fuel : nat) (dotall : bool) (n : nat) (s : jstr) : option (regex * nat * jstr) :=
  match fuel with
  | O => None
  | S fuel =>
      match s with
      | [] => Some (REmpty, n, s)
      | c :: s' =>
          if (c =? 124) || (c =? 41) then Some (REmpty, n, s)
          else
            '(a, n1, s1) ← parse_atom fuel dotall n c s';
            let '(q, s2) := quantify a s1 in
            '(b, n2, s3) ← parse_seq fuel dotall n1 s2;
            Some (rseq q b, n2, s3)
      end
  end
with parse_atom (fuel : nat) (dotall : bool) (n : nat) (c : N) (s : jstr) : option (regex * nat * jstr) :=
  match fuel with
  | O => None
  | S fuel =>
      if c =? 94 then Some (RBegin, n, s)
      else if c =? 36 then Some (REnd, n, s)
      else if c =? 46 then Some (RAny dotall, n, s)
      else if c =? 91 then
        match s with
        | 94 :: s' => '(l, r) ← parse_class fuel s'; Some (RClass true l, n, r)
        | _ => '(l, r) ← parse_class fuel s; Some (RClass false l, n, r)
        end
      else if c =? 40 then
        match s with
        | 63 :: 58 :: s' =>
            '(a, n1, s1) ← parse_alt fuel dotall n s';
            Some (a, n1, drop 1 s1)
        | _ =>
            '(a, n1, s1) ← parse_alt fuel dotall (S n) s;
            Some (RGroup n a, n1, drop 1 s1)
        end
      else if c =? 92 then
        match s with
        | [] => None
        | e :: s' =>
            if e =? 98 then Some (RWordB false, n, s')
            else if e =? 66 then Some (RWordB true, n, s')
            else if (49 <=? e) && (e <=? 57) then Some (RBackref (N.to_nat (e - 48)), n, s')
            else match class_escape e with
                 | Some i => Some (RClass false [i], n, s')
                 | None => let '(x, s'') := char_escape e s' in Some (RChar x, n, s'')
                 end
        end
      else Some (RChar c, n, s)
  end.

Definition parse_regex (dotall : bool) (s : jstr) : option regex :=
  match parse_alt (3 * length s + 3) dotall 1 s with
  | Some (r, _, []) => Some r
  | _ => None
  end.

(** [/.../] and [/.../s]; a backquote of the text stands for a double quote. *)
Definition re (s : jstr) : regex := default RFail (parse_regex false s).
Definition re_s (s : jstr) : regex := default RFail (parse_regex true s).
