(* ===== verification/JsRegexFacts.v ===== *)
(** * Lemmas on the matcher

    Equations that run the matcher of [JsRegex] on a text of which some parts
    are variables, and the facts that hold of every match. *)
From S2P Require Import Prelude JsString JsNumber JsRegex.
Open Scope N_scope.

(** ** Equations *)

Section equations.
Implicit Types (k : mstate -> option mstate) (pv : option N) (t w : jstr).

Lemma rmatch_seq a b k s : rmatch (RSeq a b) k s = rmatch a (rmatch b k) s.
Proof. done. Qed.

Lemma rmatch_alt a b k s :
  rmatch (RAlt a b) k s = match rmatch a k s with Some z => Some z | None => rmatch b k s end.
Proof. done. Qed.

Lemma rmatch_group i r k s :
  rmatch (RGroup i r) k s = rmatch r (fun s' => k (set_cap i (Some (between s s')) s')) s.
Proof. done. Qed.

Lemma rmatch_char_cons c k pv d t caps :
  rmatch (RChar c) k (MState pv (d :: t) caps)
  = if c =? d then k (MState (Some d) t caps) else None.
Proof. done. Qed.

Lemma rmatch_char_nil c k pv caps : rmatch (RChar c) k (MState pv [] caps) = None.
Proof. done. Qed.

Lemma rmatch_end_nil k pv caps : rmatch REnd k (MState pv [] caps) = k (MState pv [] caps).
Proof. done. Qed.

Lemma rmatch_end_cons k pv c t caps : rmatch REnd k (MState pv (c :: t) caps) = None.
Proof. done. Qed.

Lemma rmatch_begin_none k t caps :
  rmatch RBegin k (MState None t caps) = k (MState None t caps).
Proof. done. Qed.

Lemma rmatch_begin_some k c t caps : rmatch RBegin k (MState (Some c) t caps) = None.
Proof. done. Qed.

Lemma take_sub_app (w t : jstr) : take (length (w ++ t) - length t) (w ++ t) = w.
Proof. rewrite length_app, Nat.add_sub. apply take_app_length. Qed.

Lemma between_app pv pv' w t caps caps' :
  between (MState pv (w ++ t) caps) (MState pv' t caps') = w.
Proof. apply take_sub_app. Qed.

Lemma consume_all_app w pv t caps :
  consume_all w (MState pv (w ++ t) caps) = MState (last_of pv w) t caps.
Proof.
  revert pv. induction w as [|c w IH]; intros pv; simpl; [done|].
  unfold consume. simpl. unfold drop. rewrite IH. f_equal.
  unfold last_of. rewrite last_cons. by destruct (last w).
Qed.

(** A back reference to what was captured reads it again. *)
Lemma rmatch_backref i w k pv t caps :
  caps !! i = Some (Some w) ->
  rmatch (RBackref i) k (MState pv (w ++ t) caps) = k (MState (last_of pv w) t caps).
Proof.
  intros Hi. simpl. rewrite Hi, starts_with_app. by rewrite consume_all_app.
Qed.
End equations.

(** ** Quantified single units *)

(** The patterns that read exactly one unit satisfying a predicate. *)
Class SingleUnit (r : regex) (p : N -> bool) : Prop := {
  single_match k s : rmatch r k s = one_char p k s;
  single_groups : groups_of r = []
}.

#[export] Instance single_char c : SingleUnit (RChar c) (N.eqb c).
Proof. done. Qed.
#[export] Instance single_any d : SingleUnit (RAny d) (any_has d).
Proof. done. Qed.
#[export] Instance single_class n items : SingleUnit (RClass n items) (class_has n items).
Proof. done. Qed.

(** A greedy loop over single units: the longest run first, then backwards. *)
Fixpoint star_run (p : N -> bool) (k : mstate -> option mstate) (pv : option N)
    (caps : list (option jstr)) (s : jstr) : option mstate :=
  match s with
  | c :: t =>
      if p c then
        match star_run p k (Some c) caps t with
        | Some z => Some z
        | None => k (MState pv s caps)
        end
      else k (MState pv s caps)
  | [] => k (MState pv [] caps)
  end.

Section single.
Context (r : regex) (p : N -> bool) `{!SingleUnit r p}.

Lemma rep_loop_star k fuel pv s caps :
  (length s < fuel)%nat ->
  rep_loop (rmatch r) [] true k fuel 0 None (MState pv s caps) = star_run p k pv caps s.
Proof.
  revert pv s. induction fuel as [|fuel IH]; intros pv s Hf; [lia|].
  simpl. rewrite single_match. unfold one_char. simpl.
  destruct s as [|c t]; simpl; [done|].
  destruct (p c) eqn:Hp; [|done]. simpl in Hf.
  rewrite (proj2 (Nat.eqb_neq _ _)) by lia.
  unfold consume. simpl. by rewrite IH by lia.
Qed.

Lemma rmatch_star k pv s caps :
  rmatch (RRep 0 None true r) k (MState pv s caps) = star_run p k pv caps s.
Proof.
  cbn [rmatch]. rewrite single_groups. apply rep_loop_star. simpl. lia.
Qed.

Lemma rmatch_plus k pv s caps :
  rmatch (RRep 1 None true r) k (MState pv s caps)
  = match s with
    | c :: t => if p c then star_run p k (Some c) caps t else None
    | [] => None
    end.
Proof.
  cbn [rmatch]. rewrite single_groups. cbn [m_rest].
  remember (S (length s)) as fuel eqn:Hf. simpl.
  rewrite single_match. unfold one_char. simpl.
  destruct s as [|c t]; [done|]. destruct (p c); [|done].
  apply rep_loop_star. simpl in *. lia.
Qed.
End single.

Section star_run.
Context (p : N -> bool) (k : mstate -> option mstate) (caps : list (option jstr)).

(** When [k] cannot go on with a unit of the class, only the whole run can
    be followed: the loop is deterministic. *)
Lemma star_run_det pv w t :
  forallb p w = true ->
  match t with [] => True | c :: _ => p c = false end ->
  (forall pv' c u, p c = true -> k (MState pv' (c :: u) caps) = None) ->
  star_run p k pv caps (w ++ t) = k (MState (last_of pv w) t caps).
Proof.
  intros Hw Ht Hk. revert pv. induction w as [|c w IH]; intros pv; simpl.
  - destruct t as [|c t]; simpl; [done|]. by rewrite Ht.
  - simpl in Hw. apply andb_true_iff in Hw as [Hc Hw]. rewrite Hc, IH by done.
    replace (last_of pv (c :: w)) with (last_of (Some c) w)
      by (unfold last_of; rewrite last_cons; by destruct (last w)).
    destruct (k _) eqn:E; [done|]. by apply Hk.
Qed.

(** The longest run is tried first. *)
Lemma star_run_longest pv w t z :
  forallb p w = true ->
  match t with [] => True | c :: _ => p c = false end ->
  k (MState (last_of pv w) t caps) = Some z ->
  star_run p k pv caps (w ++ t) = Some z.
Proof.
  intros Hw Ht. revert pv. induction w as [|c w IH]; intros pv Hk; simpl in *.
  - destruct t as [|c t]; simpl; [done|]. by rewrite Ht.
  - apply andb_true_iff in Hw as [Hc Hw]. rewrite Hc, (IH Hw (Some c)); [done|].
    rewrite <-Hk. f_equal. f_equal. unfold last_of. rewrite last_cons. by destruct (last w).
Qed.

Lemma star_run_fail pv t :
  (forall pv' a b, t = a ++ b -> k (MState pv' b caps) = None) ->
  star_run p k pv caps t = None.
Proof.
  revert pv. induction t as [|c t IH]; intros pv Hk; simpl.
  - by apply (Hk _ []).
  - rewrite (Hk pv [] (c :: t)) by done. rewrite IH; [by destruct (p c)|].
    intros pv' a b ->. by apply (Hk _ (c :: a)).
Qed.

(** Backtracking: [k] fails in the rest of the run after [w]. *)
Lemma star_run_backtrack pv w t z :
  forallb p w = true ->
  (forall pv' a b, t = a ++ b -> a <> [] -> k (MState pv' b caps) = None) ->
  k (MState (last_of pv w) t caps) = Some z ->
  star_run p k pv caps (w ++ t) = Some z.
Proof.
  intros Hw Ht. revert pv. induction w as [|c w IH]; intros pv Hk; simpl in *.
  - destruct t as [|c t]; simpl; [done|].
    rewrite star_run_fail; [by destruct (p c)|].
    intros pv' a b ->. by apply (Ht _ (c :: a)).
  - apply andb_true_iff in Hw as [Hc Hw]. rewrite Hc, (IH Hw (Some c)); [done|].
    rewrite <-Hk. f_equal. f_equal. unfold last_of. rewrite last_cons. by destruct (last w).
Qed.
End star_run.

(** *** The same for one or more units *)
Section plus.
Context (r : regex) (p : N -> bool) `{!SingleUnit r p}.
Context (k : mstate -> option mstate) (caps : list (option jstr)).

Lemma last_of_cons pv c (w : jstr) : last_of pv (c :: w) = last_of (Some c) w.
Proof. unfold last_of. rewrite last_cons. by destruct (last w). Qed.

Lemma plus_det pv w t :
  w <> [] -> forallb p w = true ->
  match t with [] => True | c :: _ => p c = false end ->
  (forall pv' c u, p c = true -> k (MState pv' (c :: u) caps) = None) ->
  rmatch (RRep 1 None true r) k (MState pv (w ++ t) caps) = k (MState (last_of pv w) t caps).
Proof.
  intros Hne Hw Ht Hk. rewrite (rmatch_plus r p). destruct w as [|c w]; [done|].
  simpl in *. apply andb_true_iff in Hw as [Hc Hw]. rewrite Hc, last_of_cons.
  by apply star_run_det.
Qed.

Lemma plus_longest pv w t z :
  w <> [] -> forallb p w = true ->
  match t with [] => True | c :: _ => p c = false end ->
  k (MState (last_of pv w) t caps) = Some z ->
  rmatch (RRep 1 None true r) k (MState pv (w ++ t) caps) = Some z.
Proof.
  intros Hne Hw Ht Hk. rewrite (rmatch_plus r p). destruct w as [|c w]; [done|].
  simpl in *. apply andb_true_iff in Hw as [Hc Hw]. rewrite Hc.
  rewrite last_of_cons in Hk. by apply star_run_longest.
Qed.

Lemma plus_backtrack pv w t z :
  w <> [] -> forallb p w = true ->
  (forall pv' a b, t = a ++ b -> a <> [] -> k (MState pv' b caps) = None) ->
  k (MState (last_of pv w) t caps) = Some z ->
  rmatch (RRep 1 None true r) k (MState pv (w ++ t) caps) = Some z.
Proof.
  intros Hne Hw Ht Hk. rewrite (rmatch_plus r p). destruct w as [|c w]; [done|].
  simpl in *. apply andb_true_iff in Hw as [Hc Hw]. rewrite Hc.
  rewrite last_of_cons in Hk. by apply star_run_backtrack.
Qed.
End plus.

(** ** Anchored patterns *)

Lemma search_anchored_later r seen c s :
  search (RSeq RBegin r) seen (Some c) s = None.
Proof. revert seen c. induction s as [|d s IH]; intros; simpl; [done|]. apply IH. Qed.

(** A pattern that starts with [^] only matches at the start. *)
Lemma re_match_anchored r s :
  re_match (RSeq RBegin r) s
  = (fun e => Some (take (length s - length (m_rest e)) s) :: drop 1 (m_caps e))
    <$> rmatch r Some (MState None s (repeat None (ngroups r))).
Proof.
  unfold re_match, re_exec, search. destruct s as [|c s]; fold search.
  - unfold match_at. change (ngroups (RSeq RBegin r)) with (ngroups r). simpl.
    by destruct (rmatch r Some _).
  - unfold match_at. change (ngroups (RSeq RBegin r)) with (ngroups r).
    rewrite rmatch_seq, rmatch_begin_none.
    destruct (rmatch r Some _) as [e|]; [done|]. by rewrite search_anchored_later.
Qed.

Lemma re_test_match r s : re_test r s = bool_decide (is_Some (re_match r s)).
Proof.
  unfold re_test, re_match. apply bool_decide_ext. by rewrite fmap_is_Some.
Qed.

(** ** The units of a match *)

(** Every unit that [r] reads satisfies [P]. *)
Fixpoint reads (P : N -> bool) (r : regex) : Prop :=
  match r with
  | RChar c => P c = true
  | RAny d => forall c, any_has d c = true -> P c = true
  | RClass n items => forall c, class_has n items c = true -> P c = true
  | RSeq a b | RAlt a b => reads P a /\ reads P b
  | RGroup _ r | RRep _ _ _ r => reads P r
  | RBackref _ => False
  | REmpty | RFail | RBegin | REnd | RWordB _ => True
  end.

(** What a matcher read, and the state its continuation accepted. *)
Definition read_by (P : N -> bool) (k : mstate -> option mstate) (s z : mstate) : Prop :=
  exists w s', m_rest s = w ++ m_rest s' /\ forallb P w = true /\ k s' = Some z.

Lemma read_by_refl P k s z : k s = Some z -> read_by P k s z.
Proof. exists [], s. done. Qed.

Lemma read_by_trans P k1 k2 s z :
  read_by P k1 s z -> (forall s', k1 s' = Some z -> read_by P k2 s' z) -> read_by P k2 s z.
Proof.
  intros (w & s' & Hs & Hw & Hk) H. destruct (H _ Hk) as (w' & s'' & Hs' & Hw' & Hk').
  exists (w ++ w'), s''. split_and!; [by rewrite Hs, Hs', app_assoc| |done].
  by rewrite forallb_app_iff.
Qed.

Lemma read_by_same_rest P k s s' z : m_rest s = m_rest s' -> read_by P k s' z -> read_by P k s z.
Proof. intros H (w & s'' & Hs & ? & ?). exists w, s''. by rewrite H. Qed.

Lemma m_rest_reset gs s : m_rest (reset_caps gs s) = m_rest s.
Proof.
  unfold reset_caps. destruct gs as [|i gs]; [done|]. generalize (i :: gs). clear.
  intros gs. revert s. induction gs as [|i gs IH]; intros s; simpl; [done|]. by rewrite IH.
Qed.

Lemma rep_loop_reads P mr gs g k fuel min max s z :
  (forall k s, mr k s = Some z -> read_by P k s z) ->
  rep_loop mr gs g k fuel min max s = Some z -> read_by P k s z.
Proof.
  intros Hmr. revert min max s. induction fuel as [|fuel IH]; intros min max s; simpl; [done|].
  set (d := fun y => if (_ : bool) then None else _).
  assert (Hd : forall s', d s' = Some z -> read_by P k s' z).
  { intros s'. unfold d. destruct (_ && _); [done|]. apply IH. }
  assert (Hit : mr d (reset_caps gs s) = Some z -> read_by P k s z).
  { intros H. apply (read_by_same_rest _ _ _ (reset_caps gs s)); [by rewrite m_rest_reset|].
    eapply read_by_trans; [by apply Hmr|done]. }
  pose proof (read_by_refl P k s z) as Hk.
  destruct max as [[|m]|]; [done| |];
    (destruct (negb _); [done|]; destruct g;
     [destruct (mr d _) eqn:E; [naive_solver|done]
     |destruct (k s) eqn:E; [naive_solver|done]]).
Qed.

Lemma rmatch_reads P r k s z : reads P r -> rmatch r k s = Some z -> read_by P k s z.
Proof.
  revert k s. induction r; intros k s Hr; cbn [rmatch reads] in *.
  - apply read_by_refl.
  - done.
  - unfold one_char. destruct (m_rest s) as [|d t] eqn:E; [done|].
    destruct (N.eqb_spec c d) as [<-|]; [|done]. intros Hk.
    exists [c], (consume c t s). by rewrite E; simpl; rewrite Hr.
  - unfold one_char. destruct (m_rest s) as [|d t] eqn:E; [done|].
    destruct (any_has _ d) eqn:Hd; [|done]. intros Hk.
    exists [d], (consume d t s). by rewrite E; simpl; rewrite (Hr _ Hd).
  - unfold one_char. destruct (m_rest s) as [|d t] eqn:E; [done|].
    destruct (class_has _ _ d) eqn:Hd; [|done]. intros Hk.
    exists [d], (consume d t s). by rewrite E; simpl; rewrite (Hr _ Hd).
  - intros H. destruct Hr. eapply read_by_trans; [by apply IHr1|]. intros s' ?. by apply IHr2.
  - destruct Hr. destruct (rmatch r1 k s) eqn:E; intros ?; simplify_eq; [by apply IHr1|by apply IHr2].
  - intros H. eapply read_by_trans; [by apply IHr|]. intros s' Hk.
    exists [], (set_cap i (Some (between s s')) s'). done.
  - intros H. eapply rep_loop_reads; [|done]. intros. by apply IHr.
  - destruct (m_prev s); [done|]. apply read_by_refl.
  - destruct (m_rest s); [|done]. apply read_by_refl.
  - destruct (xorb _ _); [|done]. apply read_by_refl.
  - done.
Qed.

(** A text accepted by an anchored pattern only has units the pattern reads. *)
Lemma re_test_anchored_units P r s :
  reads P r -> re_test (RSeq RBegin (RSeq r REnd)) s = true -> forallb P s = true.
Proof.
  intros Hr. rewrite re_test_match, bool_decide_eq_true, re_match_anchored, fmap_is_Some.
  intros [z Hz]. rewrite rmatch_seq in Hz.
  destruct (rmatch_reads _ _ _ _ _ Hr Hz) as (w & s' & Hs & Hw & Hk).
  cbn [rmatch] in Hk. simpl in Hs. destruct (m_rest s'); [|done].
  by rewrite Hs, app_nil_r.
Qed.

(** ** Running the matcher on a text with variable parts *)

Lemma between_nil pv s pv' caps caps' :
  between (MState pv s caps) (MState pv' [] caps') = s.
Proof. unfold between. simpl. rewrite Nat.sub_0_r. apply take_ge. done. Qed.

Lemma between_eq pv pv' l w t caps caps' :
  l = w ++ t -> between (MState pv l caps) (MState pv' t caps') = w.
Proof. intros ->. apply between_app. Qed.

Lemma set_cap_eq i v p t c : set_cap i v (MState p t c) = MState p t (<[i := v]> c).
Proof. done. Qed.

(** Replace the string literals by their units. *)
Ltac js_norm :=
  repeat match goal with
  | |- context [js ?s] => let v := eval vm_compute in (js s) in change (js s) with v
  | |- context [jsq ?s] => let v := eval vm_compute in (jsq s) in change (jsq s) with v
  end.

(** The part of the text [l] in front of its suffix [r]. *)
Ltac prefix_of l r :=
  match l with
  | r => constr:(@nil N)
  | ?c :: ?l' => let w := prefix_of l' r in constr:(c :: w)
  | ?u ++ r => constr:(u)
  | ?u ++ ?l' => let w := prefix_of l' r in constr:(u ++ w)
  end.

(** The continuation fails on the units of the class it follows. *)
Ltac rx_kfail :=
  intros ? ? ? ?; cbv beta; rewrite ?set_cap_eq, ?rmatch_seq;
  first
    [ rewrite rmatch_char_cons;
      match goal with
      | |- context [?a =? ?b] =>
          destruct (N.eqb_spec a b) as [<-|];
          [match goal with H : _ = true |- _ => vm_compute in H; discriminate H end
          |reflexivity]
      end
    | reflexivity ].

Ltac rx_step :=
  match goal with
  | |- context [rmatch (RSeq ?a ?b) ?k ?s] =>
      rewrite (rmatch_seq a b k s)
  | |- context [rmatch (RGroup ?i ?r) ?k ?s] =>
      rewrite (rmatch_group i r k s)
  | |- context [rmatch (RAlt ?a ?b) ?k ?s] =>
      rewrite (rmatch_alt a b k s)
  | |- context [rmatch RBegin ?k (MState None ?t ?caps)] =>
      rewrite (rmatch_begin_none k t caps)
  | |- context [rmatch (RChar ?c) ?k (MState ?pv (?d :: ?t) ?caps)] =>
      rewrite (rmatch_char_cons c k pv d t caps);
      let b := eval vm_compute in (c =? d) in change (c =? d) with b; cbv iota
  | |- context [rmatch (RChar ?c) ?k (MState ?pv [] ?caps)] =>
      rewrite (rmatch_char_nil c k pv caps)
  | |- context [rmatch REnd ?k (MState ?pv [] ?caps)] =>
      rewrite (rmatch_end_nil k pv caps)
  | |- context [rmatch REnd ?k (MState ?pv (?c :: ?t) ?caps)] =>
      rewrite (rmatch_end_cons k pv c t caps)
  | |- context [(fun s => @?f s) (MState ?p ?t ?c)] => cbv beta
  | |- context [set_cap ?i ?v (MState ?p ?t ?c)] =>
      rewrite (set_cap_eq i v p t c); cbn [insert list_insert]
  | |- context [between (MState ?p ?l ?c) (MState ?p' [] ?c')] =>
      rewrite (between_nil p l p' c c')
  | |- context [between (MState ?p ?l ?c) (MState ?p' ?r ?c')] =>
      let w := prefix_of l r in
      rewrite (between_eq p p' l w r c c')
        by (first [reflexivity | cbn [app]; repeat (rewrite <-app_assoc; cbn [app]); reflexivity])
  end.

(** A greedy [+] over the part [w] of the text, deterministic. *)
Ltac rx_plus w :=
  match goal with
  | |- context [rmatch (RRep 1 None true ?r) ?k (MState ?pv (w ++ ?t) ?caps)] =>
      rewrite (plus_det r _ k caps pv w t);
      [| first [assumption | done] | first [assumption | done] | first [exact I | reflexivity] | rx_kfail]
  end.

Ltac rx := repeat rx_step.

(** The text [w] is a variable at the end of the input. *)
Ltac rx_expose w :=
  match goal with
  | |- context [MState ?pv w ?caps] =>
      replace (MState pv w caps) with (MState pv (w ++ []) caps) by (by rewrite app_nil_r)
  end.

Ltac strip_prefix l w :=
  match w with
  | @nil N => constr:(l)
  | ?c :: ?w' => match l with c :: ?l' => strip_prefix l' w' end
  | ?u => match l with u ++ ?t => constr:(t) end
  end.

Ltac rx_back :=
  match goal with
  | |- context [rmatch (RBackref ?i) ?k (MState ?pv ?l ?caps)] =>
      let o := eval cbv in (nth_error caps i) in
      match o with
      | Some (Some ?w) =>
          let t := strip_prefix l w in
          change (rmatch (RBackref i) k (MState pv l caps))
            with (rmatch (RBackref i) k (MState pv (w ++ t) caps));
          rewrite (rmatch_backref i w k pv t caps) by reflexivity
      end
  end.

(** Start a match of an anchored pattern, or of a test with it. *)
Ltac rx_start :=
  match goal with
  | |- context [re_match ?R ?e] =>
      let r := eval cbv delta [R] in R in
      match r with
      | RSeq RBegin ?r' =>
          change (re_match R e) with (re_match (RSeq RBegin r') e);
          rewrite (re_match_anchored r' e);
          let n := eval vm_compute in (ngroups r') in change (ngroups r') with n;
          cbn [repeat]
      end
  end.

Ltac rx_all :=
  repeat first
    [ rx_step
    | rx_back
    | match goal with
      | |- context [rmatch (RRep 1 None true ?r) ?k (MState ?pv (?w ++ ?t) ?caps)] =>
          is_var w; rx_plus w
      | |- context [rmatch (RRep 1 None true ?r) ?k (MState ?pv ?w ?caps)] =>
          is_var w; rx_expose w; rx_plus w
      end ].

(** A greedy loop whose body reads one unit of a class [p], stops on what
    follows, and whose continuation cannot start with a unit of [p]. *)
Lemma rep_loop_run (p : N -> bool) mr k caps fuel pv w t :
  (length (w ++ t) < fuel)%nat ->
  forallb p w = true ->
  (forall k pv c u, p c = true -> mr k (MState pv (c :: u) caps) = k (MState (Some c) u caps)) ->
  (forall k pv, mr k (MState pv t caps) = None) ->
  (forall pv c u, p c = true -> k (MState pv (c :: u) caps) = None) ->
  rep_loop mr [] true k fuel 0 None (MState pv (w ++ t) caps) = k (MState (last_of pv w) t caps).
Proof.
  intros Hf Hw Hmr Ht Hk. revert pv w Hf Hw.
  induction fuel as [|fuel IH]; intros pv w Hf Hw; [lia|].
  destruct w as [|c w]; simpl in *.
  - by rewrite Ht.
  - apply andb_true_iff in Hw as [Hc Hw]. rewrite Hmr by done. simpl.
    rewrite (proj2 (Nat.eqb_neq _ _)) by (rewrite length_app in *; lia).
    rewrite IH by (done || lia). rewrite last_of_cons.
    destruct (k _) eqn:E; [done|]. by rewrite Hk.
Qed.
