(* ===== verification/JsJsonFacts.v ===== *)
(** * Lemmas on [JSON.parse] and [JSON.stringify]: the round trips *)
From S2P Require Import Prelude JsString JsNumber JsValue JsJson.
Open Scope N_scope.

(** ** Strings *)

Definition is_unit (c : N) : bool := c <? 65536.

Lemma hex_val_digit n : n < 16 -> hex_val (hex_digit n) = Some n.
Proof.
  intros Hn. unfold hex_digit, hex_val, is_digit.
  destruct (N.ltb_spec n 10).
  - rewrite !(proj2 (N.leb_le _ _)) by lia. simpl. f_equal. lia.
  - rewrite (proj2 (N.leb_le 48 _)) by lia. rewrite (proj2 (N.leb_gt _ 57)) by lia.
    simpl. rewrite !(proj2 (N.leb_le _ _)) by lia. simpl. f_equal. lia.
Qed.

Lemma hex4_escape c :
  is_unit c = true ->
  hex4 (hex_digit (c / 4096)) (hex_digit (c / 256 mod 16))
       (hex_digit (c / 16 mod 16)) (hex_digit (c mod 16)) = Some c.
Proof.
  unfold is_unit. intros Hc%N.ltb_lt. unfold hex4.
  rewrite (hex_val_digit (c / 4096)) by (apply N.Div0.div_lt_upper_bound; lia).
  rewrite !hex_val_digit by (apply N.mod_lt; lia).
  f_equal.
  pose proof (N.div_mod' c 16). pose proof (N.div_mod' (c / 16) 16).
  pose proof (N.div_mod' (c / 256) 16).
  rewrite N.Div0.div_div in *. change (16 * 16) with 256 in *. change (256 * 16) with 4096 in *.
  lia.
Qed.

Lemma parse_unicode_escape c t :
  is_unit c = true ->
  parse_str (unicode_escape c ++ t) = (let* r := parse_str t in Ok (c :: r.1, r.2)).
Proof.
  intros Hc. cbn [unicode_escape app parse_str].
  change (92 =? 34) with false. change (92 =? 92) with true. change (117 =? 117) with true.
  cbv iota. by rewrite hex4_escape.
Qed.

Lemma parse_escape_unit c t :
  is_unit c = true ->
  parse_str (escape_unit c ++ t) = (let* r := parse_str t in Ok (c :: r.1, r.2)).
Proof.
  intros Hc. unfold escape_unit.
  repeat match goal with
  | |- context [if ?a =? ?b then _ else _] => destruct (N.eqb_spec a b) as [->|]; [done|]
  end.
  destruct (c <? 32) eqn:E; [by apply parse_unicode_escape|].
  simpl. rewrite (proj2 (N.eqb_neq c 34)), (proj2 (N.eqb_neq c 92)), E by done. done.
Qed.

Lemma is_unit_plain c : is_high_surrogate c || is_low_surrogate c = true ->
  forall t, parse_str (c :: t) = (let* r := parse_str t in Ok (c :: r.1, r.2)).
Proof.
  unfold is_high_surrogate, is_low_surrogate. intros H t. simpl.
  assert (55296 <= c).
  { apply orb_true_iff in H as [H|H]; apply andb_true_iff in H as [H%N.leb_le _]; lia. }
  rewrite (proj2 (N.eqb_neq c 34)), (proj2 (N.eqb_neq c 92)) by lia.
  by rewrite (proj2 (N.ltb_ge c 32)) by lia.
Qed.

(** Reading a printed string gives it back, whatever follows. *)
Lemma parse_str_escape s t :
  forallb is_unit s = true -> parse_str (escape_str s ++ 34 :: t) = Ok (s, t).
Proof.
  remember (length s) as n eqn:Hn. revert s Hn.
  induction (lt_wf n) as [n _ IH]. intros s -> Hs.
  destruct s as [|c s1]; [done|]. simpl in Hs. apply andb_true_iff in Hs as [Hc Hs].
  assert (IH1 : parse_str (escape_str s1 ++ 34 :: t) = Ok (s1, t))
    by (by apply (IH (length s1)); [simpl; lia|..]).
  cbn [escape_str].
  destruct (is_high_surrogate c) eqn:Hh.
  - destruct s1 as [|d s2].
    { rewrite parse_unicode_escape by done. done. }
    destruct (is_low_surrogate d) eqn:Hl.
    + cbn [app]. rewrite is_unit_plain by (by rewrite Hh).
      rewrite is_unit_plain by (by rewrite Hl, orb_true_r).
      simpl in Hs. apply andb_true_iff in Hs as [_ Hs].
      rewrite (IH (length s2)); [done|simpl; lia|done|done].
    + rewrite <-app_assoc, parse_unicode_escape by done. by rewrite IH1.
  - destruct (is_low_surrogate c) eqn:Hl.
    + rewrite <-app_assoc, parse_unicode_escape by done. by rewrite IH1.
    + rewrite <-app_assoc, parse_escape_unit by done. by rewrite IH1.
Qed.

(** Any JavaScript string survives [JSON.stringify] then [JSON.parse]. *)
Lemma json_parse_quote s : forallb is_unit s = true -> json_parse (json_quote s) = Ok (VStr s).
Proof.
  intros Hs. unfold json_parse, json_quote.
  rewrite (Nat.add_succ_r _ 1).
  cbn [parse_value skip_json_ws].
  change ((34 =? 32) || (34 =? 10) || (34 =? 13) || (34 =? 9)) with false. cbv iota.
  change (34 =? 123) with false. change (34 =? 91) with false. change (34 =? 34) with true.
  cbv iota. by rewrite parse_str_escape.
Qed.

(** A string without quotes, backslashes, control units and surrogates is
    printed as it is. *)
Definition plain_unit (c : N) : bool :=
  (32 <=? c) && negb (c =? 34) && negb (c =? 92)
  && negb (is_high_surrogate c) && negb (is_low_surrogate c).

Lemma escape_str_plain s : forallb plain_unit s = true -> escape_str s = s.
Proof.
  induction s as [|c s IH]; simpl; [done|]. intros [Hc Hs]%andb_true_iff.
  unfold plain_unit in Hc. bool_hyps.
  match goal with H : is_high_surrogate c = _ |- _ => rewrite H end.
  match goal with H : is_low_surrogate c = _ |- _ => rewrite H end.
  rewrite IH by done. unfold escape_unit.
  rewrite !(proj2 (N.eqb_neq c _)) by lia.
  by rewrite (proj2 (N.ltb_ge c 32)) by lia.
Qed.

Lemma json_quote_plain s : forallb plain_unit s = true -> json_quote s = 34 :: s ++ [34].
Proof. intros. unfold json_quote. by rewrite escape_str_plain. Qed.

#[export] Hint Rewrite json_parse_quote : s2p.
