(* ===== verification/JsJsonRoundtrip.v ===== *)
(** * JSON values read back from their text

    [JSON.parse] after [JSON.stringify], compact or with a gap, for values
    made of strings, booleans, [null], arrays, objects and the numbers whose
    text reads back, which [json_num] decides. *)
From S2P Require Import Prelude JsString JsNumber JsValue JsJson JsJsonFacts.
Open Scope N_scope.

Section jsval_induction.
Context (P : jsval -> Prop).
Context (Hundef : P VUndef) (Hnull : P VNull) (Hbool : forall b, P (VBool b)).
Context (Hnum : forall x, P (VNum x)) (Hstr : forall s, P (VStr s)) (Hfun : forall k, P (VFun k)).
Context (Harr : forall l, Forall P l -> P (VArr l)).
Context (Hobj : forall o, Forall (fun kv => P kv.2) o -> P (VObj o)).

Fixpoint jsval_nested_ind (v : jsval) : P v :=
  match v with
  | VUndef => Hundef
  | VNull => Hnull
  | VBool b => Hbool b
  | VNum x => Hnum x
  | VStr s => Hstr s
  | VFun k => Hfun k
  | VArr l =>
      Harr l ((fix go (l : list jsval) : Forall P l :=
                 match l with
                 | [] => @List.Forall_nil _ P
                 | x :: l' => @List.Forall_cons _ P x l' (jsval_nested_ind x) (go l')
                 end) l)
  | VObj o =>
      Hobj o ((fix go (o : jsobj) : Forall (fun kv => P kv.2) o :=
                 match o with
                 | [] => @List.Forall_nil _ (fun kv => P kv.2)
                 | kv :: o' => @List.Forall_cons _ (fun kv => P kv.2) kv o' (jsval_nested_ind kv.2) (go o')
                 end) o)
  end.
End jsval_induction.

#[export] Instance num_eq_dec : EqDecision num.
Proof. solve_decision. Defined.

(** A number whose text is a JSON number that stands for it. *)
Definition json_num (x : num) : bool :=
  bool_decide (json_number (num_to_str x) = Some (num_to_str x, []))
  && bool_decide (num_of_str (num_to_str x) = x) && is_finite x.

(** The values of the round trip: keys and strings of 16-bit units, objects in
    the order in which their keys are listed. *)
Fixpoint jsonable (v : jsval) : bool :=
  match v with
  | VNull | VBool _ => true
  | VStr s => forallb is_unit s
  | VNum x => json_num x
  | VArr l => (fix go (l : list jsval) := match l with [] => true | x :: l' => jsonable x && go l' end) l
  | VObj o =>
      (fix go (o : jsobj) :=
         match o with [] => true | (k, x) :: o' => forallb is_unit k && jsonable x && go o' end) o
  | _ => false
  end.

(** Every object within the value lists its keys as [JSON.parse] would. *)
Fixpoint in_order (v : jsval) : Prop :=
  match v with
  | VArr l => (fix go (l : list jsval) := match l with [] => True | x :: l' => in_order x /\ go l' end) l
  | VObj o =>
      obj_of o = o
      /\ (fix go (o : jsobj) := match o with [] => True | (_, x) :: o' => in_order x /\ go o' end) o
  | _ => True
  end.

Fixpoint need (v : jsval) : nat :=
  match v with
  | VArr l => S ((fix go (l : list jsval) := match l with [] => 0 | x :: l' => S (need x) + go l' end) l)
  | VObj o => S ((fix go (o : jsobj) := match o with [] => 0 | (_, x) :: o' => S (need x) + go o' end) o)
  | _ => 1
  end%nat.

Definition need_list (l : list jsval) : nat := list_sum (map (fun x => S (need x)) l).
Definition need_members (o : jsobj) : nat := list_sum (map (fun kv => S (need kv.2)) o).

Lemma need_arr l : need (VArr l) = S (need_list l).
Proof. cbn [need]. f_equal. induction l as [|x l IH]; [done|]. by rewrite IH. Qed.

Lemma need_obj o : need (VObj o) = S (need_members o).
Proof. cbn [need]. f_equal. induction o as [|[k x] o IH]; [done|]. by rewrite IH. Qed.

Lemma jsonable_arr l : jsonable (VArr l) = forallb jsonable l.
Proof. cbn [jsonable]. induction l as [|x l IH]; [done|]. by rewrite IH. Qed.

Lemma jsonable_obj o :
  jsonable (VObj o) = forallb (fun kv => forallb is_unit kv.1 && jsonable kv.2) o.
Proof. cbn [jsonable]. induction o as [|[k x] o IH]; [done|]. by rewrite IH. Qed.

Lemma in_order_arr l : in_order (VArr l) <-> Forall in_order l.
Proof.
  cbn [in_order]. induction l as [|x l IH]; [by split|]. by rewrite Forall_cons, IH.
Qed.

Lemma in_order_obj o : in_order (VObj o) <-> obj_of o = o /\ Forall (fun kv => in_order kv.2) o.
Proof.
  cbn [in_order]. apply and_iff_compat_l.
  induction o as [|[k x] o IH]; [by split|]. by rewrite Forall_cons, IH.
Qed.

Lemma list_sum_cons x l : list_sum (x :: l) = (x + list_sum l)%nat.
Proof. done. Qed.

(** ** Texts *)

Definition json_ws (c : N) : bool := (c =? 32) || (c =? 10) || (c =? 13) || (c =? 9).

Lemma skip_ws w t : forallb json_ws w = true -> skip_json_ws (w ++ t) = skip_json_ws t.
Proof.
  induction w as [|c w IH]; [done|]. cbn [forallb app skip_json_ws]. intros [Hc H]%andb_true_iff.
  unfold json_ws in Hc. rewrite Hc. by apply IH.
Qed.

Definition text_of (gap ind : jstr) (v : jsval) : jstr := default (js "null") (json_print gap ind v).

Definition member_text (gap ind : jstr) (kv : jstr * jsval) : jstr :=
  json_quote kv.1 ++ 58 :: (match gap with [] => [] | _ => [32] end) ++ text_of gap ind kv.2.

Lemma print_arr gap ind l :
  text_of gap ind (VArr l) = json_wrap 91 93 gap ind (map (text_of gap (ind ++ gap)) l).
Proof. reflexivity. Qed.

Lemma jsonable_prints gap ind v : jsonable v = true -> json_print gap ind v = Some (text_of gap ind v).
Proof. unfold text_of. by destruct v as [| |[]| | | | |]. Qed.

Lemma print_obj gap ind o :
  jsonable (VObj o) = true ->
  text_of gap ind (VObj o) = json_wrap 123 125 gap ind (map (member_text gap (ind ++ gap)) o).
Proof.
  rewrite jsonable_obj. unfold text_of at 1. cbn [json_print default from_option id]. unfold id.
  intros H. f_equal. induction o as [|[k x] o IH]; [done|]. cbn [forallb fst snd] in H. bool_hyps.
  cbn [map]. rewrite IH by done. by rewrite jsonable_prints.
Qed.

(** A text starts with a unit that is no white space. *)
Definition starts_solid (s : jstr) : Prop :=
  exists c t, s = c :: t /\ json_ws c = false /\ c <> 93.

Lemma solid_skip s t : starts_solid s -> skip_json_ws (s ++ t) = s ++ t.
Proof. intros (c & u & -> & Hc & _). cbn [app skip_json_ws]. unfold json_ws in Hc. by rewrite Hc. Qed.

Lemma wrap_solid op cl gap ind parts :
  json_ws op = false -> op <> 93 -> starts_solid (json_wrap op cl gap ind parts).
Proof.
  intros H H'. unfold json_wrap. destruct parts, gap; eexists _, _; (split; [reflexivity|done]).
Qed.

(** ** Numbers *)

Lemma span_digits_app s t :
  match t with c :: _ => is_digit c = false | [] => True end ->
  span_digits (s ++ t) = ((span_digits s).1, (span_digits s).2 ++ t).
Proof.
  intros Ht. induction s as [|c s IH].
  - destruct t as [|c t]; [done|]. cbn [app span_digits]. by rewrite Ht.
  - cbn [app span_digits]. destruct (is_digit c); [|done]. rewrite IH. by destruct (span_digits s).
Qed.
(** What may follow a value within a text. *)
Definition value_end (t : jstr) : Prop :=
  match t with c :: _ => c ∈ [44; 93; 125; 10] | [] => True end.

Lemma value_end_facts t : value_end t ->
  match t with
  | c :: _ => is_digit c = false /\ (c =? 46) = false /\ (c =? 45) = false
              /\ (c =? 101) || (c =? 69) = false /\ (c =? 45) || (c =? 43) = false
  | [] => True
  end.
Proof.
  destruct t as [|c t]; [done|]. unfold value_end.
  rewrite !elem_of_cons, elem_of_nil. by intros [->|[->|[->|[->|[]]]]].
Qed.

Section value_end.
Context (t : jstr) (Ht : value_end t).

Lemma span_end s : span_digits (s ++ t) = ((span_digits s).1, (span_digits s).2 ++ t).
Proof. apply span_digits_app. pose proof (value_end_facts t Ht) as H. by destruct t; [|destruct H]. Qed.

Lemma frac_end s r : frac_part s = Some r -> frac_part (s ++ t) = Some (r.1, r.2 ++ t).
Proof.
  pose proof (value_end_facts t Ht) as H. unfold frac_part. destruct s as [|c s].
  - intros [= <-]. destruct t as [|c u]; [done|]. destruct H as (_ & H & _). cbn [app]. by rewrite H.
  - cbn [app]. destruct (c =? 46); [|by intros [= <-]]. rewrite span_end.
    destruct (span_digits s) as [f r']. cbn [fst snd]. destruct (str_truthy f); [|done]. by intros [= <-].
Qed.

Lemma exponent_end s r : exponent_part s = Some r -> exponent_part (s ++ t) = Some (r.1, r.2 ++ t).
Proof.
  pose proof (value_end_facts t Ht) as H. unfold exponent_part. destruct s as [|c s].
  - intros [= <-]. destruct t as [|c u]; [done|]. destruct H as (_ & _ & _ & H & _). cbn [app]. by rewrite H.
  - cbn [app]. destruct ((c =? 101) || (c =? 69)); [|by intros [= <-]].
    assert (exponent_sign (s ++ t) = ((exponent_sign s).1, (exponent_sign s).2 ++ t)) as ->.
    { unfold exponent_sign. destruct s as [|c' s].
      - destruct t as [|c' u]; [done|]. destruct H as (_ & _ & _ & _ & H). cbn [app]. by rewrite H.
      - cbn [app]. by destruct ((c' =? 45) || (c' =? 43)). }
    destruct (exponent_sign s) as [es t']. cbn [fst snd]. rewrite span_end.
    destruct (span_digits t') as [x r']. cbn [fst snd]. destruct (str_truthy x); [|done]. by intros [= <-].
Qed.

Lemma number_end s n r : json_number s = Some (n, r) -> json_number (s ++ t) = Some (n, r ++ t).
Proof.
  pose proof (value_end_facts t Ht) as H. unfold json_number.
  assert (s <> [] -> sign_part (s ++ t) = ((sign_part s).1, (sign_part s).2 ++ t)) as Hs.
  { intros Hs. destruct s as [|c s]; [done|]. cbn [app sign_part]. by destruct (c =? 45). }
  destruct (decide (s = [])) as [->|Hne]; [done|]. rewrite Hs by done. clear Hs.
  destruct (sign_part s) as [sg s1]. cbn [fst snd]. rewrite span_end.
  destruct (span_digits s1) as [i s2]. cbn [fst snd].
  destruct (negb (str_truthy i) || leading_zero i); [done|].
  destruct (frac_part s2) as [[f s3]|] eqn:Ef; [|done]. rewrite (frac_end _ _ Ef). cbn [fst snd].
  destruct (exponent_part s3) as [[x s4]|] eqn:Ex; [|done]. rewrite (exponent_end _ _ Ex). cbn [fst snd].
  by intros [= <- <-].
Qed.
End value_end.

Lemma json_number_head s n r :
  json_number s = Some (n, r) -> exists c u, s = c :: u /\ ((c =? 45) || is_digit c = true).
Proof.
  unfold json_number. destruct s as [|c s]; [done|]. intros H. exists c, s. split; [done|].
  cbn [sign_part] in H. destruct (c =? 45); [done|]. cbn [span_digits] in H.
  by destruct (is_digit c).
Qed.

Lemma json_num_text gap ind x :
  jsonable (VNum x) = true ->
  text_of gap ind (VNum x) = num_to_str x /\ json_number (num_to_str x) = Some (num_to_str x, [])
  /\ num_of_str (num_to_str x) = x.
Proof.
  cbn [jsonable]. unfold json_num. intros H. bool_hyps. split_and!; [|done|done].
  unfold text_of. cbn [json_print]. by destruct (is_finite x).
Qed.

(** The first unit of a number starts no other value. *)
Lemma number_unit c :
  (c =? 45) || is_digit c = true ->
  json_ws c = false /\ c <> 93
  /\ (c =? 123) = false /\ (c =? 91) = false /\ (c =? 34) = false
  /\ (forall u, starts_with (js "true") (c :: u) = false /\ starts_with (js "false") (c :: u) = false
                /\ starts_with (js "null") (c :: u) = false).
Proof.
  intros H. assert (c = 45 \/ 48 <= c <= 57) as Hc.
  { apply orb_true_iff in H as [H|H]; [by apply N.eqb_eq in H; left|]. unfold is_digit in H. bool_hyps. lia. }
  unfold json_ws. rewrite !orb_false_iff, !N.eqb_neq.
  assert (forall k u p, c <> k -> starts_with (k :: p) (c :: u) = false) as Hs.
  { intros k u p Hk. cbn [starts_with]. by rewrite (proj2 (N.eqb_neq k c)) by done. }
  split_and!; try lia. intros u. split_and!; [apply (Hs 116)|apply (Hs 102)|apply (Hs 110)]; lia.
Qed.

Lemma text_solid gap ind v : jsonable v = true -> starts_solid (text_of gap ind v).
Proof.
  destruct v as [| |[]|x|s|l|o|]; intros H; try done.
  1-3, 5: eexists _, _; (split; [reflexivity|done]).
  - destruct (json_num_text gap ind x H) as (-> & Hn & _).
    destruct (json_number_head _ _ _ Hn) as (c & u & -> & Hc). exists c, u. split; [done|].
    by destruct (number_unit c Hc) as (? & ? & _).
  - rewrite print_arr. by apply wrap_solid.
  - rewrite print_obj by done. by apply wrap_solid.
Qed.

(** ** The round trip *)

(** Taking the default branch of a match on a closing bracket. *)
Lemma not_closing {T} c u (a b : jstr -> T) :
  c <> 93 -> match c :: u with 93 :: r => a r | s => b s end = b (c :: u).
Proof. intros H. destruct c as [|p]; [done|]. by repeat (destruct p as [p|p|]; try done). Qed.

Section roundtrip.
Context (gap : jstr) (Hgap : forallb json_ws gap = true).

Definition reads_back (v : jsval) : Prop :=
  forall ind w t fuel, forallb json_ws ind = true -> forallb json_ws w = true -> value_end t ->
    (need v <= fuel)%nat ->
    parse_value fuel (w ++ text_of gap ind v ++ t) = Ok (v, t).

(** The separator of the parts and what follows the last one. *)
Definition wrap_sep (ind : jstr) : jstr :=
  match gap with [] => [44] | _ => 44 :: 10 :: (ind ++ gap) end.
Definition wrap_open (ind : jstr) : jstr :=
  match gap with [] => [] | _ => 10 :: (ind ++ gap) end.
Definition wrap_close (ind : jstr) : jstr :=
  match gap with [] => [] | _ => 10 :: ind end.

Lemma json_wrap_eq op cl ind parts :
  parts <> [] ->
  json_wrap op cl gap ind parts = op :: wrap_open ind ++ join (wrap_sep ind) parts ++ wrap_close ind ++ [cl].
Proof.
  clear Hgap. intros H. unfold json_wrap, wrap_open, wrap_sep, wrap_close. destruct parts as [|p ps]; [done|].
  destruct gap as [|g0 g]; [done|]. cbn [app]. by rewrite <-?app_assoc.
Qed.

Lemma wrap_ws ind :
  forallb json_ws ind = true ->
  forallb json_ws (wrap_open ind) = true /\ forallb json_ws (wrap_close ind) = true
  /\ exists s, wrap_sep ind = 44 :: s /\ forallb json_ws s = true.
Proof.
  intros H. unfold wrap_open, wrap_close, wrap_sep. destruct gap as [|g0 g] eqn:E.
  - split_and!; [done|done|by exists []].
  - rewrite <-E in *. assert (forallb json_ws (10 :: ind ++ gap) = true) as Hi.
    { cbn [forallb]. by rewrite forallb_app, H, Hgap. }
    split_and!; [done|done|]. by exists (10 :: ind ++ gap).
Qed.

Lemma sep_end ind s : value_end (wrap_sep ind ++ s).
Proof. clear Hgap. unfold wrap_sep. destruct gap; cbn [app value_end]; decide_now. Qed.

Lemma close_end_arr ind s : value_end (wrap_close ind ++ 93 :: s).
Proof. clear Hgap. unfold wrap_close. destruct gap; cbn [app value_end]; decide_now. Qed.

Lemma close_end_obj ind s : value_end (wrap_close ind ++ 125 :: s).
Proof. clear Hgap. unfold wrap_close. destruct gap; cbn [app value_end]; decide_now. Qed.

Hint Resolve sep_end close_end_arr close_end_obj : core.

Lemma parse_elements_join ind (l : list jsval) w t fuel :
  Forall reads_back l -> l <> [] -> forallb json_ws ind = true -> forallb json_ws w = true ->
  (need_list l <= fuel)%nat ->
  parse_elements fuel (w ++ join (wrap_sep ind) (map (text_of gap (ind ++ gap)) l)
                       ++ wrap_close ind ++ 93 :: t)
  = Ok (VArr l, t).
Proof.
  intros Hl Hne Hind. assert (Hi : forallb json_ws (ind ++ gap) = true) by (by rewrite forallb_app, Hind, Hgap).
  destruct (wrap_ws ind Hind) as (_ & Hcl & sep & Hsep & Hsepw).
  revert w fuel. induction Hl as [|x l Hx Hl IH]; intros w fuel Hw Hfuel; [done|].
  change (need_list (x :: l)) with (S (need x) + need_list l)%nat in Hfuel.
  destruct fuel as [|fuel]; [lia|]. cbn [parse_elements map].
  destruct l as [|y l].
  - cbn [join map]. rewrite (Hx (ind ++ gap)) by (auto || lia). cbn [res_bind fst snd].
    rewrite skip_ws by done. reflexivity.
  - change (join (wrap_sep ind) (text_of gap (ind ++ gap) x :: map (text_of gap (ind ++ gap)) (y :: l)))
      with (text_of gap (ind ++ gap) x ++ wrap_sep ind ++ join (wrap_sep ind) (map (text_of gap (ind ++ gap)) (y :: l))).
    rewrite <-!app_assoc, (Hx (ind ++ gap)) by (auto || lia). cbn [res_bind fst snd].
    set (rest := join (wrap_sep ind) (map _ (y :: l))).
    replace (wrap_sep ind) with (44 :: sep) by done. cbn [app skip_json_ws N.eqb Pos.eqb orb].
    unfold rest. rewrite IH; [done|done|done|]. lia.
Qed.

Lemma parse_members_join ind (o : jsobj) acc w t fuel :
  Forall (fun kv => reads_back kv.2) o -> Forall (fun kv => forallb is_unit kv.1 = true) o ->
  o <> [] -> forallb json_ws ind = true -> forallb json_ws w = true ->
  (need_members o <= fuel)%nat ->
  parse_members fuel acc (w ++ join (wrap_sep ind) (map (member_text gap (ind ++ gap)) o)
                          ++ wrap_close ind ++ 125 :: t)
  = Ok (VObj (ospread acc o), t).
Proof.
  intros Ho Hk Hne Hind. assert (Hi : forallb json_ws (ind ++ gap) = true) by (by rewrite forallb_app, Hind, Hgap).
  destruct (wrap_ws ind Hind) as (_ & Hcl & sep & Hsep & Hsepw).
  revert acc w fuel. induction Ho as [|[k x] o Hx Ho IH]; intros acc w fuel Hw Hfuel; [done|].
  apply Forall_cons in Hk as [Hk1 Hk]. cbn [fst snd] in *.
  change (need_members ((k, x) :: o)) with (S (need x) + need_members o)%nat in Hfuel.
  destruct fuel as [|fuel]; [lia|]. cbn [parse_members map].
  set (sp := match gap with [] => [] | _ => [32] end).
  assert (Hsp : forallb json_ws sp = true) by (unfold sp; by destruct gap).
  assert (Hmember : forall rest, skip_json_ws (w ++ member_text gap (ind ++ gap) (k, x) ++ rest)
    = 34 :: escape_str k ++ 34 :: 58 :: sp ++ text_of gap (ind ++ gap) x ++ rest).
  { intros rest. rewrite skip_ws by done. unfold member_text, json_quote. cbn [fst snd app].
    cbn [skip_json_ws N.eqb Pos.eqb orb]. fold sp. by repeat (rewrite <-app_assoc; cbn [app]). }
  destruct o as [|kv o].
  - cbn [join map]. rewrite Hmember. rewrite parse_str_escape by done. cbn [res_bind fst snd skip_json_ws N.eqb Pos.eqb orb].
    rewrite (Hx (ind ++ gap)) by (auto || lia). cbn [res_bind fst snd].
    rewrite skip_ws by done. reflexivity.
  - change (join (wrap_sep ind) (member_text gap (ind ++ gap) (k, x) :: map (member_text gap (ind ++ gap)) (kv :: o)))
      with (member_text gap (ind ++ gap) (k, x) ++ wrap_sep ind ++ join (wrap_sep ind) (map (member_text gap (ind ++ gap)) (kv :: o))).
    rewrite <-!app_assoc, Hmember. rewrite parse_str_escape by done. cbn [res_bind fst snd skip_json_ws N.eqb Pos.eqb orb].
    rewrite (Hx (ind ++ gap)) by (auto || lia). cbn [res_bind fst snd].
    set (rest := join (wrap_sep ind) (map _ (kv :: o))).
    replace (wrap_sep ind) with (44 :: sep) by done. cbn [app skip_json_ws N.eqb Pos.eqb orb].
    unfold rest. rewrite IH; [done|done|done|done|]. lia.
Qed.

Lemma parse_value_obj o ind w t fuel :
  jsonable (VObj o) = true -> Forall (fun kv => reads_back kv.2) o ->
  forallb json_ws ind = true -> forallb json_ws w = true -> (need (VObj o) <= fuel)%nat ->
  parse_value fuel (w ++ text_of gap ind (VObj o) ++ t) = Ok (VObj (obj_of o), t).
Proof.
  intros Hj Hr Hind Hw Hfuel. rewrite need_obj in Hfuel. destruct fuel as [|fuel]; [lia|].
  cbn [parse_value]. rewrite skip_ws by done. rewrite print_obj by done. rewrite jsonable_obj in Hj.
  destruct o as [|[k x] o]; [done|].
  rewrite json_wrap_eq by done. cbn [app skip_json_ws N.eqb Pos.eqb orb].
  destruct (wrap_ws ind Hind) as (Hop & Hcl & _).
  rewrite <-!app_assoc. cbn [app]. rewrite skip_ws by done.
  rewrite forallb_Forall, list.Forall_forall in Hj.
  assert (Hu : Forall (fun kv => forallb is_unit kv.1 = true) ((k, x) :: o)).
  { apply list.Forall_forall. intros y Hy%Hj. by apply andb_true_iff in Hy as [? _]. }
  pose proof (parse_members_join ind ((k, x) :: o) [] [] t fuel Hr Hu) as Hp. cbn [app] in Hp.
  assert (Hfirst : exists u, join (wrap_sep ind) (map (member_text gap (ind ++ gap)) ((k, x) :: o)) = 34 :: u).
  { cbn [map]. unfold member_text at 1, json_quote. destruct (map _ o); cbn [join app]; by eexists. }
  destruct Hfirst as [u Hu']. rewrite Hu' in Hp |- *. cbn [app] in Hp |- *.
  apply Hp; [done|done|done|lia].
Qed.

Lemma parse_value_text v :
  jsonable v = true -> in_order v -> reads_back v.
Proof.
  induction v as [| |b|x|s| |l IH|o IH] using jsval_nested_ind; intros Hj Ho ind w t fuel Hind Hw Ht Hfuel;
    try done.
  all: destruct fuel as [|fuel]; [cbn in Hfuel; lia|]; cbn [parse_value]; rewrite skip_ws by done.
  - done.
  - by destruct b.
  - destruct (json_num_text gap ind x Hj) as (-> & Hn & Hx).
    pose proof (number_end t Ht _ _ _ Hn) as Hnt. cbn [app] in Hnt.
    destruct (json_number_head _ _ _ Hn) as (c & u & E & Hc). rewrite E in *. cbn [app] in *.
    destruct (number_unit c Hc) as (Hw' & _ & H1 & H2 & H3 & Hlit). destruct (Hlit (u ++ t)) as (L1 & L2 & L3).
    cbn [skip_json_ws]. unfold json_ws in Hw'. rewrite Hw', H1, H2, H3, L1, L2, L3, Hnt. by rewrite Hx.
  - unfold text_of. cbn [json_print default from_option id]. unfold id, json_quote. cbn [app].
    rewrite <-app_assoc. cbn [app skip_json_ws N.eqb Pos.eqb orb]. by rewrite parse_str_escape.
  - rewrite jsonable_arr in Hj. apply in_order_arr in Ho. rewrite need_arr in Hfuel.
    rewrite print_arr. destruct l as [|x l]; [done|].
    rewrite json_wrap_eq by done. cbn [app skip_json_ws N.eqb Pos.eqb orb].
    destruct (wrap_ws ind Hind) as (Hop & Hcl & _).
    rewrite <-!app_assoc. cbn [app]. rewrite skip_ws by done.
    assert (Hs : starts_solid (join (wrap_sep ind) (map (text_of gap (ind ++ gap)) (x :: l)))).
    { destruct (text_solid gap (ind ++ gap) x) as (c & u & Hc & Hcs); [by apply andb_true_iff in Hj as [? _]|].
      cbn [map]. rewrite Hc. destruct (map _ l); by eexists _, _. }
    rewrite solid_skip by done.
    assert (Hr : Forall reads_back (x :: l)).
    { apply list.Forall_forall. intros y Hy. rewrite forallb_Forall, list.Forall_forall in Hj.
      rewrite list.Forall_forall in IH, Ho. apply IH; [done|by apply Hj|by apply Ho]. }
    pose proof (parse_elements_join ind (x :: l) [] t fuel Hr) as Hp. cbn [app] in Hp.
    destruct Hs as (c & u & Hcu & _ & Hne). rewrite Hcu in Hp |- *. cbn [app] in Hp |- *.
    etransitivity; [exact (not_closing c _ (fun r => Ok (VArr [], r)) (parse_elements fuel) Hne)|].
    apply Hp; [done|done|done|lia].
  - apply in_order_obj in Ho as [Hord Ho]. rewrite <-Hord at 2.
    assert (Hf := Hj). rewrite jsonable_obj, forallb_Forall, list.Forall_forall in Hf.
    rewrite list.Forall_forall in IH, Ho.
    assert (Hr : Forall (fun kv => reads_back kv.2) o).
    { apply list.Forall_forall. intros y Hy. apply IH; [done| |by apply Ho].
      by apply Hf, andb_true_iff in Hy as [_ ?]. }
    pose proof (parse_value_obj o ind [] t (S fuel) Hj Hr Hind) as Hp. cbn [parse_value] in Hp.
    by apply Hp.
Qed.
End roundtrip.

(** The fuel of [json_parse] is enough for any printed value. *)
Lemma length_join_ge (sep : jstr) (l : list jstr) :
  (list_sum (map (@length N) l) + (length l - 1) * length sep <= length (join sep l))%nat.
Proof.
  induction l as [|x [|y l] IH]; [done|cbn; lia|].
  change (join sep (x :: y :: l)) with (x ++ sep ++ join sep (y :: l)).
  rewrite !length_app. cbn [map length] in *. rewrite ?list_sum_cons in *. lia.
Qed.

Lemma length_wrap op cl gap ind (parts : list jstr) :
  (list_sum (map (fun p => S (length p)) parts) < length (json_wrap op cl gap ind parts))%nat.
Proof.
  assert (H : forall sep : jstr, (1 <= length sep)%nat -> parts <> [] ->
    (list_sum (map (fun p => S (length p)) parts) <= S (length (join sep parts)))%nat).
  { intros sep Hsep Hne. pose proof (length_join_ge sep parts) as Hj.
    assert (list_sum (map (fun p => S (length p)) parts) = list_sum (map (@length N) parts) + length parts)%nat as ->.
    { clear. induction parts as [|p ps IH]; [done|]. cbn [map length] in *. rewrite ?list_sum_cons in *. lia. }
    destruct parts; [done|]. cbn [length] in *. nia. }
  destruct (decide (parts = [])) as [->|Hne]; [cbn; lia|].
  rewrite (json_wrap_eq gap op cl ind parts Hne). cbn [length]. rewrite !length_app. cbn [length].
  assert (1 <= length (wrap_sep gap ind))%nat as Hs by (unfold wrap_sep; destruct gap; cbn; lia).
  specialize (H _ Hs Hne). lia.
Qed.

Lemma need_text gap ind v : jsonable v = true -> (need v <= 2 * length (text_of gap ind v))%nat.
Proof.
  revert ind. induction v as [| |b|x|s| |l IH|o IH] using jsval_nested_ind; intros ind Hj; try done.
  1-4: destruct (text_solid gap ind _ Hj) as (c & u & -> & _); cbn; lia.
  - rewrite need_arr, print_arr. rewrite jsonable_arr, forallb_Forall in Hj.
    pose proof (length_wrap 91 93 gap ind (map (text_of gap (ind ++ gap)) l)) as Hl.
    rewrite map_map in Hl. assert (need_list l <= 2 * list_sum (map (fun x => S (length (text_of gap (ind ++ gap) x))) l))%nat; [|lia].
    clear Hl. induction IH as [|x l Hx _ IHl]; [cbn; lia|]. apply Forall_cons in Hj as [Hjx Hj].
    specialize (Hx (ind ++ gap) Hjx). specialize (IHl Hj).
    change (need_list (x :: l)) with (S (need x) + need_list l)%nat. cbn [map].
    rewrite list_sum_cons. lia.
  - rewrite need_obj, print_obj by done. rewrite jsonable_obj, forallb_Forall in Hj.
    pose proof (length_wrap 123 125 gap ind (map (member_text gap (ind ++ gap)) o)) as Hl.
    rewrite map_map in Hl. assert (need_members o <= 2 * list_sum (map (fun x => S (length (member_text gap (ind ++ gap) x))) o))%nat; [|lia].
    clear Hl. induction IH as [|[k x] o Hx _ IHo]; [cbn; lia|]. apply Forall_cons in Hj as [Hjx Hj].
    cbn [fst snd] in *. apply andb_true_iff in Hjx as [_ Hjx]. specialize (Hx (ind ++ gap) Hjx).
    specialize (IHo Hj).
    change (need_members ((k, x) :: o)) with (S (need x) + need_members o)%nat. cbn [map]. rewrite list_sum_cons.
    assert (length (text_of gap (ind ++ gap) x) <= length (member_text gap (ind ++ gap) (k, x)))%nat.
    { unfold member_text. rewrite length_app. cbn [length snd]. rewrite length_app. lia. }
    lia.
Qed.

Lemma json_parse_text gap v :
  forallb json_ws gap = true -> jsonable v = true -> in_order v ->
  json_parse (text_of gap [] v) = Ok v.
Proof.
  intros Hg Hj Ho. unfold json_parse.
  pose proof (parse_value_text gap Hg v Hj Ho [] [] [] (2 * length (text_of gap [] v) + 2)%nat) as H.
  cbn [app] in H. rewrite app_nil_r in H. rewrite H; [done|done|done|done|].
  pose proof (need_text gap [] v Hj). lia.
Qed.

Lemma json_parse_stringify v : jsonable v = true -> in_order v -> json_parse (stringify v) = Ok v.
Proof.
  intros Hj Ho. unfold stringify. rewrite jsonable_prints by done. by apply json_parse_text.
Qed.

Lemma json_parse_stringify2 v : jsonable v = true -> in_order v -> json_parse (stringify2 v) = Ok v.
Proof.
  intros Hj Ho. unfold stringify2. rewrite jsonable_prints by done. by apply json_parse_text.
Qed.

(** An object in any order: [JSON.parse] lists its keys in their order. *)
Lemma json_parse_text_obj gap o :
  forallb json_ws gap = true -> jsonable (VObj o) = true -> Forall (fun kv => in_order kv.2) o ->
  json_parse (text_of gap [] (VObj o)) = Ok (VObj (obj_of o)).
Proof.
  intros Hg Hj Ho. unfold json_parse.
  assert (Hr : Forall (fun kv => reads_back gap kv.2) o).
  { rewrite list.Forall_forall in Ho |- *. intros y Hy. apply parse_value_text; [done| |by apply Ho].
    rewrite jsonable_obj, forallb_Forall, list.Forall_forall in Hj.
    by apply Hj, andb_true_iff in Hy as [_ ?]. }
  pose proof (parse_value_obj gap Hg o [] [] [] (2 * length (text_of gap [] (VObj o)) + 2)%nat Hj Hr eq_refl eq_refl) as H.
  cbn [app] in H. rewrite app_nil_r in H. rewrite H; [done|]. pose proof (need_text gap [] _ Hj). lia.
Qed.

Lemma json_parse_stringify_obj o :
  jsonable (VObj o) = true -> Forall (fun kv => in_order kv.2) o ->
  json_parse (stringify (VObj o)) = Ok (VObj (obj_of o)).
Proof.
  intros Hj Ho. unfold stringify. rewrite jsonable_prints by done. by apply json_parse_text_obj.
Qed.

Lemma json_parse_stringify2_obj o :
  jsonable (VObj o) = true -> Forall (fun kv => in_order kv.2) o ->
  json_parse (stringify2 (VObj o)) = Ok (VObj (obj_of o)).
Proof.
  intros Hj Ho. unfold stringify2. rewrite jsonable_prints by done. by apply json_parse_text_obj.
Qed.
