(* ===== verification/JsStorable.v ===== *)
(** * Objects that survive printing

    An object without repeated keys whose values can be printed is what
    [JSON.parse] gives back for its text, up to the order of the keys. *)
From S2P Require Import Prelude JsString JsNumber JsValue JsValueFacts JsJson JsJsonFacts JsJsonRoundtrip.
Open Scope N_scope.

(** Decide the equalities of literal keys. *)
Ltac js_keys :=
  repeat match goal with
  | |- context [bool_decide (js ?a = js ?b)] =>
      let r := eval vm_compute in (bool_decide (js a = js b)) in
      change (bool_decide (js a = js b)) with r
  end; cbv iota.

Definition printable (v : jsval) : Prop := jsonable v = true /\ in_order v.

(** As [printable (VObj o)], with the keys in any order. *)
Definition storable (o : jsobj) : Prop :=
  okeys_nodup o /\ Forall (fun kv => forallb is_unit kv.1 = true /\ printable kv.2) o.

Lemma storable_jsonable o :
  storable o -> jsonable (VObj o) = true /\ Forall (fun kv => in_order kv.2) o.
Proof.
  intros [_ H]. rewrite list.Forall_forall in H. split.
  - rewrite jsonable_obj, forallb_Forall, list.Forall_forall. intros kv Hkv.
    destruct (H kv Hkv) as [-> [-> _]]. done.
  - apply list.Forall_forall. intros kv Hkv. by destruct (H kv Hkv) as [_ [_ ?]].
Qed.

Lemma storable_json o : storable o -> json_parse (stringify (VObj o)) = Ok (VObj (obj_of o)).
Proof. intros [? ?]%storable_jsonable. by apply json_parse_stringify_obj. Qed.

Lemma storable_json2 o : storable o -> json_parse (stringify2 (VObj o)) = Ok (VObj (obj_of o)).
Proof. intros [? ?]%storable_jsonable. by apply json_parse_stringify2_obj. Qed.

(** The text of an object is enclosed in braces. *)
Lemma json_wrap_ends op cl gap ind parts : exists t, json_wrap op cl gap ind parts = op :: t ++ [cl].
Proof.
  unfold json_wrap. destruct parts as [|p ps]; [by exists []|].
  destruct gap as [|g gap]; [by eexists|]. cbv zeta. set (ind' := ind ++ g :: gap).
  exists (10 :: ind' ++ join (44 :: 10 :: ind') (p :: ps) ++ 10 :: ind).
  cbn [app]. by rewrite <-!app_assoc.
Qed.

Lemma print_obj_ends gap o : exists t, default (js "undefined") (json_print gap [] (VObj o)) = 123 :: t ++ [125].
Proof. cbn [json_print default from_option id]. unfold id. apply json_wrap_ends. Qed.

Lemma stringify_obj_head o : exists t, stringify (VObj o) = 123 :: t.
Proof. destruct (print_obj_ends [] o) as [t E]. by exists (t ++ [125]). Qed.

Lemma truthy_stringify o : truthy (VStr (stringify (VObj o))) = true.
Proof. by destruct (stringify_obj_head o) as [t ->]. Qed.

Lemma trim_text_obj gap o :
  trim (default (js "undefined") (json_print gap [] (VObj o))) = default (js "undefined") (json_print gap [] (VObj o)).
Proof.
  destruct (print_obj_ends gap o) as [t ->]. apply trim_id. unfold trimmed.
  change (123 :: t ++ [125]) with ((123 :: t) ++ [125]). by rewrite rev_app_distr.
Qed.

Lemma trim_stringify o : trim (stringify (VObj o)) = stringify (VObj o).
Proof. apply trim_text_obj. Qed.

Lemma trim_stringify2 o : trim (stringify2 (VObj o)) = stringify2 (VObj o).
Proof. apply trim_text_obj. Qed.

Lemma trim_stringify_obj o : trim (stringify (VObj o)) <> [].
Proof. rewrite trim_stringify. by destruct (stringify_obj_head o) as [t ->]. Qed.

Lemma keys_map (g : jstr * jsval -> jsval) l : map fst (map (fun kd => (kd.1, g kd)) l) = map fst l.
Proof. induction l as [|x l IH]; [done|]. cbn [map fst]. by rewrite IH. Qed.

Lemma olookup_map_nodup (kd : jstr * jsval) (g : jstr * jsval -> jsval) l :
  NoDup (map fst l) -> kd ∈ l -> olookup kd.1 (map (fun x => (x.1, g x)) l) = Some (g kd).
Proof.
  induction l as [|x l IH]; [by intros _ ?%not_elem_of_nil|]. cbn [map olookup fst snd].
  intros [Hx Hn]%NoDup_cons. rewrite elem_of_cons. intros [<-|Hin]; [by rewrite bool_decide_eq_true_2|].
  rewrite bool_decide_eq_false_2; [by apply IH|]. intros E. apply Hx. rewrite <-E.
  apply list_elem_of_fmap. by exists kd.
Qed.

Lemma elem_olookup k v o : okeys_nodup o -> (k, v) ∈ o -> olookup k o = Some v.
Proof.
  induction o as [|[k' v'] o IH]; intros Hn Hin; [by apply not_elem_of_nil in Hin|].
  unfold okeys_nodup in Hn. cbn [okeys map fst] in Hn. apply NoDup_cons in Hn as [Hk Hn]. cbn [olookup].
  apply elem_of_cons in Hin as [[= -> ->]|Hin]; [by rewrite bool_decide_eq_true_2|].
  rewrite bool_decide_eq_false_2; [by apply IH|]. intros ->. apply Hk, list_elem_of_fmap. by exists (k', v).
Qed.

(** An invariant of the members of an object, by lookups. *)
Lemma Forall_olookup (P : jstr * jsval -> Prop) o :
  okeys_nodup o -> Forall P o <-> (forall k v, olookup k o = Some v -> P (k, v)).
Proof.
  intros Hn. rewrite list.Forall_forall. split; [intros H k v Hk; by apply H, olookup_elem|].
  intros H [k v] Hin. by apply H, elem_olookup.
Qed.

Lemma elem_of_oset kv k v o : kv ∈ oset k v o -> kv = (k, v) \/ kv ∈ o.
Proof.
  unfold oset. destruct (olookup k o).
  - induction o as [|[k' v'] o IH]; cbn [oreplace]; [by intros ?%not_elem_of_nil|].
    case_bool_decide; rewrite !elem_of_cons; naive_solver.
  - induction o as [|[k' v'] o IH]; cbn [oinsert].
    { rewrite elem_of_cons. naive_solver. }
    destruct (array_index k) as [n|]; [destruct (array_index k') as [n'|]; [destruct (n <? n')|]|];
      rewrite !elem_of_cons; naive_solver.
Qed.

Lemma storable_oset k v o :
  forallb is_unit k = true -> printable v -> storable o -> storable (oset k v o).
Proof.
  intros Hk Hv [Hn H]. split; [by apply NoDup_oset|]. rewrite list.Forall_forall in H |- *.
  intros kv [->|?]%elem_of_oset; [done|auto].
Qed.

Lemma storable_odelete k o : storable o -> storable (odelete k o).
Proof.
  intros [Hn H]. split; [by apply NoDup_odelete|]. rewrite list.Forall_forall in H |- *.
  intros kv Hkv. apply list_elem_of_In, filter_In in Hkv as [Hkv _]. apply H. by apply list_elem_of_In.
Qed.

Lemma printable_bool b : printable (VBool b).
Proof. done. Qed.

Lemma printable_strings l : Forall (fun s => forallb is_unit s = true) l -> printable (VArr (map VStr l)).
Proof.
  intros H. split.
  - rewrite jsonable_arr, forallb_Forall. by apply Forall_fmap.
  - rewrite in_order_arr. apply Forall_fmap. by eapply Forall_impl.
Qed.

(** ** Properties of all entries *)

Lemma Forall_oset (P : jstr * jsval -> Prop) k v o : P (k, v) -> Forall P o -> Forall P (oset k v o).
Proof.
  rewrite !list.Forall_forall. intros Hv Ho kv [->|?]%elem_of_oset; [done|auto].
Qed.

Lemma Forall_ospread (P : jstr * jsval -> Prop) a b : Forall P b -> Forall P a -> Forall P (ospread a b).
Proof.
  unfold ospread. intros H. revert a. induction H as [|[k v] b Hkv _ IH]; intros a Ha; [done|].
  cbn [fold_left fst snd]. by apply IH, Forall_oset.
Qed.

Lemma Forall_obj_of (P : jstr * jsval -> Prop) o : Forall P o -> Forall P (obj_of o).
Proof. intros H. apply Forall_ospread; [done|constructor]. Qed.

(** A loop that assigns each entry is a spread. *)
Lemma fold_oset (f : jsobj -> jstr * jsval -> jsobj) (P : jstr * jsval -> Prop) l o :
  (forall o kv, P kv -> f o kv = oset kv.1 kv.2 o) -> Forall P l -> fold_left f l o = ospread o l.
Proof.
  intros Hf H. revert o. unfold ospread. induction H as [|kv l Hkv _ IH]; intros o; [done|].
  cbn [fold_left]. by rewrite Hf, IH.
Qed.
