(* ===== verification/JsLiteral.v ===== *)
(** * Objects built by successive assignments

    Assigning distinct keys that are no array indices appends the properties
    in the order of the assignments; such an object prints and reads back. *)
From S2P Require Import Prelude JsString JsNumber JsValue JsValueFacts JsJson JsJsonFacts JsJsonRoundtrip JsStorable.
Open Scope N_scope.

Lemma oset_fresh k v o : k ∉ okeys o -> array_index k = None -> oset k v o = o ++ [(k, v)].
Proof.
  intros Hk Ha. unfold oset. apply olookup_None in Hk as ->. induction o as [|[k' v'] o IH]; [done|].
  cbn [oinsert app]. rewrite Ha. by rewrite IH.
Qed.

Lemma oset_replace k v w a b : k ∉ okeys a -> oset k v (a ++ (k, w) :: b) = a ++ (k, v) :: b.
Proof.
  intros Hk. unfold oset.
  assert (E : olookup k (a ++ (k, w) :: b) = Some w).
  { induction a as [|[k' v'] a IH]; cbn [app olookup]; [by rewrite bool_decide_eq_true_2|].
    cbn [okeys map fst] in Hk. apply not_elem_of_cons in Hk as [Hne Hk].
    rewrite bool_decide_eq_false_2 by done. by apply IH. }
  rewrite E. clear E. induction a as [|[k' v'] a IH]; cbn [app oreplace]; [by rewrite bool_decide_eq_true_2|].
  cbn [okeys map fst] in Hk. apply not_elem_of_cons in Hk as [Hne Hk].
  rewrite bool_decide_eq_false_2 by done. by rewrite IH.
Qed.

(** A property that may be absent. *)
Definition entry (k : jstr) (v : option jsval) : jsobj := match v with Some v => [(k, v)] | None => [] end.

Lemma olookup_app k a b :
  olookup k (a ++ b) = match olookup k a with Some v => Some v | None => olookup k b end.
Proof.
  induction a as [|[k' v'] a IH]; [done|]. cbn [app olookup]. by destruct (bool_decide (k = k')).
Qed.

Lemma olookup_entry k k' v : olookup k (entry k' v) = if bool_decide (k = k') then v else None.
Proof. destruct v; cbn [entry olookup]; by destruct (bool_decide (k = k')). Qed.

Lemma okeys_app a b : okeys (a ++ b) = okeys a ++ okeys b.
Proof. apply map_app. Qed.

Lemma okeys_entry k v : okeys (entry k v) ⊆ [k].
Proof. destruct v; cbn; set_solver. Qed.

Definition plain_keys (o : jsobj) : Prop := okeys_nodup o /\ Forall (fun k => array_index k = None) (okeys o).

Lemma plain_keys_nil : plain_keys [].
Proof. split; constructor. Qed.

Lemma plain_keys_oset k v o : array_index k = None -> plain_keys o -> plain_keys (oset k v o).
Proof.
  intros Hk [Hn Hf]. split; [by apply NoDup_oset|]. rewrite list.Forall_forall in Hf |- *.
  intros k' [->|?]%okeys_oset; [done|by apply Hf].
Qed.

Lemma obj_of_plain o : plain_keys o -> obj_of o = o.
Proof.
  unfold obj_of, ospread. intros [Hn Hf].
  assert (H : forall a, okeys_nodup (a ++ o) -> fold_left (fun acc kv => oset kv.1 kv.2 acc) o a = a ++ o).
  { clear Hn. induction o as [|[k v] o IH]; intros a Ha; [by rewrite app_nil_r|].
    cbn [okeys map fst] in Hf. apply Forall_cons in Hf as [Hk Hf]. cbn [fold_left fst snd].
    rewrite oset_fresh; [|clear -Ha|done].
    - rewrite (IH Hf); rewrite <-app_assoc; done.
    - unfold okeys_nodup in Ha. rewrite okeys_app in Ha. cbn [okeys map fst] in Ha.
      apply NoDup_app in Ha as (_ & Ha & _). intros Hin. apply (Ha k Hin). by left. }
  by apply (H []).
Qed.

(** ** Objects that print *)

Definition good_object (o : jsobj) : Prop :=
  plain_keys o /\ Forall (fun kv => forallb is_unit kv.1 = true /\ printable kv.2) o.

Lemma good_object_nil : good_object [].
Proof. split; [apply plain_keys_nil|constructor]. Qed.

Lemma good_object_oset k v o :
  array_index k = None -> forallb is_unit k = true -> printable v -> good_object o -> good_object (oset k v o).
Proof. intros ??? [??]. split; [by apply plain_keys_oset|by apply Forall_oset]. Qed.

Lemma printable_object o : good_object o -> printable (VObj o).
Proof.
  intros [Hp Hf]. destruct (storable_jsonable o) as [Hj Ho]; [by split; [apply Hp|]|].
  split; [done|]. rewrite in_order_obj. split; [by apply obj_of_plain|done].
Qed.

Lemma printable_list l : Forall printable l -> printable (VArr l).
Proof.
  intros H. split.
  - rewrite jsonable_arr, forallb_Forall. eapply Forall_impl; [exact H|]. by intros v [? _].
  - rewrite in_order_arr. eapply Forall_impl; [exact H|]. by intros v [_ ?].
Qed.

Lemma printable_string s : forallb is_unit s = true -> printable (VStr s).
Proof. by split. Qed.
