(* ===== verification/BillingExpr.v ===== *)
(** * Billing expressions (features/pricing/lib/billing-expr.ts)

    The parser and the printer of the billing expression editor: tiers, request
    rules (conditional multipliers), and the split of a full expression into
    its base and its rules.  The regular expressions are the source's text,
    parsed by [JsRegex]. *)
From S2P Require Import Prelude JsString JsNumber JsValue JsJson JsRegex.
Open Scope N_scope.

(** ** Variable registry *)

Inductive side := SideInput | SideOutput | SideCondition.

Record BillingVar := MkBillingVar {
  bv_key : jstr;
  bv_field : option jstr;
  bv_tierField : option jstr;
  bv_label : jstr;
  bv_shortLabel : jstr;
  bv_side : side;
  bv_isBase : bool;
  bv_isConditionOnly : bool;
  bv_group : option jstr
}.

Definition BILLING_VARS : list BillingVar :=
  [ MkBillingVar (js "p") (Some (js "inputPrice")) (Some (js "input_unit_cost"))
      (js "Input price") (js "Input") SideInput true false None;
    MkBillingVar (js "c") (Some (js "outputPrice")) (Some (js "output_unit_cost"))
      (js "Completion price") (js "Output") SideOutput true false None;
    MkBillingVar (js "len") None None
      (js "Input length") (js "Length") SideCondition false true None;
    MkBillingVar (js "cr") (Some (js "cacheReadPrice")) (Some (js "cache_read_unit_cost"))
      (js "Cache read price") (js "Cache Read") SideInput false false (Some (js "cache"));
    MkBillingVar (js "cc") (Some (js "cacheCreatePrice")) (Some (js "cache_create_unit_cost"))
      (js "Cache create price") (js "Cache Write") SideInput false false (Some (js "cache"));
    MkBillingVar (js "cc1h") (Some (js "cacheCreate1hPrice")) (Some (js "cache_create_1h_unit_cost"))
      (js "Cache create (1h) price") (js "Cache Write (1h)") SideInput false false (Some (js "cache"));
    MkBillingVar (js "img") (Some (js "imagePrice")) (Some (js "image_unit_cost"))
      (js "Image input price") (js "Image In") SideInput false false (Some (js "media"));
    MkBillingVar (js "img_o") (Some (js "imageOutputPrice")) (Some (js "image_output_unit_cost"))
      (js "Image output price") (js "Image Out") SideOutput false false (Some (js "media"));
    MkBillingVar (js "ai") (Some (js "audioInputPrice")) (Some (js "audio_input_unit_cost"))
      (js "Audio input price") (js "Audio In") SideInput false false (Some (js "media"));
    MkBillingVar (js "ao") (Some (js "audioOutputPrice")) (Some (js "audio_output_unit_cost"))
      (js "Audio output price") (js "Audio Out") SideOutput false false (Some (js "media")) ].

Definition BILLING_PRICING_VARS : list BillingVar :=
  List.filter (fun v => negb (bv_isConditionOnly v)) BILLING_VARS.

Definition BILLING_CONDITION_VARS : list jstr :=
  map bv_key (List.filter (fun v => bv_isBase v || bv_isConditionOnly v) BILLING_VARS).

Definition BILLING_VAR_KEY_TO_FIELD : list (jstr * jstr) :=
  map (fun v => (bv_key v, default [] (bv_field v))) BILLING_PRICING_VARS.

Definition BILLING_EXTRA_VARS : list BillingVar :=
  List.filter (fun v => negb (bv_isBase v) && negb (bv_isConditionOnly v)) BILLING_VARS.

(** The pairs [(field, exprVar)]. *)
Definition BILLING_CACHE_VAR_MAP : list (jstr * jstr) :=
  map (fun v => (default [] (bv_tierField v), bv_key v)) BILLING_EXTRA_VARS.

Definition BILLING_VAR_REGEX : regex := Eval vm_compute in
  re (js "\b(" ++ join (js "|") (map bv_key BILLING_PRICING_VARS)
      ++ js ")\s*\*\s*([\d.eE+-]+)").

(** ** Request rule constants *)

Definition SOURCE_PARAM : jstr := js "param".
Definition SOURCE_HEADER : jstr := js "header".
Definition SOURCE_TIME : jstr := js "time".

Definition MATCH_EQ : jstr := js "eq".
Definition MATCH_CONTAINS : jstr := js "contains".
Definition MATCH_GT : jstr := js "gt".
Definition MATCH_GTE : jstr := js "gte".
Definition MATCH_LT : jstr := js "lt".
Definition MATCH_LTE : jstr := js "lte".
Definition MATCH_EXISTS : jstr := js "exists".
Definition MATCH_RANGE : jstr := js "range".

Definition TIME_FUNCS : list jstr :=
  [js "hour"; js "minute"; js "weekday"; js "month"; js "day"].

(** Value and label of the time zones offered. *)
Definition COMMON_TIMEZONES : list (jstr * jstr) :=
  [ (js "Asia/Shanghai", js "UTC+8 Shanghai (Asia/Shanghai)");
    (js "UTC", js "UTC");
    (js "America/New_York", js "UTC-5 New York (America/New_York)");
    (js "America/Los_Angeles", js "UTC-8 Los Angeles (America/Los_Angeles)");
    (js "America/Chicago", js "UTC-6 Chicago (America/Chicago)");
    (js "Europe/London", js "UTC+0 London (Europe/London)");
    (js "Europe/Berlin", js "UTC+1 Berlin (Europe/Berlin)");
    (js "Asia/Tokyo", js "UTC+9 Tokyo (Asia/Tokyo)");
    (js "Asia/Singapore", js "UTC+8 Singapore (Asia/Singapore)");
    (js "Asia/Seoul", js "UTC+9 Seoul (Asia/Seoul)");
    (js "Australia/Sydney", js "UTC+10 Sydney (Australia/Sydney)") ].

Definition NUMERIC_LITERAL_REGEX : regex := Eval vm_compute in
  re (js "^-?(?:\d+\.?\d*|\.\d+)(?:[eE][+-]?\d+)?$").

(** ['param' | 'header'] *)
Inductive PHSource := SrcParam | SrcHeader.

Record ParamHeaderCondition := MkPH {
  ph_source : PHSource; ph_path : jstr; ph_mode : jstr; ph_value : jstr
}.

Record TimeCondition := MkTime {
  tm_timeFunc : jstr; tm_timezone : jstr; tm_mode : jstr; tm_value : jstr;
  tm_rangeStart : jstr; tm_rangeEnd : jstr
}.

Inductive RequestCondition :=
  | CondTime (c : TimeCondition)
  | CondPH (c : ParamHeaderCondition).

Record RequestRuleGroup := MkGroup {
  rg_conditions : list RequestCondition; rg_multiplier : jstr
}.

Record TierCondition := MkTierCondition {
  tc_var : jstr; tc_op : jstr; tc_value : num
}.

(** The price fields of a tier are those of the index signature. *)
Record ParsedTier := MkParsedTier {
  pt_label : jstr; pt_conditions : list TierCondition; pt_fields : list (jstr * num)
}.

(** ** Tier parser *)

Definition EXPR_VERSION_REGEX : regex := Eval vm_compute in re (js "^v(\d+):([\s\S]*)$").

Definition stripExprVersion (exprStr : jstr) : num * jstr :=
  match exprStr with
  | [] => (num_of_Z 1, [])
  | _ => match re_match EXPR_VERSION_REGEX exprStr with
         | Some m => (num_of_str (cap_str 1 m), cap_str 2 m)
         | None => (num_of_Z 1, exprStr)
         end
  end.

Definition parseTierBody (bodyStr : jstr) : list (jstr * num) :=
  let coeffs :=
    fold_left (fun (coeffs : list (jstr * num)) m =>
        let name := default [] (mjoin (mr_caps m !! 1%nat)) in
        match assoc name coeffs with
        | Some _ => coeffs
        | None => coeffs ++ [(name, num_of_str (default [] (mjoin (mr_caps m !! 2%nat))))]
        end)
      (re_all BILLING_VAR_REGEX bodyStr) [] in
  map (fun '(varName, field) =>
         (field, match assoc varName coeffs with
                 | Some v => if num_truthy v then v else nzero
                 | None => nzero
                 end))
      BILLING_VAR_KEY_TO_FIELD.

Definition COND_GROUP : jstr :=
  js "((?:(?:p|c|len)\s*(?:<|<=|>|>=)\s*[\d.eE+]+)"
  ++ js "(?:\s*&&\s*(?:p|c|len)\s*(?:<|<=|>|>=)\s*[\d.eE+]+)*)".

Definition TIER_REGEX : regex := Eval vm_compute in
  re (js "(?:" ++ COND_GROUP ++ jsq "\s*\?\s*)?tier\(`([^`]*)`,\s*([^)]+)\)").

Definition AND_SPLIT_REGEX : regex := Eval vm_compute in re (js "\s*&&\s*").

Definition TIER_COND_REGEX : regex := Eval vm_compute in
  re (js "^(p|c|len)\s*(<|<=|>|>=)\s*([\d.eE+]+)$").

(** The conditions in front of a tier. *)
Definition parseTierConditions (condStr : jstr) : list TierCondition :=
  match condStr with
  | [] => []
  | _ => omap (fun cp =>
             cm ← re_match TIER_COND_REGEX (trim cp);
             Some (MkTierCondition (cap_str 1 cm) (cap_str 2 cm) (num_of_str (cap_str 3 cm))))
           (re_split AND_SPLIT_REGEX condStr)
  end.

Definition parseTiersFromExpr (exprStr : jstr) : list ParsedTier :=
  match exprStr with
  | [] => []
  | _ =>
      let body := (stripExprVersion exprStr).2 in
      map (fun m =>
             let g i := default [] (mjoin (mr_caps m !! i)) in
             MkParsedTier (g 2%nat) (parseTierConditions (g 1%nat)) (parseTierBody (g 3%nat)))
        (re_all TIER_REGEX body)
  end.

Definition LESS_REGEX : regex := Eval vm_compute in re (js "<[=＝]?|≤|＜[=＝]?").
Definition GREATER_REGEX : regex := Eval vm_compute in re (js ">[=＝]?|≥|＞[=＝]?").
Definition SPACES_REGEX : regex := Eval vm_compute in re (js "\s+").

Definition normalizeTierLabel (label : option jstr) : jstr :=
  match label with
  | None | Some [] => []
  | Some label =>
      to_lower (re_replace_all SPACES_REGEX (fun _ => [])
        (re_replace_all GREATER_REGEX (fun _ => js ">")
          (re_replace_all LESS_REGEX (fun _ => js "<") label)))
  end.

(** ** Request rule parser *)

Definition paren_depth (c : N) (depth : Z) : Z :=
  if c =? 40 then (depth + 1)%Z else if c =? 41 then (depth - 1)%Z else depth.

(** The loop of [splitTopLevelMultiply] and [splitTopLevelAnd]: the suffix
    read so far is [cur] (reversed), [skip] units of a separator are left. *)
Fixpoint split_top (sep : jstr) (skip : nat) (depth : Z) (cur s : jstr) : list jstr :=
  match s with
  | [] => [trim (rev cur)]
  | c :: s' =>
      match skip with
      | S n => split_top sep n depth cur s'
      | O =>
          let depth := paren_depth c depth in
          if (depth =? 0)%Z && starts_with sep s
          then trim (rev cur) :: split_top sep (length sep - 1) depth [] s'
          else split_top sep 0 depth (c :: cur) s'
      end
  end.

Definition splitTopLevelMultiply (expr : jstr) : list jstr :=
  List.filter str_truthy (split_top (js " * ") 0 0 [] expr).

Definition splitTopLevelAnd (expr : jstr) : list jstr :=
  List.filter str_truthy (split_top (js " && ") 0 0 [] expr).

(** [null] (also the value of the JSON text [null]) is [None]. *)
Definition parseExprLiteral (raw : jstr) : option jsval :=
  let text := trim raw in
  if bool_decide (text = js "true") || bool_decide (text = js "false") then Some (VStr text)
  else if re_test NUMERIC_LITERAL_REGEX text then Some (VStr text)
  else match json_parse text with
       | Ok VNull => None
       | Ok v => Some v
       | Throw _ => None
       end.

Definition TIME_RANGE_REGEX : regex := Eval vm_compute in
  re (jsq "^(hour|minute|weekday|month|day)\(`([^`]+)`\) >= ([\d.eE+-]+) \|\| \1\(`\2`\) < ([\d.eE+-]+)$").
Definition TIME_RANGE_PAREN_REGEX : regex := Eval vm_compute in
  re (jsq "^\((hour|minute|weekday|month|day)\(`([^`]+)`\) >= ([\d.eE+-]+) \|\| \1\(`\2`\) < ([\d.eE+-]+)\)$").
Definition TIME_COMPARE_REGEX : regex := Eval vm_compute in
  re (jsq "^(hour|minute|weekday|month|day)\(`([^`]+)`\) (==|>=|<) ([\d.eE+-]+)$").

Definition TIME_PARSE_OPS : list (jstr * jstr) :=
  [(js "==", MATCH_EQ); (js ">=", MATCH_GTE); (js "<", MATCH_LT)].

Definition tryParseTimeCondition (expr : jstr) : option RequestCondition :=
  match re_match TIME_RANGE_REGEX expr with
  | Some m => Some (CondTime (MkTime (cap_str 1 m) (cap_str 2 m) MATCH_RANGE []
                                (cap_str 3 m) (cap_str 4 m)))
  | None =>
  match re_match TIME_RANGE_PAREN_REGEX expr with
  | Some m => Some (CondTime (MkTime (cap_str 1 m) (cap_str 2 m) MATCH_RANGE []
                                (cap_str 3 m) (cap_str 4 m)))
  | None =>
  match re_match TIME_COMPARE_REGEX expr with
  | Some m => Some (CondTime (MkTime (cap_str 1 m) (cap_str 2 m)
                                (str_or (default [] (assoc (cap_str 3 m) TIME_PARSE_OPS)) MATCH_EQ)
                                (cap_str 4 m) [] []))
  | None => None
  end end end.

Definition HEADER_EXISTS_REGEX : regex := Eval vm_compute in
  re (jsq "^header\(`([^`]+)`\) != ``$").
Definition PARAM_EXISTS_REGEX : regex := Eval vm_compute in
  re (jsq "^param\(`([^`]+)`\) != nil$").
Definition HEADER_CONTAINS_REGEX : regex := Eval vm_compute in
  re (jsq "^has\(header\(`([^`]+)`\), ((?:`(?:[^`\\]|\\.)*`))\)$").
Definition PARAM_CONTAINS_REGEX : regex := Eval vm_compute in
  re (jsq "^param\(`([^`]+)`\) != nil && has\(param\(`([^`]+)`\), ((?:`(?:[^`\\]|\\.)*`))\)$").
Definition PARAM_COMPARE_REGEX : regex := Eval vm_compute in
  re (jsq "^param\(`([^`]+)`\) != nil && param\(`([^`]+)`\) (>|>=|<|<=) ([\d.eE+-]+)$").
Definition EQ_REGEX : regex := Eval vm_compute in
  re (jsq "^(param|header)\(`([^`]+)`\) == (.+)$").

Definition PARAM_PARSE_OPS : list (jstr * jstr) :=
  [(js ">", MATCH_GT); (js ">=", MATCH_GTE); (js "<", MATCH_LT); (js "<=", MATCH_LTE)].

(** [JSON.parse(text) as string] of a string literal: the text is a JSON
    string or the call throws. *)
Definition json_string (text : jstr) : res jstr :=
  let* v := json_parse text in to_str v.

(** The last branch: an equality with a literal. *)
Definition parseEqCondition (expr : jstr) : res (option RequestCondition) :=
  match re_match EQ_REGEX expr with
  | Some m =>
      match parseExprLiteral (cap_str 3 m) with
      | None => Ok None
      | Some parsedValue =>
          let* value := to_str parsedValue in
          Ok (Some (CondPH (MkPH (if bool_decide (cap_str 1 m = js "header")
                                  then SrcHeader else SrcParam)
                                 (cap_str 2 m) MATCH_EQ value)))
      end
  | None => Ok None
  end.

(** [m && m[1] === m[2]] *)
Definition same_path (m : list (option jstr)) : option (list (option jstr)) :=
  if bool_decide (cap_str 1 m = cap_str 2 m) then Some m else None.

(** The two branches that need the same path on both sides, then the last. *)
Definition parseParamPair (expr : jstr) : res (option RequestCondition) :=
  match (m ← re_match PARAM_CONTAINS_REGEX expr; same_path m) with
  | Some m =>
      let* value := json_string (cap_str 3 m) in
      Ok (Some (CondPH (MkPH SrcParam (cap_str 1 m) MATCH_CONTAINS value)))
  | None =>
  match (m ← re_match PARAM_COMPARE_REGEX expr; same_path m) with
  | Some m =>
      Ok (Some (CondPH (MkPH SrcParam (cap_str 1 m)
                          (default [] (assoc (cap_str 3 m) PARAM_PARSE_OPS)) (cap_str 4 m))))
  | None => parseEqCondition expr
  end end.

Definition tryParseRequestCondition (expr : jstr) : res (option RequestCondition) :=
  match tryParseTimeCondition expr with
  | Some tc => Ok (Some tc)
  | None =>
  match re_match HEADER_EXISTS_REGEX expr with
  | Some m => Ok (Some (CondPH (MkPH SrcHeader (cap_str 1 m) MATCH_EXISTS [])))
  | None =>
  match re_match PARAM_EXISTS_REGEX expr with
  | Some m => Ok (Some (CondPH (MkPH SrcParam (cap_str 1 m) MATCH_EXISTS [])))
  | None =>
  match re_match HEADER_CONTAINS_REGEX expr with
  | Some m => let* value := json_string (cap_str 2 m) in
              Ok (Some (CondPH (MkPH SrcHeader (cap_str 1 m) MATCH_CONTAINS value)))
  | None => parseParamPair expr
  end end end end.

Definition RULE_FACTOR_REGEX : regex := Eval vm_compute in
  re_s (js "^\((.+) \? ([\d.eE+-]+) : 1\)$").

(** The conditions of a factor: the first that does not parse gives [None]. *)
Fixpoint parseConditions (andParts : list jstr) : res (option (list RequestCondition)) :=
  match andParts with
  | [] => Ok (Some [])
  | ap :: rest =>
      let* cond := tryParseRequestCondition (trim ap) in
      match cond with
      | None => Ok None
      | Some c =>
          let* cs := parseConditions rest in
          Ok (cons c <$> cs)
      end
  end.

Definition tryParseRuleGroupFactor (part : jstr) : res (option RequestRuleGroup) :=
  match re_match RULE_FACTOR_REGEX part with
  | None => Ok None
  | Some m =>
      let* conditions := parseConditions (splitTopLevelAnd (cap_str 1 m)) in
      match conditions with
      | None | Some [] => Ok None
      | Some cs => Ok (Some (MkGroup cs (cap_str 2 m)))
      end
  end.

Fixpoint parseFactors (parts : list jstr) : res (option (list RequestRuleGroup)) :=
  match parts with
  | [] => Ok (Some [])
  | part :: rest =>
      let* group := tryParseRuleGroupFactor part in
      match group with
      | None => Ok None
      | Some g =>
          let* gs := parseFactors rest in
          Ok (cons g <$> gs)
      end
  end.

Definition tryParseRequestRuleExpr (expr : jstr) : res (option (list RequestRuleGroup)) :=
  match trim expr with
  | [] => Ok (Some [])
  | trimmed => parseFactors (splitTopLevelMultiply trimmed)
  end.

(** ** Combine / split billing expr and request rules *)

Fixpoint outer_parens_from (depth : Z) (s : jstr) : bool :=
  match s with
  | [] => (depth =? 0)%Z
  | c :: s' =>
      let depth := paren_depth c depth in
      if (depth =? 0)%Z && str_truthy s' then false else outer_parens_from depth s'
  end.

Definition hasFullOuterParens (expr : jstr) : bool :=
  if negb (starts_with (js "(") expr) || negb (ends_with (js ")") expr) then false
  else outer_parens_from 0 expr.

(** Every turn removes two units: the length bounds the loop. *)
Fixpoint unwrap_loop (fuel : nat) (current : jstr) : jstr :=
  match fuel with
  | O => current
  | S fuel =>
      if hasFullOuterParens current
      then unwrap_loop fuel (trim (substring 1 (length current - 1) current))
      else current
  end.

Definition unwrapOuterParens (expr : jstr) : jstr :=
  let current := trim expr in unwrap_loop (length current) current.

(** The parts of a product that are request rules, and the others. *)
Fixpoint classifyParts (parts : list jstr) : res (list jstr * list jstr) :=
  match parts with
  | [] => Ok ([], [])
  | part :: rest =>
      let* parsed := tryParseRequestRuleExpr part in
      let* rb := classifyParts rest in
      match parsed with
      | Some (_ :: _) => Ok (part :: rb.1, rb.2)
      | _ => Ok (rb.1, part :: rb.2)
      end
  end.

(** The pair [(billingExpr, requestRuleExpr)]. *)
Definition splitBillingExprAndRequestRules (expr : jstr) : res (jstr * jstr) :=
  match trim expr with
  | [] => Ok ([], [])
  | trimmed =>
      let parts := splitTopLevelMultiply trimmed in
      if (length parts <=? 1)%nat then Ok (trimmed, [])
      else
        let* rb := classifyParts parts in
        match rb with
        | ((_ :: _) as ruleParts, [basePart]) =>
            Ok (unwrapOuterParens basePart, join (js " * ") ruleParts)
        | _ => Ok (trimmed, [])
        end
  end.

Definition combineBillingExpr (baseExpr requestRuleExpr : jstr) : jstr :=
  let base := trim baseExpr in
  let rules := trim requestRuleExpr in
  match base, rules with
  | [], _ => []
  | _, [] => base
  | _, _ => js "(" ++ base ++ js ") * " ++ rules
  end.

(** ** Editor: empty constructors *)

Definition createEmptyCondition : ParamHeaderCondition := MkPH SrcParam [] MATCH_EQ [].

Definition createEmptyTimeCondition : TimeCondition :=
  MkTime (js "hour") (js "Asia/Shanghai") MATCH_GTE [] [] [].

Definition createEmptyRuleGroup : RequestRuleGroup :=
  MkGroup [CondPH createEmptyCondition] [].

Definition createEmptyTimeRuleGroup : RequestRuleGroup :=
  MkGroup [CondTime createEmptyTimeCondition] [].

(** ** Editor: match options, as pairs [(value, labelKey)] *)

Definition getRequestRuleMatchOptions (source : jstr) : list (jstr * jstr) :=
  if bool_decide (source = SOURCE_TIME) then
    [ (MATCH_EQ, js "Equals"); (MATCH_GTE, js "Greater than or equal");
      (MATCH_LT, js "Less than"); (MATCH_RANGE, js "Overnight range") ]
  else
    let base := [ (MATCH_EQ, js "Equals"); (MATCH_CONTAINS, js "Contains");
                  (MATCH_EXISTS, js "Exists") ] in
    if bool_decide (source = SOURCE_HEADER) then base
    else base ++ [ (MATCH_GT, js "Greater than"); (MATCH_GTE, js "Greater than or equal");
                   (MATCH_LT, js "Less than"); (MATCH_LTE, js "Less than or equal") ].

(** ** Editor: normalize a single condition *)

(** [Partial<RequestCondition>]: every field may be missing. *)
Record PartialCondition := MkPartial {
  pc_source : option jstr; pc_timeFunc : option jstr; pc_timezone : option jstr;
  pc_path : option jstr; pc_mode : option jstr; pc_value : option jstr;
  pc_rangeStart : option jstr; pc_rangeEnd : option jstr
}.

Definition source_name (s : PHSource) : jstr :=
  match s with SrcParam => SOURCE_PARAM | SrcHeader => SOURCE_HEADER end.

Definition partial_of (cond : RequestCondition) : PartialCondition :=
  match cond with
  | CondTime c => MkPartial (Some SOURCE_TIME) (Some (tm_timeFunc c)) (Some (tm_timezone c)) None
                    (Some (tm_mode c)) (Some (tm_value c)) (Some (tm_rangeStart c)) (Some (tm_rangeEnd c))
  | CondPH c => MkPartial (Some (source_name (ph_source c))) None None (Some (ph_path c))
                  (Some (ph_mode c)) (Some (ph_value c)) None None
  end.

Definition isTimeFunc (value : option jstr) : bool :=
  match value with Some v => bool_decide (v ∈ TIME_FUNCS) | None => false end.

(** [options.some((item) => item.value === mode) ? mode : fallback] *)
Definition allowed_mode (source : jstr) (mode : option jstr) (fallback : jstr) : jstr :=
  match mode with
  | Some m => if bool_decide (m ∈ map fst (getRequestRuleMatchOptions source)) then m else fallback
  | None => fallback
  end.

Definition normalizeCondition (cond : PartialCondition) : RequestCondition :=
  if bool_decide (pc_source cond = Some SOURCE_TIME) then
    CondTime (MkTime
      (if isTimeFunc (pc_timeFunc cond) then default [] (pc_timeFunc cond) else js "hour")
      (str_or (default [] (pc_timezone cond)) (js "Asia/Shanghai"))
      (allowed_mode SOURCE_TIME (pc_mode cond) MATCH_GTE)
      (default [] (pc_value cond)) (default [] (pc_rangeStart cond)) (default [] (pc_rangeEnd cond)))
  else
    let source := if bool_decide (pc_source cond = Some SOURCE_HEADER) then SrcHeader else SrcParam in
    CondPH (MkPH source (default [] (pc_path cond))
              (allowed_mode (source_name source) (pc_mode cond) MATCH_EQ)
              (default [] (pc_value cond))).

(** ** Editor: build expression strings *)

Definition buildExprLiteral (mode value : jstr) : jstr :=
  let text := trim value in
  if bool_decide (mode = MATCH_CONTAINS) then json_quote text
  else if bool_decide (text = js "true") || bool_decide (text = js "false") then text
  else if re_test NUMERIC_LITERAL_REGEX text then text
  else json_quote text.

Definition TIME_BUILD_OPS : list (jstr * jstr) :=
  [(MATCH_EQ, js "=="); (MATCH_GTE, js ">="); (MATCH_LT, js "<")].

Definition normalized_time (cond : RequestCondition) : TimeCondition :=
  match normalizeCondition (partial_of cond) with
  | CondTime c => c
  | CondPH _ => createEmptyTimeCondition
  end.

Definition buildTimeConditionExpr (cond : TimeCondition) : jstr :=
  let normalized := normalized_time (CondTime cond) in
  let tz := json_quote (tm_timezone normalized) in
  let fn := tm_timeFunc normalized ++ js "(" ++ tz ++ js ")" in
  if bool_decide (tm_mode normalized = MATCH_RANGE) then
    let s := trim (tm_rangeStart normalized) in
    let e := trim (tm_rangeEnd normalized) in
    if negb (re_test NUMERIC_LITERAL_REGEX s) || negb (re_test NUMERIC_LITERAL_REGEX e) then []
    else fn ++ js " >= " ++ s ++ js " || " ++ fn ++ js " < " ++ e
  else
    let v := trim (tm_value normalized) in
    if negb (re_test NUMERIC_LITERAL_REGEX v) then []
    else fn ++ js " " ++ str_or (default [] (assoc (tm_mode normalized) TIME_BUILD_OPS)) (js "==")
         ++ js " " ++ v.

Definition PARAM_BUILD_OPS : list (jstr * jstr) :=
  [(MATCH_GT, js ">"); (MATCH_GTE, js ">="); (MATCH_LT, js "<"); (MATCH_LTE, js "<=")].

Definition normalized_ph (cond : RequestCondition) : ParamHeaderCondition :=
  match normalizeCondition (partial_of cond) with
  | CondPH c => c
  | CondTime _ => createEmptyCondition
  end.

Definition buildPHConditionExpr (cond : ParamHeaderCondition) : jstr :=
  let normalized := normalized_ph (CondPH cond) in
  let mode := ph_mode normalized in
  let value := ph_value normalized in
  match trim (ph_path normalized) with
  | [] => []
  | path =>
      let is_header := match ph_source normalized with SrcHeader => true | SrcParam => false end in
      let sourceExpr := source_name (ph_source normalized) ++ js "(" ++ json_quote path ++ js ")" in
      if bool_decide (mode = MATCH_EXISTS) then
        if is_header then sourceExpr ++ jsq " != ``" else sourceExpr ++ js " != nil"
      else if bool_decide (mode = MATCH_CONTAINS) then
        let has := js "has(" ++ sourceExpr ++ js ", " ++ buildExprLiteral mode value ++ js ")" in
        if is_header then has else sourceExpr ++ js " != nil && " ++ has
      else match assoc mode PARAM_BUILD_OPS with
      | Some op =>
          let numText := trim value in
          if negb (re_test NUMERIC_LITERAL_REGEX numText) then []
          else sourceExpr ++ js " != nil && " ++ sourceExpr ++ js " " ++ op ++ js " " ++ numText
      | None => sourceExpr ++ js " == " ++ buildExprLiteral mode value
      end
  end.

Definition buildRequestConditionExpr (cond : RequestCondition) : jstr :=
  match cond with
  | CondTime c => buildTimeConditionExpr c
  | CondPH c => buildPHConditionExpr c
  end.

Definition paren_or (e : jstr) : jstr :=
  if includes (js " || ") e then js "(" ++ e ++ js ")" else e.

Definition buildRuleGroupFactor (group : RequestRuleGroup) : jstr :=
  let multiplier := trim (rg_multiplier group) in
  if negb (re_test NUMERIC_LITERAL_REGEX multiplier) then []
  else
    let factor combined := js "(" ++ combined ++ js " ? " ++ multiplier ++ js " : 1)" in
    match List.filter str_truthy (map buildRequestConditionExpr (rg_conditions group)) with
    | [] => []
    | [e] => factor e
    | condExprs => factor (join (js " && ") (map paren_or condExprs))
    end.

Definition buildRequestRuleExpr (groups : list RequestRuleGroup) : jstr :=
  join (js " * ") (List.filter str_truthy (map buildRuleGroupFactor groups)).
