(* ===== verification/BillingConditions.v ===== *)
(** * One condition of a request rule: what the parser does on a printed text

    The texts and conditions on which the rule editor's round trip holds, and
    the result of [tryParseRequestCondition] on each kind of printed
    condition. *)
From S2P Require Import Prelude JsString JsNumber JsValue JsJson JsRegex JsRegexFacts JsJsonFacts BillingExpr.
Open Scope N_scope.

(** ** The texts the round trip supports *)

(** No quote, backslash, control unit, surrogate or line separator; and no
    [&], parenthesis or [|], which the splitting of conditions looks at. *)
Definition safe_unit (c : N) : bool :=
  plain_unit c && is_unit c && negb (c =? 38) && negb (c =? 40) && negb (c =? 41) && negb (c =? 124)
  && negb (c =? 8232) && negb (c =? 8233).

Definition safe_text (s : jstr) : bool := forallb safe_unit s.

Definition numeric (s : jstr) : bool := re_test NUMERIC_LITERAL_REGEX s.

(** Conditions as the editor keeps them, of the kinds that survive: every
    time condition, every header condition, existence and equality of a
    parameter. *)
Definition rt_time (c : TimeCondition) : bool :=
  bool_decide (tm_timeFunc c ∈ TIME_FUNCS)
  && str_truthy (tm_timezone c) && safe_text (tm_timezone c)
  && (if bool_decide (tm_mode c = MATCH_RANGE)
      then numeric (tm_rangeStart c) && numeric (tm_rangeEnd c) && bool_decide (tm_value c = [])
      else bool_decide (tm_mode c ∈ [MATCH_EQ; MATCH_GTE; MATCH_LT]) && numeric (tm_value c)
           && bool_decide (tm_rangeStart c = []) && bool_decide (tm_rangeEnd c = [])).

Definition rt_ph (c : ParamHeaderCondition) : bool :=
  str_truthy (ph_path c) && trimmed (ph_path c) && safe_text (ph_path c)
  && (if bool_decide (ph_mode c = MATCH_EXISTS) then bool_decide (ph_value c = [])
      else (bool_decide (ph_mode c = MATCH_EQ)
            || (bool_decide (ph_mode c = MATCH_CONTAINS)
                && match ph_source c with SrcHeader => true | SrcParam => false end))
           && trimmed (ph_value c) && safe_text (ph_value c)).

Definition rt_condition (c : RequestCondition) : bool :=
  match c with CondTime c => rt_time c | CondPH c => rt_ph c end.

Definition rt_group (g : RequestRuleGroup) : bool :=
  match rg_conditions g with [] => false | _ => forallb rt_condition (rg_conditions g) end
  && numeric (rg_multiplier g).

(** ** Facts on these texts *)

Abbreviation not_quote := (class_has true [CRange 34 34]).
Abbreviation num_class :=
  (class_has false [CDigit false; CRange 46 46; CRange 101 101; CRange 69 69;
                    CRange 43 43; CRange 45 45]).

Lemma safe_not_quote s : safe_text s = true -> forallb not_quote s = true.
Proof.
  apply forallb_impl. intros c. unfold safe_unit, plain_unit, class_has. simpl.
  intros H. bool_hyps. destruct (N.leb_spec 34 c), (N.leb_spec c 34); simpl; try done. lia.
Qed.

Lemma safe_any s : safe_text s = true -> forallb (any_has false) s = true.
Proof.
  apply forallb_impl. intros c. unfold safe_unit, plain_unit, any_has, is_line_terminator.
  intros H. bool_hyps. simpl. by rewrite !(proj2 (N.eqb_neq c _)) by lia.
Qed.

Lemma safe_plain s : safe_text s = true -> forallb plain_unit s = true.
Proof. apply forallb_impl. intros c. unfold safe_unit. intros H. by bool_hyps. Qed.

Lemma safe_is_unit s : safe_text s = true -> forallb is_unit s = true.
Proof. apply forallb_impl. intros c. unfold safe_unit. intros H. by bool_hyps. Qed.

Lemma truthy_ne s : str_truthy s = true -> s <> [].
Proof. by destruct s. Qed.

(** The pattern of numeric literals without its anchors. *)
Definition numeric_body : regex := Eval vm_compute in
  re (js "-?(?:\d+\.?\d*|\.\d+)(?:[eE][+-]?\d+)?").

Lemma numeric_body_reads : reads num_class numeric_body.
Proof.
  cbn [reads numeric_body]. repeat split; try reflexivity.
  all: intros c; unfold class_has; cbn [existsb citem_has xorb];
    rewrite ?orb_false_r, ?orb_true_iff; intros H.
  all: tauto.
Qed.

(** A numeric literal only has the units of [[\d.eE+-]]. *)
Lemma numeric_class s : numeric s = true -> forallb num_class s = true.
Proof.
  unfold numeric. rewrite re_test_match, bool_decide_eq_true.
  unfold NUMERIC_LITERAL_REGEX. rewrite re_match_anchored, fmap_is_Some. intros [z Hz].
  change (rmatch numeric_body (rmatch REnd Some) (MState None s (repeat None 1)) = Some z) in Hz.
  destruct (rmatch_reads _ _ _ _ _ numeric_body_reads Hz) as (w & s' & Hs & Hw & Hk).
  cbn [rmatch] in Hk. simpl in Hs. destruct (m_rest s'); [|done].
  by rewrite Hs, app_nil_r.
Qed.

Lemma numeric_ne s : numeric s = true -> s <> [].
Proof. intros H ->. vm_compute in H. done. Qed.

(** ** Parsing one condition *)

(** Bring a text to the form the matcher runs on. *)
Ltac norm_text := js_norm; cbn [app]; repeat (rewrite <-app_assoc; cbn [app]).

(** Run the next pattern of the parser. *)
Ltac run_regex :=
  rx_start; rx_all; cbn [fmap option_fmap option_map mbind option_bind]; rewrite ?app_nil_r.

Section conditions.
Context (path : jstr) (Hne : path <> []) (Hq : forallb not_quote path = true).

Definition quoted (s : jstr) : jstr := 34 :: s ++ [34].

Lemma parse_header_exists :
  tryParseRequestCondition (js "header(" ++ quoted path ++ js ")" ++ jsq " != ``")
  = Ok (Some (CondPH (MkPH SrcHeader path MATCH_EXISTS []))).
Proof.
  unfold tryParseRequestCondition, tryParseTimeCondition, quoted. norm_text.
  do 4 run_regex. reflexivity.
Qed.

Lemma parse_param_exists :
  tryParseRequestCondition (js "param(" ++ quoted path ++ js ")" ++ js " != nil")
  = Ok (Some (CondPH (MkPH SrcParam path MATCH_EXISTS []))).
Proof.
  unfold tryParseRequestCondition, tryParseTimeCondition, quoted. norm_text.
  do 5 run_regex. reflexivity.
Qed.

(** An equality with the literal [lit], as the last branch reads it. *)
Lemma parse_eq src lit :
  lit <> [] -> forallb (any_has false) lit = true ->
  tryParseRequestCondition (source_name src ++ js "(" ++ quoted path ++ js ") == " ++ lit)
  = match parseExprLiteral lit with
    | None => Ok None
    | Some v => let* value := to_str v in
                Ok (Some (CondPH (MkPH src path MATCH_EQ value)))
    end.
Proof.
  intros Hl Ha.
  unfold tryParseRequestCondition, tryParseTimeCondition, parseParamPair, parseEqCondition, quoted.
  destruct src; cbn [source_name]; unfold SOURCE_PARAM, SOURCE_HEADER; norm_text;
    do 9 run_regex; reflexivity.
Qed.

(** The comparison of a parameter is cut at its [&&]: the second half alone
    is no condition. *)
Lemma parse_lone_compare op v :
  op ∈ map snd PARAM_BUILD_OPS ->
  tryParseRequestCondition (js "param(" ++ quoted path ++ js ") " ++ op ++ js " " ++ v) = Ok None.
Proof.
  intros Hop.
  unfold tryParseRequestCondition, tryParseTimeCondition, parseParamPair, parseEqCondition, quoted.
  unfold PARAM_BUILD_OPS in Hop. cbn [map snd] in Hop.
  repeat (apply elem_of_cons in Hop as [->|Hop]); [..|by apply not_elem_of_nil in Hop].
  all: norm_text; do 9 run_regex; reflexivity.
Qed.

Lemma parse_lone_has t :
  tryParseRequestCondition (js "has(param(" ++ quoted path ++ js "), " ++ t) = Ok None.
Proof.
  unfold tryParseRequestCondition, tryParseTimeCondition, parseParamPair, parseEqCondition, quoted.
  norm_text. do 9 run_regex. reflexivity.
Qed.
End conditions.

(** *** Time conditions *)
Section time.
Context (tf tz : jstr) (Htf : tf ∈ TIME_FUNCS) (Hne : tz <> [])
        (Hq : forallb not_quote tz = true).

Definition time_call (tf tz : jstr) : jstr := tf ++ js "(" ++ quoted tz ++ js ")".

Ltac time_cases :=
  unfold TIME_FUNCS in Htf;
  repeat (apply elem_of_cons in Htf as [->|Htf]); [..|by apply not_elem_of_nil in Htf];
  unfold tryParseRequestCondition, tryParseTimeCondition, time_call, quoted; norm_text.

Lemma parse_time_compare mode op v :
  assoc mode TIME_BUILD_OPS = Some op ->
  v <> [] -> forallb num_class v = true ->
  tryParseRequestCondition (time_call tf tz ++ js " " ++ op ++ js " " ++ v)
  = Ok (Some (CondTime (MkTime tf tz mode v [] []))).
Proof.
  intros Hop Hv Hc. unfold assoc, TIME_BUILD_OPS in Hop. cbn [List.find] in Hop.
  repeat (case_bool_decide; [simplify_eq/=|cbn in Hop]); [..|done].
  all: time_cases; do 3 run_regex; reflexivity.
Qed.

Lemma parse_time_range s e :
  s <> [] -> forallb num_class s = true -> e <> [] -> forallb num_class e = true ->
  tryParseRequestCondition
    (time_call tf tz ++ js " >= " ++ s ++ js " || " ++ time_call tf tz ++ js " < " ++ e)
  = Ok (Some (CondTime (MkTime tf tz MATCH_RANGE [] s e))).
Proof.
  intros Hs Hcs He Hce. time_cases. all: run_regex; reflexivity.
Qed.

Lemma parse_time_range_paren s e :
  s <> [] -> forallb num_class s = true -> e <> [] -> forallb num_class e = true ->
  tryParseRequestCondition
    (js "(" ++ (time_call tf tz ++ js " >= " ++ s ++ js " || " ++ time_call tf tz ++ js " < " ++ e)
     ++ js ")")
  = Ok (Some (CondTime (MkTime tf tz MATCH_RANGE [] s e))).
Proof.
  intros Hs Hcs He Hce. time_cases. all: do 2 run_regex; reflexivity.
Qed.
End time.
