(* ===== verification/BillingRules.v ===== *)
(** * Request rules: what the printer writes, the parser reads

    The rule editor of billing-expr.ts prints groups of conditions with
    [buildRequestRuleExpr] and reads expressions with
    [tryParseRequestRuleExpr].  This file proves the round trip on the
    conditions for which it holds, that it fails on the others, and the round
    trip of the split of a full expression into base and rules. *)
From S2P Require Import Prelude JsString JsNumber JsValue JsJson JsRegex JsRegexFacts JsJsonFacts BillingExpr BillingConditions.
Open Scope N_scope.

(** ** Parentheses *)

(** The depth after a text, [None] when it closes more than it opens. *)
Fixpoint scan (d : nat) (s : jstr) : option nat :=
  match s with
  | [] => Some d
  | c :: t =>
      if c =? 40 then scan (S d) t
      else if c =? 41 then match d with O => None | S d' => scan d' t end
      else scan d t
  end.

Definition balanced (s : jstr) : bool := bool_decide (scan 0 s = Some 0%nat).

Lemma scan_app d s t : scan d (s ++ t) = (scan d s ≫= fun d' => scan d' t).
Proof.
  revert d. induction s as [|c s IH]; intros d; simpl; [done|].
  destruct (c =? 40); [apply IH|]. destruct (c =? 41); [|apply IH].
  destruct d; [done|apply IH].
Qed.

Lemma scan_plain d s :
  forallb (fun c => negb (c =? 40) && negb (c =? 41)) s = true -> scan d s = Some d.
Proof.
  induction s as [|c s IH]; simpl; [done|]. intros H. bool_hyps.
  rewrite (proj2 (N.eqb_neq c 40)), (proj2 (N.eqb_neq c 41)) by done. by apply IH.
Qed.

Lemma scan_shift k d s m : scan d s = Some m -> scan (k + d) s = Some (k + m)%nat.
Proof.
  revert d. induction s as [|c s IH]; intros d; simpl; [naive_solver|].
  destruct (c =? 40).
  { intros H. rewrite <-Nat.add_succ_r. by apply IH. }
  destruct (c =? 41); [|apply IH].
  destruct d as [|d]; [done|]. rewrite Nat.add_succ_r. apply IH.
Qed.

Lemma paren_depth_scan d s m :
  scan d s = Some m -> fold_left (fun z c => paren_depth c z) s (Z.of_nat d) = Z.of_nat m.
Proof.
  revert d. induction s as [|c s IH]; intros d; simpl; [naive_solver|].
  unfold paren_depth at 2. destruct (c =? 40).
  { intros H. rewrite <-(IH _ H). f_equal. lia. }
  destruct (c =? 41); [|apply IH].
  destruct d as [|d]; [done|]. intros H. rewrite <-(IH _ H). f_equal. lia.
Qed.

Lemma safe_scan d s : safe_text s = true -> scan d s = Some d.
Proof.
  intros H. apply scan_plain. revert H. apply forallb_impl. intros c. unfold safe_unit.
  intros H. by bool_hyps; rewrite !(proj2 (N.eqb_neq c _)) by done.
Qed.

Lemma num_class_range c : num_class c = true -> 43 <= c <= 57 \/ c = 69 \/ c = 101.
Proof.
  unfold class_has. cbn [existsb citem_has xorb]. unfold is_digit.
  rewrite orb_false_r, !orb_true_iff, !andb_true_iff, !N.leb_le. lia.
Qed.

Lemma num_scan d s : forallb num_class s = true -> scan d s = Some d.
Proof.
  intros H. apply scan_plain. revert H. apply forallb_impl. intros c Hc%num_class_range.
  rewrite !(proj2 (N.eqb_neq c _)) by lia. done.
Qed.

(** ** Splitting at the top level *)

Section split_and.
Abbreviation AND := (js " && ").

Lemma split_and_segment d cur p t :
  38 ∉ p -> head t <> Some 38 ->
  split_top AND 0 d cur (p ++ t)
  = split_top AND 0 (fold_left (fun z c => paren_depth c z) p d) (rev p ++ cur) t.
Proof.
  intros Hp Ht. revert d cur. induction p as [|c p IH]; intros d cur; [done|].
  apply not_elem_of_cons in Hp as [Hc Hp]. cbn [app split_top fold_left rev].
  assert (starts_with AND (c :: p ++ t) = false) as ->.
  { js_norm. cbn [starts_with].
    assert (match p ++ t with y :: _ => 38 =? y | [] => false end = false) as H.
    { destruct p as [|x p]; cbn [app].
      - destruct t as [|y t]; [done|]. apply N.eqb_neq. intros <-. by apply Ht.
      - apply not_elem_of_cons in Hp as [Hx _]. by apply N.eqb_neq. }
    destruct (p ++ t) as [|y u]; [by rewrite andb_false_r|].
    rewrite H. by rewrite andb_false_r. }
  rewrite andb_false_r, IH by done. by rewrite <-app_assoc.
Qed.

Lemma split_and_separator cur t :
  split_top AND 0 0 cur (AND ++ t) = trim (rev cur) :: split_top AND 0 0 [] t.
Proof. reflexivity. Qed.

(** A part of a conjunction. *)
Definition and_part (p : jstr) : Prop :=
  p <> [] /\ trimmed p = true /\ 38 ∉ p /\ scan 0 p = Some 0%nat.

Lemma split_and_join l :
  Forall and_part l -> l <> [] -> split_top AND 0 0 [] (join AND l) = l.
Proof.
  induction l as [|p l IH]; intros Hl Hne; [done|].
  apply Forall_cons in Hl as [(Hp & Ht & Ha & Hs) Hl].
  pose proof (paren_depth_scan 0 p 0 Hs) as Hd. change (Z.of_nat 0) with 0%Z in Hd.
  destruct l as [|q l].
  - cbn [join]. rewrite <-(app_nil_r p) at 1. rewrite split_and_segment by done.
    rewrite app_nil_r. cbn [split_top]. by rewrite rev_involutive, trim_id.
  - change (join AND (p :: q :: l)) with (p ++ AND ++ join AND (q :: l)).
    rewrite split_and_segment, Hd, split_and_separator by done.
    rewrite app_nil_r, rev_involutive, trim_id by done. f_equal. by apply IH.
Qed.

Lemma splitTopLevelAnd_join l :
  Forall and_part l -> l <> [] -> splitTopLevelAnd (join AND l) = l.
Proof.
  intros Hl Hne. unfold splitTopLevelAnd. rewrite split_and_join by done.
  clear Hne. induction Hl as [|p l (Hp & _) _ IH]; simpl; [done|].
  rewrite IH. by destruct p.
Qed.
End split_and.

Section split_multiply.
Abbreviation MUL := (js " * ").

Lemma split_mul_inside n m cur p t :
  scan n p = Some m ->
  split_top MUL 0 (Z.of_nat (S n)) cur (p ++ t)
  = split_top MUL 0 (Z.of_nat (S m)) (rev p ++ cur) t.
Proof.
  revert n cur. induction p as [|c p IH]; intros n cur H; simpl in H.
  { by simplify_eq. }
  cbn [app split_top rev]. unfold paren_depth.
  destruct (c =? 40).
  { rewrite (proj2 (Z.eqb_neq _ 0)) by lia. cbn [andb].
    replace (Z.of_nat (S n) + 1)%Z with (Z.of_nat (S (S n))) by lia.
    rewrite IH by done. by rewrite <-app_assoc. }
  destruct (c =? 41).
  { destruct n as [|n]; [done|].
    rewrite (proj2 (Z.eqb_neq _ 0)) by lia. cbn [andb].
    replace (Z.of_nat (S (S n)) - 1)%Z with (Z.of_nat (S n)) by lia.
    rewrite IH by done. by rewrite <-app_assoc. }
  rewrite (proj2 (Z.eqb_neq _ 0)) by lia. cbn [andb].
  rewrite IH by done. by rewrite <-app_assoc.
Qed.

(** A factor: a balanced text in parentheses. *)
Definition mul_factor (f : jstr) : Prop :=
  exists p, f = js "(" ++ p ++ js ")" /\ scan 0 p = Some 0%nat.

Lemma mul_factor_ne f : mul_factor f -> f <> [].
Proof. intros (p & -> & _). done. Qed.

Lemma mul_factor_trimmed f : mul_factor f -> trimmed f = true.
Proof.
  intros (p & -> & _). unfold trimmed. js_norm. cbn [app].
  rewrite app_comm_cons, rev_app_distr. done.
Qed.

Lemma mul_factor_scan f : mul_factor f -> scan 0 f = Some 0%nat.
Proof.
  intros (p & -> & Hp). js_norm. cbn [app scan]. change (40 =? 40) with true. cbv iota.
  rewrite scan_app. pose proof (scan_shift 1 0 p 0 Hp) as H. simpl in H. by rewrite H.
Qed.

Lemma split_mul_factor cur f t :
  mul_factor f ->
  split_top MUL 0 0 cur (f ++ t) = split_top MUL 0 0 (rev f ++ cur) t.
Proof.
  intros (p & -> & Hp). js_norm. cbn [app split_top]. unfold paren_depth at 1.
  change (40 =? 40) with true. cbn iota. change (0 + 1 =? 0)%Z with false. cbn [andb].
  rewrite <-app_assoc, (split_mul_inside 0 0) by done. cbn [app split_top].
  change (paren_depth 41 (Z.of_nat 1)) with 0%Z. cbn [Z.eqb andb].
  change (starts_with MUL (41 :: t)) with false. cbv iota.
  f_equal. cbn [rev]. rewrite rev_app_distr. cbn [rev app]. by rewrite <-app_assoc.
Qed.

Lemma split_mul_separator cur t :
  split_top MUL 0 0 cur (MUL ++ t) = trim (rev cur) :: split_top MUL 0 0 [] t.
Proof. reflexivity. Qed.

Lemma split_mul_join l :
  Forall mul_factor l -> l <> [] -> split_top MUL 0 0 [] (join MUL l) = l.
Proof.
  induction l as [|f l IH]; intros Hl Hne; [done|].
  apply Forall_cons in Hl as [Hf Hl]. pose proof (mul_factor_trimmed _ Hf) as Ht.
  destruct l as [|g l].
  - cbn [join]. rewrite <-(app_nil_r f) at 1. rewrite split_mul_factor by done.
    cbn [split_top]. by rewrite app_nil_r, rev_involutive, trim_id.
  - change (join MUL (f :: g :: l)) with (f ++ MUL ++ join MUL (g :: l)).
    rewrite split_mul_factor, split_mul_separator, IH by done.
    by rewrite app_nil_r, rev_involutive, trim_id.
Qed.

Lemma splitTopLevelMultiply_join l :
  Forall mul_factor l -> l <> [] -> splitTopLevelMultiply (join MUL l) = l.
Proof.
  intros Hl Hne. unfold splitTopLevelMultiply. rewrite split_mul_join by done.
  clear Hne. induction Hl as [|f l Hf _ IH]; simpl; [done|].
  rewrite IH. apply mul_factor_ne in Hf. by destruct f.
Qed.
End split_multiply.

(** ** The printed conditions *)

(** What the round trip needs of the text [e] of a condition [c]: it is a part
    of a conjunction that reads back as [c]. *)
Record cond_text (c : RequestCondition) (e : jstr) : Prop := {
  ct_part : and_part e;
  ct_parse : tryParseRequestCondition e = Ok (Some c)
}.

Lemma num_trimmed s : forallb num_class s = true -> trimmed s = true.
Proof.
  apply trimmed_forallb. intros c Hc%num_class_range. unfold is_ws.
  rewrite !orb_false_iff, !andb_false_iff, !N.leb_gt, !N.eqb_neq. lia.
Qed.

Lemma safe_missing s c : safe_text s = true -> safe_unit c = false -> c ∉ s.
Proof. apply forallb_not_elem. Qed.

Lemma num_missing s c : forallb num_class s = true -> num_class c = false -> c ∉ s.
Proof. apply forallb_not_elem. Qed.

(** Close [c ∉ e] for a text made of literals and variable parts. *)
Ltac missing :=
  repeat first
    [ assumption
    | apply not_elem_of_nil
    | apply not_elem_of_cons; split; [done|]
    | apply not_elem_of_app; split
    | apply safe_missing; [assumption|reflexivity]
    | apply num_missing; [assumption|reflexivity] ].

Ltac scan_text :=
  repeat first
    [ progress cbn [scan app N.eqb Pos.eqb]
    | rewrite scan_app
    | rewrite safe_scan by assumption
    | rewrite num_scan by assumption
    | progress cbn [mbind option_bind] ];
  reflexivity.

Lemma json_quote_safe s : safe_text s = true -> json_quote s = quoted s.
Proof. intros. by apply json_quote_plain, safe_plain. Qed.

(** *** Time conditions *)
Section time_texts.
Context (tf tz : jstr) (Htf : tf ∈ TIME_FUNCS) (Hne : tz <> []) (Hs : safe_text tz = true).

Let call := time_call tf tz.

Lemma time_func_safe : safe_text tf = true /\ tf <> [] /\ trimmed tf = true.
Proof.
  unfold TIME_FUNCS in Htf.
  repeat (apply elem_of_cons in Htf as [->|Htf]; [done|]). by apply not_elem_of_nil in Htf.
Qed.

Lemma time_call_scan d : scan d call = Some d.
Proof.
  destruct time_func_safe as (Hf & _). subst call. unfold time_call, quoted. norm_text.
  scan_text.
Qed.

Lemma time_call_missing : 38 ∉ call.
Proof.
  destruct time_func_safe as (Hf & _). subst call. unfold time_call, quoted. norm_text. missing.
Qed.

Lemma time_call_trimmed : call <> [] /\ trimmed call = true.
Proof.
  destruct time_func_safe as (Hf & Hn & Ht). subst call. unfold time_call. split.
  - by destruct tf.
  - rewrite !app_assoc, <-(app_assoc tf), <-(app_assoc tf).
    apply trimmed_ends; done.
Qed.

Lemma time_compare_text mode op v :
  assoc mode TIME_BUILD_OPS = Some op -> numeric v = true ->
  cond_text (CondTime (MkTime tf tz mode v [] [])) (call ++ js " " ++ op ++ js " " ++ v)
  /\ 124 ∉ (call ++ js " " ++ op ++ js " " ++ v).
Proof.
  intros Hop Hv. pose proof (numeric_class _ Hv) as Hc. pose proof (numeric_ne _ Hv) as Hvn.
  destruct time_call_trimmed as [Hcn Hct]. destruct time_func_safe as (Hf & _).
  assert (safe_text op = true /\ 38 ∉ op) as [Ho Ho'].
  { unfold assoc, TIME_BUILD_OPS in Hop. cbn [List.find] in Hop.
    repeat (case_bool_decide; [simplify_eq/=; split; [done|]; js_norm; missing|cbn in Hop]). done. }
  split; [split; [split_and!| ]|].
  - by destruct call.
  - replace (call ++ js " " ++ op ++ js " " ++ v) with (call ++ (js " " ++ op ++ js " ") ++ v)
      by (by rewrite <-!app_assoc).
    apply trimmed_ends; try done. by apply num_trimmed.
  - pose proof time_call_missing. norm_text. missing.
  - rewrite scan_app, time_call_scan. cbn [mbind option_bind]. norm_text. scan_text.
  - apply parse_time_compare; auto using safe_not_quote.
  - subst call. unfold time_call, quoted. norm_text. missing.
Qed.

Lemma time_range_text s e :
  numeric s = true -> numeric e = true ->
  let t := call ++ js " >= " ++ s ++ js " || " ++ call ++ js " < " ++ e in
  cond_text (CondTime (MkTime tf tz MATCH_RANGE [] s e)) t
  /\ cond_text (CondTime (MkTime tf tz MATCH_RANGE [] s e)) (js "(" ++ t ++ js ")").
Proof.
  intros Hns Hnew t. pose proof (numeric_class _ Hns) as Hcs. pose proof (numeric_ne _ Hns).
  pose proof (numeric_class _ Hnew) as Hce. pose proof (numeric_ne _ Hnew).
  destruct time_call_trimmed as [Hcn Hct].
  assert (Hamp : 38 ∉ t).
  { pose proof time_call_missing. subst t. norm_text.
    missing. }
  assert (Hscan : forall d, scan d t = Some d).
  { intros d. subst t. rewrite scan_app, time_call_scan. cbn [mbind option_bind].
    norm_text. cbn [scan N.eqb Pos.eqb]. rewrite scan_app, num_scan by done.
    cbn [mbind option_bind scan N.eqb Pos.eqb]. rewrite scan_app, time_call_scan.
    cbn [mbind option_bind scan N.eqb Pos.eqb]. by apply num_scan. }
  split; split; [split_and!| |split_and!|].
  - by destruct call.
  - replace t with (call ++ (js " >= " ++ s ++ js " || " ++ call ++ js " < ") ++ e)
      by (subst t; by rewrite <-!app_assoc).
    apply trimmed_ends; try done. by apply num_trimmed.
  - done.
  - apply Hscan.
  - apply parse_time_range; auto using safe_not_quote.
  - done.
  - by apply trimmed_ends.
  - norm_text. missing.
  - norm_text. cbn [scan N.eqb Pos.eqb]. by rewrite scan_app, Hscan.
  - apply parse_time_range_paren; auto using safe_not_quote.
Qed.
End time_texts.

(** *** Parameter and header conditions *)

Definition str_class : N -> bool := class_has true [CRange 34 34; CRange 92 92].

Lemma safe_str_class s : safe_text s = true -> forallb str_class s = true.
Proof.
  apply forallb_impl. intros c. unfold safe_unit, plain_unit, str_class, class_has.
  cbn [existsb citem_has]. intros H. bool_hyps.
  destruct (N.leb_spec 34 c), (N.leb_spec c 34), (N.leb_spec 92 c), (N.leb_spec c 92);
    simpl; try done; lia.
Qed.

(** The loop over the inside of a quoted string. *)
Lemma rmatch_string_body k pv v u caps :
  forallb str_class v = true ->
  (forall pv' c u', str_class c = true -> k (MState pv' (c :: u') caps) = None) ->
  rmatch (RRep 0 None true (RAlt (RClass true [CRange 34 34; CRange 92 92])
                                 (RSeq (RChar 92) (RAny false))))
         k (MState pv (v ++ 34 :: u) caps)
  = k (MState (last_of pv v) (34 :: u) caps).
Proof.
  intros Hv Hk. cbn [rmatch groups_of app m_rest].
  apply (rep_loop_run str_class); [lia|done| | |done].
  - intros k' pv' c t Hc. unfold one_char, consume. cbn [m_rest m_caps].
    fold (str_class c). rewrite Hc. destruct (k' _); [done|].
    destruct (N.eqb_spec 92 c) as [<-|]; [by vm_compute in Hc|done].
  - intros k' pv'. reflexivity.
Qed.

Lemma literal_quoted v :
  safe_text v = true -> parseExprLiteral (quoted v) = Some (VStr v).
Proof.
  intros Hv. unfold parseExprLiteral.
  assert (trimmed (quoted v) = true) as Ht by (apply (trimmed_ends [34] v [34]); done).
  rewrite trim_id by done.
  rewrite !bool_decide_eq_false_2 by done. cbn [orb].
  destruct (re_test NUMERIC_LITERAL_REGEX (quoted v)) eqn:E.
  { by apply numeric_class in E. }
  rewrite <-json_quote_safe, json_parse_quote; [done|by apply safe_is_unit|done].
Qed.

Lemma parse_header_contains path v :
  path <> [] -> forallb not_quote path = true -> safe_text v = true ->
  tryParseRequestCondition (js "has(header(" ++ quoted path ++ js "), " ++ quoted v ++ js ")")
  = Ok (Some (CondPH (MkPH SrcHeader path MATCH_CONTAINS v))).
Proof.
  intros Hne Hq Hv.
  assert (json_string (quoted v) = Ok v) as Hj.
  { unfold json_string. rewrite <-json_quote_safe by done.
    by rewrite json_parse_quote by (by apply safe_is_unit). }
  unfold tryParseRequestCondition, tryParseTimeCondition. unfold quoted. norm_text.
  do 6 run_regex.
  rewrite rmatch_string_body by (first [by apply safe_str_class | rx_kfail]).
  rx_all. cbn [fmap option_fmap option_map].
  match goal with |- context [cap_str 2 ?m] => change (cap_str 2 m) with (quoted v) end.
  rewrite Hj. reflexivity.
Qed.

Section ph_texts.
Context (path : jstr) (Hne : path <> []) (Ht : trimmed path = true)
        (Hs : safe_text path = true).

Definition source_call (src : PHSource) (path : jstr) : jstr :=
  source_name src ++ js "(" ++ quoted path ++ js ")".

Lemma source_call_facts src :
  source_call src path <> [] /\ trimmed (source_call src path) = true
  /\ 38 ∉ source_call src path /\ 124 ∉ source_call src path
  /\ forall d, scan d (source_call src path) = Some d.
Proof.
  unfold source_call, quoted.
  destruct src; cbn [source_name]; unfold SOURCE_PARAM, SOURCE_HEADER; split_and!; try done.
  all: try solve [norm_text; missing].
  all: try solve [intros d; norm_text; scan_text].
  - by apply (trimmed_ends (js "param(") (quoted path) (js ")")).
  - by apply (trimmed_ends (js "header(") (quoted path) (js ")")).
Qed.

Lemma ph_exists_text src :
  let e := source_call src path
           ++ match src with SrcHeader => jsq " != ``" | SrcParam => js " != nil" end in
  cond_text (CondPH (MkPH src path MATCH_EXISTS [])) e /\ 124 ∉ e.
Proof.
  destruct (source_call_facts src) as (Hcn & Hct & Ha & Hb & Hsc).
  assert (He : source_call src path
           ++ match src with SrcHeader => jsq " != ``" | SrcParam => js " != nil" end
           = source_name src ++ js "(" ++ quoted path ++ js ")"
             ++ match src with SrcHeader => jsq " != ``" | SrcParam => js " != nil" end).
  { unfold source_call. by rewrite <-!app_assoc. }
  split; [split; [split_and!|]|].
  - by destruct (source_call src path).
  - destruct src.
    + rewrite (app_assoc (source_call _ _) (js " !") (js "= nil")). rewrite <-app_assoc.
      by apply trimmed_ends.
    + rewrite (app_assoc (source_call _ _) (js " !") (jsq "= ``")). rewrite <-app_assoc.
      by apply trimmed_ends.
  - apply not_elem_of_app; split; [done|]. destruct src; norm_text; missing.
  - rewrite scan_app, Hsc. by destruct src.
  - rewrite He. destruct src; cbn [source_name]; unfold SOURCE_PARAM, SOURCE_HEADER.
    + apply (parse_param_exists path); auto using safe_not_quote.
    + apply (parse_header_exists path); auto using safe_not_quote.
  - apply not_elem_of_app; split; [done|]. destruct src; norm_text; missing.
Qed.

Lemma ph_contains_text v :
  safe_text v = true ->
  let e := js "has(" ++ source_call SrcHeader path ++ js ", " ++ quoted v ++ js ")" in
  cond_text (CondPH (MkPH SrcHeader path MATCH_CONTAINS v)) e /\ 124 ∉ e.
Proof.
  intros Hv. destruct (source_call_facts SrcHeader) as (Hcn & Hct & Ha & Hb & Hsc).
  split; [split; [split_and!|]|].
  - done.
  - replace (js "has(" ++ source_call SrcHeader path ++ js ", " ++ quoted v ++ js ")")
      with (js "has(" ++ (source_call SrcHeader path ++ js ", " ++ quoted v) ++ js ")")
      by (by rewrite <-!app_assoc).
    by apply trimmed_ends.
  - unfold quoted. norm_text. missing.
  - unfold quoted. norm_text. cbn [scan N.eqb Pos.eqb]. rewrite scan_app, Hsc.
    cbn [mbind option_bind]. scan_text.
  - rewrite <-(parse_header_contains path v) by auto using safe_not_quote.
    f_equal. unfold source_call. by rewrite <-!app_assoc.
  - unfold quoted. norm_text. missing.
Qed.

Lemma ph_eq_text src v :
  safe_text v = true -> trimmed v = true ->
  let e := source_call src path ++ js " == " ++ buildExprLiteral MATCH_EQ v in
  cond_text (CondPH (MkPH src path MATCH_EQ v)) e /\ 124 ∉ e.
Proof.
  intros Hv Htv. destruct (source_call_facts src) as (Hcn & Hct & Ha & Hb & Hsc).
  set (lit := buildExprLiteral MATCH_EQ v). intros e.
  assert (Hlit : lit <> [] /\ trimmed lit = true /\ 38 ∉ lit /\ 124 ∉ lit
                 /\ (forall d, scan d lit = Some d) /\ forallb (any_has false) lit = true
                 /\ parseExprLiteral lit = Some (VStr v)).
  { unfold lit, buildExprLiteral. rewrite trim_id by done.
    rewrite (bool_decide_eq_false_2 (MATCH_EQ = MATCH_CONTAINS)) by done.
    destruct (bool_decide (v = js "true") || bool_decide (v = js "false")) eqn:Eb.
    { apply orb_true_iff in Eb as [Eb|Eb]; apply bool_decide_eq_true in Eb as ->;
        split_and!; done || (js_norm; missing) || (intros; scan_text). }
    destruct (re_test NUMERIC_LITERAL_REGEX v) eqn:En.
    { split_and!; auto using numeric_ne, safe_any, safe_scan; try missing.
      unfold parseExprLiteral. rewrite trim_id by done. by rewrite Eb, En. }
    rewrite json_quote_safe by done. split_and!; auto using literal_quoted; try done.
    - by apply (trimmed_ends [34] v [34]).
    - unfold quoted. missing.
    - unfold quoted. missing.
    - intros d. unfold quoted. scan_text.
    - unfold quoted. cbn [forallb]. rewrite forallb_app, safe_any by done. done. }
  destruct Hlit as (Hl1 & Hl2 & Hl3 & Hl4 & Hl5 & Hl6 & Hl7).
  split; [split; [split_and!|]|].
  - subst e. by destruct (source_call src path).
  - by apply trimmed_ends.
  - subst e. norm_text. missing.
  - subst e. rewrite scan_app, Hsc. cbn [mbind option_bind]. norm_text.
    cbn [scan N.eqb Pos.eqb]. apply Hl5.
  - replace e with (source_name src ++ js "(" ++ quoted path ++ js ") == " ++ lit)
      by (subst e; unfold source_call; by rewrite <-!app_assoc).
    rewrite parse_eq by auto using safe_not_quote. by rewrite Hl7.
  - subst e. norm_text. missing.
Qed.
End ph_texts.

(** ** The printer on the supported conditions *)

Lemma paren_or_plain e : 124 ∉ e -> paren_or e = e.
Proof.
  intros H. unfold paren_or. rewrite (includes_missing _ _ 124); [done| |done].
  js_norm. apply elem_of_cons. right. apply elem_of_cons. by left.
Qed.

Lemma rt_time_text c :
  rt_time c = true ->
  cond_text (CondTime c) (buildTimeConditionExpr c)
  /\ cond_text (CondTime c) (paren_or (buildTimeConditionExpr c)).
Proof.
  destruct c as [tf tz mode v rs r]. unfold rt_time.
  cbn [tm_timeFunc tm_timezone tm_mode tm_value tm_rangeStart tm_rangeEnd]. intros H. bool_hyps.
  assert (tz <> []) as Hne by (by apply truthy_ne).
  assert (Hn : mode ∈ map fst (getRequestRuleMatchOptions SOURCE_TIME) ->
    normalized_time (CondTime (MkTime tf tz mode v rs r)) = MkTime tf tz mode v rs r).
  { intros Hm. unfold normalized_time, normalizeCondition, partial_of, allowed_mode, isTimeFunc.
    cbn [pc_source pc_timeFunc pc_timezone pc_path pc_mode pc_value pc_rangeStart pc_rangeEnd
         tm_timeFunc tm_timezone tm_mode tm_value tm_rangeStart tm_rangeEnd].
    rewrite !bool_decide_eq_true_2 by done. simpl. by destruct tz. }
  unfold buildTimeConditionExpr.
  destruct (decide (mode = MATCH_RANGE)) as [->|Hm].
  - rewrite bool_decide_eq_true_2 in * by done. bool_hyps. subst v.
    rewrite Hn by (decide_now).
    cbn [tm_timeFunc tm_timezone tm_mode tm_value tm_rangeStart tm_rangeEnd].
    rewrite ?bool_decide_eq_true_2 by done.
    rewrite !trim_id by (by apply num_trimmed, numeric_class).
    match goal with H1 : numeric rs = true, H2 : numeric r = true |- _ =>
      unfold numeric in H1, H2; rewrite H1, H2; cbn [negb orb]; fold (numeric rs) in H1;
      fold (numeric r) in H2 end.
    rewrite json_quote_safe by done. fold (time_call tf tz).
    destruct (time_range_text tf tz) with (s := rs) (e := r) as [HT1 HT2]; try done.
    split; [done|]. unfold paren_or.
    replace (includes _ _) with true; [done|]. symmetry.
    rewrite (app_assoc (js " >= ")), (app_assoc (time_call tf tz)). apply includes_app.
  - rewrite bool_decide_eq_false_2 in * by done. bool_hyps. subst rs r.
    assert (exists op, assoc mode TIME_BUILD_OPS = Some op /\ op <> []
      /\ mode ∈ map fst (getRequestRuleMatchOptions SOURCE_TIME)) as (op & Hop & Hopn & Hin).
    { match goal with H : mode ∈ _ |- _ => rename H into Hmode end.
      repeat (apply elem_of_cons in Hmode as [->|Hmode];
        [eexists; split_and!; [reflexivity|done|decide_now]|]).
      by apply not_elem_of_nil in Hmode. }
    rewrite Hn by done.
    cbn [tm_timeFunc tm_timezone tm_mode tm_value tm_rangeStart tm_rangeEnd].
    rewrite ?bool_decide_eq_false_2 by done.
    rewrite trim_id by (by apply num_trimmed, numeric_class).
    match goal with H1 : numeric v = true |- _ =>
      unfold numeric in H1; rewrite H1; cbn [negb]; fold (numeric v) in H1 end.
    rewrite json_quote_safe, Hop by done. fold (time_call tf tz).
    replace (str_or (default [] (Some op)) (js "==")) with op by (by destruct op).
    destruct (time_compare_text tf tz) with (mode := mode) (op := op) (v := v) as [HT1 HT2]; try done.
    by rewrite paren_or_plain.
Qed.

Lemma rt_ph_text c :
  rt_ph c = true ->
  cond_text (CondPH c) (buildPHConditionExpr c) /\ 124 ∉ buildPHConditionExpr c.
Proof.
  destruct c as [src path mode v]. unfold rt_ph.
  cbn [ph_source ph_path ph_mode ph_value]. intros H. bool_hyps.
  assert (path <> []) as Hne by (by apply truthy_ne).
  assert (Hn : mode ∈ map fst (getRequestRuleMatchOptions (source_name src)) ->
    normalized_ph (CondPH (MkPH src path mode v)) = MkPH src path mode v).
  { intros Hm. unfold normalized_ph, normalizeCondition, partial_of, allowed_mode.
    cbn [pc_source pc_timeFunc pc_timezone pc_path pc_mode pc_value pc_rangeStart pc_rangeEnd
         ph_source ph_path ph_mode ph_value].
    destruct src; rewrite bool_decide_eq_false_2 by done.
    - rewrite bool_decide_eq_false_2 by done. by rewrite bool_decide_eq_true_2.
    - rewrite bool_decide_eq_true_2 by done. by rewrite bool_decide_eq_true_2. }
  unfold buildPHConditionExpr.
  assert (Hin : mode = MATCH_EXISTS \/ mode = MATCH_EQ \/ mode = MATCH_CONTAINS /\ src = SrcHeader).
  { repeat case_bool_decide; bool_hyps; auto.
    - by destruct src; bool_hyps; auto.
    - bool_hyps. done. }
  rewrite Hn by (destruct Hin as [-> | [-> | [-> ->]]]; try destruct src; decide_now).
  cbn [ph_source ph_path ph_mode ph_value]. rewrite trim_id by done.
  destruct path as [|c0 path0] eqn:Ep; [done|]. rewrite <-Ep in *.
  rewrite json_quote_safe by done.
  fold (source_call src path). destruct Hin as [->|[->|[-> ->]]].
  - rewrite !bool_decide_eq_true_2 in * by done. bool_hyps. subst v.
    destruct (ph_exists_text path) with (src := src) as [HT1 HT2]; try done. by destruct src.
  - rewrite !bool_decide_eq_false_2 by done. rewrite bool_decide_eq_false_2 in * by done. bool_hyps.
    replace (assoc MATCH_EQ PARAM_BUILD_OPS) with (@None jstr) by reflexivity.
    apply ph_eq_text; done.
  - rewrite (bool_decide_eq_false_2 (MATCH_CONTAINS = MATCH_EXISTS)) in * by done. bool_hyps.
    rewrite bool_decide_eq_true_2 by done. unfold buildExprLiteral.
    rewrite bool_decide_eq_true_2 by done. rewrite trim_id, json_quote_safe by done.
    apply ph_contains_text; done.
Qed.

Lemma rt_condition_text c :
  rt_condition c = true ->
  cond_text c (buildRequestConditionExpr c) /\ cond_text c (paren_or (buildRequestConditionExpr c)).
Proof.
  destruct c as [c|c]; cbn [rt_condition buildRequestConditionExpr]; intros H.
  - by apply rt_time_text.
  - destruct (rt_ph_text c H) as [H1 H2]. by rewrite paren_or_plain.
Qed.

(** ** Factors *)

(** The text of a rule: [(conditions ? multiplier : 1)]. *)
Definition factor_text (combined multiplier : jstr) : jstr :=
  js "(" ++ combined ++ js " ? " ++ multiplier ++ js " : 1)".

(** The greedy [.+] of the pattern stops at the last question mark. *)
Lemma factor_match combined multiplier :
  combined <> [] -> numeric multiplier = true ->
  exists w, re_match RULE_FACTOR_REGEX (factor_text combined multiplier)
            = Some [w; Some combined; Some multiplier].
Proof.
  intros Hne Hn. pose proof (numeric_class _ Hn) as Hc. pose proof (numeric_ne _ Hn) as Hmn.
  unfold factor_text. norm_text. rx_start. rx.
  set (whole := 40 :: _). erewrite plus_backtrack; first last.
  - cbv beta. rewrite set_cap_eq. cbn [insert list_insert].
    rewrite between_app. rx_all. reflexivity.
  - intros pv' a b Hab Ha. cbv beta. rewrite set_cap_eq, !rmatch_seq.
    destruct b as [|x [|y b]]; [done| |].
    { rewrite rmatch_char_cons. destruct (32 =? x); [|done]. by rewrite rmatch_seq. }
    rewrite rmatch_char_cons. destruct (N.eqb_spec 32 x) as [<-|]; [|done].
    rewrite rmatch_seq, rmatch_char_cons. destruct (N.eqb_spec 63 y) as [<-|]; [|done].
    exfalso. destruct a as [|a0 a]; [done|]. cbn [app] in Hab. injection Hab as <- Hab.
    destruct a as [|a1 a]; [done|]. cbn [app] in Hab. injection Hab as <- Hab.
    assert (63 ∈ a ++ 32 :: 63 :: b) as Hin.
    { apply elem_of_app. right. right. by left. }
    rewrite <-Hab in Hin. revert Hin. change (63 ∉ 32 :: multiplier ++ js " : 1)").
    norm_text. missing.
  - by apply forallb_forall.
  - done.
  - apply single_any.
  - eexists. reflexivity.
Qed.

(** Conjunctions of supported conditions. *)
Lemma parseConditions_texts cs es :
  Forall2 cond_text cs es -> parseConditions es = Ok (Some cs).
Proof.
  induction 1 as [|c e cs es [(_ & Ht & _) Hp] _ IH]; [done|].
  cbn [parseConditions]. rewrite trim_id, Hp by done. cbn [res_bind]. rewrite IH. done.
Qed.

Lemma cond_texts_parts cs es : Forall2 cond_text cs es -> Forall and_part es.
Proof. induction 1 as [|c e cs es [Hp _] _ IH]; constructor; done. Qed.

Lemma join_scan sep l :
  Forall (fun p => scan 0 p = Some 0%nat) l -> scan 0 sep = Some 0%nat ->
  scan 0 (join sep l) = Some 0%nat.
Proof.
  intros Hl Hs. induction Hl as [|p l Hp Hl IH]; [done|].
  destruct l as [|q l]; [done|].
  change (join sep (p :: q :: l)) with (p ++ sep ++ join sep (q :: l)).
  rewrite !scan_app, Hp. cbn [mbind option_bind]. rewrite scan_app, Hs. cbn [mbind option_bind].
  done.
Qed.

(** A factor made of the parts [es] reads as its conditions do, and it is a
    factor of a product. *)
Lemma factor_reads es multiplier :
  es <> [] -> Forall and_part es -> numeric multiplier = true ->
  tryParseRuleGroupFactor (factor_text (join (js " && ") es) multiplier)
  = let* conditions := parseConditions es in
    match conditions with
    | None | Some [] => Ok None
    | Some cs => Ok (Some (MkGroup cs multiplier))
    end.
Proof.
  intros Hes Hparts Hm.
  assert (join (js " && ") es <> []) as Hj.
  { destruct es as [|e es]; [done|]. apply Forall_cons in Hparts as [(He & _) _].
    by destruct e; [done|destruct es]. }
  destruct (factor_match _ _ Hj Hm) as [w Hw].
  unfold tryParseRuleGroupFactor. rewrite Hw.
  change (cap_str 1 [w; Some (join (js " && ") es); Some multiplier]) with (join (js " && ") es).
  by rewrite splitTopLevelAnd_join.
Qed.

Lemma factor_is_mul es multiplier :
  Forall and_part es -> numeric multiplier = true ->
  mul_factor (factor_text (join (js " && ") es) multiplier).
Proof.
  intros Hparts Hm.
  exists (join (js " && ") es ++ js " ? " ++ multiplier ++ js " : 1"). split.
  { unfold factor_text. by rewrite <-!app_assoc. }
  rewrite scan_app, join_scan; [|by eapply Forall_impl; [done|intros ? (_&_&_&?)]|done].
  pose proof (numeric_class _ Hm). cbn [mbind option_bind]. norm_text. scan_text.
Qed.

(** The texts [es] of the conditions [cs]. *)
Lemma factor_parses cs es multiplier :
  cs <> [] -> Forall2 cond_text cs es -> numeric multiplier = true ->
  let f := factor_text (join (js " && ") es) multiplier in
  tryParseRuleGroupFactor f = Ok (Some (MkGroup cs multiplier)) /\ mul_factor f.
Proof.
  intros Hne Hcs Hm f. pose proof (cond_texts_parts _ _ Hcs) as Hparts.
  assert (es <> []) as Hes by (intros ->; by inversion Hcs; subst).
  split; [|by apply factor_is_mul]. unfold f.
  rewrite factor_reads, (parseConditions_texts _ _ Hcs) by done. by destruct cs.
Qed.

(** The printer on a supported group. *)
Lemma group_text g :
  rt_group g = true ->
  exists es, Forall2 cond_text (rg_conditions g) es
    /\ buildRuleGroupFactor g = factor_text (join (js " && ") es) (rg_multiplier g).
Proof.
  destruct g as [cs m]. unfold rt_group. cbn [rg_conditions rg_multiplier]. intros H. bool_hyps.
  match goal with H : numeric m = true |- _ => rename H into Hm end.
  assert (Forall (fun c => rt_condition c = true) cs) as Hcs.
  { apply Forall_forall. intros c Hc. destruct cs as [|c0 cs]; [done|].
    match goal with H : forallb _ _ = true |- _ => rewrite forallb_forall in H; apply H end.
    by apply list_elem_of_In. }
  unfold buildRuleGroupFactor. cbn [rg_conditions rg_multiplier].
  rewrite trim_id by (by apply num_trimmed, numeric_class).
  unfold numeric in Hm. rewrite Hm. cbn [negb]. fold (numeric m) in Hm.
  assert (List.filter str_truthy (map buildRequestConditionExpr cs)
          = map buildRequestConditionExpr cs) as ->.
  { clear -Hcs. induction Hcs as [|c cs Hc _ IH]; [done|]. cbn [map List.filter].
    destruct (rt_condition_text c Hc) as [[[Hne _] _] _]. rewrite IH.
    by destruct (buildRequestConditionExpr c). }
  destruct cs as [|c [|c' cs]]; [done| |].
  - apply Forall_cons in Hcs as [Hc _]. exists [buildRequestConditionExpr c]. split.
    + constructor; [by apply rt_condition_text|constructor].
    + reflexivity.
  - exists (map paren_or (map buildRequestConditionExpr (c :: c' :: cs))). split; [|reflexivity].
    generalize (c :: c' :: cs), Hcs. clear. intros l. induction 1; constructor; [|done].
    by apply rt_condition_text.
Qed.

Lemma groups_texts gs :
  forallb rt_group gs = true ->
  List.filter str_truthy (map buildRuleGroupFactor gs) = map buildRuleGroupFactor gs
  /\ Forall mul_factor (map buildRuleGroupFactor gs)
  /\ parseFactors (map buildRuleGroupFactor gs) = Ok (Some gs).
Proof.
  induction gs as [|g gs IH]; cbn [map forallb]; intros H; [done|]. bool_hyps.
  destruct IH as (IH1 & IH2 & IH3); [done|].
  destruct (group_text g) as (es & Hes & Hf); [done|].
  destruct (factor_parses (rg_conditions g) es (rg_multiplier g)) as [Hp Hm]; try done.
  { destruct g as [[|]]; done. }
  { unfold rt_group in *. by bool_hyps. }
  rewrite <-Hf in Hp, Hm. destruct g as [cs m]. cbn [rg_conditions rg_multiplier] in Hp.
  split_and!.
  - cbn [List.filter]. rewrite IH1. apply mul_factor_ne in Hm.
    by destruct (buildRuleGroupFactor _).
  - by constructor.
  - cbn [parseFactors]. rewrite Hp. cbn [res_bind]. rewrite IH3. done.
Qed.

Lemma join_factors_trimmed l :
  Forall mul_factor l -> trimmed (join (js " * ") l) = true.
Proof.
  induction 1 as [|f l Hf Hl IH]; [done|]. destruct l as [|g l]; [by apply mul_factor_trimmed|].
  apply (trimmed_ends f (js " * ") (join (js " * ") (g :: l))); try done.
  - by apply mul_factor_ne.
  - apply Forall_cons in Hl as [Hg _]. apply mul_factor_ne in Hg. by destruct g; [done|destruct l].
  - by apply mul_factor_trimmed.
Qed.
