(* ===== verification/BillingSplit.v ===== *)
(** * Splitting an expression into base and rules

    What joining a base expression and rules makes of them, as a product, and
    what [unwrapOuterParens] gives back. *)
From S2P Require Import Prelude JsString JsNumber JsValue JsJson JsRegex JsRegexFacts JsJsonFacts BillingExpr BillingConditions BillingRules.
Open Scope N_scope.

(** ** Outer parentheses *)

Lemma outer_parens_inside n p :
  scan n p = Some 0%nat -> outer_parens_from (Z.of_nat (S n)) (p ++ [41]) = true.
Proof.
  revert n. induction p as [|c p IH]; intros n H; cbn [scan app outer_parens_from] in *.
  { by simplify_eq. }
  unfold paren_depth.
  destruct (c =? 40).
  { rewrite (proj2 (Z.eqb_neq _ 0)) by lia. cbn [andb].
    replace (Z.of_nat (S n) + 1)%Z with (Z.of_nat (S (S n))) by lia. by apply IH. }
  destruct (c =? 41).
  { destruct n as [|n]; [done|]. rewrite (proj2 (Z.eqb_neq _ 0)) by lia. cbn [andb].
    replace (Z.of_nat (S (S n)) - 1)%Z with (Z.of_nat (S n)) by lia. by apply IH. }
  rewrite (proj2 (Z.eqb_neq _ 0)) by lia. cbn [andb]. by apply IH.
Qed.

Definition in_parens (s : jstr) : jstr := js "(" ++ s ++ js ")".

Lemma in_parens_full s : scan 0 s = Some 0%nat -> hasFullOuterParens (in_parens s) = true.
Proof.
  intros H. unfold hasFullOuterParens, in_parens, ends_with. js_norm.
  rewrite !rev_app_distr. cbn [app rev starts_with N.eqb Pos.eqb andb negb orb outer_parens_from].
  change (paren_depth 40 0) with (Z.of_nat 1).
  rewrite (proj2 (Z.eqb_neq _ 0)) by lia. cbn [andb]. by apply outer_parens_inside.
Qed.

Lemma in_parens_inner s :
  substring 1 (length (in_parens s) - 1) (in_parens s) = s.
Proof.
  unfold substring, in_parens. js_norm. cbn [app]. rewrite skipn_cons, drop_0.
  cbn [length]. rewrite length_app. cbn [length].
  replace (S (length s + 1) - 1 - 1)%nat with (length s) by lia. apply take_app_length.
Qed.

Lemma unwrap_in_parens s :
  scan 0 s = Some 0%nat -> trimmed s = true -> hasFullOuterParens s = false ->
  unwrapOuterParens (in_parens s) = s.
Proof.
  intros Hs Ht Hf. unfold unwrapOuterParens.
  rewrite (trim_id (in_parens s)) by (by apply (trimmed_ends (js "(") s (js ")"))).
  change (length (in_parens s)) with (S (length (s ++ js ")"))).
  assert (exists n, length (s ++ js ")") = S n) as [n Hn].
  { rewrite length_app. js_norm. exists (length s). simpl. lia. }
  rewrite Hn. cbn [unwrap_loop]. rewrite in_parens_full, in_parens_inner, trim_id by done.
  by rewrite Hf.
Qed.

(** ** The round trip of the split *)

(** A base expression as the editor keeps it: trimmed, not empty, balanced, not
    in redundant parentheses, and no request rule by itself. *)
Definition base_ok (base : jstr) : Prop :=
  base <> [] /\ trimmed base = true /\ scan 0 base = Some 0%nat
  /\ hasFullOuterParens base = false
  /\ tryParseRequestRuleExpr (in_parens base) = Ok None.

(** Base and rules joined are a product again. *)
Lemma combine_factors base fs :
  base <> [] -> trimmed base = true -> fs <> [] -> Forall mul_factor fs ->
  combineBillingExpr base (join (js " * ") fs) = join (js " * ") (in_parens base :: fs).
Proof.
  intros Hne Ht Hfs Hm. unfold combineBillingExpr. rewrite (trim_id base) by done.
  rewrite trim_id by (by apply join_factors_trimmed).
  destruct base as [|b0 base'] eqn:Eb; [done|]. rewrite <-Eb.
  destruct fs as [|f fs'] eqn:Ef; [done|]. rewrite <-Ef in *.
  destruct (join (js " * ") fs) eqn:Ej.
  { exfalso. rewrite Ef in Hm, Ej. apply Forall_cons in Hm as [Hm _]. apply mul_factor_ne in Hm.
    by destruct f; [done|destruct fs']. }
  rewrite <-Ej, Ef. unfold in_parens. cbn [join]. by rewrite <-!app_assoc.
Qed.

