(* ===== verification/BillingLoss.v ===== *)
(** * The round trip of request rules

    A parameter rule that compares or searches prints as two tests joined by
    [ && ]; the parser of a group splits at every top-level [ && ] and so
    never sees the pair.  Such a rule makes the whole product unreadable, and
    an expression with it is not split. *)
From S2P Require Import Prelude JsString JsNumber JsValue JsJson JsRegex JsRegexFacts JsJsonFacts BillingExpr BillingConditions BillingRules BillingSplit.
Open Scope N_scope.

(** A comparison of a parameter with a number, or a search in one. *)
Definition lost_ph (c : ParamHeaderCondition) : bool :=
  match ph_source c with SrcParam => true | SrcHeader => false end
  && str_truthy (ph_path c) && trimmed (ph_path c) && safe_text (ph_path c)
  && (if bool_decide (ph_mode c = MATCH_CONTAINS)
      then trimmed (ph_value c) && safe_text (ph_value c)
      else bool_decide (ph_mode c ∈ map fst PARAM_BUILD_OPS) && numeric (ph_value c)).

Definition lost_condition (c : RequestCondition) : bool :=
  match c with CondPH c => lost_ph c | CondTime _ => false end.

Definition printable_group (g : RequestRuleGroup) : bool :=
  match rg_conditions g with [] => false | _ =>
    forallb (fun c => rt_condition c || lost_condition c) (rg_conditions g) end
  && numeric (rg_multiplier g).

Definition lossy_group (g : RequestRuleGroup) : bool := existsb lost_condition (rg_conditions g).

(** ** The two halves of a lost condition *)

(** The texts [es] between the [ && ] of a printed condition: one that reads
    back, or two, the second of which is no condition. *)
Definition cond_pieces (c : RequestCondition) (es : list jstr) : Prop :=
  Forall and_part es
  /\ ((rt_condition c = true /\ exists e, es = [e] /\ tryParseRequestCondition e = Ok (Some c))
      \/ (lost_condition c = true /\ exists a b d, es = [a; b]
          /\ tryParseRequestCondition a = Ok (Some d) /\ tryParseRequestCondition b = Ok None)).

Section halves.
Context (path : jstr) (Hne : path <> []) (Hs : safe_text path = true).

Lemma exists_half :
and_part (source_call SrcParam path ++ js " != nil")
/\ 124 ∉ source_call SrcParam path ++ js " != nil"
/\ exists d, tryParseRequestCondition (source_call SrcParam path ++ js " != nil") = Ok (Some d).
Proof.
destruct (ph_exists_text path) with (src := SrcParam) as [[HT1 HT2] HT3]; try done.
split_and!; [done|done|]. eexists. exact HT2.
Qed.

Lemma compare_half op v :
op ∈ map snd PARAM_BUILD_OPS -> numeric v = true ->
let e := source_call SrcParam path ++ js " " ++ op ++ js " " ++ v in
and_part e /\ 124 ∉ e /\ tryParseRequestCondition e = Ok None.
Proof.
intros Hop Hv e. pose proof (numeric_class _ Hv) as Hc. pose proof (numeric_ne _ Hv) as Hvn.
destruct (source_call_facts path) with (src := SrcParam) as (H1 & H2 & H3 & H4 & H5); try done.
assert (tryParseRequestCondition e = Ok None) as Hp.
{ unfold e, source_call. rewrite <-!app_assoc.
  apply (parse_lone_compare path Hne (safe_not_quote _ Hs) op v Hop). }
assert (trimmed e = true) as Ht.
{ unfold e. rewrite (app_assoc (js " ")), (app_assoc _ (js " ")).
  apply trimmed_ends; try done. by apply num_trimmed. }
assert (e <> []) as Hen by (unfold e; by destruct (source_call SrcParam path)).
unfold and_part. unfold PARAM_BUILD_OPS in Hop. cbn [map snd] in Hop.
split_and!; try done; unfold e.
all: repeat (apply elem_of_cons in Hop as [->|Hop]); [..|by apply not_elem_of_nil in Hop].
all: try (norm_text; missing).
all: rewrite scan_app, H5; cbn [mbind option_bind]; norm_text; scan_text.
Qed.

Lemma has_half v :
safe_text v = true ->
let e := js "has(" ++ source_call SrcParam path ++ js ", " ++ quoted v ++ js ")" in
and_part e /\ 124 ∉ e /\ tryParseRequestCondition e = Ok None.
Proof.
intros Hv e.
destruct (source_call_facts path) with (src := SrcParam) as (H1 & H2 & H3 & H4 & H5); try done.
assert (tryParseRequestCondition e = Ok None) as Hp.
{ unfold e, source_call. rewrite <-!app_assoc.
  apply parse_lone_has; auto using safe_not_quote. }
unfold and_part. split_and!; try done.
- replace e with (js "has(" ++ (source_call SrcParam path ++ js ", " ++ quoted v) ++ js ")")
    by (unfold e; by rewrite <-!app_assoc).
  by apply trimmed_ends.
- unfold e, quoted. norm_text. missing.
- unfold e, quoted. js_norm. cbn [app scan N.eqb Pos.eqb].
  rewrite scan_app, H5. cbn [mbind option_bind]. norm_text. scan_text.
- unfold e, quoted. norm_text. missing.
Qed.
End halves.

(** ** The printer on a lost condition *)

Lemma normalized_param path mode v :
  mode ∈ map fst (getRequestRuleMatchOptions SOURCE_PARAM) ->
  normalized_ph (CondPH (MkPH SrcParam path mode v)) = MkPH SrcParam path mode v.
Proof.
  intros H. unfold normalized_ph, normalizeCondition, partial_of, allowed_mode.
  cbn [pc_source pc_timeFunc pc_timezone pc_path pc_mode pc_value pc_rangeStart pc_rangeEnd
       ph_source ph_path ph_mode ph_value source_name].
  rewrite !bool_decide_eq_false_2 by done. by rewrite bool_decide_eq_true_2.
Qed.

Lemma lost_ph_pieces c :
  lost_ph c = true ->
  exists a b d, buildPHConditionExpr c = join (js " && ") [a; b]
    /\ and_part a /\ and_part b /\ 124 ∉ a /\ 124 ∉ b
    /\ tryParseRequestCondition a = Ok (Some d) /\ tryParseRequestCondition b = Ok None.
Proof.
  destruct c as [[] path mode v]; unfold lost_ph; cbn [ph_source ph_path ph_mode ph_value];
    intros H; [|done]. bool_hyps.
  assert (path <> []) as Hne by (by apply truthy_ne).
  destruct (exists_half path Hne) as (Ha & Ha' & d & Hd); [done|].
  destruct (decide (mode = MATCH_CONTAINS)) as [->|Hm].
  - rewrite bool_decide_eq_true_2 in * by done. bool_hyps.
    destruct (has_half path) with (v := v) as (Hb & Hb' & Hn); try done.
    eexists _, _, d. split_and!; [|exact Ha|exact Hb|exact Ha'|exact Hb'|exact Hd|exact Hn].
    unfold buildPHConditionExpr. rewrite normalized_param by decide_now.
    cbn [ph_source ph_path ph_mode ph_value source_name]. rewrite trim_id by done.
    destruct path as [|c0 path0] eqn:Ep; [done|]. rewrite <-Ep in *. rewrite json_quote_safe by done.
    rewrite bool_decide_eq_false_2 by done.
    rewrite bool_decide_eq_true_2 by done. unfold buildExprLiteral.
    rewrite bool_decide_eq_true_2, trim_id, json_quote_safe by done.
    cbn [join]. unfold source_call, quoted. by norm_text.
  - rewrite bool_decide_eq_false_2 in * by done. bool_hyps.
    assert (exists op, assoc mode PARAM_BUILD_OPS = Some op /\ op ∈ map snd PARAM_BUILD_OPS
      /\ mode ∈ map fst (getRequestRuleMatchOptions SOURCE_PARAM)
      /\ mode <> MATCH_EXISTS) as (op & Hop & Hopin & Hin & Hme).
    { match goal with H : mode ∈ _ |- _ => rename H into Hmode end.
      unfold PARAM_BUILD_OPS in Hmode. cbn [map fst] in Hmode.
      repeat (apply elem_of_cons in Hmode as [->|Hmode];
        [eexists; split_and!; [reflexivity|decide_now|decide_now|done]|]).
      by apply not_elem_of_nil in Hmode. }
    destruct (compare_half path Hne) with (op := op) (v := v) as (Hb & Hb' & Hn); try done.
    eexists _, _, d. split_and!; [|exact Ha|exact Hb|exact Ha'|exact Hb'|exact Hd|exact Hn].
    unfold buildPHConditionExpr. rewrite normalized_param by done.
    cbn [ph_source ph_path ph_mode ph_value source_name]. rewrite trim_id by done.
    destruct path as [|c0 path0] eqn:Ep; [done|]. rewrite <-Ep in *. rewrite json_quote_safe by done.
    rewrite !bool_decide_eq_false_2 by done. rewrite Hop.
    rewrite trim_id by (by apply num_trimmed, numeric_class).
    match goal with H1 : numeric v = true |- _ => unfold numeric in H1; rewrite H1 end.
    cbn [negb join]. unfold source_call, quoted. by norm_text.
Qed.

(** The pieces of any printable condition, bare or in a conjunction. *)
Lemma condition_pieces c :
  rt_condition c || lost_condition c = true ->
  (exists es, cond_pieces c es /\ es <> [] /\ buildRequestConditionExpr c = join (js " && ") es)
  /\ (exists es, cond_pieces c es /\ es <> []
        /\ paren_or (buildRequestConditionExpr c) = join (js " && ") es).
Proof.
  intros [H|H]%orb_true_iff.
  - destruct (rt_condition_text c H) as [[H1 H2] [H3 H4]].
    split; [exists [buildRequestConditionExpr c] | exists [paren_or (buildRequestConditionExpr c)]];
      (split_and!; [split; [by apply Forall_singleton|left]|done|done]); eauto.
  - destruct c as [c|c]; cbn [lost_condition buildRequestConditionExpr] in *; [done|].
    destruct (lost_ph_pieces c H) as (a & b & d & -> & Ha & Hb & Ha' & Hb' & Hd & Hn).
    rewrite paren_or_plain.
    + split; exists [a; b]; (split_and!; [split; [constructor; [done|by apply Forall_singleton]|right]|done|done]);
        cbn [lost_condition]; eauto 10.
    + cbn [join]. js_norm. cbn [app]. rewrite elem_of_app. intros [?|Hin]; [done|].
      repeat (apply elem_of_cons in Hin as [?|Hin]; [done|]). done.
Qed.

(** ** Conjunctions and products *)

Lemma join_app sep (l1 l2 : list jstr) :
  l1 <> [] -> l2 <> [] -> join sep (l1 ++ l2) = join sep l1 ++ sep ++ join sep l2.
Proof.
  intros H1 H2. induction l1 as [|x [|y l1] IH]; [done| |].
  - cbn [app join]. by destruct l2.
  - change (join sep ((x :: y :: l1) ++ l2)) with (x ++ sep ++ join sep ((y :: l1) ++ l2)).
    rewrite IH by done. change (join sep (x :: y :: l1)) with (x ++ sep ++ join sep (y :: l1)).
    by rewrite <-!app_assoc.
Qed.

(** The texts of printable conditions, cut at every [ && ]. *)
Lemma conditions_pieces (pr : RequestCondition -> jstr) cs :
  (forall c, c ∈ cs -> exists es, cond_pieces c es /\ es <> [] /\ pr c = join (js " && ") es) ->
  cs <> [] ->
  exists es, Forall and_part es /\ es <> [] /\ join (js " && ") (map pr cs) = join (js " && ") es
    /\ parseConditions es = Ok (if existsb lost_condition cs then None else Some cs).
Proof.
  induction cs as [|c cs IH]; intros Hcs Hne; [done|].
  destruct (Hcs c) as (es & [Hes Hkind] & Hesn & Hpr); [by left|].
  assert (exists es', Forall and_part es' /\ parseConditions es'
      = Ok (if existsb lost_condition cs then None else Some cs)
    /\ join (js " && ") (map pr (c :: cs)) = join (js " && ") (es ++ es'))
    as (es' & Hall & Hp & Hj).
  { destruct cs as [|c' cs].
    - exists []. split_and!; [constructor|done|]. cbn [map join]. by rewrite app_nil_r.
    - destruct IH as (es' & H1 & H2 & H3 & H4); [|done|].
      { intros c0 Hc0. apply Hcs. by right. }
      exists es'. split_and!; [done|done|]. rewrite join_app by done. rewrite <-H3, <-Hpr. done. }
  exists (es ++ es'). split_and!; [by apply Forall_app|by destruct es|done|].
  clear Hj. destruct Hkind as [(Hrt & e & -> & He)|(Hlost & a & b & d & -> & Ha & Hb)].
  - assert (lost_condition c = false) as Hl.
    { destruct c as [c|[[] path mode v]]; [done| |done]. cbn [rt_condition lost_condition] in *.
      apply not_true_iff_false. intros Hl. unfold rt_ph, lost_ph in *.
      cbn [ph_source ph_path ph_mode ph_value] in *. bool_hyps.
      repeat (case_bool_decide; bool_hyps; subst; try done).
      all: match goal with H : _ ∈ map fst PARAM_BUILD_OPS |- _ => revert H end.
      all: by apply (bool_decide_eq_false_1 _). }
    apply Forall_cons in Hes as [(_ & Ht & _) _].
    cbn [app parseConditions existsb]. rewrite trim_id, He, Hl by done. cbn [res_bind orb].
    rewrite Hp. by destruct (existsb _ _).
  - apply Forall_cons in Hes as [(_ & Ht & _) Hes]. apply Forall_cons in Hes as [(_ & Ht' & _) _].
    cbn [app parseConditions existsb]. by rewrite !trim_id, Ha, Hlost, Hb by done.
Qed.

Lemma printable_group_text g :
  printable_group g = true ->
  mul_factor (buildRuleGroupFactor g)
  /\ tryParseRuleGroupFactor (buildRuleGroupFactor g)
     = Ok (if lossy_group g then None else Some g).
Proof.
  destruct g as [cs m]. unfold printable_group, lossy_group. cbn [rg_conditions rg_multiplier].
  intros [Hcs Hm]%andb_true_iff.
  assert (cs <> [] /\ Forall (fun c => rt_condition c || lost_condition c = true) cs) as [Hne Hall].
  { destruct cs; [done|]. split; [done|]. by apply forallb_Forall. }
  rewrite list.Forall_forall in Hall.
  assert (exists es, Forall and_part es /\ es <> []
    /\ buildRuleGroupFactor (MkGroup cs m) = factor_text (join (js " && ") es) m
    /\ parseConditions es = Ok (if existsb lost_condition cs then None else Some cs))
    as (es & Hes & Hesn & -> & Hp).
  { unfold buildRuleGroupFactor. cbn [rg_conditions rg_multiplier].
    rewrite trim_id by (by apply num_trimmed, numeric_class).
    unfold numeric in Hm. rewrite Hm. cbn [negb].
    assert (List.filter str_truthy (map buildRequestConditionExpr cs)
            = map buildRequestConditionExpr cs) as ->.
    { clear Hne Hcs. induction cs as [|c cs IH]; [done|]. cbn [map List.filter].
      rewrite IH by (intros c0 Hc0; apply Hall; by right).
      { destruct (condition_pieces c) as [(es & [Hes _] & Hn & ->) _]; [apply Hall; by left|].
        destruct es as [|e es]; [done|]. apply Forall_cons in Hes as [(He & _) _].
        by destruct e; [done|destruct es]. } }
    destruct cs as [|c [|c' cs]]; [done| |].
    - destruct (conditions_pieces buildRequestConditionExpr [c])
        as (es & H1 & H2 & H3 & H4); [|done|].
      { intros c0 Hc0. by apply condition_pieces, Hall. }
      exists es. split_and!; [done|done| |done]. by rewrite <-H3.
    - destruct (conditions_pieces (fun c => paren_or (buildRequestConditionExpr c)) (c :: c' :: cs))
        as (es & H1 & H2 & H3 & H4); [|done|].
      { intros c0 Hc0. by apply condition_pieces, Hall. }
      exists es. split_and!; [done|done| |done]. rewrite <-H3. cbn [map]. by rewrite map_map. }
  split; [by apply factor_is_mul|].
  by rewrite (factor_reads es m), Hp by done; destruct (existsb _ _), cs.
Qed.

Lemma printable_groups_text gs :
  forallb printable_group gs = true ->
  Forall mul_factor (map buildRuleGroupFactor gs)
  /\ List.filter str_truthy (map buildRuleGroupFactor gs) = map buildRuleGroupFactor gs
  /\ parseFactors (map buildRuleGroupFactor gs)
     = Ok (if existsb lossy_group gs then None else Some gs).
Proof.
  induction gs as [|g gs IH]; cbn [forallb map]; intros H; [by split_and!|]. bool_hyps.
  destruct IH as (IH1 & IH2 & IH3); [done|].
  destruct (printable_group_text g) as [Hm Hp]; [done|]. split_and!.
  - by constructor.
  - cbn [List.filter]. rewrite IH2. apply mul_factor_ne in Hm. by destruct (buildRuleGroupFactor g).
  - cbn [parseFactors existsb]. rewrite Hp. cbn [res_bind].
    destruct (lossy_group g); [done|]. rewrite IH3. cbn [res_bind orb].
    by destruct (existsb _ _).
Qed.


(** A value with [ && ] is split like a condition, and blanks at the ends of a
    value are not kept. *)
Lemma ampersand_value_lost :
  tryParseRequestRuleExpr (buildRequestRuleExpr [MkGroup [CondPH (MkPH SrcHeader (js "x") MATCH_EQ (js "a && b"))] (js "2")]) = Ok None.
Proof. vm_compute. reflexivity. Qed.

Lemma blank_value_trimmed :
  tryParseRequestRuleExpr (buildRequestRuleExpr [MkGroup [CondPH (MkPH SrcParam (js "x") MATCH_EQ (js " hi "))] (js "2")])
  = Ok (Some [MkGroup [CondPH (MkPH SrcParam (js "x") MATCH_EQ (js "hi"))] (js "2")]).
Proof. vm_compute. reflexivity. Qed.


Definition long_output_rule : RequestRuleGroup :=
  MkGroup [CondPH (MkPH SrcParam (js "max_tokens") MATCH_GT (js "4096"))] (js "1.5").


(** ** Splitting a combined expression *)

(** The parts that are a group and those that are none, among printed groups. *)
Lemma classify_groups gs :
  forallb printable_group gs = true ->
  exists rules rest, classifyParts (map buildRuleGroupFactor gs) = Ok (rules, rest)
    /\ if existsb lossy_group gs then rest <> [] else rules = map buildRuleGroupFactor gs /\ rest = [].
Proof.
  induction gs as [|g gs IH]; cbn [map forallb existsb]; intros H; [by exists [], []|]. bool_hyps.
  destruct IH as (rules & rest & E & IH); [done|]. destruct (printable_group_text g) as [Hm Hp]; [done|].
  assert (Hg : tryParseRequestRuleExpr (buildRuleGroupFactor g) = Ok (if lossy_group g then None else Some [g])).
  { unfold tryParseRequestRuleExpr. rewrite trim_id by (by apply mul_factor_trimmed).
    pose proof (splitTopLevelMultiply_join [buildRuleGroupFactor g] ltac:(by repeat constructor) ltac:(done)) as Hsp. cbn [join] in Hsp.
    pose proof (mul_factor_ne _ Hm). destruct (buildRuleGroupFactor g) as [|c0 f0] eqn:Ef; [done|]. rewrite Hsp.
    cbn [parseFactors]. rewrite Hp. by destruct (lossy_group g). }
  cbn [classifyParts]. rewrite Hg, E. cbn [res_bind fst snd]. destruct (lossy_group g); cbn [orb].
  - eexists _, _. split; [reflexivity|]. done.
  - eexists _, _. split; [reflexivity|]. destruct (existsb lossy_group gs); [done|]. destruct IH as [-> ->]. done.
Qed.

(** C20.  Splitting what [combineBillingExpr] joined gives back the base
    expression and the printed rules, unless one of the rules compares a
    parameter or searches in one: then the whole text is taken for the base
    expression, without rules.  This is for a base expression that is trimmed,
    balanced, not wrapped in parentheses and no rule by itself, and for rules
    as in the round trip of rules: trimmed texts without quotes, backslashes,
    ampersands, parentheses, bars or control units, and numeric multipliers. *)
Theorem split_combine_roundtrip (base : jstr) (groups : list RequestRuleGroup) :
  base_ok base -> groups <> [] -> forallb printable_group groups = true ->
  let combined := combineBillingExpr base (buildRequestRuleExpr groups) in
  splitBillingExprAndRequestRules combined
  = Ok (if existsb lossy_group groups then (combined, []) else (base, buildRequestRuleExpr groups)).
Proof.
  intros (Hne & Ht & Hs & Hf & Hr) Hg Hrt. destruct (printable_groups_text groups Hrt) as (Hm & Hfil & _).
  unfold buildRequestRuleExpr. rewrite Hfil. set (fs := map buildRuleGroupFactor groups) in *.
  assert (fs <> []) as Hfs by (by destruct groups).
  assert (Hbase : mul_factor (in_parens base)) by (by exists base). cbv zeta.
  rewrite (combine_factors base fs) by done. unfold splitBillingExprAndRequestRules.
  rewrite trim_id by (apply join_factors_trimmed; by constructor).
  destruct (join (js " * ") (in_parens base :: fs)) eqn:Ej; [by destruct fs|].
  rewrite <-Ej, splitTopLevelMultiply_join by (done || by constructor).
  replace (length (in_parens base :: fs) <=? 1)%nat with false by (by destruct fs).
  cbn [classifyParts]. rewrite Hr. cbn [res_bind].
  destruct (classify_groups groups Hrt) as (rules & rest & E & H). fold fs in E, H. rewrite E. cbn [res_bind fst snd].
  destruct (existsb lossy_group groups).
  - destruct rest; [done|]. by destruct rules.
  - destruct H as [-> ->]. destruct fs as [|f fs'] eqn:Ef; [done|]. by rewrite unwrap_in_parens.
Qed.

Definition stream_rule : RequestRuleGroup := MkGroup [CondPH (MkPH SrcParam (js "stream") MATCH_EQ (js "true"))] (js "2").

Lemma split_combine_roundtrip_witness :
  let base := jsq "tier(`base`, p * 2 + c * 4)" in
  let combined := combineBillingExpr base (buildRequestRuleExpr [long_output_rule]) in
  splitBillingExprAndRequestRules (combineBillingExpr base (buildRequestRuleExpr [stream_rule]))
  = Ok (base, buildRequestRuleExpr [stream_rule])
  /\ splitBillingExprAndRequestRules combined = Ok (combined, []).
Proof.
  cbv zeta. assert (Hb : base_ok (jsq "tier(`base`, p * 2 + c * 4)")).
  { split; [vm_compute; discriminate|]. repeat split; vm_compute; reflexivity. }
  split.
  - exact (split_combine_roundtrip _ [stream_rule] Hb ltac:(discriminate) ltac:(vm_compute; reflexivity)).
  - exact (split_combine_roundtrip _ [long_output_rule] Hb ltac:(discriminate) ltac:(vm_compute; reflexivity)).
Defined.
