(* ===== verification/BillingEditor.v ===== *)
(** * The editor's invariants

    The termination of [unwrapOuterParens], the well-formedness of normalized
    conditions, the shape of parsed tiers, and the exception that
    [tryParseRequestRuleExpr] lets through. *)
From S2P Require Import Prelude JsString JsNumber JsValue JsJson JsRegex BillingExpr.
Open Scope N_scope.

(** ** unwrapOuterParens *)

Lemma trim_length s : (length (trim s) <= length s)%nat.
Proof.
  destruct (trim_decompose s) as (a & b & _ & _ & H). rewrite H at 2. rewrite !length_app. lia.
Qed.

Lemma unwrap_loop_done fuel s :
  (length s <= fuel)%nat -> hasFullOuterParens (unwrap_loop fuel s) = false.
Proof.
  revert s. induction fuel as [|fuel IH]; intros s Hl; cbn [unwrap_loop].
  { by destruct s; [|cbn in Hl; lia]. }
  destruct (hasFullOuterParens s) eqn:E; [|done]. apply IH.
  etrans; [apply trim_length|]. unfold substring.
  destruct s as [|c s]; [done|]. cbn [length] in *. rewrite length_take. lia.
Qed.

(** [unwrapOuterParens] stops, and only when no parentheses enclose the
    whole text any more; what it returns is trimmed. *)
Theorem unwrapOuterParens_spec (expr : jstr) :
  hasFullOuterParens (unwrapOuterParens expr) = false /\ trimmed (unwrapOuterParens expr) = true.
Proof.
  unfold unwrapOuterParens. split; [by apply unwrap_loop_done|].
  assert (forall fuel s, trimmed s = true -> trimmed (unwrap_loop fuel s) = true) as H.
  { induction fuel as [|fuel IH]; intros s Hs; cbn [unwrap_loop]; [done|].
    destruct (hasFullOuterParens s); [|done]. apply IH, trim_trimmed. }
  apply H, trim_trimmed.
Qed.

(** ** normalizeCondition *)

(** What the rest of the editor assumes of a condition. *)
Definition wf_condition (c : RequestCondition) : Prop :=
  match c with
  | CondTime t => tm_timeFunc t ∈ TIME_FUNCS /\ tm_timezone t <> []
                  /\ tm_mode t ∈ map fst (getRequestRuleMatchOptions SOURCE_TIME)
  | CondPH p => ph_mode p ∈ map fst (getRequestRuleMatchOptions (source_name (ph_source p)))
  end.

Lemma allowed_mode_in source mode fallback :
  fallback ∈ map fst (getRequestRuleMatchOptions source) ->
  allowed_mode source mode fallback ∈ map fst (getRequestRuleMatchOptions source).
Proof. unfold allowed_mode. intros. destruct mode; [case_bool_decide|]; done. Qed.

Lemma normalizeCondition_wf_at c : wf_condition (normalizeCondition c).
Proof.
  unfold normalizeCondition. case_bool_decide as Hs; cbn [wf_condition tm_timeFunc tm_timezone tm_mode
    ph_mode ph_source].
  - split_and!.
    + destruct (pc_timeFunc c) as [f|]; cbn [isTimeFunc default];
        [case_bool_decide; [done|]|]; by apply (bool_decide_eq_true_1 _).
    + by destruct (pc_timezone c) as [[|]|].
    + apply allowed_mode_in. by apply (bool_decide_eq_true_1 _).
  - apply allowed_mode_in. by case_bool_decide; apply (bool_decide_eq_true_1 _).
Qed.

Lemma normalizeCondition_fix c :
  wf_condition c -> normalizeCondition (partial_of c) = c.
Proof.
  unfold normalizeCondition, allowed_mode. destruct c as [[f tz m v rs re]|[src p m v]];
    cbn [partial_of pc_source pc_timeFunc pc_timezone pc_path pc_mode pc_value pc_rangeStart
         pc_rangeEnd tm_timeFunc tm_timezone tm_mode tm_value tm_rangeStart tm_rangeEnd
         ph_source ph_path ph_mode ph_value wf_condition isTimeFunc default].
  - intros (Hf & Hz & Hm). rewrite !bool_decide_eq_true_2 by done. by destruct tz.
  - intros Hm. destruct src; cbn [source_name] in *; rewrite bool_decide_eq_false_2 by done.
    + rewrite bool_decide_eq_false_2 by done. by rewrite bool_decide_eq_true_2.
    + rewrite bool_decide_eq_true_2 by done. by rewrite bool_decide_eq_true_2.
Qed.

(** Normalizing any partial condition gives a well-formed one (a known
    time function, a time zone, a mode that is offered for the source), and
    normalizing again changes nothing. *)
Theorem normalizeCondition_wf (cond : PartialCondition) :
  wf_condition (normalizeCondition cond)
  /\ normalizeCondition (partial_of (normalizeCondition cond)) = normalizeCondition cond.
Proof. split; [|apply normalizeCondition_fix]; apply normalizeCondition_wf_at. Qed.

(** ** Parsed tiers *)

Lemma parseTierBody_fields body :
  map fst (parseTierBody body) = map snd BILLING_VAR_KEY_TO_FIELD
  /\ Forall (fun kv => is_nan kv.2 = false) (parseTierBody body).
Proof.
  unfold parseTierBody. split; [by rewrite map_map|].
  apply list.Forall_forall. intros [k v] Hin. apply list_elem_of_fmap in Hin as ([x f] & Heq & _).
  simplify_eq. cbn [snd]. destruct (assoc x _) as [n|]; [|done].
  by destruct n.
Qed.

(** Whatever the expression text, every parsed tier has the price fields
    of the variable registry, all of them, in its order, and no price is NaN. *)
Theorem parsed_tiers_complete (exprStr : jstr) :
  Forall (fun t => map fst (pt_fields t) = map snd BILLING_VAR_KEY_TO_FIELD
                   /\ Forall (fun kv => is_nan kv.2 = false) (pt_fields t))
         (parseTiersFromExpr exprStr).
Proof.
  unfold parseTiersFromExpr. destruct exprStr as [|c s]; [constructor|].
  apply list.Forall_forall. intros t Hin. apply list_elem_of_fmap in Hin as (m & -> & _).
  apply parseTierBody_fields.
Qed.

(** ** An exception of the rule parser *)

(** A search in a header whose text is no JSON string makes the parser
    throw: [JSON.parse] is called outside of a [try]. *)
Theorem rule_parser_throws :
  tryParseRequestRuleExpr (jsq "(has(header(`a`), `\x`) ? 2 : 1)") = Throw SyntaxError.
Proof. vm_compute. reflexivity. Qed.
