(* ===== verification/TierExpr.v ===== *)
(** * Visual tiers (features/pricing/lib/tier-expr.ts)

    The visual editor's tiers as dynamic objects: their normalisation, the
    expression they generate and the attempt to read an expression back. *)
From S2P Require Import Prelude JsString JsNumber JsValue JsRegex BillingExpr.
Open Scope N_scope.

Definition CACHE_MODE_TIMED : jstr := js "timed".
Definition CACHE_MODE_GENERIC : jstr := js "generic".

(** A [Partial<VisualTier>]: any value may stand in a field. *)
Abbreviation VisualTier := jsobj.

(** The tiers of a [VisualConfig]. *)
Abbreviation VisualConfig := (list VisualTier).

(** [Number(v) || 0] *)
Definition number_or_zero (v : jsval) : res num :=
  let* n := to_num v in Ok (if num_truthy n then n else nzero).

Definition getTierCacheMode (tier : VisualTier) : res jstr :=
  if str_is CACHE_MODE_TIMED (oget (js "cache_mode") tier) then Ok CACHE_MODE_TIMED
  else if str_is CACHE_MODE_GENERIC (oget (js "cache_mode") tier) then Ok CACHE_MODE_GENERIC
  else
    let* n := to_num (oget (js "cache_create_1h_unit_cost") tier) in
    Ok (if nltb nzero n then CACHE_MODE_TIMED else CACHE_MODE_GENERIC).

(** The fields that the literal sets after the spread of the tier. *)
Definition EXTRA_COST_FIELDS : list jstr :=
  [js "cache_read_unit_cost"; js "cache_create_unit_cost"; js "cache_create_1h_unit_cost";
   js "image_unit_cost"; js "image_output_unit_cost"; js "audio_input_unit_cost";
   js "audio_output_unit_cost"].

Fixpoint set_costs (fields : list jstr) (tier acc : VisualTier) : res VisualTier :=
  match fields with
  | [] => Ok acc
  | f :: fields' =>
      let* n := number_or_zero (oget f tier) in
      set_costs fields' tier (oset f (VNum n) acc)
  end.

Definition normalizeVisualTier (tier : VisualTier) : res VisualTier :=
  let* ic := number_or_zero (oget (js "input_unit_cost") tier) in
  let* oc := number_or_zero (oget (js "output_unit_cost") tier) in
  let* mode := getTierCacheMode tier in
  let conditions := oget (js "conditions") tier in
  let literal :=
    obj_of [(js "label", vcoalesce (oget (js "label") tier) (VStr []));
            (js "input_unit_cost", VNum ic); (js "output_unit_cost", VNum oc);
            (js "cache_mode", VStr mode);
            (js "conditions", if is_array conditions then conditions else VArr [])] in
  set_costs EXTRA_COST_FIELDS tier (ospread literal tier).

Definition createDefaultVisualConfig : res VisualConfig :=
  let* t := normalizeVisualTier
    (obj_of [(js "conditions", VArr []); (js "input_unit_cost", VNum nzero);
             (js "output_unit_cost", VNum nzero); (js "label", VStr (js "base"));
             (js "cache_mode", VStr CACHE_MODE_GENERIC)]) in
  Ok [t].

Definition normalizeVisualConfig (config : option VisualConfig) : res VisualConfig :=
  match config with
  | None | Some [] => createDefaultVisualConfig
  | Some tiers => res_mapM normalizeVisualTier tiers
  end.

(** [c.var && c.op && c.value != null && c.value !== ''], then the text. *)
Definition condition_text (c : jsval) : res (option jstr) :=
  let* var := vget (js "var") c in
  let* op := vget (js "op") c in
  let* value := vget (js "value") c in
  if truthy var && truthy op
     && negb (match value with VUndef | VNull | VStr [] => true | _ => false end)
  then
    let* a := to_str var in
    let* b := to_str op in
    let* d := to_str value in
    Ok (Some (a ++ js " " ++ b ++ js " " ++ d))
  else Ok None.

Definition buildConditionStr (conditions : jsval) : res jstr :=
  if negb (truthy conditions) then Ok []
  else
    let* len := vget (js "length") conditions in
    if (match len with VNum n => neqb n nzero | _ => false end) then Ok []
    else match conditions with
         | VArr l =>
             let* texts := res_mapM condition_text l in
             Ok (join (js " && ") (omap id texts))
         | _ => Throw TypeError
         end.

(** The parts of the extra variables with a cost. *)
Fixpoint extra_parts (vars : list (jstr * jstr)) (tier : VisualTier) : res (list jstr) :=
  match vars with
  | [] => Ok []
  | (field, exprVar) :: vars' =>
      let* v := number_or_zero (oget field tier) in
      let* rest := extra_parts vars' tier in
      Ok (if neqb v nzero then rest else (exprVar ++ js " * " ++ num_to_str v) :: rest)
  end.

Definition buildTierBodyExpr (tier : VisualTier) : res jstr :=
  let* ic := number_or_zero (oget (js "input_unit_cost") tier) in
  let* oc := number_or_zero (oget (js "output_unit_cost") tier) in
  let* extra := extra_parts BILLING_CACHE_VAR_MAP tier in
  Ok (join (js " + ") ((js "p * " ++ num_to_str ic) :: (js "c * " ++ num_to_str oc) :: extra)).

(** The call of [tier] and the condition in front of it. *)
Definition tier_call (fallback : jstr) (tier : VisualTier) : res (jstr * jstr) :=
  let* label := to_str (vor (oget (js "label") tier) (VStr fallback)) in
  let* body := buildTierBodyExpr tier in
  let* cond := buildConditionStr (oget (js "conditions") tier) in
  Ok (jsq "tier(`" ++ label ++ jsq "`, " ++ body ++ js ")", cond).

(** The parts from the index [i] on. *)
Fixpoint tier_parts (i : nat) (tiers : list VisualTier) : res (list jstr) :=
  match tiers with
  | [] => Ok []
  | tier :: rest =>
      let* bc := tier_call (js "tier_" ++ show_nat (S i)) tier in
      let* parts := tier_parts (S i) rest in
      Ok ((match rest, bc.2 with
           | _ :: _, _ :: _ => bc.2 ++ js " ? " ++ bc.1
           | _, _ => bc.1
           end) :: parts)
  end.

Definition generateExprFromVisualConfig (config : option VisualConfig) : res jstr :=
  match config with
  | None | Some [] => Ok (js "p * 0 + c * 0")
  | Some [tier] =>
      let* bc := tier_call (js "default") tier in
      Ok (match bc.2 with
          | [] => bc.1
          | cond => cond ++ js " ? " ++ bc.1 ++ js " : p * 0 + c * 0"
          end)
  | Some tiers =>
      let* parts := tier_parts 0 tiers in
      Ok (join (js " : ") parts)
  end.

(** ** Reading an expression back *)

Definition VERSION_PREFIX_REGEX : regex := Eval vm_compute in re (js "^v\d+:([\s\S]*)$").

Definition BODY_PAT : jstr :=
  js "p\s*\*\s*([\d.eE+-]+)\s*\+\s*c\s*\*\s*([\d.eE+-]+)"
  ++ concat (map (fun cv => js "(?:\s*\+\s*" ++ cv.2 ++ js "\s*\*\s*([\d.eE+-]+))?")
               BILLING_CACHE_VAR_MAP).

Definition SINGLE_REGEX : regex := Eval vm_compute in
  re (jsq "^tier\(`([^`]*)`,\s*" ++ BODY_PAT ++ js "\)$").

Definition VISUAL_TIER_REGEX : regex := Eval vm_compute in
  re (js "(?:" ++ COND_GROUP ++ jsq "\s*\?\s*)?tier\(`([^`]*)`,\s*" ++ BODY_PAT ++ js "\)").

(** The object of a matched tier: the first cost is at the capture [i]. *)
Definition matched_tier (conditions : list jsval) (label : jstr) (i : nat)
    (m : list (option jstr)) : VisualTier :=
  fold_left (fun tier ncv =>
      match cap (i + 2 + ncv.1) m with
      | Some val => oset (fst ncv.2) (VNum (num_of_str val)) tier
      | None => tier
      end)
    (zip (seq 0 (length BILLING_CACHE_VAR_MAP)) BILLING_CACHE_VAR_MAP)
    (obj_of [(js "conditions", VArr conditions);
             (js "input_unit_cost", VNum (num_of_str (cap_str i m)));
             (js "output_unit_cost", VNum (num_of_str (cap_str (S i) m)));
             (js "label", VStr label)]).

Definition condition_value (c : TierCondition) : jsval :=
  VObj (obj_of [(js "var", VStr (tc_var c)); (js "op", VStr (tc_op c)); (js "value", VNum (tc_value c))]).

Definition strip_spaces (s : jstr) : jstr := re_replace_all SPACES_REGEX (fun _ => []) s.

Definition expr_body (exprStr : jstr) : jstr :=
  match re_match VERSION_PREFIX_REGEX exprStr with Some m => cap_str 1 m | None => exprStr end.

Definition parseSingleTier (body : jstr) : option (res VisualConfig) :=
  m ← re_match SINGLE_REGEX body;
  Some (let* t := normalizeVisualTier (matched_tier [] (cap_str 1 m) 2 m) in
        normalizeVisualConfig (Some [t])).

Definition parseTierList (body : jstr) : res (option VisualConfig) :=
  let* tiers := res_mapM (fun r =>
      let m := mr_caps r in
      normalizeVisualTier
        (matched_tier (map condition_value (parseTierConditions (cap_str 1 m))) (cap_str 2 m) 3 m))
    (re_all VISUAL_TIER_REGEX body) in
  match tiers with
  | [] => Ok None
  | _ =>
      let* cfg := normalizeVisualConfig (Some tiers) in
      let* regenerated := generateExprFromVisualConfig (Some cfg) in
      Ok (if bool_decide (strip_spaces regenerated = strip_spaces body) then Some cfg else None)
  end.

Definition tryParseVisualConfig (exprStr : jstr) : option VisualConfig :=
  match exprStr with
  | [] => None
  | _ =>
      let body := expr_body exprStr in
      match parseSingleTier body with
      | Some r => catch (res_map Some r) None
      | None => catch (parseTierList body) None
      end
  end.

(** Variable and state key of the estimator. *)
Definition ESTIMATOR_VARS : list (jstr * jstr) :=
  [(js "cr", js "cacheReadTokens"); (js "cc", js "cacheCreateTokens");
   (js "cc1h", js "cacheCreate1hTokens"); (js "img", js "imageTokens");
   (js "img_o", js "imageOutputTokens"); (js "ai", js "audioInputTokens");
   (js "ao", js "audioOutputTokens")].

Definition EXTRA_VARS_REGEX : regex := Eval vm_compute in
  re (js "\b(" ++ join (js "|") (map fst ESTIMATOR_VARS) ++ js ")\b").

Definition exprUsesExtraVars (exprStr : jstr) : bool :=
  match exprStr with [] => false | _ => re_test EXTRA_VARS_REGEX exprStr end.
