(* ===== verification/TierExprFacts.v ===== *)
(** * Facts on visual tiers *)
From S2P Require Import Prelude JsString JsNumber JsValue JsValueFacts JsRegex BillingExpr TierExpr.
Open Scope N_scope.

Lemma number_or_zero_fix v n :
  number_or_zero v = Ok n -> is_nan n = false /\ number_or_zero (VNum n) = Ok n.
Proof.
  unfold number_or_zero. destruct (to_num v) as [m|]; [|done]. cbn [res_bind]. intros [= <-].
  destruct m as [[]|[]| |]; done.
Qed.

(** A field that [Number] can read and that [|| 0] made stable. *)
Definition cost_field (f : jstr) (o : VisualTier) : Prop :=
  exists n, olookup f o = Some (VNum n) /\ is_nan n = false /\ number_or_zero (VNum n) = Ok n.

Lemma set_costs_lookup fields tier acc r :
  set_costs fields tier acc = Ok r ->
  (forall f, f ∈ fields -> cost_field f r)
  /\ (forall k, k ∉ fields -> olookup k r = olookup k acc).
Proof.
  revert acc. induction fields as [|f fields IH]; intros acc; cbn [set_costs].
  { intros [= <-]. split; [|done]. by intros f ?%elem_of_nil. }
  destruct (number_or_zero _) as [n|] eqn:En; [|done]. cbn [res_bind]. intros H.
  destruct (IH _ H) as [H1 H2]. split.
  - intros g [->|Hg]%elem_of_cons; [|by apply H1].
    destruct (decide (f ∈ fields)) as [Hf|Hf]; [by apply H1|]. apply number_or_zero_fix in En as [? ?].
    exists n. rewrite H2, olookup_oset_eq by done. done.
  - intros k Hk. apply not_elem_of_cons in Hk as [Hkf Hk]. rewrite H2, olookup_oset_ne by done. done.
Qed.

Lemma set_costs_stable fields tier acc :
  (forall f, f ∈ fields -> cost_field f tier) ->
  exists r, set_costs fields tier acc = Ok r
    /\ forall k, olookup k r = if bool_decide (k ∈ fields) then olookup k tier else olookup k acc.
Proof.
  revert acc. induction fields as [|f fields IH]; intros acc Hf; cbn [set_costs].
  { exists acc. split; [done|]. intros k. by rewrite bool_decide_eq_false_2 by apply not_elem_of_nil. }
  destruct (Hf f) as (n & Hn & _ & Hfix); [by left|]. unfold oget. rewrite Hn. cbn [default from_option id].
  unfold id. rewrite Hfix. cbn [res_bind]. destruct (IH (oset f (VNum n) acc)) as (r & -> & Hr).
  { intros g Hg. apply Hf. by right. }
  exists r. split; [done|]. intros k. rewrite Hr, olookup_oset.
  destruct (decide (k ∈ fields)); [by rewrite !bool_decide_eq_true_2 by (done || by right)|].
  rewrite bool_decide_eq_false_2 by done. destruct (decide (k = f)) as [->|Hne].
  - by rewrite !bool_decide_eq_true_2 by (done || by left).
  - rewrite !bool_decide_eq_false_2; [done| |done]. by intros [?|?]%elem_of_cons.
Qed.

(** The five fields that the literal sets first. *)
Definition LITERAL_FIELDS : list jstr :=
  [js "label"; js "input_unit_cost"; js "output_unit_cost"; js "cache_mode"; js "conditions"].

Lemma literal_lookup l i o m c k :
  olookup k (obj_of [(js "label", l); (js "input_unit_cost", i); (js "output_unit_cost", o);
                     (js "cache_mode", m); (js "conditions", c)])
  = olookup k [(js "label", l); (js "input_unit_cost", i); (js "output_unit_cost", o);
               (js "cache_mode", m); (js "conditions", c)].
Proof. apply olookup_obj_of. apply (bool_decide_eq_true_1 _). reflexivity. Qed.

Lemma literal_dom l i o m c k :
  olookup k [(js "label", l); (js "input_unit_cost", i); (js "output_unit_cost", o);
             (js "cache_mode", m); (js "conditions", c)] <> None <-> k ∈ LITERAL_FIELDS.
Proof. rewrite olookup_None. split; [apply dec_stable|by intros H H']. Qed.

Lemma getTierCacheMode_ok tier :
  cost_field (js "cache_create_1h_unit_cost") tier -> exists m, getTierCacheMode tier = Ok m.
Proof.
  intros (n & Hn & _). unfold getTierCacheMode. rewrite (oget_lookup _ _ _ Hn).
  destruct (str_is _ _); [by eexists|]. destruct (str_is _ _); by eexists.
Qed.

(** [Number(v) || 0] succeeds. *)
Definition numeric_field (f : jstr) (o : VisualTier) : Prop :=
  exists n, number_or_zero (oget f o) = Ok n.

Lemma normalized_lookup tier r :
  okeys_nodup tier -> normalizeVisualTier tier = Ok r ->
  (forall f, f ∈ EXTRA_COST_FIELDS -> cost_field f r)
  /\ (forall k v, k ∉ EXTRA_COST_FIELDS -> olookup k tier = Some v -> olookup k r = Some v)
  /\ (forall k, k ∈ LITERAL_FIELDS -> olookup k r <> None)
  /\ numeric_field (js "input_unit_cost") r /\ numeric_field (js "output_unit_cost") r.
Proof.
  intros Hnd. unfold normalizeVisualTier.
  destruct (number_or_zero (oget (js "input_unit_cost") tier)) as [ic|] eqn:Ei; [|done]. cbn [res_bind].
  destruct (number_or_zero (oget (js "output_unit_cost") tier)) as [oc|] eqn:Eo; [|done]. cbn [res_bind].
  destruct (getTierCacheMode tier) as [mode|]; [|done]. cbn [res_bind].
  set (lit := obj_of _). intros H. destruct (set_costs_lookup _ _ _ _ H) as [H1 H2].
  assert (Hlit : forall k, k ∉ EXTRA_COST_FIELDS ->
    olookup k r = match olookup k tier with Some v => Some v | None => olookup k lit end).
  { intros k Hk. by rewrite H2, olookup_ospread by done. }
  assert (Hnot : forall k, k ∈ LITERAL_FIELDS -> k ∉ EXTRA_COST_FIELDS).
  { apply list.Forall_forall. repeat constructor; decide_now. }
  assert (Hcost : forall f n, f ∈ LITERAL_FIELDS -> olookup f lit = Some (VNum n) ->
    number_or_zero (oget f tier) = Ok n -> numeric_field f r).
  { intros f n Hf Hl Hn. unfold numeric_field, oget in *. rewrite (Hlit f) by auto.
    destruct (olookup f tier) as [v|]; [by exists n|]. rewrite Hl. cbn.
    apply number_or_zero_fix in Hn as [_ ?]. by exists n. }
  split_and!; [done| | | |].
  - intros k v Hk Hv. by rewrite Hlit, Hv.
  - intros k Hk. rewrite Hlit by auto. destruct (olookup k tier); [done|].
    unfold lit. rewrite literal_lookup. by apply literal_dom.
  - apply (Hcost _ ic); [decide_now|unfold lit; by rewrite literal_lookup|done].
  - apply (Hcost _ oc); [decide_now|unfold lit; by rewrite literal_lookup|done].
Qed.

(** Normalising a tier: each of the seven extra costs becomes a number
    that is not NaN, every other property the tier has is kept as it is, and
    normalising the result again succeeds and changes no property. *)
Theorem normalizeVisualTier_spec (tier r : VisualTier) :
  okeys_nodup tier -> normalizeVisualTier tier = Ok r ->
  (forall f, f ∈ EXTRA_COST_FIELDS -> exists n, olookup f r = Some (VNum n) /\ is_nan n = false)
  /\ (forall k v, k ∉ EXTRA_COST_FIELDS -> olookup k tier = Some v -> olookup k r = Some v)
  /\ (okeys_nodup r -> exists r', normalizeVisualTier r = Ok r' /\ same_props r' r).
Proof.
  intros Hnd H. destruct (normalized_lookup _ _ Hnd H) as (H1 & H2 & H3 & [ic Hi] & [oc Ho]).
  split_and!; [|done|].
  - intros f Hf. destruct (H1 f Hf) as (n & ? & ? & _). by exists n.
  - intros Hndr. unfold normalizeVisualTier. rewrite Hi, Ho. cbn [res_bind].
    destruct (getTierCacheMode_ok r) as [m ->].
    { apply H1. decide_now. }
    cbn [res_bind]. set (lit := obj_of _).
    destruct (set_costs_stable EXTRA_COST_FIELDS r (ospread lit r) H1) as (r' & -> & Hr').
    exists r'. split; [done|]. intros k. rewrite Hr'. case_bool_decide; [done|].
    rewrite olookup_ospread by done. destruct (olookup k r) eqn:E; [done|].
    destruct (decide (k ∈ LITERAL_FIELDS)) as [Hk|Hk]; [by apply H3 in Hk|].
    unfold lit. rewrite literal_lookup. apply dec_stable. by rewrite literal_dom.
Qed.

Definition odd_tier : VisualTier :=
  [(js "input_unit_cost", VNum nan); (js "image_unit_cost", VStr (js "0.5"));
   (js "cache_mode", VStr (js "other"))].

(** The witness also shows what "kept as it is" means: the input cost stays
    NaN and the cache mode one that is none. *)
Lemma normalizeVisualTier_spec_witness :
  exists r, normalizeVisualTier odd_tier = Ok r
  /\ olookup (js "input_unit_cost") r = Some (VNum nan)
  /\ olookup (js "cache_mode") r = Some (VStr (js "other")).
Proof.
  eexists. split; [vm_compute; reflexivity|].
  split; eapply (normalizeVisualTier_spec odd_tier); try (vm_compute; reflexivity); decide_now.
Defined.

(** What [tryParseVisualConfig] accepts: either the text is one tier of
    the simple form, or the configuration it returns generates the same
    expression up to white space. *)
Theorem tryParse_regenerates (exprStr : jstr) (cfg : VisualConfig) :
  tryParseVisualConfig exprStr = Some cfg ->
  parseSingleTier (expr_body exprStr) <> None
  \/ exists text, generateExprFromVisualConfig (Some cfg) = Ok text
       /\ strip_spaces text = strip_spaces (expr_body exprStr).
Proof.
  unfold tryParseVisualConfig. destruct exprStr as [|c s]; [done|].
  destruct (parseSingleTier _) as [r|]; [by left|]. right.
  unfold parseTierList in *. destruct (res_mapM _ _) as [[|t ts]|]; try done. cbn [res_bind] in *.
  destruct (normalizeVisualConfig _) as [cfg'|]; [|done]. cbn [res_bind] in *.
  destruct (generateExprFromVisualConfig (Some cfg')) as [text|] eqn:E; [|done]. cbn [res_bind catch] in *.
  case_bool_decide; [|done]. simplify_eq. by exists text.
Qed.

Definition two_tiers : jstr :=
  jsq "p < 2 ? tier(`a`, p * 2 + c * 10) : tier(`b`, p*3 + c*5)".

Definition two_tiers_config : VisualConfig :=
  Eval vm_compute in default [] (tryParseVisualConfig two_tiers).

Lemma tryParse_regenerates_witness :
  length two_tiers_config = 2%nat
  /\ (parseSingleTier (expr_body two_tiers) <> None
      \/ exists text, generateExprFromVisualConfig (Some two_tiers_config) = Ok text
           /\ strip_spaces text = strip_spaces (expr_body two_tiers)).
Proof.
  split; [reflexivity|]. apply tryParse_regenerates. vm_compute. reflexivity.
Defined.

(** The simple form is accepted without that check, although its pattern
    takes texts that are no numbers: the price [1-2] is read as NaN and the
    expression generated from the result charges nothing for the input. *)
Theorem single_tier_loses_price :
  exists cfg, tryParseVisualConfig (jsq "tier(`base`, p * 1-2 + c * 10)") = Some cfg
  /\ generateExprFromVisualConfig (Some cfg) = Ok (jsq "tier(`base`, p * 0 + c * 10)").
Proof. eexists. split; [vm_compute; reflexivity|]. vm_compute. reflexivity. Qed.
