(* ===== verification/StatusCodeRules.v ===== *)
(** * HTTP status code rules (lib/http-status-code-rules.ts)

    Parsing a list of status codes and ranges such as [200-299,404], and
    merging the ranges into a canonical list. *)
From stdpp Require Import sorting.
From S2P Require Import Prelude JsString JsNumber JsNumberFacts JsValue JsRegex JsRegexFacts.
Open Scope Z_scope.


(** Codes are integers: [parseInt] of a text of digits is exact below [2^53],
    and a larger one is out of range whatever it rounds to. *)
Record StatusCodeRange := MkRange { start : Z; end_ : Z }.

Record ParsedHttpStatusCodeRules := MkParsedRules {
  ok : bool;
  ranges : list StatusCodeRange;
  tokens : list jstr;
  normalized : jstr;
  invalidTokens : list jstr
}.

Definition NUMBER_REGEX : regex := Eval vm_compute in re (js "^\d+$").

Definition isNumber (s : option jstr) : bool :=
  match s with Some s => re_test NUMBER_REGEX s | None => false end.

Definition isValidCode (code : Z) : bool := (100 <=? code) && (code <=? 599).

(** [Number.parseInt(s, 10)] of a text of digits. *)
Definition parseIntDigits (s : jstr) : Z := Z.of_N (read_digits s).

Definition parseToken (token : jstr) : option StatusCodeRange :=
  let cleaned := List.filter (fun c => negb (is_ws c)) (trim token) in
  match cleaned with
  | [] => None
  | _ =>
      if includes (js "-") cleaned then
        let parts := split_char 45 cleaned in
        let a := parts !! 0%nat in
        let b := parts !! 1%nat in
        if negb (isNumber a) || negb (isNumber b) then None
        else
          let s := parseIntDigits (default [] a) in
          let e := parseIntDigits (default [] b) in
          if negb (isValidCode s) || negb (isValidCode e) || (e <? s) then None
          else Some (MkRange s e)
      else if negb (isNumber (Some cleaned)) then None
      else
        let code := parseIntDigits cleaned in
        if negb (isValidCode code) then None else Some (MkRange code code)
  end.

(** The order of the comparison function: by start, then by end. *)
Definition range_le (a b : StatusCodeRange) : Prop :=
  start a < start b \/ (start a = start b /\ end_ a <= end_ b).

#[export] Instance range_le_dec : RelDecision range_le.
Proof. intros a b. unfold range_le. solve_decision. Defined.

(** One step of the [reduce], on the merged ranges last first. *)
Definition merge_step (merged : list StatusCodeRange) (current : StatusCodeRange)
  : list StatusCodeRange :=
  match merged with
  | last :: rest =>
      if end_ last + 1 <? start current then current :: merged
      else MkRange (start last) (Z.max (end_ last) (end_ current)) :: rest
  | [] => [current]
  end.

Definition mergeRanges (ranges : list StatusCodeRange) : list StatusCodeRange :=
  rev (fold_left merge_step (merge_sort range_le ranges) []).

Definition token_of (r : StatusCodeRange) : jstr :=
  if start r =? end_ r then show_Z (start r)
  else show_Z (start r) ++ js "-" ++ show_Z (end_ r).

(** [sanitized.split(',').map(trim).filter(Boolean)], full-width commas
    replaced. *)
Definition segments_of (raw : jstr) : list jstr :=
  split_trim_filter (replace_char 65292 (js ",") raw).

Definition parse_rules_text (raw : jstr) : ParsedHttpStatusCodeRules :=
  match raw with
  | [] => MkParsedRules true [] [] [] []
  | _ =>
      let segments := segments_of raw in
      let invalid := List.filter (fun s => bool_decide (parseToken s = None)) segments in
      match invalid with
      | _ :: _ => MkParsedRules false [] [] raw invalid
      | [] =>
          let merged := mergeRanges (omap parseToken segments) in
          let tokens := map token_of merged in
          MkParsedRules true merged tokens (join (js ",") tokens) []
      end
  end.

Definition parseHttpStatusCodeRules (input : jsval) : res ParsedHttpStatusCodeRules :=
  let* s := to_str (vcoalesce input (VStr [])) in
  Ok (parse_rules_text (trim s)).

(** ** The codes that a list of ranges stands for *)

Definition in_range (code : Z) (r : StatusCodeRange) : Prop := start r <= code <= end_ r.

(** The abstract meaning of a list of ranges: a set of codes. *)
Definition covered (code : Z) (l : list StatusCodeRange) : Prop := Exists (in_range code) l.

Definition proper_range (r : StatusCodeRange) : Prop := start r <= end_ r.

(** Room for at least one code between the two. *)
Definition before (a b : StatusCodeRange) : Prop := end_ a + 1 < start b.

(** The canonical lists: proper ranges in order, with gaps between them. *)
Definition canonical (l : list StatusCodeRange) : Prop :=
  StronglySorted before l /\ Forall proper_range l.

Lemma covered_cons code r l : covered code (r :: l) <-> in_range code r \/ covered code l.
Proof. apply Exists_cons. Qed.

Lemma covered_permutation code l l' : l ≡ₚ l' -> covered code l <-> covered code l'.
Proof.
  intros H. unfold covered. rewrite !Exists_exists. split; intros (x & Hx & Hc); exists x;
    (split; [|done]); [by rewrite <-H|by rewrite H].
Qed.

(** ** mergeRanges *)

#[export] Instance range_le_total : Total range_le.
Proof. intros a b. unfold range_le. lia. Qed.

#[export] Instance range_le_trans : Transitive range_le.
Proof. intros a b c. unfold range_le. lia. Qed.

Lemma merge_step_spec acc r :
  StronglySorted (flip before) acc -> Forall proper_range acc -> proper_range r ->
  Forall (fun x => start x <= start r) acc ->
  StronglySorted (flip before) (merge_step acc r) /\ Forall proper_range (merge_step acc r)
  /\ Forall (fun x => start x <= start r) (merge_step acc r)
  /\ forall code, covered code (merge_step acc r) <-> in_range code r \/ covered code acc.
Proof.
  intros Hs Hp Hr Hle. unfold proper_range in *. destruct acc as [|l acc]; cbn [merge_step].
  { split_and!; [repeat constructor|by repeat constructor|by repeat constructor|].
    intros code. rewrite covered_cons. tauto. }
  apply StronglySorted_inv in Hs as [Hs Hl]. apply Forall_cons in Hp as [Hpl Hp].
  apply Forall_cons in Hle as [Hll Hle].
  destruct (Z.ltb_spec (end_ l + 1) (start r)) as [Hlt|Hge].
  - split_and!.
    + constructor; [by constructor|]. constructor; [done|].
      eapply Forall_impl; [exact Hl|]. unfold flip, before. intros x Hx. lia.
    + by repeat constructor.
    + constructor; [lia|by constructor].
    + intros code. by rewrite covered_cons.
  - split_and!.
    + constructor; done.
    + constructor; [cbn; lia|done].
    + constructor; [done|done].
    + intros code. rewrite !covered_cons. unfold in_range. cbn [start end_].
      split; [intros [H|H]; [|tauto]|intros [H|[H|H]]; [left; lia|left; lia|tauto]].
      destruct (Z.le_gt_cases code (end_ l)); [right; left; lia|left; lia].
Qed.

Lemma merge_fold_spec l acc :
  StronglySorted range_le l -> Forall proper_range l ->
  StronglySorted (flip before) acc -> Forall proper_range acc ->
  Forall (fun r => Forall (fun x => start x <= start r) acc) l ->
  StronglySorted (flip before) (fold_left merge_step l acc)
  /\ Forall proper_range (fold_left merge_step l acc)
  /\ forall code, covered code (fold_left merge_step l acc) <-> covered code l \/ covered code acc.
Proof.
  revert acc. induction l as [|r l IH]; intros acc Hl Hpl Hs Hp Hle; cbn [fold_left].
  { split_and!; [done|done|]. intros code. split; [tauto|]. by intros [?%Exists_nil|?]. }
  apply StronglySorted_inv in Hl as [Hl Hr]. apply Forall_cons in Hpl as [Hpr Hpl].
  apply Forall_cons in Hle as [Hle1 Hle].
  destruct (merge_step_spec acc r) as (H1 & H2 & H3 & H4); try done.
  destruct (IH (merge_step acc r)) as (H5 & H6 & H7); try done.
  { eapply Forall_impl; [exact Hr|]. intros x Hx. eapply Forall_impl; [exact H3|].
    intros y Hy. unfold range_le in Hx. cbn in Hy. lia. }
  split_and!; [done|done|]. intros code. rewrite H7, H4, covered_cons. tauto.
Qed.

Lemma StronglySorted_flip_rev {A} (R : relation A) l :
  StronglySorted (flip R) l -> StronglySorted R (rev l).
Proof.
  induction 1 as [|x l Hs IH Hx]; cbn [rev]; [constructor|].
  apply StronglySorted_app_2; [|done|by repeat constructor].
  intros y z Hy Hz. apply list_elem_of_singleton in Hz as ->.
  apply list_elem_of_In, in_rev, list_elem_of_In in Hy.
  rewrite list.Forall_forall in Hx. by apply (Hx y).
Qed.

Lemma mergeRanges_spec l :
  Forall proper_range l ->
  canonical (mergeRanges l) /\ forall code, covered code (mergeRanges l) <-> covered code l.
Proof.
  intros Hp. unfold mergeRanges, canonical.
  pose proof (merge_sort_Permutation range_le l) as Hperm.
  destruct (merge_fold_spec (merge_sort range_le l) []) as (H1 & H2 & H3).
  - apply StronglySorted_merge_sort; apply _.
  - by rewrite Hperm.
  - constructor.
  - constructor.
  - by apply list.Forall_true.
  - split; [split; [by apply StronglySorted_flip_rev|by apply Forall_rev]|].
    intros code. rewrite (covered_permutation _ (rev _) (fold_left merge_step (merge_sort range_le l) [])).
    + rewrite H3, (covered_permutation _ _ _ Hperm). unfold covered at 2. rewrite Exists_nil. tauto.
    + symmetry. apply Permutation_rev.
Qed.

(** *** The canonical list of a set of codes is unique *)

Lemma canonical_inv r l :
  canonical (r :: l) ->
  canonical l /\ proper_range r /\ forall code, covered code l -> end_ r + 1 < code.
Proof.
  intros [Hs Hp]. apply StronglySorted_inv in Hs as [Hs Hr]. apply Forall_cons in Hp as [Hpr Hp].
  split_and!; [done|done|]. unfold covered. intros code Hc.
  apply Exists_exists in Hc as (x & Hx & Hcx). rewrite list.Forall_forall in Hr.
  specialize (Hr x Hx). unfold before, in_range in *. lia.
Qed.

Lemma canonical_unique l1 l2 :
  canonical l1 -> canonical l2 -> (forall code, covered code l1 <-> covered code l2) -> l1 = l2.
Proof.
  revert l2. induction l1 as [|[s1 e1] l1 IH]; intros [|[s2 e2] l2] H1 H2 Hc; [done| | |].
  - apply canonical_inv in H2 as (_ & Hp & _). unfold proper_range in Hp. cbn in Hp.
    assert (covered s2 []) as He%Exists_nil; [|done].
    apply Hc, covered_cons. left. unfold in_range. cbn. lia.
  - apply canonical_inv in H1 as (_ & Hp & _). unfold proper_range in Hp. cbn in Hp.
    assert (covered s1 []) as He%Exists_nil; [|done].
    apply Hc, covered_cons. left. unfold in_range. cbn. lia.
  - apply canonical_inv in H1 as (H1 & Hp1 & Hg1). apply canonical_inv in H2 as (H2 & Hp2 & Hg2).
    unfold proper_range in *. cbn [start end_] in *.
    setoid_rewrite covered_cons in Hc. unfold in_range in Hc. cbn [start end_] in Hc.
    assert (Hs : s1 = s2).
    { destruct (proj1 (Hc s1)) as [?|?%Hg2]; [left; lia| |];
        destruct (proj2 (Hc s2)) as [?|?%Hg1]; first [left; lia | lia]. }
    subst s2. assert (He : e1 = e2).
    { destruct (Z.lt_trichotomy e1 e2) as [Hlt|[?|Hlt]]; [|done|].
      - destruct (proj2 (Hc (e1 + 1))) as [?|?%Hg1]; first [left; lia | lia].
      - destruct (proj1 (Hc (e2 + 1))) as [?|?%Hg2]; first [left; lia | lia]. }
    subst e2. f_equal. apply IH; [done|done|]. intros code. split; intros Hin.
    + pose proof (Hg1 _ Hin). destruct (proj1 (Hc code)) as [?|?]; [by right|lia|done].
    + pose proof (Hg2 _ Hin). destruct (proj2 (Hc code)) as [?|?]; [by right|lia|done].
Qed.

Lemma mergeRanges_id l : canonical l -> mergeRanges l = l.
Proof.
  intros H. destruct (mergeRanges_spec l) as [Hc Hcov]; [apply H|]. by apply canonical_unique.
Qed.

(** ** Tokens *)

Definition valid_range (r : StatusCodeRange) : Prop := 100 <= start r <= end_ r /\ end_ r <= 599.

Lemma isNumber_digits s : s <> [] -> forallb is_digit s = true -> isNumber (Some s) = true.
Proof.
  intros Hne Hs. unfold isNumber. rewrite re_test_match, bool_decide_eq_true.
  assert (forallb (class_has false [CDigit false]) s = true).
  { revert Hs. apply forallb_impl. intros c Hc. unfold class_has. cbn. by rewrite Hc. }
  rx_start. rx_all. eexists. reflexivity.
Qed.

Lemma parseToken_valid token r : parseToken token = Some r -> valid_range r.
Proof.
  unfold parseToken, valid_range, isValidCode.
  destruct (List.filter _ _) as [|c cleaned]; [done|]. generalize (c :: cleaned). intros s.
  destruct (includes _ _).
  - destruct (_ || _); [done|]. destruct (_ || _) eqn:E; [done|]. intros [= <-]. bool_hyps.
    cbn [start end_]. lia.
  - destruct (negb (isNumber _)); [done|]. destruct (negb _) eqn:E; [done|]. intros [= <-]. bool_hyps.
    cbn [start end_]. lia.
Qed.

Lemma digits_no_ws s :
  forallb is_digit s = true -> List.filter (fun c => negb (is_ws c)) s = s.
Proof.
  induction s as [|c s IH]; cbn [forallb List.filter]; [done|]. intros H. bool_hyps.
  rewrite digit_not_ws, IH by done. done.
Qed.

Lemma parseIntDigits_show_Z n : 0 <= n -> parseIntDigits (show_Z n) = n.
Proof.
  intros. unfold parseIntDigits, show_Z. rewrite (proj2 (Z.ltb_ge _ _)) by done.
  rewrite read_digits_show_N. lia.
Qed.

Lemma show_Z_digits n : 0 <= n -> forallb is_digit (show_Z n) = true /\ show_Z n <> [].
Proof.
  intros. unfold show_Z. rewrite (proj2 (Z.ltb_ge _ _)) by done.
  split; [apply show_N_digits|apply show_N_ne].
Qed.

Lemma isValidCode_true n : 100 <= n <= 599 -> isValidCode n = true.
Proof. intros. unfold isValidCode. apply andb_true_iff. rewrite !Z.leb_le. lia. Qed.

(** A printed range reads back. *)
Lemma parseToken_token_of r : valid_range r -> parseToken (token_of r) = Some r.
Proof.
  destruct r as [s e]. unfold valid_range, token_of. cbn [start end_]. intros [H1 H2].
  destruct (show_Z_digits s) as [Hs Hsn]; [lia|]. destruct (show_Z_digits e) as [He Hen]; [lia|].
  pose proof (parseIntDigits_show_Z s ltac:(lia)) as Hps.
  pose proof (parseIntDigits_show_Z e ltac:(lia)) as Hpe.
  destruct (Z.eqb_spec s e) as [->|Hne]; unfold parseToken.
  - rewrite trim_id, digits_no_ws by auto using digits_trimmed.
    rewrite (includes_missing _ _ 45%N) by (by left || by apply (forallb_not_elem is_digit)).
    rewrite isNumber_digits by done. destruct (show_Z e) eqn:E; [done|]. rewrite <-E in *.
    by rewrite Hpe, isValidCode_true by lia.
  - assert (forallb (fun c => is_digit c || (c =? 45)%N) (show_Z s ++ js "-" ++ show_Z e) = true) as Hall.
    { rewrite !forallb_app. apply andb_true_iff. split; [|apply andb_true_iff; split; [done|]].
      all: eapply forallb_impl; [|eassumption]; intros c ->; done. }
    assert (forall c, is_digit c || (c =? 45)%N = true -> is_ws c = false) as Hws.
    { intros c [?|Hc]%orb_true_iff; [by apply digit_not_ws|]. by apply N.eqb_eq in Hc as ->. }
    rewrite trim_id by (by eapply trimmed_forallb; [exact Hws|]).
    rewrite !List.filter_app, (digits_no_ws (show_Z s)), (digits_no_ws (show_Z e)) by done.
    change (List.filter _ (js "-")) with (js "-").
    destruct (show_Z s ++ js "-" ++ show_Z e) eqn:E; [by destruct (show_Z s)|]. rewrite <-E.
    rewrite includes_app. js_norm. cbn [app].
    rewrite split_char_app by (by apply (forallb_not_elem is_digit)).
    rewrite split_char_none by (by apply (forallb_not_elem is_digit)).
    cbn [lookup list_lookup default from_option id]. unfold id. rewrite !isNumber_digits, Hps, Hpe by done.
    rewrite !isValidCode_true by lia. by rewrite (proj2 (Z.ltb_ge _ _)) by lia.
Qed.

(** ** The parser *)

Lemma omap_parseToken_proper l : Forall valid_range (omap parseToken l).
Proof.
  apply list.Forall_forall. intros r Hr. apply list_elem_of_omap in Hr as (t & _ & Ht).
  by apply parseToken_valid in Ht.
Qed.

Lemma valid_proper r : valid_range r -> proper_range r.
Proof. unfold valid_range, proper_range. lia. Qed.

Lemma valid_in_range code r : valid_range r -> in_range code r -> 100 <= code <= 599.
Proof. unfold valid_range, in_range. lia. Qed.

Lemma merged_valid l : Forall valid_range l -> Forall valid_range (mergeRanges l).
Proof.
  intros Hl. destruct (mergeRanges_spec l) as [[Hs Hp] Hc].
  { eapply Forall_impl; [exact Hl|]. apply valid_proper. }
  assert (forall code, covered code (mergeRanges l) -> 100 <= code <= 599) as Hb.
  { intros code Hcode%Hc. apply Exists_exists in Hcode as (x & Hx & Hin).
    rewrite list.Forall_forall in Hl. by eapply valid_in_range; [apply Hl|]. }
  apply list.Forall_forall. intros r Hr. rewrite list.Forall_forall in Hp. specialize (Hp r Hr).
  unfold proper_range, valid_range in *.
  assert (covered (start r) (mergeRanges l)) as H1%Hb by (apply Exists_exists; exists r; split; [done|unfold in_range; lia]).
  assert (covered (end_ r) (mergeRanges l)) as H2%Hb by (apply Exists_exists; exists r; split; [done|unfold in_range; lia]).
  lia.
Qed.

(** What [segments_of] reads from the tokens of valid ranges. *)
Lemma token_of_clean r : valid_range r -> clean_part (token_of r) /\ (65292%N) ∉ token_of r.
Proof.
  destruct r as [s e]. unfold valid_range, token_of, clean_part. cbn [start end_]. intros [H1 H2].
  destruct (show_Z_digits s) as [Hs Hsn]; [lia|]. destruct (show_Z_digits e) as [He Hen]; [lia|].
  destruct (Z.eqb_spec s e) as [->|Hne].
  - split_and!; [by apply digits_trimmed|done|..]; by apply (forallb_not_elem is_digit).
  - split_and!.
    + apply trimmed_ends; auto using digits_trimmed.
    + by destruct (show_Z s).
    + js_norm. cbn [app]. rewrite elem_of_app, elem_of_cons.
      intros [Hin|[?|Hin]]; [|done|]; revert Hin; by apply (forallb_not_elem is_digit).
    + js_norm. cbn [app]. rewrite elem_of_app, elem_of_cons.
      intros [Hin|[?|Hin]]; [|done|]; revert Hin; by apply (forallb_not_elem is_digit).
Qed.

Lemma replace_char_missing c t s : c ∉ s -> replace_char c t s = s.
Proof.
  induction s as [|x s IH]; [done|]. intros [Hx Hs]%not_elem_of_cons. unfold replace_char in *.
  cbn [flat_map]. rewrite IH by done. by destruct (N.eqb_spec x c); [subst|].
Qed.

Lemma join_missing c sep l :
  c ∉ sep -> Forall (fun w => c ∉ w) l -> c ∉ join sep l.
Proof.
  intros Hsep. induction 1 as [|w l Hw Hl IH]; [apply not_elem_of_nil|].
  destruct l as [|v l]; [done|]. change (join sep (w :: v :: l)) with (w ++ sep ++ join sep (v :: l)).
  by rewrite !elem_of_app; intros [?|[?|?]].
Qed.

Lemma segments_of_tokens l :
  Forall valid_range l -> segments_of (join (js ",") (map token_of l)) = map token_of l.
Proof.
  intros Hl. unfold segments_of. rewrite replace_char_missing.
  - apply split_trim_filter_join, Forall_fmap. eapply Forall_impl; [exact Hl|].
    intros r Hr. by apply token_of_clean.
  - apply join_missing; [by apply (bool_decide_eq_false_1 _)|]. apply Forall_fmap.
    eapply Forall_impl; [exact Hl|]. intros r Hr. by apply token_of_clean.
Qed.

Lemma omap_tokens l : Forall valid_range l -> omap parseToken (map token_of l) = l.
Proof.
  induction 1 as [|r l Hr _ IH]; [done|]. cbn. rewrite parseToken_token_of by done. by rewrite IH.
Qed.

Lemma join_tokens_trimmed l :
  Forall clean_part l -> trimmed (join (js ",") l) = true.
Proof.
  induction 1 as [|w l (Ht & Hne & _) Hl IH]; [done|]. destruct l as [|v l]; [done|].
  apply (trimmed_ends w (js ",") (join (js ",") (v :: l))); try done.
  apply Forall_cons in Hl as [(_ & Hv & _) _]. by destruct v; [done|destruct l].
Qed.

Lemma parse_ok_ranges raw :
  ok (parse_rules_text raw) = true ->
  ranges (parse_rules_text raw) = mergeRanges (omap parseToken (segments_of raw))
  /\ tokens (parse_rules_text raw) = map token_of (ranges (parse_rules_text raw))
  /\ normalized (parse_rules_text raw) = join (js ",") (tokens (parse_rules_text raw))
  /\ invalidTokens (parse_rules_text raw) = []
  /\ Forall (fun s => parseToken s <> None) (segments_of raw).
Proof.
  destruct raw as [|c raw]; [repeat split; constructor|]. unfold parse_rules_text.
  destruct (List.filter _ _) eqn:E; [|done]. intros _. split_and!; try done.
  apply list.Forall_forall. intros s Hs Hn.
  assert (s ∈ List.filter (fun s => bool_decide (parseToken s = None)) (segments_of (c :: raw))) as Hin.
  { apply list_elem_of_In, filter_In. split; [by apply list_elem_of_In|by apply bool_decide_eq_true]. }
  rewrite E in Hin. by apply not_elem_of_nil in Hin.
Qed.

(** C18.  [mergeRanges] refines the union of sets of codes: the merged list is
    in order with gaps, it covers exactly the codes the given ranges cover,
    and any two lists that cover the same codes merge to the same list. *)
Theorem mergeRanges_canonical (l1 l2 : list StatusCodeRange) :
  Forall proper_range l1 -> Forall proper_range l2 ->
  (canonical (mergeRanges l1) /\ forall code, covered code (mergeRanges l1) <-> covered code l1)
  /\ ((forall code, covered code l1 <-> covered code l2) <-> mergeRanges l1 = mergeRanges l2).
Proof.
  intros H1 H2. destruct (mergeRanges_spec l1 H1) as [Hc1 Hm1].
  destruct (mergeRanges_spec l2 H2) as [Hc2 Hm2]. split; [done|]. split.
  - intros H. apply canonical_unique; [done|done|]. intros code. by rewrite Hm1, Hm2.
  - intros H code. by rewrite <-Hm1, H, Hm2.
Qed.

Lemma mergeRanges_canonical_witness :
  mergeRanges [MkRange 500 502; MkRange 404 404; MkRange 503 503]
  = mergeRanges [MkRange 404 404; MkRange 501 503; MkRange 500 501].
Proof.
  apply (mergeRanges_canonical [MkRange 500 502; MkRange 404 404; MkRange 503 503]
           [MkRange 404 404; MkRange 501 503; MkRange 500 501]).
  - repeat constructor; unfold proper_range; cbn; lia.
  - repeat constructor; unfold proper_range; cbn; lia.
  - intros code. rewrite !covered_cons. unfold in_range. cbn [start end_]. unfold covered.
    rewrite Exists_nil. lia.
Defined.

(** C24.  A text that parses gives a canonical list of ranges within 100 to
    599 that covers the codes of its tokens and no others, and every token of
    the text is valid. *)
Theorem status_rules_parse_sound (input : jsval) (s : jstr) (r : ParsedHttpStatusCodeRules) :
  to_str (vcoalesce input (VStr [])) = Ok s ->
  parseHttpStatusCodeRules input = Ok r -> ok r = true ->
  canonical (ranges r) /\ Forall valid_range (ranges r) /\ invalidTokens r = []
  /\ Forall (fun t => parseToken t <> None) (segments_of (trim s))
  /\ forall code, covered code (ranges r)
       <-> exists t g, t ∈ segments_of (trim s) /\ parseToken t = Some g /\ in_range code g.
Proof.
  intros Hs Hp Hok. unfold parseHttpStatusCodeRules in Hp. rewrite Hs in Hp. injection Hp as <-.
  destruct (parse_ok_ranges _ Hok) as (-> & _ & _ & -> & Hall).
  pose proof (omap_parseToken_proper (segments_of (trim s))) as Hv.
  destruct (mergeRanges_spec (omap parseToken (segments_of (trim s)))) as [Hc Hcov].
  { eapply Forall_impl; [exact Hv|]. apply valid_proper. }
  split_and!; [done|by apply merged_valid|done|done|]. intros code. rewrite Hcov.
  unfold covered. rewrite Exists_exists. setoid_rewrite list_elem_of_omap. naive_solver.
Qed.

Lemma status_rules_parse_sound_witness :
  exists r, parseHttpStatusCodeRules (VStr (js "404, 500-503")) = Ok r
  /\ ok r = true /\ canonical (ranges r).
Proof.
  eexists. split; [vm_compute; reflexivity|]. split; [reflexivity|].
  eapply (status_rules_parse_sound (VStr (js "404, 500-503")) (js "404, 500-503"));
    [reflexivity|vm_compute; reflexivity|reflexivity].
Defined.

(** Normalisation is stable: parsing the normalized text of a valid
    input gives the same result. *)
Theorem status_rules_normalized_stable (input : jsval) (r : ParsedHttpStatusCodeRules) :
  parseHttpStatusCodeRules input = Ok r -> ok r = true ->
  parseHttpStatusCodeRules (VStr (normalized r)) = Ok r.
Proof.
  unfold parseHttpStatusCodeRules. destruct (to_str _) as [s|]; [|done]. cbn [res_bind].
  intros [= <-] Hok. destruct (parse_ok_ranges _ Hok) as (Hr & Ht & Hn & Hi & _).
  set (p := parse_rules_text (trim s)) in *. cbn [vcoalesce to_str res_bind].
  assert (Hv : Forall valid_range (ranges p)).
  { rewrite Hr. apply merged_valid, omap_parseToken_proper. }
  assert (Hid : mergeRanges (ranges p) = ranges p).
  { apply mergeRanges_id. rewrite Hr. apply mergeRanges_spec.
    eapply Forall_impl; [apply omap_parseToken_proper|apply valid_proper]. }
  rewrite Hn, Ht. assert (Hclean : Forall clean_part (map token_of (ranges p))).
  { apply Forall_fmap. eapply Forall_impl; [exact Hv|]. intros x Hx. by apply token_of_clean. }
  rewrite trim_id by (by apply join_tokens_trimmed). f_equal. unfold parse_rules_text.
  destruct (ranges p) as [|r0 l0] eqn:E.
  - cbn [map join]. destruct p as [o rs ts n i]. cbn in *. by subst.
  - destruct (join (js ",") (map token_of (r0 :: l0))) eqn:Ej.
    { exfalso. apply Forall_cons in Hclean as [(_ & Hne & _) _]. cbn [map] in Ej.
      by destruct (token_of r0); [done|destruct l0]. }
    rewrite <-Ej. rewrite segments_of_tokens, omap_tokens by done.
    replace (List.filter _ _) with (@nil jstr).
    { rewrite Hid. destruct p as [o rs ts n' i]. cbn in *. by subst. }
    symmetry. clear -Hv. induction Hv as [|x l Hx _ IH]; [done|]. cbn [map List.filter].
    rewrite parseToken_token_of by done. by rewrite bool_decide_eq_false_2.
Qed.

Lemma status_rules_normalized_stable_witness :
  exists r, parseHttpStatusCodeRules (VStr (js "503, 404,500-502")) = Ok r
  /\ parseHttpStatusCodeRules (VStr (normalized r)) = Ok r.
Proof.
  eexists. split; [vm_compute; reflexivity|].
  apply (status_rules_normalized_stable (VStr (js "503, 404,500-502")));
    vm_compute; reflexivity.
Defined.

(** What follows a second dash of a token is not looked at, so texts that
    are no ranges are accepted. *)
Theorem status_token_ignores_rest (r : StatusCodeRange) (rest : jstr) :
  valid_range r -> start r <> end_ r -> forallb (fun c => negb (is_ws c)) rest = true ->
  parseToken (token_of r ++ js "-" ++ rest) = Some r.
Proof.
  destruct r as [s e]. unfold valid_range, token_of. cbn [start end_]. intros [H1 H2] Hne Hrest.
  rewrite (proj2 (Z.eqb_neq _ _)) by done.
  destruct (show_Z_digits s) as [Hs Hsn]; [lia|]. destruct (show_Z_digits e) as [He Hen]; [lia|].
  assert (forall t, forallb is_digit t = true -> forallb (fun c => negb (is_ws c)) t = true) as Hd.
  { intros t. apply forallb_impl. intros c Hc. by rewrite digit_not_ws. }
  remember ((show_Z s ++ js "-" ++ show_Z e) ++ js "-" ++ rest) as text eqn:Etext.
  assert (Hall : forallb (fun c => negb (is_ws c)) text = true).
  { rewrite Etext, !forallb_app, (Hd (show_Z s)), (Hd (show_Z e)), Hrest by done. done. }
  unfold parseToken. rewrite trim_id.
  2:{ eapply trimmed_forallb; [|exact Hall]. intros c. cbn. by intros ?%negb_true_iff. }
  replace (List.filter _ text) with text.
  2:{ clear -Hall. induction text as [|c t IH]; [done|]. cbn [forallb List.filter] in *. bool_hyps.
      match goal with H : is_ws c = false |- _ => rewrite H end. cbn [negb]. by rewrite <-IH. }
  destruct text as [|c0 t0]; [by destruct (show_Z s)|]. rewrite Etext.
  rewrite <-!app_assoc, includes_app. js_norm. cbn [app].
  rewrite !split_char_app by (by apply (forallb_not_elem is_digit)).
  cbn [lookup list_lookup default from_option id]. unfold id.
  rewrite !isNumber_digits, !parseIntDigits_show_Z by (done || lia).
  rewrite !isValidCode_true by lia. by rewrite (proj2 (Z.ltb_ge _ _)) by lia.
Qed.

Lemma status_token_ignores_rest_witness :
  parseToken (js "100-200-abc") = Some (MkRange 100 200).
Proof.
  apply (status_token_ignores_rest (MkRange 100 200) (js "abc"));
    [unfold valid_range; cbn; lia|discriminate|reflexivity].
Defined.
