(* ===== verification/StatusCodeRisk.v ===== *)
(** * Risky status code redirects (features/channels/lib/status-code-risk-guard.ts)

    A channel may map the status codes of an upstream.  Redirecting 504 or 524
    disables a retry, and the guard lists such entries of the JSON text. *)
From stdpp Require Import sorting.
From S2P Require Import Prelude JsString JsNumber JsNumberFacts JsValue JsJson JsRegex JsSort.
Open Scope Z_scope.

Definition NON_REDIRECTABLE_STATUS_CODES : list Z := [504; 524].

Definition STATUS_CODE_REGEX : regex := Eval vm_compute in re (js "^[1-5]\d{2}$").

Definition parseStatusCodeKey (rawKey : jstr) : option Z :=
  let normalized := trim rawKey in
  if negb (re_test STATUS_CODE_REGEX normalized) then None
  else Some (Z.of_N (read_digits normalized)).

Definition parseStatusCodeMappingTarget (rawValue : jsval) : option Z :=
  match rawValue with
  | VNum n =>
      if is_integer n then
        if nleb (num_of_Z 100) n && nleb n (num_of_Z 599) then Some (num_to_Z n) else None
      else None
  | VStr s =>
      let normalized := trim s in
      if negb (re_test STATUS_CODE_REGEX normalized) then None
      else
        let code := Z.of_N (read_digits normalized) in
        if (100 <=? code) && (code <=? 599) then Some code else None
  | _ => None
  end.

(** The object of the text, if it is one: the guards that both collectors
    start with. *)
Definition mapping_object (statusCodeMappingStr : jstr) : option jsobj :=
  match trim statusCodeMappingStr with
  | [] => None
  | _ => match json_parse statusCodeMappingStr with
         | Ok (VObj o) => Some o
         | _ => None
         end
  end.

Fixpoint invalid_entries (o : jsobj) : res (list jstr) :=
  match o with
  | [] => Ok []
  | (rawKey, rawValue) :: o' =>
      match parseStatusCodeKey rawKey, parseStatusCodeMappingTarget rawValue with
      | Some _, Some _ => invalid_entries o'
      | _, _ =>
          let* s := to_str rawValue in
          let* rest := invalid_entries o' in
          Ok ((rawKey ++ js " → " ++ s) :: rest)
      end
  end.

Definition collectInvalidStatusCodeEntries (statusCodeMappingStr : jstr) : res (list jstr) :=
  match mapping_object statusCodeMappingStr with
  | None => Ok []
  | Some o => invalid_entries o
  end.

(** What one entry contributes to the risky mappings. *)
Definition risky_entry (kv : jstr * jsval) : option jstr :=
  match parseStatusCodeKey kv.1, parseStatusCodeMappingTarget kv.2 with
  | Some fromCode, Some toCode =>
      if negb (bool_decide (fromCode ∈ NON_REDIRECTABLE_STATUS_CODES)) then None
      else if fromCode =? toCode then None
      else Some (show_Z fromCode ++ js " -> " ++ show_Z toCode)
  | _, _ => None
  end.

Definition collectDisallowedStatusCodeRedirects (statusCodeMappingStr : jstr) : list jstr :=
  match mapping_object statusCodeMappingStr with
  | None => []
  | Some o => sort_strings (dedup (omap risky_entry o))
  end.

Definition collectNewDisallowedStatusCodeRedirects (originalStr currentStr : jstr) : list jstr :=
  let currentRisky := collectDisallowedStatusCodeRedirects currentStr in
  match currentRisky with
  | [] => []
  | _ =>
      let originalRiskySet := collectDisallowedStatusCodeRedirects originalStr in
      List.filter (fun mapping => negb (bool_decide (mapping ∈ originalRiskySet))) currentRisky
  end.

(** ** Properties *)

(** An entry of the text that maps [f] to [t]. *)
Definition redirects (s : jstr) (f t : Z) : Prop :=
  exists o k v, mapping_object s = Some o /\ (k, v) ∈ o
    /\ parseStatusCodeKey k = Some f /\ parseStatusCodeMappingTarget v = Some t.

Definition arrow (f t : Z) : jstr := show_Z f ++ js " -> " ++ show_Z t.

Lemma risky_entry_spec kv m :
  risky_entry kv = Some m <-> exists f t,
    parseStatusCodeKey kv.1 = Some f /\ parseStatusCodeMappingTarget kv.2 = Some t
    /\ (f = 504 \/ f = 524) /\ f <> t /\ m = arrow f t.
Proof.
  unfold risky_entry, NON_REDIRECTABLE_STATUS_CODES, arrow. split.
  - destruct (parseStatusCodeKey _) as [f|]; [|done].
    destruct (parseStatusCodeMappingTarget _) as [t|]; [|done].
    case_bool_decide as Hf; [|done]. cbn [negb]. destruct (Z.eqb_spec f t); [done|].
    intros [= <-]. exists f, t. rewrite !elem_of_cons, elem_of_nil in Hf. naive_solver.
  - intros (f & t & -> & -> & Hf & Hne & ->).
    rewrite bool_decide_eq_true_2 by (rewrite !elem_of_cons; naive_solver).
    cbn [negb]. by rewrite (proj2 (Z.eqb_neq _ _)).
Qed.

Definition risky (f t : Z) : Prop := (f = 504 \/ f = 524) /\ f <> t.

Lemma elem_of_risky s m :
  m ∈ collectDisallowedStatusCodeRedirects s
  <-> exists f t, redirects s f t /\ risky f t /\ m = arrow f t.
Proof.
  unfold collectDisallowedStatusCodeRedirects, redirects, risky.
  destruct (mapping_object s) as [o|].
  - rewrite elem_of_sort_strings, elem_of_dedup, list_elem_of_omap.
    setoid_rewrite risky_entry_spec. split.
    + intros ([k v] & Hin & f & t & Hk & Hv & Hf & Hne & ->). exists f, t.
      split_and!; [by exists o, k, v|done|done|done].
    + intros (f & t & (o' & k & v & [= <-] & Hin & Hk & Hv) & [Hf Hne] & ->).
      exists (k, v). split; [done|]. by exists f, t.
  - rewrite elem_of_nil. split; [done|]. by intros (f & t & (o & k & v & ? & _) & _).
Qed.

Lemma arrow_inj f t f' t' : risky f t -> risky f' t' -> arrow f t = arrow f' t' -> f = f' /\ t = t'.
Proof.
  unfold arrow. intros [[-> | ->] _] [[-> | ->] _]; cbn; intros H; try discriminate;
    (split; [done|]); apply show_Z_inj; by injection H.
Qed.

(** The risky redirects of a text are exactly the arrows of its entries
    from 504 or 524 to another code, each once, in order. *)
Theorem disallowed_redirects_spec (s : jstr) :
  StronglySorted str_le (collectDisallowedStatusCodeRedirects s)
  /\ NoDup (collectDisallowedStatusCodeRedirects s)
  /\ forall m, m ∈ collectDisallowedStatusCodeRedirects s
       <-> exists f t, redirects s f t /\ risky f t /\ m = arrow f t.
Proof.
  split_and!; [| |apply elem_of_risky]; unfold collectDisallowedStatusCodeRedirects;
    destruct (mapping_object s); try constructor.
  - apply sort_strings_sorted.
  - apply NoDup_sort_strings, NoDup_dedup.
Qed.

Lemma elem_of_new_risky s s' m :
  m ∈ collectNewDisallowedStatusCodeRedirects s s'
  <-> m ∈ collectDisallowedStatusCodeRedirects s' /\ m ∉ collectDisallowedStatusCodeRedirects s.
Proof.
  unfold collectNewDisallowedStatusCodeRedirects.
  destruct (collectDisallowedStatusCodeRedirects s') as [|x l] eqn:E.
  - rewrite elem_of_nil. tauto.
  - rewrite <-E, list_elem_of_In, filter_In, <-list_elem_of_In.
    rewrite negb_true_iff, bool_decide_eq_false. done.
Qed.

(** An edit is reported exactly when it adds a risky redirect: nothing
    new is reported iff every risky redirect of the new text was in the old
    one, whatever else changed. *)
Theorem new_redirects_empty (originalStr currentStr : jstr) :
  collectNewDisallowedStatusCodeRedirects originalStr currentStr = []
  <-> forall f t, risky f t -> redirects currentStr f t -> redirects originalStr f t.
Proof.
  split.
  - intros H f t Hrisk Hr.
    destruct (decide (arrow f t ∈ collectDisallowedStatusCodeRedirects originalStr)) as [Hin|Hn].
    + apply elem_of_risky in Hin as (f' & t' & Hr' & Hrisk' & Heq).
      by destruct (arrow_inj f t f' t') as [-> ->].
    + exfalso. assert (arrow f t ∈ collectNewDisallowedStatusCodeRedirects originalStr currentStr) as Hin.
      { apply elem_of_new_risky. split; [|done]. apply elem_of_risky. by exists f, t. }
      rewrite H in Hin. by apply not_elem_of_nil in Hin.
  - intros H. apply elem_of_nil_inv. intros m [Hin Hn]%elem_of_new_risky.
    apply elem_of_risky in Hin as (f & t & Hr & Hrisk & ->). apply Hn.
    apply elem_of_risky. exists f, t. auto.
Qed.

(** *** Invalid entries *)

Definition valid_entry (kv : jstr * jsval) : bool :=
  bool_decide (is_Some (parseStatusCodeKey kv.1))
  && bool_decide (is_Some (parseStatusCodeMappingTarget kv.2)).

Lemma invalid_entries_spec o l :
  invalid_entries o = Ok l -> length l = length (List.filter (fun kv => negb (valid_entry kv)) o).
Proof.
  revert l. induction o as [|[k v] o IH]; intros l; cbn [invalid_entries List.filter].
  { by intros [= <-]. }
  unfold valid_entry. cbn [fst snd].
  destruct (parseStatusCodeKey k), (parseStatusCodeMappingTarget v); cbn [is_Some];
    try (rewrite !bool_decide_eq_true_2 by done; cbn; apply IH).
  all: rewrite ?(bool_decide_eq_false_2 (is_Some None)) by (by intros [? ?]).
  all: rewrite ?andb_false_r; cbn [andb negb].
  all: destruct (to_str v) as [s|]; [|done]; cbn [res_bind].
  all: destruct (invalid_entries o) as [r|] eqn:E; [|done]; cbn [res_bind]; intros [= <-].
  all: cbn [length]; by rewrite (IH r).
Qed.

(** One message per invalid entry, and none exactly when every entry has
    a valid code on both sides; the collector can only fail by converting the
    value of an invalid entry to text. *)
Theorem invalid_entries_complete (s : jstr) (o : jsobj) :
  mapping_object s = Some o ->
  match collectInvalidStatusCodeEntries s with
  | Ok l => length l = length (List.filter (fun kv => negb (valid_entry kv)) o)
            /\ (l = [] <-> forallb valid_entry o = true)
  | Throw e => exists kv, kv ∈ o /\ valid_entry kv = false /\ to_str kv.2 = Throw e
  end.
Proof.
  intros Ho. unfold collectInvalidStatusCodeEntries. rewrite Ho.
  destruct (invalid_entries o) as [l|e] eqn:E.
  - apply invalid_entries_spec in E. split; [done|].
    rewrite <-length_zero_iff_nil, E, length_zero_iff_nil, forallb_forall. split.
    + intros Hf x Hx. apply not_false_iff_true. intros Hn.
      assert (x ∈ List.filter (fun kv => negb (valid_entry kv)) o) as Hin.
      { apply list_elem_of_In, filter_In. by rewrite Hn. }
      rewrite Hf in Hin. by apply not_elem_of_nil in Hin.
    + intros H. apply elem_of_nil_inv. intros x Hx.
      apply list_elem_of_In, filter_In in Hx as [Hx Hn]. by rewrite (H x Hx) in Hn.
  - clear Ho. revert E. induction o as [|[k v] o IH]; cbn [invalid_entries]; [done|]. intros E.
    assert (invalid_entries o = Throw e \/ to_str v = Throw e
            /\ (parseStatusCodeKey k = None \/ parseStatusCodeMappingTarget v = None)) as [H|[H Hn]].
    { destruct (parseStatusCodeKey k), (parseStatusCodeMappingTarget v); [by left|..];
        (destruct (to_str v) as [t|e']; cbn [res_bind] in E;
         [left; by destruct (invalid_entries o); cbn [res_bind] in E; simplify_eq
         |right; simplify_eq; auto]). }
    + destruct (IH H) as (kv & Hin & ?). exists kv. split; [by right|done].
    + exists (k, v). split; [by left|]. split; [|done]. unfold valid_entry. cbn [fst snd].
      apply andb_false_iff. destruct Hn as [Hn|Hn]; [left|right]; rewrite Hn;
        apply bool_decide_eq_false_2; by intros [? ?].
Qed.

Lemma invalid_entries_complete_witness :
  match collectInvalidStatusCodeEntries (jsq "{`504`: 200, `abc`: 1}") with
  | Ok l => length l = 1%nat
  | Throw _ => False
  end.
Proof.
  exact (proj1 (invalid_entries_complete (jsq "{`504`: 200, `abc`: 1}")
    [(js "504", VNum (num_of_Z 200)); (js "abc", VNum (num_of_Z 1))]
    ltac:(vm_compute; reflexivity))).
Defined.
