(* ===== verification/ModelMapping.v ===== *)
(** * Model mappings of a channel (features/channels/lib/model-mapping-validation.ts)

    A channel lists the models it serves and may map model names to others by
    a JSON object.  Sets are the lists of their elements in insertion order. *)
From S2P Require Import Prelude JsString JsNumber JsValue JsJson.
Open Scope N_scope.

Definition parseModelsString (modelsStr : jstr) : list jstr :=
  match modelsStr with [] => [] | _ => split_trim_filter modelsStr end.

Definition formatModelsArray (models : list jstr) : jstr := join (js ",") (dedup models).

(** The argument is typed as a string. *)
Definition normalizeModelName (model : jstr) : jstr := trim model.

(** [JSON.parse] of a text, when it is an object that is no array. *)
Definition parse_object (text : jstr) : option jsobj :=
  match json_parse text with Ok (VObj o) => Some o | _ => None end.

Definition extractMappingSourceModels (modelMapping : jstr) : list jstr :=
  match trim modelMapping with
  | [] => []
  | trimmed =>
      match parse_object trimmed with
      | None => []
      | Some parsed => dedup (List.filter str_truthy (map trim (okeys parsed)))
      end
  end.

(** [typeof value === 'string' ? value.trim() : undefined], then the truthy. *)
Definition redirect_value (value : jsval) : option jstr :=
  match value with
  | VStr s => if str_truthy (trim s) then Some (trim s) else None
  | _ => None
  end.

Definition extractRedirectModels (modelMapping : jstr) : list jstr :=
  match trim modelMapping with
  | [] => []
  | trimmed =>
      match parse_object trimmed with
      | None => []
      | Some parsed => dedup (omap redirect_value (ovalues parsed))
      end
  end.

(** The loop over the indices of the current models. *)
Fixpoint same_models (current initial : list jstr) : bool :=
  match current, initial with
  | [], _ => true
  | c :: current', i :: initial' => bool_decide (c = i) && same_models current' initial'
  | _ :: _, [] => false
  end.

Definition hasModelConfigChanged (currentModels : list jstr) (currentModelMapping : jstr)
    (initialModels : list jstr) (initialModelMapping : jstr) : bool :=
  if (length initialModels =? 0)%nat && negb (str_truthy initialModelMapping) then true
  else if negb (length currentModels =? length initialModels)%nat then true
  else if negb (same_models currentModels initialModels) then true
  else negb (bool_decide (trim currentModelMapping = trim initialModelMapping)).

Definition findMissingModelsInMapping (modelMapping : jstr) (currentModels : list jstr) : list jstr :=
  match trim modelMapping with
  | [] => []
  | _ =>
      match parse_object modelMapping with
      | None => []
      | Some parsedMapping =>
          let modelSet := map normalizeModelName currentModels in
          dedup (List.filter (fun key => str_truthy key && negb (bool_decide (key ∈ modelSet)))
                   (map normalizeModelName (okeys parsedMapping)))
      end
  end.

(** The pair [valid], [error]. *)
Definition validateModelMappingJson (modelMapping : jstr) : bool * option jstr :=
  match trim modelMapping with
  | [] => (true, None)
  | _ =>
      match json_parse modelMapping with
      | Throw _ => (false, Some (js "Model mapping must be valid JSON format"))
      | Ok (VObj parsed) =>
          if existsb (fun value => negb (is_string value)) (ovalues parsed)
          then (false, Some (js "Model mapping values must be strings"))
          else (true, None)
      | Ok _ => (false, Some (js "Model mapping must be a valid JSON object"))
      end
  end.

Definition findExposedTargetModels (modelMapping : jstr) (currentModels : list jstr) : list jstr :=
  match extractRedirectModels modelMapping with
  | [] => []
  | redirectModels =>
      let modelSet := map normalizeModelName currentModels in
      List.filter (fun model => bool_decide (normalizeModelName model ∈ modelSet)) redirectModels
  end.

Record CategorizedModels := MkCategorized {
  normalizedCurrentModels : list jstr;
  normalizedRedirectModels : list jstr;
  classificationSet : list jstr;
  redirectOnlySet : list jstr
}.

Definition categorizeModelsWithRedirect (currentModels redirectModels : list jstr)
  : CategorizedModels :=
  let current := dedup (List.filter str_truthy (map normalizeModelName currentModels)) in
  let redirect := dedup (List.filter str_truthy (map normalizeModelName redirectModels)) in
  MkCategorized current redirect (dedup (current ++ redirect))
    (dedup (List.filter (fun m => negb (bool_decide (m ∈ current))) redirect)).

(** ** Properties *)

Lemma elem_of_filter_bool {A} (f : A -> bool) l x : x ∈ List.filter f l <-> x ∈ l /\ f x = true.
Proof. by rewrite !list_elem_of_In, filter_In. Qed.

Lemma dedup_clean l : Forall clean_part l -> Forall clean_part (dedup l).
Proof. rewrite !list.Forall_forall. intros H x. rewrite elem_of_dedup. apply H. Qed.

Lemma parse_models_join l : Forall clean_part l -> parseModelsString (join (js ",") l) = l.
Proof.
  intros H. unfold parseModelsString. destruct l as [|m l]; [done|].
  destruct (join (js ",") (m :: l)) eqn:E.
  { apply Forall_cons in H as [(_ & Hm & _) _]. by destruct m; [done|destruct l]. }
  rewrite <-E. by apply split_trim_filter_join.
Qed.

Lemma parse_models_clean s : Forall clean_part (parseModelsString s).
Proof. unfold parseModelsString. destruct s; [constructor|apply split_trim_filter_clean]. Qed.

(** Round trip of model lists: formatting clean names (trimmed, not
    empty, without a comma) and parsing gives the names without duplicates;
    and whatever the text, the names parsed from it are clean. *)
Theorem models_roundtrip (models : list jstr) (s : jstr) :
  Forall clean_part models ->
  parseModelsString (formatModelsArray models) = dedup models
  /\ parseModelsString (formatModelsArray (parseModelsString s)) = dedup (parseModelsString s).
Proof.
  intros H. split; apply parse_models_join, dedup_clean; [done|apply parse_models_clean].
Qed.

Lemma models_roundtrip_witness :
  parseModelsString (formatModelsArray [js "gpt-4o"; js "o3"; js "gpt-4o"]) = [js "gpt-4o"; js "o3"].
Proof.
  apply (models_roundtrip [js "gpt-4o"; js "o3"; js "gpt-4o"] []).
  repeat constructor; try discriminate; apply (bool_decide_eq_false_1 _); reflexivity.
Defined.

Lemma same_models_eq a b : length a = length b -> same_models a b = true <-> a = b.
Proof.
  revert b. induction a as [|x a IH]; intros [|y b]; try done. cbn [same_models length]. intros [= H].
  rewrite andb_true_iff, bool_decide_eq_true, IH by done. naive_solver.
Qed.

(** A channel counts as unchanged exactly when it is being edited and
    both its models, in order, and its trimmed mapping are the initial ones. *)
Theorem config_unchanged_iff cur curMap ini iniMap :
  hasModelConfigChanged cur curMap ini iniMap = false
  <-> (ini <> [] \/ iniMap <> []) /\ cur = ini /\ trim curMap = trim iniMap.
Proof.
  unfold hasModelConfigChanged.
  destruct (length ini =? 0)%nat eqn:El; cbn [andb].
  - apply Nat.eqb_eq, length_zero_iff_nil in El as ->.
    destruct iniMap as [|c iniMap]; cbn [str_truthy negb]; [naive_solver|].
    destruct cur as [|m cur]; cbn [length Nat.eqb negb same_models]; [|naive_solver].
    rewrite negb_false_iff, bool_decide_eq_true. naive_solver.
  - apply Nat.eqb_neq in El. assert (ini <> []) by (by intros ->).
    destruct (Nat.eqb_spec (length cur) (length ini)) as [Hl|Hl]; cbn [negb].
    + destruct (same_models cur ini) eqn:Es; cbn [negb].
      * apply same_models_eq in Es; [|done]. rewrite negb_false_iff, bool_decide_eq_true. naive_solver.
      * split; [done|]. intros (_ & Heq & _). apply same_models_eq in Heq; [congruence|done].
    + split; [done|]. by intros (_ & -> & _).
Qed.

(** *** Missing and exposed models *)

Lemma elem_of_missing mapping o models x :
  trim mapping <> [] -> parse_object mapping = Some o ->
  x ∈ findMissingModelsInMapping mapping models
  <-> x <> [] /\ x ∈ map normalizeModelName (okeys o) /\ x ∉ map normalizeModelName models.
Proof.
  intros Ht Ho. unfold findMissingModelsInMapping. destruct (trim mapping); [done|]. rewrite Ho.
  rewrite elem_of_dedup, elem_of_filter_bool, andb_true_iff, negb_true_iff, bool_decide_eq_false.
  split; intros H; destruct x; naive_solver.
Qed.

(** The missing models are the trimmed keys of the mapping that are not
    models, each once; adding them to the models leaves none missing. *)
Theorem missing_models_spec (mapping : jstr) (o : jsobj) (models : list jstr) :
  trim mapping <> [] -> parse_object mapping = Some o ->
  NoDup (findMissingModelsInMapping mapping models)
  /\ (forall x, x ∈ findMissingModelsInMapping mapping models
        <-> x <> [] /\ x ∈ map normalizeModelName (okeys o) /\ x ∉ map normalizeModelName models)
  /\ findMissingModelsInMapping mapping (models ++ findMissingModelsInMapping mapping models) = [].
Proof.
  intros Ht Ho. pose proof (elem_of_missing mapping o) as Hin. split_and!.
  - unfold findMissingModelsInMapping. destruct (trim mapping); [constructor|]. rewrite Ho.
    apply NoDup_dedup.
  - intros x. by apply Hin.
  - apply elem_of_nil_inv. intros x (Hx & Hk & Hn)%Hin; [|done|done]. apply Hn.
    rewrite map_app, elem_of_app. destruct (decide (x ∈ map normalizeModelName models)); [by left|].
    right. apply list_elem_of_fmap. exists x. split.
    + apply list_elem_of_fmap in Hk as (k & -> & _). unfold normalizeModelName. by rewrite trim_idemp.
    + by apply Hin.
Qed.

Lemma missing_models_spec_witness :
  findMissingModelsInMapping (jsq "{` gpt-4 `: `gpt-4o`}")
    ([js "o3"] ++ findMissingModelsInMapping (jsq "{` gpt-4 `: `gpt-4o`}") [js "o3"]) = [].
Proof.
  apply (missing_models_spec (jsq "{` gpt-4 `: `gpt-4o`}")
           [(js " gpt-4 ", VStr (js "gpt-4o"))] [js "o3"]);
    [vm_compute; discriminate|vm_compute; reflexivity].
Defined.

Lemma redirects_trimmed mapping x :
  x ∈ extractRedirectModels mapping -> trimmed x = true /\ x <> [].
Proof.
  unfold extractRedirectModels. destruct (trim mapping); [by intros ?%elem_of_nil|].
  destruct (parse_object _) as [o|]; [|by intros ?%elem_of_nil].
  rewrite elem_of_dedup, list_elem_of_omap. intros (v & _ & Hv). destruct v; try done. cbn in Hv.
  destruct (str_truthy (trim s)) eqn:E; [|done]. injection Hv as <-.
  split; [apply trim_trimmed|by destruct (trim s)].
Qed.

(** The exposed targets are the redirect models that are also listed, and
    dropping every model whose trimmed name is exposed leaves none exposed. *)
Theorem exposed_targets_spec (mapping : jstr) (models : list jstr) :
  (forall x, x ∈ findExposedTargetModels mapping models
     <-> x ∈ extractRedirectModels mapping /\ x ∈ map normalizeModelName models)
  /\ findExposedTargetModels mapping
       (List.filter (fun m => negb (bool_decide
          (normalizeModelName m ∈ findExposedTargetModels mapping models))) models) = [].
Proof.
  assert (H : forall ms x, x ∈ findExposedTargetModels mapping ms
     <-> x ∈ extractRedirectModels mapping /\ x ∈ map normalizeModelName ms).
  { intros ms x. unfold findExposedTargetModels.
    pose proof (redirects_trimmed mapping x) as Ht.
    destruct (extractRedirectModels mapping) as [|r rs] eqn:E; [rewrite elem_of_nil; tauto|].
    rewrite elem_of_filter_bool, bool_decide_eq_true. unfold normalizeModelName.
    split; intros [Hx Hm]; (split; [done|]); destruct (Ht Hx) as [Htx _];
      rewrite (trim_id x Htx) in *; done. }
  split; [apply H|]. apply elem_of_nil_inv. intros x [Hr Hm]%H.
  apply list_elem_of_fmap in Hm as (m & -> & Hm). apply elem_of_filter_bool in Hm as [Hm Hn].
  apply negb_true_iff, bool_decide_eq_false in Hn. apply Hn, H. split; [done|].
  apply list_elem_of_fmap. by exists m.
Qed.

(** The two views agree: a text that validates, read by the editor, has a
    redirect for each of its entries with a target that is not blank. *)
Theorem validated_mapping_redirects (mapping : jstr) (o : jsobj) :
  parse_object mapping = Some o -> parse_object (trim mapping) = Some o ->
  validateModelMappingJson mapping = (true, None) ->
  forall k v, (k, v) ∈ o -> exists s, v = VStr s
    /\ (trim s ∈ extractRedirectModels mapping \/ trim s = [])
    /\ (trim k ∈ extractMappingSourceModels mapping \/ trim k = []).
Proof.
  intros Ho Ho' Hv k v Hin.
  assert (trim mapping <> []) as Ht by (intros E; by rewrite E in Ho').
  unfold validateModelMappingJson, parse_object in Hv, Ho.
  unfold extractRedirectModels, extractMappingSourceModels.
  destruct (trim mapping) as [|c t]; [done|]. rewrite Ho'.
  destruct (json_parse mapping) as [[]|]; simplify_eq.
  destruct (existsb _ _) eqn:E; [done|].
  assert (exists s, v = VStr s) as [s ->].
  { destruct (is_string v) eqn:Es; [destruct v; by eauto|]. exfalso.
    assert (existsb (fun value => negb (is_string value)) (ovalues o) = true) as Hc; [|congruence].
    apply existsb_exists. exists v. rewrite Es. split; [|done].
    apply list_elem_of_In, list_elem_of_fmap. by exists (k, v). }
  exists s. split; [done|]. split.
  - destruct (trim s) as [|c0 s0] eqn:Es; [by right|left]. rewrite elem_of_dedup, list_elem_of_omap.
    exists (VStr s). split; [apply list_elem_of_fmap; by exists (k, VStr s)|]. cbn. by rewrite Es.
  - destruct (trim k) as [|c0 k0] eqn:Ek; [by right|left]. rewrite elem_of_dedup, elem_of_filter_bool.
    split; [|done]. apply list_elem_of_fmap. exists k. split; [done|].
    apply list_elem_of_fmap. by exists (k, VStr s).
Qed.

Lemma validated_mapping_redirects_witness :
  exists s, VStr (js " gpt-4o ") = VStr s
    /\ (trim s ∈ extractRedirectModels (jsq "{`gpt-4`: ` gpt-4o `}") \/ trim s = [])
    /\ (trim (js "gpt-4") ∈ extractMappingSourceModels (jsq "{`gpt-4`: ` gpt-4o `}")
        \/ trim (js "gpt-4") = []).
Proof.
  apply (validated_mapping_redirects (jsq "{`gpt-4`: ` gpt-4o `}")
           [(js "gpt-4", VStr (js " gpt-4o "))]);
    [vm_compute; reflexivity|vm_compute; reflexivity|vm_compute; reflexivity|by left].
Defined.

(** The categories of the picker: the classified models are those of
    either list, without blanks, and split into the current models and the
    redirect-only ones. *)
Theorem categorized_partition (current redirect : list jstr) (x : jstr) :
  let c := categorizeModelsWithRedirect current redirect in
  (x ∈ classificationSet c <-> x <> [] /\ (x ∈ map trim current \/ x ∈ map trim redirect))
  /\ (x ∈ classificationSet c
      <-> x ∈ normalizedCurrentModels c \/ x ∈ redirectOnlySet c)
  /\ ~ (x ∈ normalizedCurrentModels c /\ x ∈ redirectOnlySet c)
  /\ NoDup (classificationSet c).
Proof.
  cbn [categorizeModelsWithRedirect classificationSet normalizedCurrentModels redirectOnlySet].
  set (cur := dedup (List.filter str_truthy (map normalizeModelName current))).
  set (red := dedup (List.filter str_truthy (map normalizeModelName redirect))).
  assert (Hc : forall l, x ∈ dedup (List.filter str_truthy (map normalizeModelName l))
                 <-> x <> [] /\ x ∈ map trim l).
  { intros l. rewrite elem_of_dedup, elem_of_filter_bool. unfold normalizeModelName.
    assert (str_truthy x = true <-> x <> []) as -> by (by destruct x). tauto. }
  assert (Ho : x ∈ dedup (List.filter (fun m => negb (bool_decide (m ∈ cur))) red)
                 <-> x ∈ red /\ x ∉ cur).
  { by rewrite elem_of_dedup, elem_of_filter_bool, negb_true_iff, bool_decide_eq_false. }
  rewrite elem_of_dedup, elem_of_app, Ho. specialize (Hc current) as Hcur. specialize (Hc redirect) as Hred.
  fold cur in Hcur. fold red in Hred. destruct (decide (x ∈ cur)); split_and!;
    [tauto|tauto|tauto|apply NoDup_dedup|tauto|tauto|tauto|apply NoDup_dedup].
Qed.
