(* ===== verification/Seed.v ===== *)
(** * Deterministic seeding (features/pricing/lib/seed.ts)

    The string hash and the linear-congruential generator behind the mock
    statistics.  Their integers are kept as [Z] with the conversions to 32
    bits of [^], [|] and [>>>] written out; that the products in between are
    exact as doubles (below [2^53]) is proved. *)
From S2P Require Import Prelude JsString JsNumber.
Open Scope Z_scope.

(** [a ^ b] on numbers that are integers. *)
Definition bit_xor (a b : Z) : Z := to_int32 (Z.lxor (to_int32 a) (to_int32 b)).

Definition hash_step (hash : Z) (c : N) : Z := bit_xor (hash * 33) (Z.of_N c).

Definition hash_loop (input : jstr) : Z := fold_left hash_step input 5381.

(** [Math.abs(hash | 0)] *)
Definition hashStringToSeed (input : jstr) : Z :=
  Z.abs (to_int32 (Z.lor (to_int32 (hash_loop input)) 0)).

Definition random_init (seed : Z) : Z := to_uint32 (if seed =? 0 then 1 else seed).

Definition random_step (state : Z) : Z := to_uint32 (state * 1664525 + 1013904223).

(** The values that the first [n] calls of the generator return, and the
    state it keeps. *)
Fixpoint random_draws (n : nat) (state : Z) : list num * Z :=
  match n with
  | O => ([], state)
  | S n =>
      let state := random_step state in
      let rest := random_draws n state in
      (ndiv (num_of_Z state) (num_of_Z (2 ^ 32)) :: rest.1, rest.2)
  end.

Definition seededRandom (seed : Z) (n : nat) : list num := (random_draws n (random_init seed)).1.

(** [rand()] is the drawn value [r]. *)
Definition randomInRange (r min max : num) : num := nadd min (nmul r (nsub max min)).

Definition randomIntInRange (r min max : num) : num :=
  nfloor (randomInRange r min (nadd max (num_of_Z 1))).

(** ** Properties *)

Lemma to_uint32_range z : 0 <= to_uint32 z < 2 ^ 32.
Proof. unfold to_uint32. apply Z.mod_pos_bound. lia. Qed.

Lemma to_int32_range z : - 2 ^ 31 <= to_int32 z < 2 ^ 31.
Proof.
  unfold to_int32. pose proof (to_uint32_range z). destruct (Z.ltb_spec (to_uint32 z) (2 ^ 31)); lia.
Qed.

Lemma to_int32_id z : - 2 ^ 31 <= z < 2 ^ 31 -> to_int32 z = z.
Proof.
  intros H. unfold to_int32, to_uint32. destruct (Z.lt_ge_cases z 0).
  - replace (z mod 2 ^ 32) with (z + 2 ^ 32).
    + rewrite (proj2 (Z.ltb_ge _ _)) by lia. lia.
    + symmetry. rewrite <-(Z.mod_add z 1) by lia. apply Z.mod_small. lia.
  - rewrite Z.mod_small by lia. by rewrite (proj2 (Z.ltb_lt _ _)) by lia.
Qed.

Lemma hash_fold_range input h :
  - 2 ^ 31 <= h < 2 ^ 31 -> - 2 ^ 31 <= fold_left hash_step input h < 2 ^ 31.
Proof.
  revert h. induction input as [|c s IH]; intros h Hh; cbn [fold_left]; [done|].
  apply IH. apply to_int32_range.
Qed.

(** The hash before each character of the text. *)
Definition hash_prefixes (input : jstr) : list Z :=
  map (fun n => hash_loop (take n input)) (seq 0 (S (length input))).

(** The seed is between 0 and [2^31] (both occur), and every product of
    the loop is exact in a double. *)
Theorem hash_bounds (input : jstr) :
  0 <= hashStringToSeed input <= 2 ^ 31
  /\ hashStringToSeed input = Z.abs (hash_loop input)
  /\ Forall (fun h => Z.abs (h * 33) < 2 ^ 53) (hash_prefixes input).
Proof.
  assert (H : forall s, - 2 ^ 31 <= hash_loop s < 2 ^ 31).
  { intros s. by apply hash_fold_range. }
  assert (Heq : hashStringToSeed input = Z.abs (hash_loop input)).
  { unfold hashStringToSeed. rewrite Z.lor_0_r, !to_int32_id; try done. by rewrite to_int32_id. }
  split_and!; [| |done|].
  - rewrite Heq. lia.
  - rewrite Heq. specialize (H input). lia.
  - apply list.Forall_forall. intros h Hh. apply list_elem_of_fmap in Hh as (n & -> & _).
    specialize (H (take n input)). lia.
Qed.

(** The seed is not always a 31-bit integer: some model name has the
    seed [2^31]. *)
Theorem hash_not_31_bits : hashStringToSeed (js "bczbAh5") = 2 ^ 31.
Proof. vm_compute. reflexivity. Qed.

Lemma random_step_inv s : (4276115653 * (random_step s - 1013904223)) mod 2 ^ 32 = s mod 2 ^ 32.
Proof.
  unfold random_step, to_uint32.
  rewrite <-Z.mul_mod_idemp_r, Zminus_mod_idemp_l, Z.mul_mod_idemp_r by lia.
  replace (4276115653 * (s * 1664525 + 1013904223 - 1013904223))
    with (s + (1657219 * s) * 2 ^ 32) by lia.
  by rewrite Z.mod_add.
Qed.

(** C40.  The generator: its state stays an unsigned 32-bit integer, the
    product is exact in a double, and distinct states never meet (the step is
    injective), so no seed ever falls into the sequence of another one's past. *)
Theorem random_step_sound (state state' : Z) :
  0 <= state < 2 ^ 32 -> 0 <= state' < 2 ^ 32 ->
  0 <= random_step state < 2 ^ 32
  /\ state * 1664525 + 1013904223 < 2 ^ 53
  /\ (random_step state = random_step state' -> state = state').
Proof.
  intros H H'. split_and!; try apply to_uint32_range; [lia|]. intros Heq.
  pose proof (random_step_inv state) as H1. pose proof (random_step_inv state') as H2.
  rewrite Heq, H2, !Z.mod_small in H1 by done. done.
Qed.

Lemma random_step_sound_witness : random_step 1 <> random_step 2.
Proof.
  intros H. apply (random_step_sound 1 2) in H; [discriminate|lia|lia].
Defined.
