(* ===== verification/Messages.v ===== *)
(** * Playground messages (features/playground/lib/message-utils.ts, types.ts)

    Versions of a message, the separation of [<think>] reasoning from the
    visible text, and the updates of the last assistant message.  The
    identifiers that [nanoid] makes are arguments of the functions. *)
From S2P Require Import Prelude JsString JsNumber JsValue.
Open Scope N_scope.

Inductive MessageRole := user | assistant | system.
Inductive MessageStatus := loading | streaming | complete | error.

#[export] Instance MessageRole_eq_dec : EqDecision MessageRole.
Proof. solve_decision. Defined.
#[export] Instance MessageStatus_eq_dec : EqDecision MessageStatus.
Proof. solve_decision. Defined.

Record MessageVersion := MkVersion { v_id : jstr; v_content : jstr }.

Record Reasoning := MkReasoning { r_content : jstr; r_duration : num }.

Record Source := MkSource { href : jstr; title : jstr }.

(** An optional field that is missing or [undefined] is [None]; the field
    [errorCode] may also be [null]. *)
Record Message := MkMessage {
  key : jstr;
  from : MessageRole;
  versions : list MessageVersion;
  sources : option (list Source);
  reasoning : option Reasoning;
  isReasoningStreaming : option bool;
  isReasoningComplete : option bool;
  isContentComplete : option bool;
  status : option MessageStatus;
  errorCode : option (option jstr)
}.

(** ['text' | 'image_url'] parts. *)
Inductive ContentPart := TextPart (text : option jstr) | ImagePart (url : jstr).

Inductive MessageContent := ContentText (s : jstr) | ContentParts (l : list ContentPart).

Record ChatCompletionMessage := MkChatMessage { role : MessageRole; content : jstr }.

Definition API_REQUEST_ERROR : jstr := js "Request error occurred".
Definition INTERRUPTED : jstr := js "Generation was interrupted".

Definition createMessageVersion (nanoid content : jstr) : MessageVersion := MkVersion nanoid content.

Definition getCurrentVersion (message : Message) : MessageVersion :=
  match versions message with v :: _ => v | [] => MkVersion (js "default") [] end.

Definition set_versions (vs : list MessageVersion) (m : Message) : Message :=
  MkMessage (key m) (from m) vs (sources m) (reasoning m) (isReasoningStreaming m)
    (isReasoningComplete m) (isContentComplete m) (status m) (errorCode m).

Definition set_reasoning (r : option Reasoning) (m : Message) : Message :=
  MkMessage (key m) (from m) (versions m) (sources m) r (isReasoningStreaming m)
    (isReasoningComplete m) (isContentComplete m) (status m) (errorCode m).

Definition set_reasoning_streaming (b : bool) (m : Message) : Message :=
  MkMessage (key m) (from m) (versions m) (sources m) (reasoning m) (Some b)
    (isReasoningComplete m) (isContentComplete m) (status m) (errorCode m).

Definition set_status (s : MessageStatus) (m : Message) : Message :=
  MkMessage (key m) (from m) (versions m) (sources m) (reasoning m) (isReasoningStreaming m)
    (isReasoningComplete m) (isContentComplete m) (Some s) (errorCode m).

Definition set_error_code (c : option jstr) (m : Message) : Message :=
  MkMessage (key m) (from m) (versions m) (sources m) (reasoning m) (isReasoningStreaming m)
    (isReasoningComplete m) (isContentComplete m) (status m) (Some c).

Definition updateCurrentVersionContent (message : Message) (content : jstr) : Message :=
  set_versions [MkVersion (v_id (getCurrentVersion message)) content] message.

Definition createUserMessage (nanoid1 nanoid2 content : jstr) : Message :=
  MkMessage nanoid1 user [createMessageVersion nanoid2 content] None None None None None None None.

Definition createLoadingAssistantMessage (nanoid1 nanoid2 : jstr) : Message :=
  MkMessage nanoid1 assistant [createMessageVersion nanoid2 []] None None (Some false)
    (Some false) (Some false) (Some loading) None.

Definition buildMessageContent (text : jstr) (imageUrls : list jstr) : MessageContent :=
  match List.filter (fun url => str_truthy (trim url)) imageUrls with
  | [] => ContentText text
  | validImages => ContentParts (TextPart (Some text) :: map (fun url => ImagePart (trim url)) validImages)
  end.

Definition getTextContent (content : MessageContent) : jstr :=
  match content with
  | ContentText s => s
  | ContentParts l =>
      match List.find (fun p => match p with TextPart _ => true | _ => false end) l with
      | Some (TextPart t) => default [] t
      | _ => []
      end
  end.

Definition formatMessageForAPI (message : Message) : ChatCompletionMessage :=
  MkChatMessage (from message) (v_content (getCurrentVersion message)).

Definition isValidMessage (message : Message) : bool :=
  match versions message with
  | [] => false
  | v :: _ =>
      if bool_decide (from message = assistant) && negb (str_truthy (trim (v_content v)))
      then false else true
  end.

(** ** Think tags *)

Record ThinkResult := MkThink {
  visibleContent : jstr; t_reasoning : jstr; hasUnclosedTag : bool
}.

Definition OPEN : jstr := js "<think>".
Definition CLOSE : jstr := js "</think>".

(** The loop, on the suffix of the content from the current position.  Every
    turn that does not stop passes both tags, so the length bounds the turns. *)
Fixpoint think_loop (fuel : nat) (rest : jstr) : list jstr * list jstr * bool :=
  match fuel with
  | O => ([], [], false)
  | S fuel =>
      match index_of OPEN rest with
      | None => (match rest with [] => [] | _ => [rest] end, [], false)
      | Some openPos =>
          let before := match openPos with O => [] | _ => [substring 0 openPos rest] end in
          match index_of_from CLOSE rest (openPos + 7) with
          | None => (before, [drop (openPos + 7) rest], true)
          | Some closePos =>
              let '(vs, rs, u) := think_loop fuel (drop (closePos + 8) rest) in
              (before ++ vs, substring (openPos + 7) closePos rest :: rs, u)
          end
      end
  end.

Definition parseThinkTags (content : jstr) : ThinkResult :=
  if negb (includes OPEN content) then MkThink content [] false
  else
    let '(visibleParts, reasoningParts, hasUnclosed) := think_loop (S (length content)) content in
    MkThink (trim (join [] visibleParts)) (trim (join [10; 10] reasoningParts)) hasUnclosed.

(** ** Updates *)

Definition updateLastAssistantMessage (messages : list Message) (updater : Message -> Message)
  : list Message :=
  match rev messages with
  | [] => messages
  | last :: before =>
      if bool_decide (from last = assistant) then rev (updater last :: before) else messages
  end.

Definition updateAssistantMessageWithError (messages : list Message) (errorMessage : jstr)
    (code : option jstr) : list Message :=
  updateLastAssistantMessage messages (fun message =>
    set_error_code (match code with Some (_ :: _) => code | _ => None end)
      (set_reasoning_streaming false
        (set_status error
          (updateCurrentVersionContent message (API_REQUEST_ERROR ++ js ": " ++ errorMessage))))).

Definition processStreamingContent (message : Message) (contentChunk : option jstr) : Message :=
  let fullContent := v_content (getCurrentVersion message) ++ default [] contentChunk in
  let t := parseThinkTags fullContent in
  let finalReasoning := match t_reasoning t with
                        | [] => reasoning message
                        | r => Some (MkReasoning r nzero)
                        end in
  set_reasoning_streaming (hasUnclosedTag t)
    (set_reasoning finalReasoning (updateCurrentVersionContent message fullContent)).

Definition finalizeMessage (message : Message) (apiReasoningContent : option jstr) : Message :=
  let t := parseThinkTags (v_content (getCurrentVersion message)) in
  let finalReasoning :=
    str_or (default [] apiReasoningContent)
      (str_or (default [] (r_content <$> reasoning message)) (t_reasoning t)) in
  let duration := default nzero (r_duration <$> reasoning message) in
  set_reasoning_streaming false
    (set_reasoning
       (match finalReasoning with
        | [] => None
        | r => Some (MkReasoning r (if num_truthy duration then duration else nzero))
        end)
       (updateCurrentVersionContent message (visibleContent t))).

(** The loop from the end: the last message that is stuck, with its index. *)
Definition stuck (m : Message) : bool :=
  bool_decide (from m = assistant)
  && (bool_decide (status m = Some loading) || bool_decide (status m = Some streaming)).

Definition sanitize_message (m : Message) : Message :=
  let finalized := finalizeMessage m None in
  let hasContent := str_truthy (trim (v_content (getCurrentVersion finalized))) in
  let hasReasoning := str_truthy (trim (default [] (r_content <$> reasoning finalized))) in
  if hasContent || hasReasoning
  then set_reasoning_streaming false (set_status complete finalized)
  else set_reasoning_streaming false (set_status error
         (updateCurrentVersionContent finalized (API_REQUEST_ERROR ++ js ": " ++ INTERRUPTED))).

(** On the messages last first. *)
Fixpoint sanitize_rev (l : list Message) : list Message :=
  match l with
  | [] => []
  | m :: l' => if stuck m then sanitize_message m :: l' else m :: sanitize_rev l'
  end.

Definition sanitizeMessagesOnLoad (messages : list Message) : list Message :=
  rev (sanitize_rev (rev messages)).
