(* ===== verification/MessagesFacts.v ===== *)
(** * Facts on playground messages

    What [parseThinkTags] computes, against an inductive description of a text
    with think tags; streaming in chunks; the repair of stored messages. *)
From S2P Require Import Prelude JsString JsNumber JsValue Messages.
Open Scope N_scope.

(** ** First occurrences *)

Lemma index_of_split p s i :
  index_of p s = Some i ->
  exists a b, s = a ++ p ++ b /\ length a = i /\ b = drop (i + length p) s.
Proof.
  revert i. induction s as [|c s IH]; intros i; cbn [index_of].
  - destruct (starts_with p []) eqn:E; [|done]. intros [= <-].
    apply starts_with_spec in E as [t Ht]. exists [], t.
    cbn [app length]. split_and!; [done|done|].
    destruct p; [by destruct t|done].
  - destruct (starts_with p (c :: s)) eqn:E.
    + intros [= <-]. apply starts_with_spec in E as [t Ht]. exists [], t.
      cbn [app length]. split_and!; [done|done|]. rewrite Ht. cbn [Nat.add]. by rewrite drop_app_length.
    + destruct (index_of p s) as [j|] eqn:Ej; [|done]. cbn. intros [= <-].
      destruct (IH j eq_refl) as (a & b & Hs & Ha & Hb). exists (c :: a), b. cbn.
      split_and!; [by rewrite Hs|by rewrite Ha|done].
Qed.

Lemma includes_index p s : includes p s = false <-> index_of p s = None.
Proof. unfold includes. by destruct (index_of p s). Qed.

(** ** The shape of a text with think tags *)

(** [thinks s vs rs u]: the visible segments [vs] and the reasoning segments
    [rs] of [s], read from the left; [u] says that the last tag is open. *)
Inductive thinks : jstr -> list jstr -> list jstr -> bool -> Prop :=
  | thinks_none s : includes OPEN s = false -> thinks s [s] [] false
  | thinks_open s v r :
      s = v ++ OPEN ++ r ->
      index_of OPEN s = Some (length v) -> includes CLOSE r = false ->
      thinks s [v] [r] true
  | thinks_closed s t v r rest vs rs u :
      s = v ++ OPEN ++ t -> t = r ++ CLOSE ++ rest ->
      index_of OPEN s = Some (length v) -> index_of CLOSE t = Some (length r) ->
      thinks rest vs rs u ->
      thinks s (v :: vs) (r :: rs) u.

Lemma join_nil_sep (l : list jstr) : join [] l = concat l.
Proof.
  induction l as [|x [|y l] IH]; [done|by cbn; rewrite app_nil_r|].
  change (join [] (x :: y :: l)) with (x ++ join [] (y :: l)). by rewrite IH.
Qed.

Lemma drop_before v (t : jstr) n : drop (length v + n) (v ++ t) = drop n t.
Proof. rewrite skipn_app. rewrite (skipn_all2 v) by lia. by replace (length v + n - length v)%nat with n by lia. Qed.

Lemma think_loop_spec fuel s :
  (length s < fuel)%nat ->
  exists vs rs u, thinks s vs rs u
    /\ (think_loop fuel s).1.2 = rs /\ (think_loop fuel s).2 = u
    /\ concat (think_loop fuel s).1.1 = concat vs.
Proof.
  revert s. induction fuel as [|fuel IH]; intros s Hf; [lia|]. cbn [think_loop].
  destruct (index_of OPEN s) as [i|] eqn:Eo.
  2:{ exists [s], [], false. split; [constructor; by apply includes_index|]. by destruct s. }
  pose proof Eo as Hfirst. apply index_of_split in Eo as (v & t & Hs & Hv & Ht). subst i.
  change (length OPEN) with 7%nat in Ht. unfold index_of_from. rewrite <-Ht.
  set (before := match length v with O => [] | _ => [substring 0 (length v) s] end).
  assert (Hb : concat before = v).
  { unfold before, substring. rewrite Nat.sub_0_r, drop_0, Hs, take_app_length.
    destruct v; [done|]. cbn. by rewrite app_nil_r. }
  clearbody before. destruct (index_of CLOSE t) as [j|] eqn:Ec; cbn [fmap option_fmap option_map].
  2:{ exists [v], [t], true. split_and!; try done.
      - constructor; [done|done|]. by apply includes_index.
      - cbn [fst]. rewrite Hb. cbn. by rewrite app_nil_r. }
  pose proof Ec as Hcl. apply index_of_split in Ec as (r & rest & Hr & Hj & Hrest).
  change (length CLOSE) with 8%nat in Hrest. subst j.
  assert (Hdrop : drop (length v + 7 + length r + 8) s = rest).
  { rewrite Hs, <-!Nat.add_assoc, drop_before. change 7%nat with (length OPEN).
    by rewrite drop_before, Hrest. }
  assert (Hsub : substring (length v + 7) (length v + 7 + length r) s = r).
  { unfold substring. replace (_ - _)%nat with (length r) by lia. rewrite Hs, drop_before.
    change 7%nat with (length OPEN). rewrite drop_app_length, Hr. apply take_app_length. }
  destruct (IH rest) as (vs & rs & u & Hth & H1 & H2 & H3).
  { rewrite Hs, Hr in Hf. rewrite !length_app in Hf.
    change (length OPEN) with 7%nat in Hf. lia. }
  rewrite Hdrop, Hsub. destruct (think_loop fuel rest) as [[vs' rs'] u']. cbn [fst snd] in *. subst rs u.
  exists (v :: vs), (r :: rs'), u'. split_and!; try done.
  - by eapply thinks_closed.
  - cbn [concat]. by rewrite concat_app, Hb, H3.
Qed.

(** The decomposition of a text is unique. *)
Lemma thinks_det s vs rs u vs' rs' u' :
  thinks s vs rs u -> thinks s vs' rs' u' -> vs = vs' /\ rs = rs' /\ u = u'.
Proof.
  intros H. revert vs' rs' u'.
  induction H as [s Ho|s v r Hs Ho Hc|s t v r rest vs rs u Hs Ht Ho Hc H IH]; intros vs' rs' u' H'.
  all: destruct H' as [s Ho'|s v' r' Hs' Ho' Hc'|s t' v' r' rest' vs' rs' u' Hs' Ht' Ho' Hc' H'].
  all: try (apply includes_index in Ho; congruence).
  all: try (apply includes_index in Ho'; congruence).
  1: done.
  all: rewrite Ho in Ho'; injection Ho' as Hl; rewrite Hs in Hs';
    apply app_inj_1 in Hs' as [-> Hs']; [|done]; apply app_inv_head in Hs'.
  - by subst.
  - apply includes_index in Hc. congruence.
  - apply includes_index in Hc'. congruence.
  - rewrite <-Hs', Hc in Hc'. injection Hc' as Hl'. rewrite <-Hs', Ht in Ht'.
    apply app_inj_1 in Ht' as [-> Ht']; [|done]. apply app_inv_head in Ht'. subst rest'.
    by destruct (IH _ _ _ H') as (-> & -> & ->).
Qed.

Lemma parseThinkTags_thinks content :
  exists vs rs u, thinks content vs rs u /\
    parseThinkTags content
    = if includes OPEN content
      then MkThink (trim (concat vs)) (trim (join [10; 10] rs)) u
      else MkThink content [] false.
Proof.
  destruct (think_loop_spec (S (length content)) content) as (vs & rs & u & Ht & H1 & H2 & H3); [lia|].
  exists vs, rs, u. split; [done|]. unfold parseThinkTags. destruct (includes OPEN content); [|done].
  cbn [negb]. destruct (think_loop _ _) as [[vs' rs'] u']. cbn [fst snd] in *. subst rs' u'.
  by rewrite join_nil_sep, H3.
Qed.

(** C19.  [parseThinkTags] reads every text, whatever its tags, as visible and
    reasoning segments in exactly one way.  A text with an opening tag gives the
    visible ones put together and the reasoning ones as paragraphs, both
    trimmed; a text without one is returned as it is, not trimmed, and has no
    reasoning. *)
Theorem parseThinkTags_spec (content : jstr) :
  exists vs rs u,
    thinks content vs rs u
    /\ (forall vs' rs' u', thinks content vs' rs' u' -> vs' = vs /\ rs' = rs /\ u' = u)
    /\ parseThinkTags content
       = if includes OPEN content
         then MkThink (trim (concat vs)) (trim (join [10; 10] rs)) u
         else MkThink content [] false.
Proof.
  destruct (parseThinkTags_thinks content) as (vs & rs & u & Ht & Hp). exists vs, rs, u.
  split_and!; [done| |done]. intros vs' rs' u' H'. by apply (thinks_det content).
Qed.

(** ** Streaming *)

Definition stream_chunks (m : Message) (chunks : list jstr) : Message :=
  fold_left (fun m c => processStreamingContent m (Some c)) chunks m.

Definition message_text (m : Message) : jstr := v_content (getCurrentVersion m).

Lemma process_fields m c :
  message_text (processStreamingContent m (Some c)) = message_text m ++ c
  /\ v_id (getCurrentVersion (processStreamingContent m (Some c))) = v_id (getCurrentVersion m).
Proof. done. Qed.

Lemma stream_chunks_text m chunks :
  message_text (stream_chunks m chunks) = message_text m ++ concat chunks.
Proof.
  revert m. induction chunks as [|c chunks IH]; intros m; cbn [stream_chunks fold_left concat].
  { by rewrite app_nil_r. }
  fold (stream_chunks (processStreamingContent m (Some c)) chunks).
  rewrite IH. change (message_text (processStreamingContent m (Some c))) with (message_text m ++ c).
  by rewrite app_assoc.
Qed.

(** A message up to its reasoning. *)
Definition strip_reasoning (m : Message) : Message := set_reasoning None m.

Lemma strip_reasoning_eq m n :
  strip_reasoning m = strip_reasoning n -> reasoning m = reasoning n -> m = n.
Proof.
  destruct m, n. unfold strip_reasoning, set_reasoning. cbn. intros H ->. by injection H as -> -> -> -> -> -> -> -> ->.
Qed.

Lemma stream_last m chunks c :
  strip_reasoning (stream_chunks m (chunks ++ [c]))
  = strip_reasoning (processStreamingContent m (Some (concat chunks ++ c)))
  /\ reasoning (stream_chunks m (chunks ++ [c]))
     = match t_reasoning (parseThinkTags (message_text m ++ concat chunks ++ c)) with
       | [] => reasoning (stream_chunks m chunks)
       | r => Some (MkReasoning r nzero)
       end.
Proof.
  unfold stream_chunks. rewrite fold_left_app. cbn [fold_left].
  fold (stream_chunks m chunks). set (n := stream_chunks m chunks).
  assert (Ht : message_text n = message_text m ++ concat chunks) by apply stream_chunks_text.
  assert (Hid : v_id (getCurrentVersion n) = v_id (getCurrentVersion m)
    /\ key n = key m /\ from n = from m /\ sources n = sources m
    /\ isReasoningComplete n = isReasoningComplete m /\ isContentComplete n = isContentComplete m
    /\ status n = status m /\ errorCode n = errorCode m).
  { unfold n, stream_chunks. clear. revert m. induction chunks as [|c l IH]; intros m; [done|].
    cbn [fold_left]. by apply (IH (processStreamingContent m (Some c))). }
  destruct Hid as (H1 & H2 & H3 & H4 & H5 & H6 & H7 & H8).
  unfold message_text in Ht. split.
  - unfold processStreamingContent, strip_reasoning, updateCurrentVersionContent.
    cbn [default]. rewrite Ht, <-app_assoc, H1.
    unfold set_reasoning, set_reasoning_streaming, set_versions. cbn.
    by rewrite H2, H3, H4, H5, H6, H7, H8.
  - unfold processStreamingContent. cbn [default reasoning set_reasoning_streaming set_reasoning].
    by rewrite Ht, <-app_assoc.
Qed.

Lemma includes_longer p a b : includes p a = true -> includes p (a ++ b) = true.
Proof.
  unfold includes. destruct (index_of p a) as [i|] eqn:E; [|done]. intros _. apply index_of_split in E as (x & y & -> & _).
  rewrite <-!app_assoc. apply includes_app.
Qed.

Lemma no_tag_no_reasoning s : includes OPEN s = false -> parseThinkTags s = MkThink s [] false.
Proof. unfold parseThinkTags. by intros ->. Qed.

(** The reasoning of a message while its text grows: as it was, or that of a
    beginning of the text. *)
Lemma stream_reasoning m chunks :
  reasoning (stream_chunks m chunks) = reasoning m
  \/ exists c1 c2, chunks = c1 ++ c2 /\ let r := t_reasoning (parseThinkTags (message_text m ++ concat c1)) in
       r <> [] /\ reasoning (stream_chunks m chunks) = Some (MkReasoning r nzero).
Proof.
  induction chunks as [|c l IH] using rev_ind; [by left|]. destruct (stream_last m l c) as [_ E]. rewrite E. clear E.
  destruct (t_reasoning (parseThinkTags (message_text m ++ concat l ++ c))) as [|x r] eqn:Er.
  - destruct IH as [->|(c1 & c2 & -> & IH)]; [by left|]. right. exists c1, (c2 ++ [c]). by rewrite app_assoc.
  - right. exists (l ++ [c]), []. rewrite app_nil_r, concat_app. cbn [concat]. rewrite app_nil_r. cbv zeta. by rewrite Er.
Qed.

Lemma stream_no_tag m chunks :
  includes OPEN (message_text m ++ concat chunks) = false -> reasoning (stream_chunks m chunks) = reasoning m.
Proof.
  intros H. destruct (stream_reasoning m chunks) as [E|(c1 & c2 & -> & Hr & _)]; [done|]. exfalso. apply Hr.
  rewrite no_tag_no_reasoning; [done|]. apply not_true_iff_false. intros Hi. apply (includes_longer _ _ (concat c2)) in Hi.
  rewrite concat_app, app_assoc in H. congruence.
Qed.

(** The reasoning of a finished message that had none in its own text. *)
Definition finished (r : option Reasoning) : option Reasoning :=
  match r with
  | Some (MkReasoning ((_ :: _) as s) d) => Some (MkReasoning s (if num_truthy d then d else nzero))
  | _ => None
  end.

Lemma finalize_finished m :
  t_reasoning (parseThinkTags (message_text m)) = [] -> reasoning (finalizeMessage m None) = finished (reasoning m).
Proof.
  unfold message_text, finalizeMessage. intros ->. cbn [reasoning set_reasoning set_reasoning_streaming].
  by destruct (reasoning m) as [[[|x s] d]|].
Qed.

Lemma finalize_streamed m s :
  s <> [] -> reasoning m = Some (MkReasoning s nzero) -> reasoning (finalizeMessage m None) = Some (MkReasoning s nzero).
Proof. unfold finalizeMessage. cbn [reasoning set_reasoning set_reasoning_streaming]. intros Hs ->. by destruct s. Qed.

(** Streaming does not depend on how the text is cut into chunks: with
    some reasoning in the whole text, two streams of the same text end in the
    same message. *)
Theorem streaming_chunk_independent (m : Message) (chunks chunks' : list jstr) :
  chunks <> [] -> chunks' <> [] -> concat chunks = concat chunks' ->
  t_reasoning (parseThinkTags (message_text m ++ concat chunks)) <> [] ->
  stream_chunks m chunks = stream_chunks m chunks'.
Proof.
  intros H H' Heq Hr.
  destruct (exists_last H) as (l & c & ->). destruct (exists_last H') as (l' & c' & ->).
  rewrite !concat_app in Heq. cbn [concat] in Heq. rewrite !app_nil_r in Heq.
  rewrite concat_app in Hr. cbn [concat] in Hr. rewrite app_nil_r in Hr.
  destruct (stream_last m l c) as [H1 H2]. destruct (stream_last m l' c') as [H1' H2'].
  rewrite <-Heq in H1', H2'. rewrite <-H1 in H1'.
  destruct (t_reasoning _); [done|]. rewrite <-H2 in H2'.
  by apply strip_reasoning_eq.
Qed.

Definition fresh_reply : Message := createLoadingAssistantMessage (js "k") (js "v").

Lemma streaming_chunk_independent_witness :
  stream_chunks fresh_reply [js "<think>a</thi"; js "nk> b"]
  = stream_chunks fresh_reply [js "<think>a</think> b"].
Proof.
  apply streaming_chunk_independent; [discriminate|discriminate|reflexivity|vm_compute; discriminate].
Defined.

(** Without reasoning in the whole text this fails: when the stream of an
    empty thinking block is cut inside its closing tag, the part of the tag
    that was read first stays as the reasoning of the finished message. *)
Theorem empty_think_block_leaks_tag :
  finalizeMessage (stream_chunks fresh_reply [js "<think></think>Hi"]) None
  = set_reasoning_streaming false
      (updateCurrentVersionContent fresh_reply (js "Hi"))
  /\ message_text (finalizeMessage (stream_chunks fresh_reply [js "<think></thi"; js "nk>Hi"]) None)
     = js "Hi"
  /\ reasoning (finalizeMessage (stream_chunks fresh_reply [js "<think></thi"; js "nk>Hi"]) None)
     = Some (MkReasoning (js "</thi") nzero).
Proof. by split_and!; vm_compute. Qed.

(** ** Stored messages *)

Definition stable (m : Message) : Prop := stuck m = false.

Lemma sanitize_message_fields m :
  from (sanitize_message m) = from m /\ key (sanitize_message m) = key m
  /\ isReasoningStreaming (sanitize_message m) = Some false.
Proof. unfold sanitize_message. by destruct (_ || _). Qed.

Lemma error_text_trimmed :
  str_truthy (trim (API_REQUEST_ERROR ++ js ": " ++ INTERRUPTED)) = true.
Proof. reflexivity. Qed.

(** What a repaired message shows: something, in a final status. *)
Definition presentable (m : Message) : Prop :=
  (status m = Some complete \/ status m = Some error)
  /\ (str_truthy (trim (message_text m)) = true
      \/ str_truthy (trim (default [] (r_content <$> reasoning m))) = true).

Lemma sanitize_message_presentable m : presentable (sanitize_message m).
Proof.
  unfold presentable, sanitize_message. set (f := finalizeMessage m None).
  destruct (str_truthy (trim (v_content (getCurrentVersion f)))) eqn:E1; cbn [orb].
  - split; [by left|by left].
  - destruct (str_truthy (trim (default [] (r_content <$> reasoning f)))) eqn:E2.
    + split; [by left|by right].
    + split; [by right|left]. apply error_text_trimmed.
Qed.

Lemma presentable_not_stuck m : presentable m -> stuck m = false.
Proof.
  intros [[H|H] _]; unfold stuck; rewrite H; apply andb_false_r.
Qed.

Lemma sanitize_rev_spec l :
  (existsb stuck l = false /\ sanitize_rev l = l)
  \/ (exists a m b, l = a ++ m :: b /\ existsb stuck a = false /\ stuck m = true
        /\ sanitize_rev l = a ++ sanitize_message m :: b).
Proof.
  induction l as [|m l IH]; [by left|]. cbn [existsb sanitize_rev].
  destruct (stuck m) eqn:E; [by right; exists [], m, l|].
  destruct IH as [[H1 H2]|(a & m' & b & -> & H1 & H2 & H3)].
  - left. by rewrite H1, H2.
  - right. exists (m :: a), m', b. cbn [app existsb]. by rewrite E, H1, H3.
Qed.

Lemma existsb_rev {A} (f : A -> bool) l : existsb f (rev l) = existsb f l.
Proof.
  apply Bool.eq_iff_eq_true. rewrite !existsb_exists. by setoid_rewrite <-in_rev.
Qed.

(** Loading stored messages repairs exactly the last stuck one: every
    other message stays as it is, and the repaired one keeps its key, has a
    final status and shows a text, a reasoning or the error. *)
Theorem sanitize_repairs_last (messages : list Message) :
  (existsb stuck messages = false /\ sanitizeMessagesOnLoad messages = messages)
  \/ exists before m after,
       messages = before ++ m :: after /\ stuck m = true /\ existsb stuck after = false
       /\ sanitizeMessagesOnLoad messages = before ++ sanitize_message m :: after
       /\ key (sanitize_message m) = key m /\ presentable (sanitize_message m)
       /\ isReasoningStreaming (sanitize_message m) = Some false.
Proof.
  unfold sanitizeMessagesOnLoad.
  destruct (sanitize_rev_spec (rev messages)) as [[H1 H2]|(a & m & b & Heq & H1 & H2 & H3)].
  - left. rewrite H2, rev_involutive. split; [|done]. by rewrite existsb_rev in H1.
  - right. exists (rev b), m, (rev a). rewrite H3, existsb_rev, rev_app_distr. cbn [rev].
    rewrite <-app_assoc. split_and!; try done.
    + rewrite <-(rev_involutive messages), Heq, rev_app_distr. cbn [rev]. by rewrite <-app_assoc.
    + apply sanitize_message_fields.
    + apply sanitize_message_presentable.
    + apply sanitize_message_fields.
Qed.

Definition stuck_count (l : list Message) : nat := length (List.filter stuck l).

(** One load repairs one message: with several stuck messages the others
    stay stuck until the next load. *)
Theorem sanitize_one_at_a_time (messages : list Message) :
  stuck_count (sanitizeMessagesOnLoad messages) = pred (stuck_count messages).
Proof.
  unfold sanitizeMessagesOnLoad, stuck_count.
  destruct (sanitize_rev_spec (rev messages)) as [[H1 H2]|(a & m & b & Heq & H1 & H2 & H3)].
  - rewrite H2, rev_involutive. replace (List.filter stuck messages) with (@nil Message); [done|].
    rewrite existsb_rev in H1. clear H2. induction messages as [|m l IH]; [done|].
    cbn [existsb List.filter] in *. bool_hyps.
    match goal with H : stuck m = false |- _ => rewrite H end. by apply IH.
  - rewrite H3. replace messages with (rev (a ++ m :: b)) by (rewrite <-Heq; apply rev_involutive).
    rewrite !rev_app_distr. cbn [rev].
    rewrite !List.filter_app. cbn [List.filter].
    rewrite H2, (presentable_not_stuck _ (sanitize_message_presentable m)). rewrite !length_app. cbn. lia.
Qed.
