(* ===== verification/Chat.v ===== *)
(** * The playground chat (features/playground: lib/payload-builder.ts,
    hooks/use-stream-request.ts, hooks/use-chat-handler.ts)

    The request that is sent, and the state machine of a streamed reply: the
    events that the event source library delivers are inputs, in any order
    and number, and [handle] is what the listeners do to the messages and to
    the two references of the hook. *)
From S2P Require Import Prelude JsString JsNumber JsValue JsJson Messages MessagesFacts.
Open Scope N_scope.

(** ** The request *)

Record PlaygroundConfig := MkConfig {
  c_model : jstr; c_group : jstr; temperature : num; top_p : num; max_tokens : num;
  frequency_penalty : num; presence_penalty : num; c_seed : option num; c_stream : bool
}.

Inductive ParameterKey :=
  | K_temperature | K_top_p | K_max_tokens | K_frequency_penalty | K_presence_penalty | K_seed.

#[export] Instance ParameterKey_eq_dec : EqDecision ParameterKey.
Proof. solve_decision. Defined.

Definition ParameterEnabled := ParameterKey -> bool.

Definition parameterKeys : list ParameterKey :=
  [K_temperature; K_top_p; K_max_tokens; K_frequency_penalty; K_presence_penalty; K_seed].

(** [config[key]], a number unless it is [null]. *)
Definition config_value (config : PlaygroundConfig) (k : ParameterKey) : option num :=
  match k with
  | K_temperature => Some (temperature config)
  | K_top_p => Some (top_p config)
  | K_max_tokens => Some (max_tokens config)
  | K_frequency_penalty => Some (frequency_penalty config)
  | K_presence_penalty => Some (presence_penalty config)
  | K_seed => c_seed config
  end.

Record ChatCompletionRequest := MkRequest {
  q_model : jstr; q_group : jstr; q_messages : list ChatCompletionMessage; q_stream : bool;
  q_parameters : list (ParameterKey * num)
}.

Definition buildChatCompletionPayload (messages : list Message) (config : PlaygroundConfig)
    (parameterEnabled : ParameterEnabled) : ChatCompletionRequest :=
  MkRequest (c_model config) (c_group config)
    (map formatMessageForAPI (List.filter isValidMessage messages))
    (c_stream config)
    (omap (fun k => if parameterEnabled k then pair k <$> config_value config k else None)
       parameterKeys).

(** ** The handlers of the chat *)

Inductive UpdateType := UpReasoning | UpContent.

Definition stream_update (type : UpdateType) (chunk : jstr) (message : Message) : Message :=
  if bool_decide (status message = Some error) then message
  else match type with
       | UpReasoning =>
           set_status streaming (set_reasoning_streaming true
             (set_reasoning
                (Some (MkReasoning (default [] (r_content <$> reasoning message) ++ chunk) nzero))
                message))
       | UpContent => set_status streaming (processStreamingContent message (Some chunk))
       end.

Definition handleStreamUpdate (type : UpdateType) (chunk : jstr) (prev : list Message) : list Message :=
  updateLastAssistantMessage prev (stream_update type chunk).

Definition stream_complete (message : Message) : Message :=
  if bool_decide (status message = Some complete) || bool_decide (status message = Some error)
  then message else set_status complete (finalizeMessage message None).

Definition handleStreamComplete (prev : list Message) : list Message :=
  updateLastAssistantMessage prev stream_complete.

Definition handleStreamError (err : jstr) (code : option jstr) (prev : list Message) : list Message :=
  updateAssistantMessageWithError prev err code.

Definition stop_message (message : Message) : Message :=
  if bool_decide (status message = Some loading) || bool_decide (status message = Some streaming)
  then set_status complete (finalizeMessage message None) else message.

(** The reply of a request that is not streamed. *)
Definition complete_reply (text : jstr) (reasoning_content : option jstr) (prev : list Message)
  : list Message :=
  updateLastAssistantMessage prev (fun message =>
    set_status complete
      (finalizeMessage
         (set_versions [MkVersion (v_id (getCurrentVersion message)) text] message)
         reasoning_content)).

(** ** The stream *)

(** The messages; the current event source, by number; the completion flag. *)
Record ChatState := MkChat {
  messages : list Message; sseSource : option nat; isStreamComplete : bool
}.

Inductive event :=
  | EvStart (source : nat)              (* sendStreamRequest, stream() returned *)
  | EvStartFailed (source : nat)        (* sendStreamRequest, stream() threw *)
  | EvMessage (source : nat) (data : jstr)
  | EvError (source : nat) (readyState : num) (data : jstr)
  | EvReadyState (source : nat) (readyState : option num) (status : jsval)
  | EvStop.

Definition PARSE_ERROR : jstr := js "Error parsing response data".
Definition STREAM_START_ERROR : jstr := js "Error establishing connection".
Definition CONNECTION_CLOSED : jstr := js "Connection closed".

(** A truthy part of a chunk, as text. *)
Definition chunk_text (v : jsval) : res (option jstr) :=
  if truthy v then res_map Some (to_str v) else Ok None.

(** The reasoning and the content of one chunk. *)
Definition decode_chunk (data : jstr) : res (option jstr * option jstr) :=
  let* chunk := json_parse data in
  let* choices := vget (js "choices") chunk in
  let* first := vget_opt (js "0") choices in
  let* delta := vget_opt (js "delta") first in
  if truthy delta then
    let* r := vget (js "reasoning_content") delta in
    let* c := vget (js "content") delta in
    let* r := chunk_text r in
    let* c := chunk_text c in
    Ok (r, c)
  else Ok (None, None).

Definition closeSource (s : ChatState) : ChatState :=
  MkChat (messages s) None (isStreamComplete s).

Definition on_messages (f : list Message -> list Message) (s : ChatState) : ChatState :=
  MkChat (f (messages s)) (sseSource s) (isStreamComplete s).

Definition handleError (err : jstr) (code : option jstr) (s : ChatState) : ChatState :=
  if isStreamComplete s then s else closeSource (on_messages (handleStreamError err code) s).

Definition onUpdate (type : UpdateType) (chunk : option jstr) (s : ChatState) : ChatState :=
  match chunk with Some c => on_messages (handleStreamUpdate type c) s | None => s end.

Definition on_message (data : jstr) (s : ChatState) : ChatState :=
  if bool_decide (data = js "[DONE]") then
    on_messages handleStreamComplete (closeSource (MkChat (messages s) (sseSource s) true))
  else match decode_chunk data with
       | Ok (r, c) => onUpdate UpContent c (onUpdate UpReasoning r s)
       | Throw _ => handleError PARSE_ERROR None s
       end.

(** Message and code of an error event. *)
Definition error_of (data : jstr) : jstr * option jstr :=
  let fallback := str_or data API_REQUEST_ERROR in
  match data with
  | [] => (fallback, None)
  | _ =>
      catch
        (let* parsed := json_parse data in
         let* e := vget_opt (js "error") parsed in
         if truthy e then
           let* m := vget (js "message") e in
           let* c := vget (js "code") e in
           let* m := chunk_text m in
           let* c := chunk_text c in
           Ok (default fallback m, c)
         else Ok (fallback, None))
        (fallback, None)
  end.

Definition on_error (readyState : num) (data : jstr) (s : ChatState) : ChatState :=
  if negb (neqb readyState (num_of_Z 2)) then
    let '(m, c) := error_of data in handleError m c s
  else s.

Definition on_ready_state (readyState : option num) (status : jsval) (s : ChatState) : ChatState :=
  match readyState, status with
  | _, VUndef | None, _ => s
  | Some r, _ =>
      if nleb (num_of_Z 2) r && negb (match status with VNum n => neqb n (num_of_Z 200) | _ => false end)
      then handleError (js "HTTP " ++ catch (to_str status) [] ++ js ": " ++ CONNECTION_CLOSED) None s
      else s
  end.

Definition stopStream (s : ChatState) : ChatState := closeSource s.

Definition handle (s : ChatState) (e : event) : ChatState :=
  match e with
  | EvStart n => MkChat (messages s) (Some n) false
  | EvStartFailed n =>
      MkChat (handleStreamError STREAM_START_ERROR None (messages s)) None false
  | EvMessage _ data => on_message data s
  | EvError _ r data => on_error r data s
  | EvReadyState _ r st => on_ready_state r st s
  | EvStop => on_messages (fun prev => updateLastAssistantMessage prev stop_message) (stopStream s)
  end.

(** A run of the chat: any events, in any order. *)
Inductive step : ChatState -> ChatState -> Prop :=
  | step_event s e : step s (handle s e).

Definition reachable : relation ChatState := rtc step.
