(* ===== verification/ChatFacts.v ===== *)
(** * Facts on the playground chat

    What every run of events preserves, what ends a run, and the message a
    complete stream leaves. *)
From S2P Require Import Prelude JsString JsNumber JsValue JsJson Messages MessagesFacts Chat.
Open Scope N_scope.

(** ** What an update keeps *)

(** [m'] is a later state of the reply [m]. *)
Definition same_reply (m m' : Message) : Prop :=
  key m' = key m /\ from m' = from m /\ sources m' = sources m
  /\ (status m = Some error -> status m' = Some error).

Definition keeps (f : Message -> Message) : Prop := forall m, same_reply m (f m).

Lemma keeps_stream_update type chunk : keeps (stream_update type chunk).
Proof.
  intros m. unfold stream_update, same_reply. case_bool_decide; [by split_and!|].
  by destruct type; split_and!.
Qed.

Lemma keeps_complete : keeps stream_complete.
Proof.
  intros m. unfold stream_complete, same_reply.
  destruct (_ || _) eqn:E; [by split_and!|]. apply orb_false_iff in E as [_ E].
  apply bool_decide_eq_false in E. by split_and!.
Qed.

Lemma keeps_stop : keeps stop_message.
Proof.
  intros m. unfold stop_message, same_reply.
  destruct (_ || _) eqn:E; [|by split_and!]. split_and!; try done. intros Hs.
  rewrite Hs in E. by rewrite !bool_decide_eq_false_2 in E by done.
Qed.

(** The messages before and after an update of the last reply. *)
Definition frame (ms ms' : list Message) : Prop :=
  ms' = ms
  \/ exists before m m', ms = before ++ [m] /\ ms' = before ++ [m'] /\ from m = assistant
       /\ same_reply m m'.

#[export] Instance frame_refl : Reflexive frame.
Proof. intros ms. by left. Qed.

#[export] Instance frame_trans : Transitive frame.
Proof.
  intros a b c [->|(x & m & m' & -> & -> & Hm & H1)]; [done|].
  intros [->|(y & n & n' & Heq & -> & Hn & H2)]; right; [by exists x, m, m'|].
  apply app_inj_tail in Heq as [<- <-]. exists x, m, n'.
  destruct H1 as (? & ? & ? & ?), H2 as (? & ? & ? & ?). split_and!; try done.
  split_and!; try congruence. auto.
Qed.

Lemma update_last_frame ms f : keeps f -> frame ms (updateLastAssistantMessage ms f).
Proof.
  intros Hf. unfold updateLastAssistantMessage. destruct (rev ms) as [|m before] eqn:E; [by left|].
  case_bool_decide as Hm; [|by left]. right. exists (rev before), m, (f m).
  split; [by rewrite <-(rev_involutive ms), E|]. split; [done|]. split; [done|apply Hf].
Qed.

Lemma update_last_snoc before m f :
  from m = assistant -> updateLastAssistantMessage (before ++ [m]) f = before ++ [f m].
Proof.
  intros Hm. unfold updateLastAssistantMessage. rewrite rev_app_distr. cbn [rev app].
  rewrite bool_decide_eq_true_2 by done. cbn [rev]. by rewrite rev_involutive.
Qed.

Lemma error_frame ms err code : frame ms (updateAssistantMessageWithError ms err code).
Proof. apply update_last_frame. intros m. by split_and!. Qed.

Lemma handleError_frame err code s : frame (messages s) (messages (handleError err code s)).
Proof. unfold handleError. destruct (isStreamComplete s); [done|]. apply error_frame. Qed.

Lemma onUpdate_frame type c s : frame (messages s) (messages (onUpdate type c s)).
Proof. destruct c; [|done]. apply update_last_frame, keeps_stream_update. Qed.

Lemma handle_frame s e : frame (messages s) (messages (handle s e)).
Proof.
  destruct e as [n|n|n data|n r data|n r st|]; cbn [handle].
  - done.
  - apply error_frame.
  - unfold on_message. case_bool_decide; [apply update_last_frame, keeps_complete|].
    destruct (decode_chunk data) as [[r c]|]; [|apply handleError_frame].
    etrans; apply onUpdate_frame.
  - unfold on_error. destruct (negb _); [|done]. destruct (error_of data). apply handleError_frame.
  - unfold on_ready_state. destruct r as [r|]; [|by destruct st].
    destruct st; try done; destruct (_ && _); try done; apply handleError_frame.
  - apply update_last_frame, keeps_stop.
Qed.

(** C32.  Whatever events arrive, in whatever order and from whatever source,
    only the last message changes, and only if it is the assistant's: its key,
    role and sources stay, and an error is never taken back. *)
Theorem chat_run_frame (s s' : ChatState) :
  reachable s s' -> frame (messages s) (messages s').
Proof.
  induction 1 as [|x y z [x' e] _ IH]; [done|]. etrans; [apply handle_frame|exact IH].
Qed.

Definition two_messages : list Message :=
  [createUserMessage (js "u") (js "v0") (js "Hi"); createLoadingAssistantMessage (js "a") (js "v1")].

Lemma chat_run_frame_witness :
  frame two_messages
    (messages (handle (MkChat two_messages None false) (EvMessage 0 (js "not json")))).
Proof.
  apply (chat_run_frame (MkChat two_messages None false)). eapply rtc_once. apply step_event.
Defined.

(** ** The end of a stream *)

Definition final (m : Message) : Prop := status m = Some complete \/ status m = Some error.

Lemma stream_complete_final m : final (stream_complete m).
Proof.
  unfold stream_complete, final. destruct (_ || _) eqn:E; [|by left].
  apply orb_true_iff in E as [E|E]; apply bool_decide_eq_true in E; auto.
Qed.

Lemma complete_ignores_errors s :
  isStreamComplete s = true -> forall err code, handleError err code s = s.
Proof. intros H err code. unfold handleError. by rewrite H. Qed.

(** After the end marker the reply is final, no source is open, and no
    later error event, of the source or of its connection, changes anything;
    neither does a chunk that cannot be decoded. *)
Theorem done_is_final (before : list Message) (m : Message) (src : option nat) (flag : bool) (n : nat) :
  from m = assistant ->
  let s := handle (MkChat (before ++ [m]) src flag) (EvMessage n (js "[DONE]")) in
  sseSource s = None
  /\ messages s = before ++ [stream_complete m] /\ final (stream_complete m)
  /\ (forall n' r data, handle s (EvError n' r data) = s)
  /\ (forall n' r st, handle s (EvReadyState n' r st) = s)
  /\ (forall n' data e, data <> js "[DONE]" -> decode_chunk data = Throw e ->
        handle s (EvMessage n' data) = s).
Proof.
  intros Hm s. assert (Hs : s = MkChat (before ++ [stream_complete m]) None true).
  { unfold s. cbn [handle]. unfold on_message. rewrite bool_decide_eq_true_2 by done.
    unfold on_messages, closeSource, handleStreamComplete. cbn. by rewrite update_last_snoc. }
  rewrite Hs. split_and!; try done.
  - apply stream_complete_final.
  - intros n' r data. cbn [handle]. unfold on_error. destruct (negb _); [|done].
    by destruct (error_of data).
  - intros n' r st. cbn [handle]. unfold on_ready_state. destruct r; [|by destruct st].
    destruct st; try done; by destruct (_ && _).
  - intros n' data e Hd Hdec. cbn [handle]. unfold on_message.
    by rewrite bool_decide_eq_false_2, Hdec by done.
Qed.

Lemma done_is_final_witness :
  let s := handle (MkChat ([] ++ [fresh_reply]) (Some 0%nat) false) (EvMessage 0 (js "[DONE]")) in
  handle s (EvReadyState 0 (Some (num_of_Z 2)) (VNum (num_of_Z 500))) = s.
Proof. apply (done_is_final [] fresh_reply (Some 0%nat) false 0). reflexivity. Defined.

(** Stopping leaves no source open and no reply in progress. *)
Theorem stop_is_final (before : list Message) (m : Message) (src : option nat) (flag : bool) :
  from m = assistant ->
  let s := handle (MkChat (before ++ [m]) src flag) EvStop in
  sseSource s = None /\ messages s = before ++ [stop_message m] /\ stuck (stop_message m) = false.
Proof.
  intros Hm s. unfold s. cbn [handle on_messages stopStream closeSource messages sseSource].
  rewrite update_last_snoc by done. split_and!; [done|done|].
  unfold stop_message, stuck.
  destruct (_ || _) eqn:E; [by rewrite andb_comm|]. by rewrite E, andb_comm.
Qed.

Lemma stop_is_final_witness :
  messages (handle (MkChat ([] ++ [fresh_reply]) (Some 0%nat) false) EvStop)
  = [set_status complete (finalizeMessage fresh_reply None)].
Proof. apply (stop_is_final [] fresh_reply (Some 0%nat) false). reflexivity. Defined.

(** ** A whole stream *)

(** The data of an event carries the content [c] and nothing else. *)
Definition content_event (data c : jstr) : Prop := decode_chunk data = Ok (None, Some c).

Definition run (s : ChatState) (es : list event) : ChatState := fold_left handle es s.

Lemma run_content before m chunks datas src n :
  from m = assistant -> status m <> Some error -> chunks <> [] ->
  Forall2 content_event datas chunks ->
  run (MkChat (before ++ [m]) src false) (map (EvMessage n) datas)
  = MkChat (before ++ [set_status streaming (stream_chunks m chunks)]) src false.
Proof.
  intros Hm Hs Hne H. revert m Hm Hs Hne. induction H as [|d c datas chunks Hd H IH]; intros m Hm Hs Hne; [done|].
  cbn [map]. unfold run. cbn [fold_left handle]. fold (run (on_message d (MkChat (before ++ [m]) src false)) (map (EvMessage n) datas)).
  assert (Hstep : on_message d (MkChat (before ++ [m]) src false)
    = MkChat (before ++ [set_status streaming (processStreamingContent m (Some c))]) src false).
  { unfold on_message. rewrite bool_decide_eq_false_2, Hd by (intros ->; by vm_compute in Hd).
    cbn [onUpdate]. unfold on_messages, handleStreamUpdate. cbn [messages sseSource isStreamComplete].
    rewrite update_last_snoc by done. unfold stream_update. by rewrite bool_decide_eq_false_2. }
  rewrite Hstep. cbn [stream_chunks fold_left]. destruct chunks as [|c' chunks].
  - inversion H; subst. done.
  - rewrite IH; [|done|done|done]. f_equal. f_equal. f_equal.
    fold (stream_chunks (processStreamingContent m (Some c)) (c' :: chunks)).
    generalize (processStreamingContent m (Some c)). clear. generalize (c' :: chunks). clear.
    intros l. induction l as [|x l IH]; intros m; [done|]. cbn [stream_chunks fold_left].
    fold (stream_chunks (processStreamingContent (set_status streaming m) (Some x)) l).
    fold (stream_chunks (processStreamingContent m (Some x)) l).
    change (processStreamingContent (set_status streaming m) (Some x))
      with (set_status streaming (processStreamingContent m (Some x))). apply IH.
Qed.

(** C14.  A whole streamed reply: started on a loading message, fed with at
    least one content event and ended by the marker, the reply is complete and
    its text is the visible part of the whole text, however that was cut: the
    text itself when it has no opening tag.  Its reasoning is that of the whole
    text, if it has any; without an opening tag the one that the message had;
    else (an empty thinking block) the one that the message had, or that of a
    beginning of the text at which a chunk ended, which can be a part of the
    closing tag. *)
Theorem streamed_reply (before : list Message) (m : Message) (chunks datas : list jstr)
    (src : option nat) (n : nat) :
  from m = assistant -> status m = Some loading -> chunks <> [] ->
  Forall2 content_event datas chunks ->
  let whole := message_text m ++ concat chunks in
  let t := parseThinkTags whole in
  exists r,
    run (MkChat (before ++ [m]) src false) (EvStart n :: map (EvMessage n) datas ++ [EvMessage n (js "[DONE]")])
    = MkChat (before ++ [r]) None true
    /\ message_text r = visibleContent t /\ status r = Some complete /\ key r = key m
    /\ (t_reasoning t <> [] -> reasoning r = Some (MkReasoning (t_reasoning t) nzero))
    /\ (includes OPEN whole = false -> message_text r = whole /\ reasoning r = finished (reasoning m))
    /\ (t_reasoning t = [] ->
          reasoning r = finished (reasoning m)
          \/ exists c1 c2, chunks = c1 ++ c2 /\ let part := t_reasoning (parseThinkTags (message_text m ++ concat c1)) in
               part <> [] /\ reasoning r = Some (MkReasoning part nzero)).
Proof.
  intros Hm Hs Hne H whole t. unfold run. cbn [fold_left handle messages]. rewrite fold_left_app.
  fold (run (MkChat (before ++ [m]) (Some n) false) (map (EvMessage n) datas)).
  rewrite (run_content before m chunks) by (done || congruence).
  set (c := stream_chunks m chunks).
  assert (Hc : message_text c = whole) by apply stream_chunks_text.
  assert (Hr : t_reasoning t <> [] -> reasoning c = Some (MkReasoning (t_reasoning t) nzero)).
  { unfold c. destruct (exists_last Hne) as (l & x & E). unfold t, whole. rewrite E, concat_app. cbn [concat]. rewrite app_nil_r.
    destruct (stream_last m l x) as [_ ->]. by destruct (t_reasoning _). }
  assert (Hk : key c = key m /\ from c = from m).
  { unfold c, stream_chunks. clear. revert m. induction chunks as [|x l IH]; intros m; [done|].
    cbn [fold_left]. apply (IH (processStreamingContent m (Some x))). }
  destruct Hk as [Hk Hf]. cbn [fold_left handle]. unfold on_message.
  rewrite bool_decide_eq_true_2 by done. unfold on_messages, closeSource, handleStreamComplete.
  cbn [messages sseSource isStreamComplete]. rewrite update_last_snoc by (cbn; congruence).
  eexists. split; [done|]. unfold stream_complete. cbn [status set_status].
  rewrite !bool_decide_eq_false_2 by done. cbn [orb].
  change (getCurrentVersion (set_status streaming c)) with (getCurrentVersion c).
  change (finalizeMessage (set_status streaming c) None) with (set_status streaming (finalizeMessage c None)).
  change (reasoning (set_status complete (set_status streaming (finalizeMessage c None)))) with (reasoning (finalizeMessage c None)).
  change (message_text (set_status complete (set_status streaming (finalizeMessage c None))))
    with (visibleContent (parseThinkTags (message_text c))).
  rewrite Hc. fold t. split; [done|]. split; [done|]. split; [done|]. split; [|split].
  - intros Hne'. by apply finalize_streamed, Hr.
  - intros Hi. unfold t. rewrite no_tag_no_reasoning by done. split; [done|].
    rewrite finalize_finished by (by rewrite Hc, no_tag_no_reasoning). f_equal. by apply stream_no_tag.
  - intros He. destruct (stream_reasoning m chunks) as [E|(c1 & c2 & E & Hp & E')].
    + left. rewrite finalize_finished by (by rewrite Hc). by rewrite <-E.
    + right. exists c1, c2. split; [done|]. split; [done|]. by apply finalize_streamed.
Qed.

Definition chunk_data (text : jstr) : jstr :=
  js "{" ++ jsq "`choices`:[{`delta`:{`content`:" ++ json_quote text ++ js "}}]}".

(** Two replies: one with reasoning, cut inside its closing tag, and an
    ordinary one. *)
Lemma streamed_reply_witness :
  (exists r,
    run (MkChat ([] ++ [fresh_reply]) None false)
      (EvStart 0 :: map (EvMessage 0) [chunk_data (js "<think>why</th"); chunk_data (js "ink> so")]
         ++ [EvMessage 0 (js "[DONE]")])
    = MkChat ([] ++ [r]) None true
    /\ message_text r = js "so" /\ status r = Some complete
    /\ reasoning r = Some (MkReasoning (js "why") nzero) /\ key r = js "k")
  /\ exists r,
    run (MkChat ([] ++ [fresh_reply]) None false)
      (EvStart 0 :: map (EvMessage 0) [chunk_data (js " so"); chunk_data (js " what ")] ++ [EvMessage 0 (js "[DONE]")])
    = MkChat ([] ++ [r]) None true
    /\ message_text r = js " so what " /\ reasoning r = None.
Proof.
  split.
  - destruct (streamed_reply [] fresh_reply [js "<think>why</th"; js "ink> so"]
      [chunk_data (js "<think>why</th"); chunk_data (js "ink> so")] None 0) as (r & H1 & H2 & H3 & H4 & H5 & _);
      [reflexivity|reflexivity|discriminate|repeat constructor; vm_compute; reflexivity|].
    exists r. split; [exact H1|]. split; [rewrite H2; vm_compute; reflexivity|]. split; [exact H3|]. split; [|exact H4].
    rewrite H5; vm_compute; [reflexivity|discriminate].
  - destruct (streamed_reply [] fresh_reply [js " so"; js " what "] [chunk_data (js " so"); chunk_data (js " what ")] None 0)
      as (r & H1 & _ & _ & _ & _ & H6 & _);
      [reflexivity|reflexivity|discriminate|repeat constructor; vm_compute; reflexivity|].
    exists r. split; [exact H1|]. apply H6. vm_compute. reflexivity.
Defined.

(** *** The request *)

(** The request carries the messages in order, without blank replies of
    the assistant, and a parameter exactly when it is enabled and set. *)
Theorem payload_spec (msgs : list Message) (config : PlaygroundConfig) (enabled : ParameterEnabled) :
  let p := buildChatCompletionPayload msgs config enabled in
  Forall (fun c => role c = assistant -> trim (content c) <> []) (q_messages p)
  /\ q_messages p `sublist_of` map formatMessageForAPI msgs
  /\ NoDup (map fst (q_parameters p))
  /\ forall k v, (k, v) ∈ q_parameters p <-> enabled k = true /\ config_value config k = Some v.
Proof.
  cbn [buildChatCompletionPayload q_messages q_parameters]. split_and!.
  - apply list.Forall_forall. intros c Hc. apply list_elem_of_fmap in Hc as (m & -> & Hm).
    apply list_elem_of_In, filter_In in Hm as [_ Hm]. unfold isValidMessage in Hm.
    unfold formatMessageForAPI, getCurrentVersion. cbn [role content]. intros Ha.
    destruct (versions m) as [|v vs]; [done|]. rewrite bool_decide_eq_true_2 in Hm by done.
    by destruct (trim (v_content v)).
  - induction msgs as [|m msgs IH]; cbn [List.filter map]; [constructor|].
    destruct (isValidMessage m); cbn [map]; by constructor.
  - unfold parameterKeys. cbn [omap list_omap]. 
    destruct (enabled K_temperature), (enabled K_top_p), (enabled K_max_tokens),
      (enabled K_frequency_penalty), (enabled K_presence_penalty), (enabled K_seed);
      cbn; destruct (c_seed config); cbn; apply (bool_decide_eq_true_1 _); reflexivity.
  - intros k v. rewrite list_elem_of_omap. split.
    + intros (k' & _ & H). destruct (enabled k') eqn:E; [|done].
      destruct (config_value config k') eqn:Ev; [|done]. cbn in H. by simplify_eq.
    + intros [He Hv]. exists k. rewrite He, Hv. split; [|done].
      destruct k; apply (bool_decide_eq_true_1 _); reflexivity.
Qed.
