(* ===== verification/AdvancedCustom.v ===== *)
(** * Advanced custom channels (features/channels/lib/advanced-custom.ts)

    The routes of a custom channel: normalisation of a parsed configuration,
    which may hold anything, and its validation.  The URL parser of the
    platform is the parameter [url_parse]: host and protocol of a valid URL. *)
From S2P Require Import Prelude JsString JsNumber JsValue JsJson.
Open Scope N_scope.

Definition CHANNEL_TYPE_ADVANCED_CUSTOM : Z := 58.

(** Value and label of an option. *)
Record Option := MkOption { value : jstr; label : jstr }.

Definition ADVANCED_CUSTOM_CONVERTER_OPTIONS : list Option :=
  [ MkOption (js "none") (js "Native forwarding");
    MkOption (js "anthropic_messages_to_openai_chat_completions") (js "Anthropic Messages to OpenAI Chat");
    MkOption (js "openai_chat_completions_to_anthropic_messages") (js "OpenAI Chat to Anthropic Messages");
    MkOption (js "openai_chat_completions_to_openai_responses") (js "OpenAI Chat to OpenAI Responses");
    MkOption (js "gemini_generate_content_to_openai_chat_completions")
      (js "Gemini Generate Content to OpenAI Chat");
    MkOption (js "openai_chat_completions_to_gemini_generate_content")
      (js "OpenAI Chat to Gemini Generate Content") ].

Definition ADVANCED_CUSTOM_AUTH_MODE_OPTIONS : list Option :=
  [ MkOption (js "default") (js "Default Bearer"); MkOption (js "none") (js "No Auth");
    MkOption (js "header") (js "Header"); MkOption (js "query") (js "Query") ].

Definition ADVANCED_CUSTOM_INCOMING_PATH_OPTIONS : list Option :=
  [ MkOption (js "/v1/chat/completions") (js "OpenAI Chat Completions");
    MkOption (js "/v1/completions") (js "OpenAI Completions");
    MkOption (js "/v1/responses") (js "OpenAI Responses");
    MkOption (js "/v1/responses/compact") (js "OpenAI Responses Compact");
    MkOption (js "/v1/embeddings") (js "OpenAI Embeddings");
    MkOption (js "/v1/images/generations") (js "OpenAI Image Generations");
    MkOption (js "/v1/images/edits") (js "OpenAI Image Edits");
    MkOption (js "/v1/audio/speech") (js "OpenAI Audio Speech");
    MkOption (js "/v1/audio/transcriptions") (js "OpenAI Audio Transcriptions");
    MkOption (js "/v1/audio/translations") (js "OpenAI Audio Translations");
    MkOption (js "/v1/rerank") (js "OpenAI Rerank");
    MkOption (js "/v1/realtime") (js "OpenAI Realtime");
    MkOption (js "/v1/messages") (js "Claude Messages");
    MkOption (js "/v1beta/models/{model}:generateContent") (js "Gemini Generate Content");
    MkOption (js "/v1beta/models/{model}:embedContent") (js "Gemini Embed Content");
    MkOption (js "/v1beta/models/{model}:batchEmbedContents") (js "Gemini Batch Embed Contents") ].

Record AdvancedCustomValidationError := MkError { message : jstr; routeIndex : option nat }.

(** ** Templates *)

Definition auth_object (type name value : jstr) : jsval :=
  VObj [(js "type", VStr type); (js "name", VStr name); (js "value", VStr value)].

Definition bearerHeaderAuth : jsval :=
  auth_object (js "header") (js "Authorization") (js "Bearer {api_key}").
Definition apiKeyHeaderAuth : jsval := auth_object (js "header") (js "x-api-key") (js "{api_key}").
Definition geminiQueryAuth : jsval := auth_object (js "query") (js "key") (js "{api_key}").

Definition route_object (incoming upstream converter : jstr) (auth : option jsval) : jsval :=
  VObj ([(js "incoming_path", VStr incoming); (js "upstream_path", VStr upstream);
         (js "converter", VStr converter)]
        ++ match auth with Some a => [(js "auth", a)] | None => [] end).

Definition config_object (routes : list jsval) : jsval := VObj [(js "advanced_routes", VArr routes)].

(** A route that forwards a path to the same path. *)
Definition same_route (path : jstr) (auth : jsval) : jsval :=
  route_object path path (js "none") (Some auth).

Record Template := MkTemplate { t_value : jstr; t_label : jstr; t_config : jsval }.

Definition ADVANCED_CUSTOM_TEMPLATE_OPTIONS : list Template :=
  [ MkTemplate (js "official_openai_chat") (js "Official OpenAI Chat")
      (config_object [same_route (js "/v1/chat/completions") bearerHeaderAuth]);
    MkTemplate (js "official_openai_responses") (js "Official OpenAI Responses")
      (config_object [same_route (js "/v1/responses") bearerHeaderAuth]);
    MkTemplate (js "official_openai_embeddings") (js "Official OpenAI Embeddings")
      (config_object [same_route (js "/v1/embeddings") bearerHeaderAuth]);
    MkTemplate (js "official_openai_images") (js "Official OpenAI Images")
      (config_object [same_route (js "/v1/images/generations") bearerHeaderAuth;
                      same_route (js "/v1/images/edits") bearerHeaderAuth]);
    MkTemplate (js "official_claude_messages") (js "Official Claude Messages")
      (config_object [same_route (js "/v1/messages") apiKeyHeaderAuth]);
    MkTemplate (js "official_gemini_native") (js "Official Gemini Native")
      (config_object [same_route (js "/v1beta/models/{model}:generateContent") geminiQueryAuth;
                      same_route (js "/v1beta/models/{model}:embedContent") geminiQueryAuth;
                      same_route (js "/v1beta/models/{model}:batchEmbedContents") geminiQueryAuth]);
    MkTemplate (js "official_gemini_from_openai_chat") (js "Official Gemini from OpenAI Chat")
      (config_object [route_object (js "/v1/chat/completions")
                        (js "/v1beta/models/{model}:generateContent")
                        (js "openai_chat_completions_to_gemini_generate_content")
                        (Some geminiQueryAuth)]) ].

Definition cloneAdvancedCustomConfig (config : jsval) : res jsval := json_parse (stringify config).

Definition getAdvancedCustomTemplateConfig (templateKey : jstr) : res jsval :=
  match List.find (fun o => bool_decide (t_value o = templateKey)) ADVANCED_CUSTOM_TEMPLATE_OPTIONS,
        ADVANCED_CUSTOM_TEMPLATE_OPTIONS with
  | Some t, _ | None, t :: _ => cloneAdvancedCustomConfig (t_config t)
  | None, [] => Throw TypeError
  end.

Definition createAdvancedCustomRoute : jsval :=
  route_object (js "/v1/chat/completions") (js "/v1/chat/completions") (js "none") None.

Definition createAdvancedCustomConfig : jsval := config_object [createAdvancedCustomRoute].

(** ** Converters and paths *)

Definition getAdvancedCustomUpstreamPathPlaceholder (converter : jstr) : jstr :=
  if bool_decide (converter = js "openai_chat_completions_to_gemini_generate_content")
  then js "/v1beta/models/{model}:generateContent"
  else if bool_decide (converter = js "openai_chat_completions_to_anthropic_messages")
  then js "/v1/messages"
  else js "/v1/chat/completions".

Definition isConverterPathAllowed (incomingPath converter : jstr) : bool :=
  if bool_decide (converter = js "none") then true
  else if bool_decide (converter = js "anthropic_messages_to_openai_chat_completions")
  then bool_decide (incomingPath = js "/v1/messages")
  else if bool_decide (converter = js "openai_chat_completions_to_anthropic_messages")
          || bool_decide (converter = js "openai_chat_completions_to_openai_responses")
          || bool_decide (converter = js "openai_chat_completions_to_gemini_generate_content")
  then bool_decide (incomingPath = js "/v1/chat/completions")
  else includes (js ":generateContent") incomingPath || includes (js ":streamGenerateContent") incomingPath.

Definition getAdvancedCustomIncomingPathOptions (converter : jstr) : list Option :=
  List.filter (fun o => isConverterPathAllowed (value o) converter) ADVANCED_CUSTOM_INCOMING_PATH_OPTIONS.

Definition getDefaultAdvancedCustomIncomingPath (converter : jstr) : jstr :=
  match getAdvancedCustomIncomingPathOptions converter with
  | o :: _ => str_or (value o) (js "/v1/chat/completions")
  | [] => js "/v1/chat/completions"
  end.

Definition isAdvancedCustomIncomingPathAllowed (incomingPath converter : jstr) : bool :=
  existsb (fun o => bool_decide (value o = incomingPath)) (getAdvancedCustomIncomingPathOptions converter).

Definition getAdvancedCustomIncomingPathLabel (v : jstr) : jstr :=
  match List.find (fun o => bool_decide (value o = v)) ADVANCED_CUSTOM_INCOMING_PATH_OPTIONS with
  | Some o => str_or (label o) v
  | None => v
  end.

Definition isAdvancedCustomConverter (v : jsval) : bool :=
  existsb (fun o => str_is (value o) v) ADVANCED_CUSTOM_CONVERTER_OPTIONS.

(** ** Normalisation *)

Definition getAdvancedCustomRouteUpstreamPath (route : jsval) : res jstr :=
  let* u := vget (js "upstream_path") route in vtrim (vor u (VStr [])).

Definition normalizeAdvancedCustomRoute (route : jsval) : res jsval :=
  let* incoming := vget (js "incoming_path") route in
  let* upstream := getAdvancedCustomRouteUpstreamPath route in
  let* converter := vget (js "converter") route in
  let* auth := vget (js "auth") route in
  let fields := [(js "incoming_path", vor incoming (VStr [])); (js "upstream_path", VStr upstream);
                 (js "converter", vor converter (VStr (js "none")))] in
  if truthy auth then
    let* type := vget (js "type") auth in
    let* name := vget (js "name") auth in
    let* val := vget (js "value") auth in
    Ok (VObj (fields ++ [(js "auth", VObj [(js "type", type); (js "name", vor name (VStr []));
                                            (js "value", vor val (VStr []))])]))
  else Ok (VObj fields).

Definition normalizeAdvancedCustomConfig (config : jsval) : res jsval :=
  let* routes := vget (js "advanced_routes") config in
  let* l := match routes with VArr l => res_mapM normalizeAdvancedCustomRoute l | _ => Ok [] end in
  Ok (config_object l).

Definition parseAdvancedCustomConfig (v : option jstr) : option jsval :=
  match trim (default [] v) with
  | [] => None
  | _ =>
      catch
        (let* parsed := json_parse (default [] v) in
         match parsed with
         | VObj _ => res_map Some (normalizeAdvancedCustomConfig parsed)
         | _ => Ok None
         end) None
  end.

Definition stringifyAdvancedCustomConfig (config : jsval) : res jstr :=
  let* n := normalizeAdvancedCustomConfig config in Ok (stringify2 n).

(** ** Authentication *)

Definition getAdvancedCustomAuthMode (route : jsval) : res jsval :=
  let* auth := vget (js "auth") route in
  let* type := vget_opt (js "type") auth in
  Ok (vor type (VStr (js "default"))).

(** [None] is [undefined]. *)
Definition buildAdvancedCustomAuth (mode : jstr) (previousAuth : jsval) : res (option jsval) :=
  if bool_decide (mode = js "default") then Ok None
  else if bool_decide (mode = js "none") then Ok (Some (VObj [(js "type", VStr (js "none"))]))
  else
    let* name := vget_opt (js "name") previousAuth in
    let* val := vget_opt (js "value") previousAuth in
    if bool_decide (mode = js "header") then
      Ok (Some (VObj [(js "type", VStr (js "header")); (js "name", vor name (VStr (js "Authorization")));
                      (js "value", vor val (VStr (js "Bearer {api_key}")))]))
    else
      Ok (Some (VObj [(js "type", VStr (js "query")); (js "name", vor name (VStr (js "api_key")));
                      (js "value", vor val (VStr (js "{api_key}")))])).

Definition validateRouteAuth (auth : jsval) : res (option jstr) :=
  if negb (truthy auth) then Ok None
  else
    let* type := vget (js "type") auth in
    if str_is (js "none") type then Ok None
    else if negb (str_is (js "header") type) && negb (str_is (js "query") type)
    then Ok (Some (js "Auth type is invalid"))
    else
      let* name := vget (js "name") auth in
      let* name := vtrim_opt name in
      if negb (str_truthy name) then Ok (Some (js "Auth name is required"))
      else
        let* val := vget (js "value") auth in
        let* val := vtrim_opt val in
        if negb (str_truthy val) then Ok (Some (js "Auth value is required")) else Ok None.

(** ** Validation *)

Section validation.
Context (url_parse : jstr -> option (jstr * jstr)).

Definition isFullHttpURLOrAbsolutePath (v : jstr) : bool :=
  if starts_with (js "/") v then negb (starts_with (js "//") v)
  else match url_parse v with
       | Some (host, protocol) =>
           str_truthy host
           && (bool_decide (protocol = js "http:") || bool_decide (protocol = js "https:"))
       | None => false
       end.

(** The checks of the loop on one route: its path, or the message. *)
Definition check_route (seenPaths : list jstr) (route : jsval) : res (jstr + jstr) :=
  let* incoming := vget (js "incoming_path") route in
  let* incomingPath := vtrim_opt incoming in
  let* upstreamPath := getAdvancedCustomRouteUpstreamPath route in
  let* converter := vget (js "converter") route in
  let converter := vor converter (VStr (js "none")) in
  if negb (str_truthy incomingPath) then Ok (inr (js "Incoming path is required"))
  else if negb (starts_with (js "/") incomingPath) then Ok (inr (js "Incoming path must start with /"))
  else if includes (js "?") incomingPath then Ok (inr (js "Incoming path must not include query"))
  else if bool_decide (incomingPath ∈ seenPaths) then Ok (inr (js "Incoming path must be unique"))
  else if negb (str_truthy upstreamPath) then Ok (inr (js "Upstream path is required"))
  else if negb (isFullHttpURLOrAbsolutePath upstreamPath)
  then Ok (inr (js "Upstream path must be a full URL or a path starting with /"))
  else if negb (isAdvancedCustomConverter converter) then Ok (inr (js "Converter is not registered"))
  else if negb (match converter with VStr c => isConverterPathAllowed incomingPath c | _ => false end)
  then Ok (inr (js "Converter does not match incoming path"))
  else
    let* auth := vget (js "auth") route in
    let* authError := validateRouteAuth auth in
    Ok (match authError with Some e => inr e | None => inl incomingPath end).

Fixpoint check_routes (index : nat) (seenPaths : list jstr) (routes : list jsval)
  : res (option AdvancedCustomValidationError) :=
  match routes with
  | [] => Ok None
  | route :: rest =>
      let* c := check_route seenPaths route in
      match c with
      | inr e => Ok (Some (MkError e (Some index)))
      | inl p => check_routes (S index) (seenPaths ++ [p]) rest
      end
  end.

(** The routes of a normalized configuration. *)
Definition routes_of (normalized : jsval) : list jsval :=
  match normalized with VObj [(_, VArr l)] => l | _ => [] end.

Definition validateAdvancedCustomConfig (config : jsval) : res (option AdvancedCustomValidationError) :=
  if negb (truthy config)
  then Ok (Some (MkError (js "Advanced custom configuration is required") None))
  else
    let* normalized := normalizeAdvancedCustomConfig config in
    match routes_of normalized with
    | [] => Ok (Some (MkError (js "Advanced custom configuration requires at least one route") None))
    | routes => check_routes 0 [] routes
    end.

(** The pair [routeCount], [valid]. *)
Definition getAdvancedCustomStats (v : option jstr) : res (nat * bool) :=
  match parseAdvancedCustomConfig v with
  | None => Ok (0%nat, false)
  | Some config =>
      let* normalized := normalizeAdvancedCustomConfig config in
      let* e := validateAdvancedCustomConfig normalized in
      Ok (length (routes_of normalized), match e with None => true | Some _ => false end)
  end.
End validation.

Definition advancedCustomConfigUsesRelativeUpstreamPath (config : jsval) : res bool :=
  if negb (truthy config) then Ok false
  else
    let* normalized := normalizeAdvancedCustomConfig config in
    let* paths := res_mapM getAdvancedCustomRouteUpstreamPath (routes_of normalized) in
    Ok (existsb (starts_with (js "/")) paths).
