(* ===== verification/AdvancedCustomFacts.v ===== *)
(** * Facts on advanced custom channels

    What validation accepts, that normalisation is stable, that the templates
    are valid, and the round trip through the stored text. *)
From S2P Require Import Prelude JsString JsNumber JsValue JsJson JsJsonFacts JsJsonRoundtrip AdvancedCustom.
Open Scope N_scope.

(** ** Normalisation *)

(** A normalized route: the fields of the literal. *)
Definition route_fields (incoming converter : jsval) (upstream : jstr) (auth : option (jsval * jsval * jsval))
  : jsobj :=
  [(js "incoming_path", incoming); (js "upstream_path", VStr upstream); (js "converter", converter)]
  ++ match auth with
     | Some (type, name, val) =>
         [(js "auth", VObj [(js "type", type); (js "name", name); (js "value", val)])]
     | None => []
     end.

Lemma normalize_route_shape route n :
  normalizeAdvancedCustomRoute route = Ok n ->
  exists i c u auth, n = VObj (route_fields i c u auth)
    /\ vor i (VStr []) = i /\ vor c (VStr (js "none")) = c /\ trim u = u
    /\ match auth with
       | Some (_, name, val) => vor name (VStr []) = name /\ vor val (VStr []) = val
       | None => True
       end.
Proof.
  unfold normalizeAdvancedCustomRoute, getAdvancedCustomRouteUpstreamPath.
  destruct (vget (js "incoming_path") route) as [i|]; [|done]. cbn [res_bind].
  destruct (vget (js "upstream_path") route) as [u|]; [|done]. cbn [res_bind].
  destruct (vtrim (vor u (VStr []))) as [s|] eqn:Eu; [|done]. cbn [res_bind].
  destruct (vget (js "converter") route) as [c|]; [|done]. cbn [res_bind].
  destruct (vget (js "auth") route) as [a|]; [|done]. cbn [res_bind].
  assert (Hs : trim s = s).
  { unfold vtrim in Eu. destruct (vor u (VStr [])); try done. injection Eu as <-. apply trim_idemp. }
  destruct (truthy a).
  - destruct (vget (js "type") a) as [ty|]; [|done]. cbn [res_bind].
    destruct (vget (js "name") a) as [na|]; [|done]. cbn [res_bind].
    destruct (vget (js "value") a) as [va|]; [|done]. cbn [res_bind]. intros [= <-].
    exists (vor i (VStr [])), (vor c (VStr (js "none"))), s,
      (Some (ty, vor na (VStr []), vor va (VStr []))). split_and!; auto using vor_idemp.
  - intros [= <-]. exists (vor i (VStr [])), (vor c (VStr (js "none"))), s, None.
    split_and!; auto using vor_idemp.
Qed.

Lemma route_fields_get i c u auth :
  vget (js "incoming_path") (VObj (route_fields i c u auth)) = Ok i
  /\ vget (js "upstream_path") (VObj (route_fields i c u auth)) = Ok (VStr u)
  /\ vget (js "converter") (VObj (route_fields i c u auth)) = Ok c
  /\ vget (js "auth") (VObj (route_fields i c u auth))
     = Ok (match auth with
           | Some (ty, na, va) => VObj [(js "type", ty); (js "name", na); (js "value", va)]
           | None => VUndef
           end).
Proof. by destruct auth as [[[ty na] va]|]. Qed.

Lemma auth_fields_get ty na va :
  let a := VObj [(js "type", ty); (js "name", na); (js "value", va)] in
  vget (js "type") a = Ok ty /\ vget (js "name") a = Ok na /\ vget (js "value") a = Ok va.
Proof. done. Qed.

Lemma normalize_route_idemp route n :
  normalizeAdvancedCustomRoute route = Ok n -> normalizeAdvancedCustomRoute n = Ok n.
Proof.
  intros H. destruct (normalize_route_shape _ _ H) as (i & c & u & auth & -> & Hi & Hc & Hu & Ha).
  destruct (route_fields_get i c u auth) as (H1 & H2 & H3 & H4).
  unfold normalizeAdvancedCustomRoute, getAdvancedCustomRouteUpstreamPath.
  rewrite H1, H2, H3, H4. cbn [res_bind]. rewrite Hi, Hc.
  assert (vtrim (vor (VStr u) (VStr [])) = Ok u) as ->.
  { unfold vor. by destruct u; cbn [truthy str_truthy vtrim]; rewrite ?Hu. }
  cbn [res_bind]. destruct auth as [[[ty na] va]|]; [|done]. cbn [truthy].
  destruct (auth_fields_get ty na va) as (A1 & A2 & A3). rewrite A1, A2, A3. cbn [res_bind].
  destruct Ha as [-> ->]. done.
Qed.

Lemma mapM_fix {A} (f : A -> res A) l l' :
  (forall x y, f x = Ok y -> f y = Ok y) -> res_mapM f l = Ok l' -> res_mapM f l' = Ok l'.
Proof.
  intros Hf. revert l'. induction l as [|x l IH]; intros l'; cbn [res_mapM].
  { by intros [= <-]. }
  destruct (f x) as [y|] eqn:E; [|done]. cbn [res_bind].
  destruct (res_mapM f l) as [ys|]; [|done]. cbn [res_bind]. intros [= <-].
  cbn [res_mapM]. rewrite (Hf _ _ E). cbn [res_bind]. by rewrite IH.
Qed.

Lemma normalize_config_shape config n :
  normalizeAdvancedCustomConfig config = Ok n ->
  exists l, n = config_object l /\ res_mapM normalizeAdvancedCustomRoute l = Ok l.
Proof.
  unfold normalizeAdvancedCustomConfig. destruct (vget _ config) as [r|]; [|done]. cbn [res_bind].
  destruct r; cbn [res_bind]; try (intros [= <-]; by exists []).
  destruct (res_mapM _ _) as [l'|] eqn:E; [|done]. cbn [res_bind]. intros [= <-].
  exists l'. split; [done|]. eapply mapM_fix; [apply normalize_route_idemp|exact E].
Qed.

Lemma normalize_config_object l :
  res_mapM normalizeAdvancedCustomRoute l = Ok l ->
  normalizeAdvancedCustomConfig (config_object l) = Ok (config_object l).
Proof.
  intros H. unfold normalizeAdvancedCustomConfig.
  change (vget (js "advanced_routes") (config_object l)) with (Ok (VArr l)).
  cbn [res_bind]. by rewrite H.
Qed.

Lemma normalize_config_idemp config n :
  normalizeAdvancedCustomConfig config = Ok n -> normalizeAdvancedCustomConfig n = Ok n.
Proof.
  intros H. destruct (normalize_config_shape _ _ H) as (l & -> & Hl). by apply normalize_config_object.
Qed.

Lemma trim_ne c s : c ∈ s -> is_ws c = false -> trim s <> [].
Proof.
  intros Hin Hc E. destruct (trim_decompose s) as (w1 & w2 & H1 & H2 & Hs). rewrite E in Hs.
  rewrite Hs, elem_of_app in Hin. cbn [app] in Hin.
  destruct Hin as [Hin|Hin]; revert Hin; by apply (forallb_not_elem is_ws).
Qed.

Lemma stringify2_head l :
  jsonable (config_object l) = true -> exists u, stringify2 (config_object l) = 123 :: u.
Proof.
  intros H. unfold stringify2. rewrite jsonable_prints by done.
  change (default (js "undefined") (Some (text_of [32; 32] [] (config_object l))))
    with (text_of [32; 32] [] (config_object l)).
  unfold config_object in *. rewrite print_obj by done. by eexists.
Qed.

(** C25.  Normalisation is stable, and what the editor stores reads back: the
    text of a configuration of strings parses to its normal form. *)
Theorem stored_config_roundtrip (config n : jsval) (text : jstr) :
  normalizeAdvancedCustomConfig config = Ok n ->
  stringifyAdvancedCustomConfig config = Ok text ->
  jsonable n = true -> in_order n ->
  normalizeAdvancedCustomConfig n = Ok n /\ parseAdvancedCustomConfig (Some text) = Some n.
Proof.
  intros Hn Ht Hj Ho. split; [by eapply normalize_config_idemp|].
  unfold stringifyAdvancedCustomConfig in Ht. rewrite Hn in Ht. cbn [res_bind] in Ht.
  injection Ht as <-. unfold parseAdvancedCustomConfig. cbn [default from_option id]. unfold id.
  rewrite json_parse_stringify2 by done. cbn [res_bind].
  pose proof (normalize_config_idemp _ _ Hn) as Hi.
  destruct (normalize_config_shape _ _ Hn) as (l & -> & Hl).
  destruct (stringify2_head l Hj) as [u Hu].
  assert (trim (stringify2 (config_object l)) <> []) as Hne.
  { apply (trim_ne 123); [rewrite Hu; by left|done]. }
  destruct (trim _); [done|]. change (VObj [(js "advanced_routes", VArr l)]) with (config_object l).
  unfold config_object at 1. by rewrite Hi.
Qed.

Lemma stored_config_roundtrip_witness :
  exists text, stringifyAdvancedCustomConfig createAdvancedCustomConfig = Ok text
  /\ parseAdvancedCustomConfig (Some text) = Some createAdvancedCustomConfig.
Proof.
  eexists. split; [vm_compute; reflexivity|].
  eapply (stored_config_roundtrip createAdvancedCustomConfig); [vm_compute; reflexivity
    |vm_compute; reflexivity|vm_compute; reflexivity|vm_compute; repeat split].
Defined.

(** ** Validation *)

Section accepted.
Context (url_parse : jstr -> option (jstr * jstr)).

(** What makes a route acceptable, with its path. *)
Record accepted (route : jsval) (path : jstr) : Prop := MkAccepted {
  acc_incoming : exists i, vget (js "incoming_path") route = Ok i /\ vtrim_opt i = Ok path;
  acc_path : starts_with (js "/") path = true /\ includes (js "?") path = false;
  acc_upstream : exists u, getAdvancedCustomRouteUpstreamPath route = Ok u /\ u <> []
                   /\ isFullHttpURLOrAbsolutePath url_parse u = true;
  acc_converter : exists v c, vget (js "converter") route = Ok v
                   /\ vor v (VStr (js "none")) = VStr c
                   /\ c ∈ map value ADVANCED_CUSTOM_CONVERTER_OPTIONS
                   /\ isConverterPathAllowed path c = true;
  acc_auth : exists a, vget (js "auth") route = Ok a /\ validateRouteAuth a = Ok None
}.

Lemma converter_registered c :
  isAdvancedCustomConverter (VStr c) = true <-> c ∈ map value ADVANCED_CUSTOM_CONVERTER_OPTIONS.
Proof.
  unfold isAdvancedCustomConverter. rewrite existsb_exists, list_elem_of_fmap. cbn [str_is].
  setoid_rewrite bool_decide_eq_true. setoid_rewrite <-list_elem_of_In. naive_solver.
Qed.

Lemma check_route_inl seen route p :
  check_route url_parse seen route = Ok (inl p) <-> accepted route p /\ p ∉ seen.
Proof.
  unfold check_route. split.
  - destruct (vget (js "incoming_path") route) as [i|] eqn:Ei; [|done]. cbn [res_bind].
    destruct (vtrim_opt i) as [ip|] eqn:Eip; [|done]. cbn [res_bind].
    destruct (getAdvancedCustomRouteUpstreamPath route) as [u|] eqn:Eu; [|done]. cbn [res_bind].
    destruct (vget (js "converter") route) as [v|] eqn:Ev; [|done]. cbn [res_bind].
    destruct (negb (str_truthy ip)) eqn:E1; [done|]. destruct (negb (starts_with _ ip)) eqn:E2; [done|].
    destruct (includes _ ip) eqn:E3; [done|]. case_bool_decide as E4; [done|].
    destruct (negb (str_truthy u)) eqn:E5; [done|]. 
    destruct (negb (isFullHttpURLOrAbsolutePath _ _)) eqn:E6; [done|].
    destruct (negb (isAdvancedCustomConverter _)) eqn:E7; [done|].
    destruct (vor v (VStr (js "none"))) as [| | | |c| | |] eqn:Ec; try done.
    destruct (negb (isConverterPathAllowed ip c)) eqn:E8; [done|].
    destruct (vget (js "auth") route) as [a|] eqn:Ea; [|done]. cbn [res_bind].
    destruct (validateRouteAuth a) as [[e|]|] eqn:Eva; try done. intros [= <-]. bool_hyps.
    split; [|done]. split; eauto.
    + exists u. split_and!; [done|by destruct u|done].
    + exists v, c. split_and!; [done|done|by apply converter_registered|done].
  - intros [[(i & Ei & Eip) [E2 E3] (u & Eu & Hu & E6) (v & c & Ev & Ec & Hc & E8) (a & Ea & Eva)] Hseen].
    rewrite Ei. cbn [res_bind]. rewrite Eip. cbn [res_bind]. rewrite Eu. cbn [res_bind].
    rewrite Ev. cbn [res_bind]. rewrite E2, E3, E6, Ec, E8, Ea, bool_decide_eq_false_2 by done.
    apply converter_registered in Hc. rewrite Hc. cbn [negb res_bind]. rewrite Eva.
    destruct p; [done|]. by destruct u.
Qed.

Lemma check_routes_none index seen routes :
  check_routes url_parse index seen routes = Ok None
  <-> exists paths, Forall2 accepted routes paths /\ NoDup paths /\ forall p, p ∈ paths -> p ∉ seen.
Proof.
  revert index seen. induction routes as [|r routes IH]; intros index seen; cbn [check_routes].
  { split; [|done]. intros _. exists []. split_and!; [constructor|constructor|by intros p ?%elem_of_nil]. }
  split.
  - destruct (check_route url_parse seen r) as [[p|e]|] eqn:E; try done. cbn [res_bind].
    intros (paths & H1 & H2 & H3)%IH. apply check_route_inl in E as [Hp Hns].
    exists (p :: paths). split_and!; [by constructor| |].
    + constructor; [|done]. intros Hin%H3. apply Hin. apply elem_of_app. right. by left.
    + intros q [->|Hq%H3]%elem_of_cons; [done|]. intros Hs. apply Hq, elem_of_app. by left.
  - intros (paths & H1 & H2 & H3). apply Forall2_cons_inv_l in H1 as (p & ps & Hp & H1 & ->).
    apply NoDup_cons in H2 as [Hn H2].
    rewrite (proj2 (check_route_inl seen r p)) by (split; [done|apply H3; by left]). cbn [res_bind].
    apply IH. exists ps. split_and!; [done|done|]. intros q Hq [Hs|Hs%list_elem_of_singleton]%elem_of_app.
    + by apply (H3 q); [by right|].
    + by subst.
Qed.

(** The error names the first route that is not acceptable. *)
Lemma check_routes_error index seen routes e :
  check_routes url_parse index seen routes = Ok (Some e) ->
  exists good bad rest, routes = good ++ bad :: rest /\ routeIndex e = Some (index + length good)%nat
    /\ exists paths, Forall2 accepted good paths
         /\ check_route url_parse (seen ++ paths) bad = Ok (inr (message e)).
Proof.
  revert index seen. induction routes as [|r routes IH]; intros index seen; cbn [check_routes]; [done|].
  destruct (check_route url_parse seen r) as [[p|m]|] eqn:E; [| |done]; cbn [res_bind].
  - intros (good & bad & rest & -> & Hi & paths & H1 & H2)%IH. apply check_route_inl in E as [Hp _].
    exists (r :: good), bad, rest. split_and!; [done|rewrite Hi; cbn [length]; f_equal; lia|].
    exists (p :: paths). split; [by constructor|]. by rewrite <-app_assoc in H2.
  - intros [= <-]. exists [], r, routes. split_and!; [done|cbn; f_equal; lia|].
    exists []. split; [constructor|]. by rewrite app_nil_r.
Qed.

(** C16.  Validation passes exactly the configurations whose normal form has a
    route, and only acceptable routes with distinct paths. *)
Theorem validate_passes_iff (config : jsval) :
  truthy config = true ->
  (validateAdvancedCustomConfig url_parse config = Ok None
   <-> exists n paths, normalizeAdvancedCustomConfig config = Ok n
        /\ Forall2 accepted (routes_of n) paths /\ NoDup paths /\ paths <> []).
Proof.
  intros Ht. unfold validateAdvancedCustomConfig. rewrite Ht. cbn [negb]. split.
  - destruct (normalizeAdvancedCustomConfig config) as [n|]; [|done]. cbn [res_bind].
    destruct (routes_of n) as [|r l] eqn:E; [done|]. intros (paths & H1 & H2 & _)%check_routes_none.
    exists n, paths. rewrite E. split_and!; [done|done|done|]. intros ->. inversion H1.
  - intros (n & paths & -> & H1 & H2 & H3). cbn [res_bind]. destruct (routes_of n) as [|r l].
    { by inversion H1; subst. }
    apply check_routes_none. exists paths. split_and!; [done|done|]. intros p _. apply not_elem_of_nil.
Qed.

(** A reported error points at the first route at fault: every route
    before it is acceptable. *)
Theorem validate_reports_first (config : jsval) (e : AdvancedCustomValidationError) (i : nat) :
  validateAdvancedCustomConfig url_parse config = Ok (Some e) -> routeIndex e = Some i ->
  exists n good bad rest paths,
    normalizeAdvancedCustomConfig config = Ok n /\ routes_of n = good ++ bad :: rest /\ length good = i
    /\ Forall2 accepted good paths /\ check_route url_parse paths bad = Ok (inr (message e)).
Proof.
  unfold validateAdvancedCustomConfig. destruct (negb _); [by intros [= <-]|].
  destruct (normalizeAdvancedCustomConfig config) as [n|]; [|done]. cbn [res_bind].
  destruct (routes_of n) as [|r l] eqn:E; [by intros [= <-]|].
  intros (good & bad & rest & Heq & Hi & paths & H1 & H2)%check_routes_error Hi'.
  exists n, good, bad, rest, paths. rewrite E, Heq. split_and!; try done. rewrite Hi in Hi'. by injection Hi'.
Qed.

(** Every template is valid whatever the URL parser, and its copy is
    itself. *)
Theorem templates_valid (t : Template) :
  t ∈ ADVANCED_CUSTOM_TEMPLATE_OPTIONS ->
  getAdvancedCustomTemplateConfig (t_value t) = Ok (t_config t)
  /\ validateAdvancedCustomConfig url_parse (t_config t) = Ok None.
Proof.
  intros H. unfold ADVANCED_CUSTOM_TEMPLATE_OPTIONS in H.
  repeat (apply elem_of_cons in H as [->|H]; [split; vm_compute; reflexivity|]).
  by apply not_elem_of_nil in H.
Qed.
End accepted.

Lemma validate_passes_iff_witness :
  validateAdvancedCustomConfig (fun _ => None) createAdvancedCustomConfig = Ok None.
Proof.
  apply (validate_passes_iff (fun _ => None) createAdvancedCustomConfig); [reflexivity|].
  exists createAdvancedCustomConfig, [js "/v1/chat/completions"].
  split; [vm_compute; reflexivity|]. split; [|split; [decide_now|discriminate]].
  apply List.Forall2_cons; [|apply List.Forall2_nil]. split.
  - eexists. split; vm_compute; reflexivity.
  - split; vm_compute; reflexivity.
  - eexists. split; [vm_compute; reflexivity|split; [discriminate|vm_compute; reflexivity]].
  - eexists _, _. split; [vm_compute; reflexivity|split; [vm_compute; reflexivity|split; [decide_now|vm_compute; reflexivity]]].
  - eexists. split; vm_compute; reflexivity.
Defined.

Definition missing_path_config : jsval :=
  config_object [createAdvancedCustomRoute; route_object (js " ") (js "/x") (js "none") None].

Definition missing_path_error : AdvancedCustomValidationError :=
  MkError (js "Incoming path is required") (Some 1%nat).

Lemma validate_reports_first_witness :
  exists n good bad rest paths,
    normalizeAdvancedCustomConfig missing_path_config = Ok n
    /\ routes_of n = good ++ bad :: rest /\ length good = 1%nat
    /\ Forall2 (accepted (fun _ => None)) good paths
    /\ check_route (fun _ => None) paths bad = Ok (inr (message missing_path_error)).
Proof.
  refine (validate_reports_first (fun _ => None) missing_path_config missing_path_error 1 _ _);
    vm_compute; reflexivity.
Defined.

Lemma templates_valid_witness :
  validateAdvancedCustomConfig (fun _ => None)
    (config_object [same_route (js "/v1/messages") apiKeyHeaderAuth]) = Ok None.
Proof.
  apply (templates_valid (fun _ => None)
    (MkTemplate (js "official_claude_messages") (js "Official Claude Messages")
       (config_object [same_route (js "/v1/messages") apiKeyHeaderAuth]))).
  unfold ADVANCED_CUSTOM_TEMPLATE_OPTIONS. do 4 right. left.
Defined.
