(* ===== verification/NavModules.v ===== *)
(** * Header navigation modules (lib/nav-modules.ts)

    The access settings of the header modules, read from a status value that
    may hold anything.  The cached status is the text that the local storage
    holds; the server's answer is an argument. *)
From S2P Require Import Prelude JsString JsNumber JsValue JsValueFacts JsJson.
Open Scope N_scope.

Record ModuleAccess := MkAccess { enabled : bool; requireAuth : bool }.

Inductive HeaderNavModule := rankings | pricing.

Definition module_name (m : HeaderNavModule) : jstr :=
  match m with rankings => js "rankings" | pricing => js "pricing" end.

Definition access_object (a : ModuleAccess) : jsval :=
  VObj [(js "enabled", VBool (enabled a)); (js "requireAuth", VBool (requireAuth a))].

Definition DEFAULT_ACCESS : ModuleAccess := MkAccess true false.

(** [cloneHeaderNavDefaults()] *)
Definition DEFAULT_HEADER_NAV_MODULES : jsobj :=
  [ (js "home", VBool true); (js "console", VBool true);
    (js "pricing", access_object DEFAULT_ACCESS); (js "rankings", access_object DEFAULT_ACCESS);
    (js "docs", VBool true); (js "about", VBool true) ].

Definition parseHeaderNavBoolean (raw : jsval) (fallback : bool) : bool :=
  match raw with
  | VBool b => b
  | VNum n => if neqb n (num_of_Z 1) then true else if neqb n nzero then false else fallback
  | VStr s =>
      let normalized := to_lower (trim s) in
      if bool_decide (normalized = js "true") || bool_decide (normalized = js "1") then true
      else if bool_decide (normalized = js "false") || bool_decide (normalized = js "0") then false
      else fallback
  | _ => fallback
  end.

(** [typeof v] is boolean, number or string. *)
Definition is_scalar (v : jsval) : bool :=
  match v with VBool _ | VNum _ | VStr _ => true | _ => false end.

(** [v.k] of a value that is an object. *)
Definition prop (k : jstr) (v : jsval) : jsval := catch (vget k v) VUndef.

Definition parseAccess (raw : jsval) (fallback : ModuleAccess) : ModuleAccess :=
  if is_scalar raw then MkAccess (parseHeaderNavBoolean raw (enabled fallback)) (requireAuth fallback)
  else if is_object raw then
    MkAccess (parseHeaderNavBoolean (prop (js "enabled") raw) (enabled fallback))
             (parseHeaderNavBoolean (prop (js "requireAuth") raw) (requireAuth fallback))
  else fallback.

(** The access setting that the result holds. *)
Definition access_of (v : jsval) : ModuleAccess :=
  MkAccess (truthy (prop (js "enabled") v)) (truthy (prop (js "requireAuth") v)).

(** [null] is [None]; any other value of [JSON.parse] stays. *)
Definition parseHeaderNavRecord (raw : jsval) : res (option jsval) :=
  if negb (truthy raw) then Ok None
  else
    let* s := to_str raw in
    match trim s with
    | [] => Ok None
    | _ => if is_object raw then Ok (Some raw) else Ok (catch (res_map Some (json_parse s)) None)
    end.

(** [result[key] = b]: assigning a boolean to [__proto__] does nothing. *)
Definition assign_flag (key : jstr) (b : bool) (result : jsobj) : jsobj :=
  if bool_decide (key = js "__proto__") then result else oset key (VBool b) result.

Definition nav_entry (result : jsobj) (kv : jstr * jsval) : jsobj :=
  let '(key, value) := kv in
  if bool_decide (key = js "pricing") then
    oset key (access_object (parseAccess value (access_of (oget key result)))) result
  else if bool_decide (key = js "rankings") then
    oset key (access_object (parseAccess value (access_of (oget key result)))) result
  else
    let fallback := oget key result in
    match fallback with
    | VBool b => assign_flag key (parseHeaderNavBoolean value b) result
    | _ => if is_scalar value then assign_flag key (parseHeaderNavBoolean value true) result else result
    end.

Definition parseHeaderNavModules (raw : jsval) : res jsobj :=
  let* parsed := parseHeaderNavRecord raw in
  Ok (match parsed with
      | Some p => if truthy p then fold_left nav_entry (entries p) DEFAULT_HEADER_NAV_MODULES
                  else DEFAULT_HEADER_NAV_MODULES
      | None => DEFAULT_HEADER_NAV_MODULES
      end).

(** [status?.HeaderNavModules] *)
Definition parseHeaderNavModulesFromStatus (status : jsval) : res jsobj :=
  let* raw := vget_opt (js "HeaderNavModules") status in parseHeaderNavModules raw.

(** The cached status: the text of the storage, if there is one. *)
Definition getCachedStatus (item : option jstr) : jsval :=
  match item with
  | None | Some [] => VNull
  | Some raw => catch (json_parse raw) VNull
  end.

Definition getModuleAccessFromStatus (status : jsval) (module : HeaderNavModule) : res ModuleAccess :=
  let* modules := parseHeaderNavModulesFromStatus status in
  Ok (match oget (module_name module) modules with
      | VUndef | VNull => DEFAULT_ACCESS
      | v => access_of v
      end).

Definition getModuleAccess (item : option jstr) (module : HeaderNavModule) : res ModuleAccess :=
  getModuleAccessFromStatus (getCachedStatus item) module.

(** [status] is the server's answer, or the failure of the request. *)
Definition getFreshModuleAccess (status : res jsval) (module : HeaderNavModule) : ModuleAccess :=
  catch (let* s := status in getModuleAccessFromStatus s module) (MkAccess false true).

Definition isSidebarModuleEnabled (item : option jstr) (section module : jstr) : res bool :=
  let status := getCachedStatus item in
  if negb (truthy status) then Ok true
  else
    let* raw := vget (js "SidebarModulesAdmin") status in
    if negb (truthy raw) then Ok true
    else
      let* s := to_str raw in
      match trim s with
      | [] => Ok true
      | _ =>
          Ok (catch
            (let* parsed := json_parse s in
             let* sectionConfig := vget section parsed in
             if negb (truthy sectionConfig) then Ok true
             else
               let* e := vget (js "enabled") sectionConfig in
               if is_false e then Ok false
               else
                 let* m := vget module sectionConfig in
                 Ok (negb (is_false m))) true)
      end.

(** ** Properties *)

Definition flag_keys : list jstr := [js "home"; js "console"; js "docs"; js "about"].
Definition access_keys : list jstr := [js "pricing"; js "rankings"].

(** The type [HeaderNavModules]: the access settings are access objects, every
    other property is a boolean, and no default key is missing. *)
Definition nav_typed (o : jsobj) : Prop :=
  (forall k v, olookup k o = Some v ->
     if bool_decide (k ∈ access_keys) then exists a, v = access_object a else exists b, v = VBool b)
  /\ (forall k, k ∈ flag_keys ++ access_keys -> olookup k o <> None).

Lemma nav_typed_oset k v o :
  nav_typed o ->
  (if bool_decide (k ∈ access_keys) then exists a, v = access_object a else exists b, v = VBool b) ->
  nav_typed (oset k v o).
Proof.
  intros [H1 H2] Hv. split.
  - intros j w. rewrite olookup_oset. destruct (decide (j = k)) as [->|E].
    + rewrite (bool_decide_eq_true_2 (k = k)) by done. by intros [= <-].
    + rewrite (bool_decide_eq_false_2 (j = k)) by done. apply H1.
  - intros j Hj. rewrite olookup_oset. destruct (decide (j = k)) as [->|E].
    + by rewrite bool_decide_eq_true_2.
    + rewrite bool_decide_eq_false_2 by done. by apply H2.
Qed.

Lemma nav_typed_assign k b o : nav_typed o -> k ∉ access_keys -> nav_typed (assign_flag k b o).
Proof.
  intros H Hk. unfold assign_flag. case_bool_decide; [done|]. apply nav_typed_oset; [done|].
  rewrite bool_decide_eq_false_2 by done. by exists b.
Qed.

Lemma nav_entry_typed o kv : nav_typed o -> nav_typed (nav_entry o kv).
Proof.
  intros H. destruct kv as [k v]. unfold nav_entry.
  case_bool_decide as H1; [|case_bool_decide as H2].
  1-2: subst; apply nav_typed_oset; [done|]; rewrite bool_decide_eq_true_2 by decide_now; by eexists.
  assert (k ∉ access_keys) as Hk.
  { unfold access_keys. rewrite !not_elem_of_cons. split_and!; try done. apply not_elem_of_nil. }
  destruct (oget k o); try (by apply nav_typed_assign).
  all: destruct (is_scalar v); [by apply nav_typed_assign|done].
Qed.

Lemma default_nav_typed : nav_typed DEFAULT_HEADER_NAV_MODULES.
Proof.
  split.
  - intros k v. unfold DEFAULT_HEADER_NAV_MODULES. cbn [olookup].
    repeat (case_bool_decide as E; [subst k; intros [= <-];
      first [rewrite bool_decide_eq_true_2 by decide_now | rewrite bool_decide_eq_false_2 by decide_now];
      by eexists|clear E]). done.
  - apply list.Forall_forall. repeat constructor; discriminate.
Qed.

Lemma parsed_nav_typed raw o : parseHeaderNavModules raw = Ok o -> nav_typed o.
Proof.
  unfold parseHeaderNavModules. destruct (parseHeaderNavRecord raw) as [[p|]|]; [| |done];
    cbn [res_bind]; intros [= <-]; try apply default_nav_typed.
  destruct (truthy p); [|apply default_nav_typed].
  generalize (entries p), default_nav_typed. generalize DEFAULT_HEADER_NAV_MODULES.
  intros o l. revert o. induction l as [|kv l IH]; intros o H; cbn [fold_left]; [done|].
  by apply IH, nav_entry_typed.
Qed.

(** Whatever the status holds, a parsed configuration is well typed: both
    access settings are access objects, every other property is a boolean and
    no default module is missing. *)
Theorem nav_modules_typed (raw : jsval) (o : jsobj) :
  parseHeaderNavModules raw = Ok o -> nav_typed o.
Proof.
  apply parsed_nav_typed.
Qed.

Lemma nav_modules_typed_witness :
  nav_typed (catch (parseHeaderNavModules (VStr (jsq "{`pricing`: 0, `x`: `TRUE`, `docs`: {}}"))) []).
Proof.
  apply (nav_modules_typed (VStr (jsq "{`pricing`: 0, `x`: `TRUE`, `docs`: {}}"))).
  vm_compute. reflexivity.
Defined.

Lemma access_of_object a : access_of (access_object a) = a.
Proof. by destruct a as [[] []]. Qed.

(** When the fresh status cannot be had, access is refused; when it can,
    the setting read is the one the parsed modules hold. *)
Theorem fresh_access_fails_closed (status : res jsval) (module : HeaderNavModule) :
  match status with
  | Throw _ => getFreshModuleAccess status module = MkAccess false true
  | Ok s =>
      match parseHeaderNavModulesFromStatus s with
      | Throw _ => getFreshModuleAccess status module = MkAccess false true
      | Ok o => olookup (module_name module) o
                = Some (access_object (getFreshModuleAccess status module))
      end
  end.
Proof.
  destruct status as [s|]; [|done]. unfold getFreshModuleAccess, getModuleAccessFromStatus.
  cbn [res_bind]. destruct (parseHeaderNavModulesFromStatus s) as [o|] eqn:E; [|done].
  cbn [res_bind catch].
  assert (nav_typed o) as [H1 H2].
  { unfold parseHeaderNavModulesFromStatus in E. destruct (vget_opt _ _) as [raw|]; [|done].
    by apply (parsed_nav_typed raw). }
  assert (module_name module ∈ access_keys) as Hin by (destruct module; decide_now).
  unfold oget. destruct (olookup (module_name module) o) as [v|] eqn:Ev.
  - specialize (H1 _ _ Ev). rewrite bool_decide_eq_true_2 in H1 by done. destruct H1 as [a ->].
    cbn [default from_option id]. unfold id. change (match access_object a with VUndef | VNull => DEFAULT_ACCESS | v => access_of v end) with (access_of (access_object a)).
    by rewrite access_of_object.
  - exfalso. apply (H2 (module_name module)); [|done]. apply elem_of_app. by right.
Qed.
