(* ===== verification/SidebarConfig.v ===== *)
(** * Sidebar visibility (hooks/use-sidebar-config.ts)

    Two layers of settings, the administrator's and the user's, decide which
    entries of the sidebar a user sees.  The stored settings are texts that
    may hold any JSON value. *)
From S2P Require Import Prelude JsString JsNumber JsValue JsValueFacts JsJson.
Open Scope N_scope.

Definition all_true (keys : list jstr) : jsval := VObj (map (fun k => (k, VBool true)) keys).

Definition DEFAULT_SIDEBAR_MODULES : jsobj :=
  [ (js "chat", all_true [js "enabled"; js "playground"; js "chat"]);
    (js "console", all_true [js "enabled"; js "detail"; js "token"; js "log"; js "midjourney"; js "task"]);
    (js "personal", all_true [js "enabled"; js "topup"; js "personal"]);
    (js "admin", all_true [js "enabled"; js "channel"; js "models"; js "redemption"; js "user";
                           js "setting"; js "subscription"]) ].

(** URL, section and module. *)
Definition URL_TO_CONFIG_MAP : list (jstr * (jstr * jstr)) :=
  [ (js "/playground", (js "chat", js "playground"));
    (js "/dashboard", (js "console", js "detail"));
    (js "/dashboard/overview", (js "console", js "detail"));
    (js "/dashboard/models", (js "console", js "detail"));
    (js "/dashboard/users", (js "console", js "detail"));
    (js "/keys", (js "console", js "token"));
    (js "/usage-logs", (js "console", js "log"));
    (js "/usage-logs/common", (js "console", js "log"));
    (js "/usage-logs/drawing", (js "console", js "midjourney"));
    (js "/usage-logs/task", (js "console", js "task"));
    (js "/wallet", (js "personal", js "topup"));
    (js "/profile", (js "personal", js "personal"));
    (js "/channels", (js "admin", js "channel"));
    (js "/models", (js "admin", js "models"));
    (js "/models/metadata", (js "admin", js "models"));
    (js "/models/deployments", (js "admin", js "models"));
    (js "/users", (js "admin", js "user"));
    (js "/redemption-codes", (js "admin", js "redemption"));
    (js "/subscriptions", (js "admin", js "subscription"));
    (js "/system-settings", (js "admin", js "setting"));
    (js "/system-settings/site", (js "admin", js "setting")) ].

(** [{ ...v }]: the own properties of a value. *)
Definition spread (v : jsval) : jsobj := obj_of (entries v).

(** One step of the [reduce]: the default section under what is parsed. *)
Definition merge_section (parsed : jsval) (acc : jsobj) (kv : jstr * jsval) : res jsobj :=
  let* section := vget kv.1 parsed in
  Ok (oset kv.1 (VObj (ospread (spread kv.2) (entries (vcoalesce section (VObj []))))) acc).

Fixpoint merge_sections (parsed : jsval) (acc : jsobj) (sections : jsobj) : res jsobj :=
  match sections with
  | [] => Ok acc
  | kv :: rest => let* acc := merge_section parsed acc kv in merge_sections parsed acc rest
  end.

Definition mergeDefaults (parsed : jsval) : res jsobj :=
  merge_sections parsed (spread parsed) DEFAULT_SIDEBAR_MODULES.

Definition parseSidebarConfig (value : option jstr) : jsobj :=
  match trim (default [] value) with
  | [] => DEFAULT_SIDEBAR_MODULES
  | _ => catch (let* parsed := json_parse (default [] value) in mergeDefaults parsed)
               DEFAULT_SIDEBAR_MODULES
  end.

(** [null] is [None]. *)
Definition parseUserSidebarConfig (value : option jstr) : option jsval :=
  match trim (default [] value) with
  | [] => None
  | _ => match json_parse (default [] value) with
         | Ok parsed => if is_object parsed then Some parsed else None
         | Throw _ => None
         end
  end.

(** [v.k] of a value that is neither [null] nor [undefined]. *)
Definition prop (k : jstr) (v : jsval) : jsval := catch (vget k v) VUndef.

Definition section_allowed (section module : jstr) (adminConfig : jsobj) : bool :=
  let adminSection := oget section adminConfig in
  truthy adminSection && truthy (prop (js "enabled") adminSection)
  && is_true (prop module adminSection).

Definition user_keeps (section module : jstr) (userConfig : option jsval) : bool :=
  match userConfig with
  | None => true
  | Some user =>
      let userSection := prop section user in
      if negb (truthy userSection) then true
      else if is_false (prop (js "enabled") userSection) then false
      else negb (is_false (prop module userSection))
  end.

Definition isModuleEnabled (url : jstr) (adminConfig : jsobj) (userConfig : option jsval) : bool :=
  match List.find (fun kv => bool_decide (kv.1 = url)) URL_TO_CONFIG_MAP with
  | None => true
  | Some (_, (section, module)) =>
      if negb (section_allowed section module adminConfig) then false
      else user_keeps section module userConfig
  end.

(** [NavLink], [NavCollapsible] and [NavChatPresets]: the presentation of an
    item is a value that is carried along. *)
Inductive NavItem :=
  | NavLink (title url : jstr) (configUrls : option (list jstr))
  | NavCollapsible (title : jstr) (items : list (jstr * jstr))
  | NavChatPresets (title : jstr).

Record NavGroup := MkGroup { g_title : jstr; g_items : list NavItem }.

Definition isNavItemVisible (item : NavItem) (adminConfig : jsobj) (userConfig : option jsval) : bool :=
  match item with
  | NavChatPresets _ =>
      if negb (section_allowed (js "chat") (js "chat") adminConfig) then false
      else user_keeps (js "chat") (js "chat") userConfig
  | NavLink _ [] _ => true
  | NavLink _ url configUrls =>
      existsb (fun u => isModuleEnabled u adminConfig userConfig) (default [url] configUrls)
  | NavCollapsible _ items =>
      existsb (fun sub => isModuleEnabled sub.2 adminConfig userConfig) items
  end.

Definition filter_sub_items (item : NavItem) (adminConfig : jsobj) (userConfig : option jsval) : NavItem :=
  match item with
  | NavCollapsible t items =>
      NavCollapsible t (List.filter (fun sub => isModuleEnabled sub.2 adminConfig userConfig) items)
  | _ => item
  end.

Definition filterNavItems (items : list NavItem) (adminConfig : jsobj) (userConfig : option jsval)
  : list NavItem :=
  List.filter (fun item => isNavItemVisible item adminConfig userConfig)
    (map (fun item => filter_sub_items item adminConfig userConfig) items).

(** The two texts of the settings, and [permissions.sidebar_settings]. *)
Definition useSidebarConfig (sidebarModulesAdmin userModules : option jstr) (sidebarSettings : option bool)
    (navGroups : list NavGroup) : list NavGroup :=
  let adminConfig := parseSidebarConfig sidebarModulesAdmin in
  let userConfig := if bool_decide (sidebarSettings = Some false) then None
                    else parseUserSidebarConfig userModules in
  List.filter (fun g => match g_items g with [] => false | _ => true end)
    (map (fun g => MkGroup (g_title g) (filterNavItems (g_items g) adminConfig userConfig)) navGroups).

(** ** Properties *)

(** The links that a list of items shows. *)
Definition item_links (item : NavItem) : list jstr :=
  match item with
  | NavLink t u _ => [u]
  | NavCollapsible t items => map snd items
  | NavChatPresets t => []
  end.

Lemma enabled_narrows url admin user :
  isModuleEnabled url admin user = true -> isModuleEnabled url admin None = true.
Proof.
  unfold isModuleEnabled. destruct (List.find _ _) as [[k [s m]]|]; [|done].
  by destruct (negb _).
Qed.

Lemma user_layer_narrows_at item admin user :
  isNavItemVisible item admin user = true -> isNavItemVisible item admin None = true.
Proof.
  destruct item as [t [|c u] cfg|t items|t]; cbn [isNavItemVisible]; [done| | |].
  - rewrite !existsb_exists. intros (x & Hx & H). exists x. split; [done|]. by eapply enabled_narrows.
  - rewrite !existsb_exists. intros (x & Hx & H). exists x. split; [done|]. by eapply enabled_narrows.
  - by destruct (negb _).
Qed.

Lemma filter_sub_items_idemp item admin user :
  filter_sub_items (filter_sub_items item admin user) admin user = filter_sub_items item admin user.
Proof.
  destruct item; cbn [filter_sub_items]; [done| |done]. f_equal.
  induction items as [|x l IH]; [done|]. cbn [List.filter].
  destruct (isModuleEnabled x.2 admin user) eqn:E; [|done]. cbn [List.filter]. by rewrite E, IH.
Qed.

(** Filtering keeps the order and shows no link that is switched off: a
    mapped link of a shown group is enabled by both layers, no group and no
    collapsible item is empty, and filtering again changes nothing. *)
Theorem filtered_nav_sound (items : list NavItem) (admin : jsobj) (user : option jsval) :
  (forall item, item ∈ filterNavItems items admin user ->
     match item with
     | NavLink _ u None => isModuleEnabled u admin user = true \/ u = []
     | NavLink _ u (Some us) => u = [] \/ exists v, v ∈ us /\ isModuleEnabled v admin user = true
     | NavCollapsible _ subs => subs <> [] /\ forall s, s ∈ subs -> isModuleEnabled s.2 admin user = true
     | NavChatPresets _ => section_allowed (js "chat") (js "chat") admin = true
     end)
  /\ filterNavItems (filterNavItems items admin user) admin user = filterNavItems items admin user.
Proof.
  split.
  - intros item H. unfold filterNavItems in H. apply list_elem_of_In, filter_In in H as [H Hv].
    apply list_elem_of_In, list_elem_of_fmap in H as (i & -> & _).
    destruct i as [t u [us|]|t subs|t]; cbn [filter_sub_items isNavItemVisible] in *.
    + destruct u as [|c u]; [by left|right]. cbn [default] in Hv. apply existsb_exists in Hv as (v & ? & ?).
      exists v. by rewrite list_elem_of_In.
    + destruct u as [|c u]; [by right|left]. cbn in Hv. by rewrite orb_false_r in Hv.
    + split; [by intros E; rewrite E in Hv|]. intros s Hs. by apply list_elem_of_In, filter_In in Hs as [_ ?].
    + by destruct (section_allowed _ _ _).
  - unfold filterNavItems. induction items as [|i items IH]; [done|]. cbn [map List.filter].
    destruct (isNavItemVisible (filter_sub_items i admin user) admin user) eqn:E; [|done].
    cbn [map List.filter]. by rewrite filter_sub_items_idemp, E, IH.
Qed.

(** The groups of the sidebar: none is empty; a user who may not
    configure the sidebar sees what he would without settings of his own; and
    a user's settings only narrow what the administrator's layer shows. *)
Theorem sidebar_groups (adminText userText : option jstr) (perm : option bool) (groups : list NavGroup) :
  (forall g, g ∈ useSidebarConfig adminText userText perm groups -> g_items g <> [])
  /\ useSidebarConfig adminText userText (Some false) groups
     = useSidebarConfig adminText None perm groups
  /\ (forall g item, g ∈ useSidebarConfig adminText userText perm groups -> item ∈ g_items g ->
        isNavItemVisible item (parseSidebarConfig adminText) None = true).
Proof.
  split_and!.
  - intros g H. apply list_elem_of_In, filter_In in H as [_ H]. by destruct (g_items g).
  - unfold useSidebarConfig. rewrite (bool_decide_eq_true_2 (Some false = Some false)) by done.
    by destruct (bool_decide (perm = Some false)).
  - intros g item H Hi. apply list_elem_of_In, filter_In in H as [H _].
    apply list_elem_of_In, list_elem_of_fmap in H as (g0 & -> & _). cbn [g_items] in Hi.
    apply list_elem_of_In, filter_In in Hi as [_ Hi]. by eapply user_layer_narrows_at.
Qed.
