(* ===== verification/MaintenanceConfig.v ===== *)
(** * The editor of the navigation settings (features/system-settings/maintenance/config.ts)

    The administrator's editor reads and writes the two texts that the header
    (lib/nav-modules.ts) and the sidebar (hooks/use-sidebar-config.ts) read.
    What these show is proved to be what the editor stored. *)
From S2P Require Import Prelude JsString JsNumber JsValue JsValueFacts JsJson JsJsonFacts JsJsonRoundtrip JsStorable NavModules SidebarConfig.
Open Scope N_scope.

(** ** The definitions of the editor *)

Definition HEADER_NAV_DEFAULT : jsobj :=
  [ (js "home", VBool true); (js "marketplace", VBool true); (js "console", VBool true);
    (js "pricing", access_object (MkAccess true false)); (js "rankings", access_object (MkAccess true false));
    (js "docs", VBool true); (js "about", VBool true) ].

Definition SIDEBAR_MODULES_DEFAULT : jsobj :=
  [ (js "chat", all_true [js "enabled"; js "playground"; js "chat"]);
    (js "console", all_true [js "enabled"; js "detail"; js "token"; js "log"; js "midjourney"; js "task"]);
    (js "personal", all_true [js "enabled"; js "topup"; js "marketplace"; js "personal"]);
    (js "admin", all_true [js "enabled"; js "channel"; js "models"; js "redemption"; js "user";
                           js "setting"; js "subscription"]) ].

(** A fallback found on a prototype need not be a boolean. *)
Definition toBoolean (value fallback : jsval) : jsval :=
  match value with
  | VBool b => VBool b
  | VNum n => VBool (neqb n (num_of_Z 1))
  | VStr s =>
      let normalized := to_lower (trim s) in
      if bool_decide (normalized = js "true") || bool_decide (normalized = js "1") then VBool true
      else if bool_decide (normalized = js "false") || bool_decide (normalized = js "0") then VBool false
      else fallback
  | _ => fallback
  end.

(** The same with a boolean fallback. *)
Definition toBool (value : jsval) (fallback : bool) : bool := is_true (toBoolean value (VBool fallback)).

Definition parseAccessModule (raw : jsval) (fallback : ModuleAccess) : ModuleAccess :=
  if is_scalar raw then MkAccess (toBool raw (enabled fallback)) (requireAuth fallback)
  else if is_object raw then
    MkAccess (toBool (prop (js "enabled") raw) (enabled fallback))
             (toBool (prop (js "requireAuth") raw) (requireAuth fallback))
  else fallback.

(** [Object.entries(v)]; it throws on [null]. *)
Definition object_entries (v : jsval) : res jsobj :=
  match v with VUndef | VNull => Throw TypeError | _ => Ok (entries v) end.

Definition header_entry (base result : jsobj) (kv : jstr * jsval) : jsobj :=
  let '(key, raw) := kv in
  if bool_decide (key = js "pricing") then
    oset key (access_object (parseAccessModule raw (access_of (oget key base)))) result
  else if bool_decide (key = js "rankings") then
    oset key (access_object (parseAccessModule raw (access_of (oget key base)))) result
  else
    match raw with
    | VBool b => assign_flag key b result
    | VStr _ | VNum _ => assign_flag key (toBool raw (truthy (oget key base))) result
    | _ => result
    end.

Definition parseHeaderNavModules (value : option jstr) : jsobj :=
  let base := HEADER_NAV_DEFAULT in
  match value with
  | None | Some [] => base
  | Some value =>
      catch (let* parsed := json_parse value in
             let* es := object_entries parsed in
             Ok (fold_left (header_entry base) es base)) base
  end.

Definition serializeHeaderNavModules (config : jsobj) : jstr := stringify (VObj config).

Definition module_entry (defaultSection : jsval) (config : jsobj) (kv : jstr * jsval) : jsobj :=
  let '(moduleKey, moduleValue) := kv in
  if bool_decide (moduleKey = js "enabled") then config
  else assign_own moduleKey
         (toBoolean moduleValue (vcoalesce (prop moduleKey defaultSection) (VBool true))) config.

Definition section_config (defaultSection raw : jsval) : jsobj :=
  fold_left (module_entry defaultSection) (entries raw)
    [(js "enabled", toBoolean (prop (js "enabled") raw)
                      (vcoalesce (prop (js "enabled") defaultSection) (VBool true)))].

(** The result of the first loop: its own properties, and the prototype that
    an assignment to [result.__proto__] gives it. *)
Record partial_config := MkPartial { own : jsobj; proto : option jsobj }.

Definition section_entry (result : partial_config) (kv : jstr * jsval) : partial_config :=
  let '(sectionKey, raw) := kv in
  if negb (is_object raw) then result
  else
    let defaultSection :=
      vcoalesce (oget sectionKey SIDEBAR_MODULES_DEFAULT) (VObj [(js "enabled", VBool true)]) in
    let sectionConfig := section_config defaultSection raw in
    if bool_decide (sectionKey = js "__proto__") then MkPartial (own result) (Some sectionConfig)
    else MkPartial (oset sectionKey (VObj sectionConfig) (own result)) (proto result).

(** [result[key]] *)
Definition read_section (result : partial_config) (key : jstr) : jsval :=
  match olookup key (own result), proto result with
  | Some v, _ => v
  | None, Some p => oget key p
  | None, None => inherited key
  end.

(** [key in section] *)
Definition has_module (key : jstr) (section : jsobj) : bool :=
  bool_decide (key ∈ okeys section) || bool_decide (key ∈ object_prototype_names).

Definition add_module (section : jsobj) (kv : jstr * jsval) : jsobj :=
  if has_module kv.1 section then section else oset kv.1 kv.2 section.

(** One step of the second loop; [in] throws on a primitive value. *)
Definition merge_default (result : partial_config) (kv : jstr * jsval) : res partial_config :=
  let '(sectionKey, config) := kv in
  let set o := Ok (MkPartial (oset sectionKey (VObj o) (own result)) (proto result)) in
  let current := read_section result sectionKey in
  if negb (truthy current) then set (entries config)
  else match current with
       | VObj section => set (fold_left add_module (entries config) section)
       | _ => Throw TypeError
       end.

Fixpoint merge_all (result : partial_config) (defaults : jsobj) : res partial_config :=
  match defaults with
  | [] => Ok result
  | kv :: rest => let* result := merge_default result kv in merge_all result rest
  end.

Definition parseSidebarModulesAdmin (value : option jstr) : jsobj :=
  let defaults := SIDEBAR_MODULES_DEFAULT in
  match trim (default [] value) with
  | [] => defaults
  | _ =>
      catch (let* parsed := json_parse (default [] value) in
             let* es := object_entries parsed in
             let* result := merge_all (fold_left section_entry es (MkPartial [] None)) defaults in
             Ok (own result)) defaults
  end.

Definition serializeSidebarModulesAdmin (config : jsobj) : jstr := stringify (VObj config).

(** ** The header *)

(** The type [HeaderNavModulesConfig], for an object that can be stored. *)
Definition header_entry_typed (kv : jstr * jsval) : Prop :=
  kv.1 <> js "__proto__"
  /\ (if bool_decide (kv.1 ∈ access_keys) then exists a, kv.2 = access_object a else exists b, kv.2 = VBool b).

Definition header_config (c : jsobj) : Prop :=
  okeys_nodup c /\ Forall (fun kv => forallb is_unit kv.1 = true /\ header_entry_typed kv) c.

Lemma printable_access a : printable (access_object a).
Proof. by destruct a as [[] []]. Qed.

Lemma header_storable c : header_config c -> storable c.
Proof.
  intros [Hn H]. split; [done|]. eapply Forall_impl; [exact H|]. intros kv (Hu & _ & Ht). split; [done|].
  destruct (bool_decide _); destruct Ht as [? ->]; [apply printable_access|apply printable_bool].
Qed.

Lemma access_keys_not k : k ∉ access_keys -> k <> js "pricing" /\ k <> js "rankings".
Proof. unfold access_keys. rewrite !not_elem_of_cons. tauto. Qed.

(** Both readers take a typed entry as it is. *)
Section entries.
Context (kv : jstr * jsval) (Hkv : header_entry_typed kv).

Lemma editor_entry base o : header_entry base o kv = oset kv.1 kv.2 o.
Proof.
  destruct kv as [k v]. destruct Hkv as [Hp Ht]. cbn [fst snd] in *. unfold header_entry.
  destruct (bool_decide (k ∈ access_keys)) eqn:Ha; bool_hyps.
  - destruct Ht as [a ->]. assert (k = js "pricing" \/ k = js "rankings") as [-> | ->].
    { revert Ha. unfold access_keys. rewrite !elem_of_cons, elem_of_nil. tauto. }
    + js_keys. by destruct a as [[] []].
    + js_keys. by destruct a as [[] []].
  - destruct Ht as [b ->]. apply access_keys_not in Ha as [H1 H2].
    rewrite !bool_decide_eq_false_2 by done. unfold assign_flag. by rewrite bool_decide_eq_false_2.
Qed.

Lemma header_reader_entry o : nav_entry o kv = oset kv.1 kv.2 o.
Proof.
  destruct kv as [k v]. destruct Hkv as [Hp Ht]. cbn [fst snd] in *. unfold nav_entry.
  destruct (bool_decide (k ∈ access_keys)) eqn:Ha; bool_hyps.
  - destruct Ht as [a ->]. assert (k = js "pricing" \/ k = js "rankings") as [-> | ->].
    { revert Ha. unfold access_keys. rewrite !elem_of_cons, elem_of_nil. tauto. }
    + js_keys. by destruct a as [[] []].
    + js_keys. by destruct a as [[] []].
  - destruct Ht as [b ->]. apply access_keys_not in Ha as [H1 H2].
    rewrite !bool_decide_eq_false_2 by done. unfold assign_flag. rewrite bool_decide_eq_false_2 by done.
    by destruct (oget k o).
Qed.
End entries.

Lemma header_fold (f : jsobj -> jstr * jsval -> jsobj) base c :
  header_config c -> (forall kv o, header_entry_typed kv -> f o kv = oset kv.1 kv.2 o) ->
  fold_left f (obj_of c) base = ospread base (obj_of c).
Proof.
  intros [_ H] Hf. apply (fold_oset f header_entry_typed); [by intros; apply Hf|].
  apply Forall_obj_of. eapply Forall_impl; [exact H|]. by intros ? [_ ?].
Qed.


(** The editor stores a header configuration so that every reader sees
    it: reading the text back in the editor, or in the header, gives each
    module the stored setting (a module that is not stored has its default),
    and the access rule of a page is the stored one. *)
Theorem header_config_stored (c status : jsobj) (module : HeaderNavModule) (a : ModuleAccess) :
  header_config c ->
  olookup (js "HeaderNavModules") status = Some (VStr (serializeHeaderNavModules c)) ->
  olookup (module_name module) c = Some (access_object a) ->
  (forall k, olookup k (parseHeaderNavModules (Some (serializeHeaderNavModules c)))
             = match olookup k c with Some v => Some v | None => olookup k HEADER_NAV_DEFAULT end)
  /\ (exists o, parseHeaderNavModulesFromStatus (VObj status) = Ok o
      /\ forall k, olookup k o
           = match olookup k c with Some v => Some v | None => olookup k DEFAULT_HEADER_NAV_MODULES end)
  /\ getModuleAccessFromStatus (VObj status) module = Ok a.
Proof.
  intros Hc Hs Hm. pose proof (header_storable c Hc) as Hst. pose proof (storable_json c Hst) as Hj.
  pose proof (proj1 Hc) as Hn.
  assert (Hn' : okeys_nodup (obj_of c)) by (apply NoDup_ospread; constructor).
  assert (Hr : parseHeaderNavModulesFromStatus (VObj status)
               = Ok (ospread DEFAULT_HEADER_NAV_MODULES (obj_of c))).
  { unfold parseHeaderNavModulesFromStatus. cbn [vget_opt vget]. rewrite (oget_lookup _ _ _ Hs). cbn [res_bind].
    unfold NavModules.parseHeaderNavModules, parseHeaderNavRecord. unfold serializeHeaderNavModules.
    rewrite (truthy_stringify c). cbn [negb to_str res_bind].
    destruct (trim (stringify (VObj c))) eqn:Et; [by apply trim_stringify_obj in Et|].
    cbn [is_object]. rewrite Hj. cbn [res_map res_bind catch truthy entries]. f_equal.
    apply (header_fold nav_entry); [done|]. intros kv o Hkv. by apply header_reader_entry. }
  split_and!.
  - intros k. unfold parseHeaderNavModules, serializeHeaderNavModules.
    destruct (stringify_obj_head c) as [t E]. rewrite E, <-E, Hj. cbn [res_bind object_entries catch entries].
    rewrite (header_fold (header_entry HEADER_NAV_DEFAULT)); [|done|intros kv o Hkv; by apply editor_entry].
    by rewrite olookup_ospread, olookup_obj_of.
  - eexists. split; [exact Hr|]. intros k. by rewrite olookup_ospread, olookup_obj_of.
  - unfold getModuleAccessFromStatus. rewrite Hr. cbn [res_bind].
    assert (oget (module_name module) (ospread DEFAULT_HEADER_NAV_MODULES (obj_of c)) = access_object a) as ->.
    { apply oget_lookup. by rewrite olookup_ospread, olookup_obj_of, Hm. }
    by destruct a as [[] []].
Qed.

(** A configuration whose pricing page is for members only. *)
Definition sample_header : jsobj :=
  oset (js "pricing") (access_object (MkAccess true true)) (oset (js "docs") (VBool false) HEADER_NAV_DEFAULT).

Lemma header_config_stored_witness :
  header_config sample_header
  /\ getModuleAccessFromStatus
       (VObj [(js "HeaderNavModules", VStr (serializeHeaderNavModules sample_header))]) pricing
     = Ok (MkAccess true true).
Proof.
  assert (header_config sample_header) as Hc.
  { split; [unfold okeys_nodup; decide_now|].
    let l := eval vm_compute in sample_header in replace sample_header with l by (vm_compute; reflexivity).
    repeat (apply List.Forall_cons;
      [split; [vm_compute; reflexivity|split; [decide_now|]];
       first [rewrite bool_decide_eq_true_2 by decide_now|rewrite bool_decide_eq_false_2 by decide_now]|]).
    all: try (by eexists (MkAccess _ _)). all: try (by eexists). apply List.Forall_nil. }
  split; [done|].
  apply (header_config_stored sample_header
    [(js "HeaderNavModules", VStr (serializeHeaderNavModules sample_header))] pricing (MkAccess true true));
    [done|vm_compute; reflexivity..].
Defined.

(** A number other than 0 and 1 is off in the editor and the default in the
    header. *)
Lemma number_read_differently :
  oget (js "home") (parseHeaderNavModules (Some (jsq "{`home`:2}"))) = VBool false
  /\ res_map (oget (js "home")) (NavModules.parseHeaderNavModules (VStr (jsq "{`home`:2}"))) = Ok (VBool true).
Proof. split; vm_compute; reflexivity. Qed.

(** ** The sidebar *)

(** The type [SidebarSectionConfig], for an object that can be stored. *)
Definition section_typed (s : jsobj) : Prop :=
  okeys_nodup s /\ obj_of s = s /\ js "enabled" ∈ okeys s
  /\ Forall (fun kv => forallb is_unit kv.1 = true /\ kv.1 <> js "__proto__" /\ exists b, kv.2 = VBool b) s.

Definition sidebar_entry_typed (kv : jstr * jsval) : Prop :=
  kv.1 <> js "__proto__" /\ exists s, kv.2 = VObj s /\ section_typed s.

Definition sidebar_config (c : jsobj) : Prop :=
  okeys_nodup c /\ Forall (fun kv => forallb is_unit kv.1 = true /\ sidebar_entry_typed kv) c.

(** Every default section is there with every default module. *)
Definition complete (c : jsobj) (defaults : jsobj) : Prop :=
  Forall (fun kd => exists s, olookup kd.1 c = Some (VObj s)
                    /\ forall m, m ∈ okeys (entries kd.2) -> m ∈ okeys s) defaults.

Lemma section_printable s : section_typed s -> printable (VObj s).
Proof.
  intros (_ & Ho & _ & Hs). split.
  - rewrite jsonable_obj, forallb_Forall. eapply Forall_impl; [exact Hs|]. by intros kv (-> & _ & b & ->).
  - rewrite in_order_obj. split; [done|]. eapply Forall_impl; [exact Hs|]. by intros kv (_ & _ & b & ->).
Qed.

Lemma sidebar_storable c : sidebar_config c -> storable c.
Proof.
  intros [Hn H]. split; [done|]. eapply Forall_impl; [exact H|].
  intros kv (Hu & _ & s & -> & Hs). split; [done|by apply section_printable].
Qed.

Lemma oset_same k v o : olookup k o = Some v -> oset k v o = o.
Proof.
  intros H. unfold oset. rewrite H. revert H. induction o as [|[k' v'] o IH]; [done|]. cbn [olookup oreplace].
  case_bool_decide as E; [intros [= <-]; by subst|]. intros H. by rewrite IH.
Qed.

(** The first loop keeps a typed section. *)
Lemma module_fold d s cfg m :
  okeys_nodup s -> Forall (fun kv => kv.1 <> js "__proto__" /\ exists b, kv.2 = VBool b) s ->
  olookup m (fold_left (module_entry d) s cfg)
  = if bool_decide (m = js "enabled") then olookup m cfg
    else match olookup m s with Some v => Some v | None => olookup m cfg end.
Proof.
  intros Hn H. revert cfg Hn. induction H as [|[k v] s (Hp & b & Hb) _ IH]; intros cfg Hn.
  { cbn [fold_left olookup]. by case_bool_decide. }
  apply NoDup_cons in Hn as [Hk Hn]. cbn [fold_left fst snd olookup] in *. rewrite IH by done. subst v.
  unfold module_entry, assign_own. case_bool_decide as Hm; [subst m|].
  - destruct (bool_decide (k = js "enabled")) eqn:E; [done|]. bool_hyps.
    rewrite bool_decide_eq_false_2 by done. cbn [toBoolean]. rewrite olookup_oset_ne; [done|congruence].
  - destruct (decide (m = k)) as [->|Hmk].
    + rewrite (bool_decide_eq_false_2 (k = js "enabled")) by done. rewrite (bool_decide_eq_true_2 (k = k)) by done.
      apply olookup_None in Hk. rewrite Hk, bool_decide_eq_false_2 by done. apply olookup_oset_eq.
    + rewrite (bool_decide_eq_false_2 (m = k)) by done. destruct (olookup m s); [done|].
      destruct (bool_decide (k = js "enabled")); [done|]. rewrite bool_decide_eq_false_2 by done.
      by apply olookup_oset_ne.
Qed.

Lemma section_config_typed d s : section_typed s -> same_props (section_config d (VObj s)) s.
Proof.
  intros (Hn & _ & He & Hs) m. unfold section_config. cbn [entries].
  rewrite module_fold; [|done|eapply Forall_impl; [exact Hs|]; by intros kv (_ & ? & ?)].
  assert (exists b, olookup (js "enabled") s = Some (VBool b)) as [b Hb].
  { destruct (olookup (js "enabled") s) as [v|] eqn:E; [|by apply olookup_None in E].
    clear He. induction s as [|[k w] s IH]; [done|]. cbn [olookup] in E.
    apply Forall_cons in Hs as [(_ & _ & b & Hb) Hs]. apply NoDup_cons in Hn as [_ Hn].
    case_bool_decide; [|by apply IH]. injection E as ->. exists b. cbn in Hb. by subst. }
  cbn [olookup]. case_bool_decide as Hm; [subst m|].
  - unfold prop. cbn [vget catch]. by rewrite (oget_lookup _ _ _ Hb), Hb.
  - by destruct (olookup m s).
Qed.

Lemma section_fold l own0 :
  Forall sidebar_entry_typed l ->
  exists l', fold_left section_entry l (MkPartial own0 None) = MkPartial (ospread own0 l') None
    /\ Forall2 (fun kv kv' => kv.1 = kv'.1 /\ exists s s', kv.2 = VObj s /\ kv'.2 = VObj s' /\ same_props s' s) l l'.
Proof.
  intros H. revert own0. induction H as [|[k v] l (Hp & s & Hv & Hs) _ IH]; intros own0.
  { exists []. split; [done|constructor]. }
  cbn [fst snd] in *. subst v. cbn [fold_left]. unfold section_entry at 2. cbn [is_object negb own proto].
  rewrite bool_decide_eq_false_2 by done.
  set (s' := section_config _ (VObj s)). destruct (IH (oset k (VObj s') own0)) as (l' & -> & Hl).
  exists ((k, VObj s') :: l'). split; [done|]. constructor; [|done]. split; [done|].
  exists s, s'. split_and!; [done|done|]. by apply section_config_typed.
Qed.

Lemma add_modules_complete section config :
  (forall m, m ∈ okeys config -> m ∈ okeys section) -> fold_left add_module config section = section.
Proof.
  induction config as [|[k v] config IH]; [done|]. intros H. cbn [fold_left]. unfold add_module at 2, has_module.
  cbn [fst]. rewrite bool_decide_eq_true_2 by (apply H; by left). cbn [orb]. apply IH. intros m Hm. apply H. by right.
Qed.

Lemma merge_all_complete r defaults : complete (own r) defaults -> merge_all r defaults = Ok r.
Proof.
  intros H. induction H as [|[k config] defaults (s & Hs & Hm) _ IH]; [done|]. cbn [fst snd merge_all] in *.
  unfold merge_default, read_section. rewrite Hs. cbn [truthy negb].
  rewrite add_modules_complete, oset_same by done. destruct r as [o p]. apply IH.
Qed.

(** The same sections with the same modules, in any order. *)
Definition same_sections (a b : jsobj) : Prop :=
  forall k, match olookup k b with
            | Some (VObj s) => exists s', olookup k a = Some (VObj s') /\ same_props s' s
            | Some _ => False
            | None => olookup k a = None
            end.

Lemma same_sections_fold l l' :
  okeys_nodup l ->
  Forall2 (fun kv kv' => kv.1 = kv'.1 /\ exists s s', kv.2 = VObj s /\ kv'.2 = VObj s' /\ same_props s' s) l l' ->
  okeys_nodup l' /\ same_sections l' l.
Proof.
  intros Hn H. assert (okeys l' = okeys l) as E.
  { clear Hn. induction H as [|kv kv' l l' [Hk _] _ IH]; [done|]. unfold okeys in *. cbn [map]. by rewrite Hk, IH. }
  split; [by unfold okeys_nodup; rewrite E|]. clear E Hn. intros k.
  induction H as [|[k1 v1] [k2 v2] l l' (Hk & s & s' & H1 & H2 & Hs) _ IH]; [done|].
  cbn [fst snd olookup] in *. subst. case_bool_decide; [by exists s'|done].
Qed.

Lemma same_props_keys a b m : same_props a b -> m ∈ okeys b -> m ∈ okeys a.
Proof.
  intros H Hm. destruct (decide (m ∈ okeys a)) as [|Ha]; [done|]. apply olookup_None in Ha.
  rewrite (H m) in Ha. by apply olookup_None in Ha.
Qed.

Lemma complete_same a b defaults : same_sections a b -> complete b defaults -> complete a defaults.
Proof.
  intros Hs H. eapply Forall_impl; [exact H|]. intros kd (s & Hk & Hm). specialize (Hs kd.1). rewrite Hk in Hs.
  destruct Hs as (s' & Hs' & E). exists s'. split; [done|]. intros m Hin. eapply same_props_keys; eauto.
Qed.

Lemma parse_stored_sidebar c :
  sidebar_config c -> complete c SIDEBAR_MODULES_DEFAULT ->
  same_sections (parseSidebarModulesAdmin (Some (serializeSidebarModulesAdmin c))) c.
Proof.
  intros Hc Hd. pose proof (sidebar_storable c Hc) as Hst. destruct Hc as [Hn Hc].
  unfold parseSidebarModulesAdmin, serializeSidebarModulesAdmin. cbn [default from_option id]. unfold id.
  destruct (trim (stringify (VObj c))) eqn:Et; [by apply trim_stringify_obj in Et|].
  rewrite (storable_json c Hst). cbn [res_bind object_entries entries].
  assert (Hl : Forall sidebar_entry_typed (obj_of c)).
  { apply Forall_obj_of. eapply Forall_impl; [exact Hc|]. by intros kv [_ ?]. }
  destruct (section_fold (obj_of c) [] Hl) as (l' & -> & Hl').
  assert (Hnc : okeys_nodup (obj_of c)) by (apply NoDup_ospread; constructor).
  destruct (same_sections_fold _ _ Hnc Hl') as [Hn' Hs].
  assert (Hs' : same_sections (ospread [] l') c).
  { intros k. specialize (Hs k). rewrite olookup_obj_of in Hs by done.
    rewrite olookup_ospread by done. cbn [olookup]. by destruct (olookup k l'). }
  rewrite merge_all_complete; [done|]. by apply (complete_same _ c).
Qed.

(** ** The readers of the sidebar *)

Lemma merge_sections_lookup p acc sections k :
  okeys_nodup sections ->
  exists acc', merge_sections (VObj p) acc sections = Ok acc'
    /\ olookup k acc'
       = match olookup k sections with
         | Some d => Some (VObj (ospread (spread d) (entries (vcoalesce (oget k p) (VObj [])))))
         | None => olookup k acc
         end.
Proof.
  revert acc. induction sections as [|[j d] sections IH]; intros acc Hn; [by eexists|].
  apply NoDup_cons in Hn as [Hj Hn]. cbn [merge_sections olookup fst] in *. unfold merge_section. cbn [vget res_bind fst snd].
  destruct (IH (oset j (VObj (ospread (spread d) (entries (vcoalesce (oget j p) (VObj []))))) acc) Hn) as (acc' & -> & E).
  exists acc'. split; [done|]. rewrite E, olookup_oset. case_bool_decide as Hk; [subst|done].
  apply olookup_None in Hj. by rewrite Hj.
Qed.

Lemma stored_section c section s :
  Forall (fun kv => forallb is_unit kv.1 = true /\ sidebar_entry_typed kv) c ->
  olookup section c = Some (VObj s) -> section_typed s.
Proof.
  intros Hc Hs%olookup_elem. rewrite list.Forall_forall in Hc.
  by destruct (Hc _ Hs) as (_ & _ & s' & [= <-] & Hs').
Qed.

Lemma sidebar_section c s section :
  sidebar_config c -> olookup section c = Some (VObj s) ->
  exists o, olookup section (parseSidebarConfig (Some (serializeSidebarModulesAdmin c))) = Some (VObj o)
    /\ forall m, m ∈ okeys s -> olookup m o = olookup m s.
Proof.
  intros Hc Hs. pose proof (sidebar_storable c Hc) as Hst. destruct Hc as [Hn Hc].
  unfold parseSidebarConfig, serializeSidebarModulesAdmin. cbn [default from_option id]. unfold id.
  destruct (trim (stringify (VObj c))) eqn:Et; [by apply trim_stringify_obj in Et|].
  rewrite (storable_json c Hst). cbn [res_bind]. unfold mergeDefaults.
  destruct (merge_sections_lookup (obj_of c) (spread (VObj (obj_of c))) DEFAULT_SIDEBAR_MODULES section)
    as (acc & -> & E); [unfold okeys_nodup; decide_now|]. cbn [catch]. rewrite E.
  assert (Hns : okeys_nodup s) by (by destruct (stored_section c section s Hc Hs)).
  assert (Hnc : okeys_nodup (obj_of c)) by (apply NoDup_ospread; constructor).
  assert (olookup section (obj_of c) = Some (VObj s)) as Ho by (by rewrite olookup_obj_of).
  destruct (olookup section DEFAULT_SIDEBAR_MODULES) as [d|].
  - eexists. split; [reflexivity|]. intros m Hm. rewrite (oget_lookup _ _ _ Ho). cbn [vcoalesce entries].
    rewrite olookup_ospread by done. destruct (olookup m s) eqn:Em; [done|]. by apply olookup_None in Em.
  - exists s. split; [|done]. unfold spread. cbn [entries]. by rewrite olookup_obj_of.
Qed.

(** C38.  The editor stores a complete sidebar configuration so that every
    reader sees it: read back in the editor it has the same sections and
    modules, and for every module of a section the sidebar and the guard of
    the routes agree that it is allowed exactly when its switch and the
    switch of its section are on. *)
Theorem sidebar_config_stored (c status s : jsobj) (item : option jstr) (section module : jstr) :
  sidebar_config c -> complete c SIDEBAR_MODULES_DEFAULT ->
  getCachedStatus item = VObj status ->
  olookup (js "SidebarModulesAdmin") status = Some (VStr (serializeSidebarModulesAdmin c)) ->
  olookup section c = Some (VObj s) -> module ∈ okeys s ->
  let allowed := is_true (oget (js "enabled") s) && is_true (oget module s) in
  same_sections (parseSidebarModulesAdmin (Some (serializeSidebarModulesAdmin c))) c
  /\ section_allowed section module (parseSidebarConfig (Some (serializeSidebarModulesAdmin c))) = allowed
  /\ isSidebarModuleEnabled item section module = Ok allowed.
Proof.
  intros Hc Hd Hi Ht Hs Hm. cbv zeta. split; [by apply parse_stored_sidebar|].
  pose proof (stored_section c section s (proj2 Hc) Hs) as (Hn & _ & He & Hb).
  assert (Hbool : forall m, m ∈ okeys s -> exists b, olookup m s = Some (VBool b)).
  { intros m Hin. destruct (olookup m s) as [v|] eqn:E; [|by apply olookup_None in E].
    rewrite list.Forall_forall in Hb. destruct (Hb _ (olookup_elem _ _ _ E)) as (_ & _ & b & Hv).
    exists b. cbn in Hv. by subst. }
  destruct (Hbool _ He) as [e Ee]. destruct (Hbool _ Hm) as [b Eb].
  rewrite (oget_lookup _ _ _ Ee), (oget_lookup _ _ _ Eb). split.
  - destruct (sidebar_section c s section Hc Hs) as (o & Ho & Hom). unfold section_allowed, prop.
    rewrite (oget_lookup _ _ _ Ho). cbn [truthy vget catch andb].
    unfold oget. rewrite !Hom, Ee, Eb by done. by destruct e, b.
  - unfold isSidebarModuleEnabled. rewrite Hi. cbn [truthy negb vget res_bind]. rewrite (oget_lookup _ _ _ Ht).
    cbn [res_bind]. unfold serializeSidebarModulesAdmin. pose proof (sidebar_storable c Hc) as Hst.
    rewrite (truthy_stringify c). cbn [negb to_str res_bind].
    destruct (trim (stringify (VObj c))) eqn:Et; [by apply trim_stringify_obj in Et|].
    rewrite (storable_json c Hst). cbn [res_bind vget].
    rewrite (oget_lookup section (VObj s)) by (rewrite olookup_obj_of; [done|apply Hc]).
    cbn [res_bind truthy negb vget]. rewrite (oget_lookup _ _ _ Ee), (oget_lookup _ _ _ Eb).
    by destruct e, b.
Qed.

(** A configuration without the playground. *)
Definition sample_sidebar : jsobj :=
  oset (js "chat") (VObj [(js "enabled", VBool true); (js "playground", VBool false); (js "chat", VBool true)])
    SIDEBAR_MODULES_DEFAULT.

Lemma sidebar_config_stored_witness :
  sidebar_config sample_sidebar
  /\ isSidebarModuleEnabled
       (Some (stringify (VObj [(js "SidebarModulesAdmin", VStr (serializeSidebarModulesAdmin sample_sidebar))])))
       (js "chat") (js "playground") = Ok false.
Proof.
  assert (sidebar_config sample_sidebar) as Hc.
  { split; [unfold okeys_nodup; decide_now|].
    let l := eval vm_compute in sample_sidebar in replace sample_sidebar with l by (vm_compute; reflexivity).
    repeat (apply List.Forall_cons;
      [split; [vm_compute; reflexivity|split; [decide_now|]]; eexists; (split; [reflexivity|])|]); [..|apply List.Forall_nil].
    all: split; [unfold okeys_nodup; decide_now|split; [vm_compute; reflexivity|split; [decide_now|]]].
    all: repeat (apply List.Forall_cons; [split; [vm_compute; reflexivity|split; [decide_now|by eexists]]|]); apply List.Forall_nil. }
  assert (complete sample_sidebar SIDEBAR_MODULES_DEFAULT) as Hd.
  { unfold complete, SIDEBAR_MODULES_DEFAULT.
    repeat (apply List.Forall_cons; [eexists; split; [vm_compute; reflexivity|]|]); [..|apply List.Forall_nil].
    all: apply list.Forall_forall; decide_now. }
  split; [done|].
  apply (sidebar_config_stored sample_sidebar
    [(js "SidebarModulesAdmin", VStr (serializeSidebarModulesAdmin sample_sidebar))]
    [(js "enabled", VBool true); (js "playground", VBool false); (js "chat", VBool true)] _ (js "chat") (js "playground"));
    [done|done|vm_compute; reflexivity..|decide_now].
Defined.

(** ** Any text gives a complete configuration *)

(** The default sections with their modules. *)
Definition default_modules : list (jstr * list jstr) :=
  map (fun kd => (kd.1, okeys (entries kd.2))) SIDEBAR_MODULES_DEFAULT.

Lemma default_modules_all : SIDEBAR_MODULES_DEFAULT = map (fun km => (km.1, all_true km.2)) default_modules.
Proof. reflexivity. Qed.

Lemma default_section k modules :
  (k, modules) ∈ default_modules -> olookup k SIDEBAR_MODULES_DEFAULT = Some (all_true modules).
Proof.
  revert k modules. enough (Forall (fun km => olookup km.1 SIDEBAR_MODULES_DEFAULT = Some (all_true km.2)) default_modules) as H.
  { rewrite list.Forall_forall in H. intros k modules. apply (H (k, modules)). }
  repeat (apply List.Forall_cons; [vm_compute; reflexivity|]). apply List.Forall_nil.
Qed.

(** Each of the modules that is present has a boolean. *)
Definition bools (modules : list jstr) (s : jsobj) : Prop :=
  forall m w, m ∈ modules -> olookup m s = Some w -> exists b, w = VBool b.

Definition fine (modules : list jstr) (v : option jsval) : Prop :=
  match v with None => True | Some v => exists s, v = VObj s /\ bools modules s end.

Definition full (modules : list jstr) (v : option jsval) : Prop :=
  exists s, v = Some (VObj s) /\ forall m, m ∈ modules -> exists b, olookup m s = Some (VBool b).

Lemma olookup_all_true modules m : m ∈ modules -> olookup m (entries (all_true modules)) = Some (VBool true).
Proof.
  cbn [all_true entries]. induction modules as [|k l IH]; [by intros ?%not_elem_of_nil|]. cbn [map olookup].
  rewrite elem_of_cons. case_bool_decide; [done|]. intros [->|?]; [done|by apply IH].
Qed.

Lemma toBoolean_bool v b : exists b', toBoolean v (VBool b) = VBool b'.
Proof. destruct v; cbn [toBoolean]; try by eexists. destruct (_ || _); [by eexists|]. destruct (_ || _); by eexists. Qed.

Lemma section_config_bools modules raw :
  bools modules (section_config (all_true modules) raw).
Proof.
  assert (Hp : forall m, m ∈ modules -> vcoalesce (prop m (all_true modules)) (VBool true) = VBool true).
  { intros m Hm. change (prop m (all_true modules)) with (oget m (entries (all_true modules))).
    by rewrite (oget_lookup _ _ _ (olookup_all_true modules m Hm)). }
  unfold section_config. generalize (entries raw). intros l.
  assert (H0 : bools modules [(js "enabled", toBoolean (prop (js "enabled") raw)
      (vcoalesce (prop (js "enabled") (all_true modules)) (VBool true)))]).
  { intros m w Hm. cbn [olookup]. case_bool_decide; [subst|done]. rewrite Hp by done. intros [= <-]. apply toBoolean_bool. }
  revert H0. generalize [(js "enabled", toBoolean (prop (js "enabled") raw)
      (vcoalesce (prop (js "enabled") (all_true modules)) (VBool true)))].
  induction l as [|[k v] l IH]; intros o Ho; [done|]. cbn [fold_left]. apply IH. unfold module_entry, assign_own.
  do 2 (case_bool_decide; [done|]). intros m w Hm. rewrite olookup_oset. case_bool_decide; [subst|by apply Ho].
  rewrite Hp by done. intros [= <-]. apply toBoolean_bool.
Qed.

(** What a prototype gives is never a section. *)
Definition no_object (v : jsval) : Prop := match v with VObj _ => False | _ => True end.

Lemma no_object_inherited k : no_object (inherited k).
Proof. unfold inherited. by case_bool_decide. Qed.

Lemma no_object_toBoolean v f : no_object f -> no_object (toBoolean v f).
Proof. intros. destruct v; cbn [toBoolean]; try done. by repeat destruct (_ || _). Qed.

Lemma no_object_coalesce k f : no_object (vcoalesce (prop k (VFun f)) (VBool true)).
Proof. unfold prop. cbn [vget catch]. pose proof (no_object_inherited k). by destruct (inherited k). Qed.

Lemma section_config_prototype f raw k : no_object (oget k (section_config (VFun f) raw)).
Proof.
  assert (H : Forall (fun kv => no_object kv.2) (section_config (VFun f) raw)).
  { unfold section_config. generalize (entries raw). intros l.
    assert (H0 : Forall (fun kv => no_object kv.2) [(js "enabled", toBoolean (prop (js "enabled") raw)
      (vcoalesce (prop (js "enabled") (VFun f)) (VBool true)))]).
    { repeat constructor. apply no_object_toBoolean, no_object_coalesce. }
    revert H0. generalize [(js "enabled", toBoolean (prop (js "enabled") raw)
      (vcoalesce (prop (js "enabled") (VFun f)) (VBool true)))].
    induction l as [|[j v] l IH]; intros o Ho; [done|]. cbn [fold_left]. apply IH. unfold module_entry, assign_own.
    do 2 (case_bool_decide; [done|]). apply Forall_oset; [|done]. apply no_object_toBoolean, no_object_coalesce. }
  unfold oget. destruct (olookup k _) as [v|] eqn:E; [|apply no_object_inherited]. apply olookup_elem in E.
  rewrite list.Forall_forall in H. by apply (H _ E).
Qed.

(** The result of the first loop. *)
Definition first_ok (r : partial_config) : Prop :=
  Forall (fun km => fine km.2 (olookup km.1 (own r))) default_modules
  /\ forall p k, proto r = Some p -> no_object (oget k p).

Lemma section_entry_ok r kv : first_ok r -> first_ok (section_entry r kv).
Proof.
  intros [H1 H2]. destruct kv as [k raw]. unfold section_entry. destruct (is_object raw); [|done]. cbn [negb].
  case_bool_decide as Hp.
  - split; [done|]. intros p j [= <-]. subst k. apply section_config_prototype.
  - split; [|done]. cbn [own]. rewrite list.Forall_forall in H1 |- *. intros [j modules] Hj. cbn [fst snd].
    rewrite olookup_oset. case_bool_decide; [subst k|by apply (H1 _ Hj)].
    eexists. split; [reflexivity|].
    assert (vcoalesce (oget j SIDEBAR_MODULES_DEFAULT) (VObj [(js "enabled", VBool true)]) = all_true modules) as ->.
    { by rewrite (oget_lookup _ _ _ (default_section j modules Hj)). }
    apply section_config_bools.
Qed.

(** The second loop adds the modules that are missing. *)
Lemma add_modules_lookup modules s m :
  Forall (fun k => k ∉ object_prototype_names) modules ->
  olookup m (fold_left add_module (entries (all_true modules)) s)
  = match olookup m s with
    | Some w => Some w
    | None => if bool_decide (m ∈ modules) then Some (VBool true) else None
    end.
Proof.
  cbn [all_true entries]. intros H. revert s.
  induction H as [|k l Hk _ IH]; intros s; cbn [map fold_left].
  { rewrite bool_decide_eq_false_2 by apply not_elem_of_nil. by destruct (olookup m s). }
  rewrite IH. unfold add_module, has_module. cbn [fst snd].
  rewrite (bool_decide_eq_false_2 (k ∈ object_prototype_names)) by done. rewrite orb_false_r.
  rewrite (bool_decide_ext (m ∈ k :: l) (m = k \/ m ∈ l)) by apply elem_of_cons.
  destruct (decide (k ∈ okeys s)) as [Hin|Hin].
  - rewrite bool_decide_eq_true_2 by done. destruct (olookup m s) eqn:E; [done|].
    assert (m <> k) by (intros ->; by apply olookup_None in E).
    by rewrite (bool_decide_ext (m = k \/ m ∈ l) (m ∈ l)) by tauto.
  - rewrite bool_decide_eq_false_2 by done. rewrite olookup_oset.
    apply olookup_None in Hin. destruct (decide (m = k)) as [->|Hm].
    + rewrite Hin. rewrite (bool_decide_eq_true_2 (k = k)), (bool_decide_eq_true_2 (k = k \/ _)) by tauto. done.
    + rewrite (bool_decide_eq_false_2 (m = k)) by done.
      by rewrite (bool_decide_ext (m = k \/ m ∈ l) (m ∈ l)) by tauto.
Qed.

Lemma merge_default_full r k modules r' :
  Forall (fun m => m ∉ object_prototype_names) modules ->
  fine modules (olookup k (own r)) -> (forall p j, proto r = Some p -> no_object (oget j p)) ->
  merge_default r (k, all_true modules) = Ok r' ->
  full modules (olookup k (own r')) /\ proto r' = proto r
  /\ forall j, j <> k -> olookup j (own r') = olookup j (own r).
Proof.
  intros Hm Hf Hp. unfold merge_default, read_section.
  assert (Hset : forall o, (forall m, m ∈ modules -> exists b, olookup m o = Some (VBool b)) ->
    Ok (MkPartial (oset k (VObj o) (own r)) (proto r)) = Ok r' ->
    full modules (olookup k (own r')) /\ proto r' = proto r
    /\ forall j, j <> k -> olookup j (own r') = olookup j (own r)).
  { intros o Ho <-%Ok_inj. cbn [own proto]. split_and!; [|done|intros; by apply olookup_oset_ne].
    exists o. by rewrite olookup_oset_eq. }
  assert (Hnew : forall m, m ∈ modules -> exists b, olookup m (entries (all_true modules)) = Some (VBool b)).
  { intros m ?. exists true. by apply olookup_all_true. }
  destruct (olookup k (own r)) as [v|].
  - destruct Hf as (s & -> & Hb). cbn [truthy negb]. apply Hset. intros m Hin. rewrite add_modules_lookup by done.
    destruct (olookup m s) as [w|] eqn:E; [destruct (Hb m w Hin E) as [b ->]; by exists b|].
    rewrite bool_decide_eq_true_2 by done. by exists true.
  - set (cur := match proto r with Some p => oget k p | None => inherited k end).
    assert (no_object cur) as Hn.
    { unfold cur. destruct (proto r) as [p|]; [by apply Hp|apply no_object_inherited]. }
    destruct (truthy cur); cbn [negb]; [by destruct cur|]. by apply Hset.
Qed.

Lemma merge_all_full r l r' :
  NoDup (map fst l) -> Forall (fun km => Forall (fun m => m ∉ object_prototype_names) km.2) l ->
  Forall (fun km => fine km.2 (olookup km.1 (own r))) l ->
  (forall p j, proto r = Some p -> no_object (oget j p)) ->
  merge_all r (map (fun km => (km.1, all_true km.2)) l) = Ok r' ->
  Forall (fun km => full km.2 (olookup km.1 (own r'))) l
  /\ forall j, j ∉ map fst l -> olookup j (own r') = olookup j (own r).
Proof.
  revert r. induction l as [|[k modules] l IH]; intros r Hn Hm Hf Hp; cbn [map merge_all fst snd].
  { intros <-%Ok_inj. split; [constructor|done]. }
  apply NoDup_cons in Hn as [Hk Hn]. apply Forall_cons in Hm as [Hm1 Hm]. apply Forall_cons in Hf as [Hf1 Hf].
  destruct (merge_default r (k, all_true modules)) as [r1|] eqn:E; [|done]. cbn [res_bind]. intros Hr.
  apply merge_default_full in E as (Hfull & Hpr & Hsame); [|done..].
  destruct (IH r1) as [H1 H2]; [done|done| | |done|].
  - rewrite list.Forall_forall in Hf |- *. intros [j ms] Hkm. cbn [fst snd].
    rewrite Hsame; [by apply (Hf _ Hkm)|]. intros ->. apply Hk, list_elem_of_fmap. by exists (k, ms).
  - by rewrite Hpr.
  - split.
    + constructor; [|done]. cbn [fst snd]. by rewrite H2.
    + intros j. rewrite not_elem_of_cons. intros [Hj Hj']. rewrite H2 by done. by apply Hsame.
Qed.

(** C39.  Whatever text is stored, what the editor works on is complete and
    typed: every default section is an object in which every default module
    has a boolean. *)
Theorem parsed_sidebar_complete (value : option jstr) :
  Forall (fun km => full km.2 (olookup km.1 (parseSidebarModulesAdmin value))) default_modules.
Proof.
  assert (Hd : Forall (fun km => full km.2 (olookup km.1 SIDEBAR_MODULES_DEFAULT)) default_modules).
  { apply list.Forall_forall. intros [k modules] H. cbn [fst snd]. rewrite (default_section k modules H).
    eexists. split; [reflexivity|]. intros m Hm. exists true. by apply (olookup_all_true _ m). }
  unfold parseSidebarModulesAdmin. destruct (trim (default [] value)) as [|x t]; [done|].
  destruct (json_parse _) as [parsed|]; [|done]. cbn [res_bind].
  destruct (object_entries parsed) as [l|]; [|done]. cbn [res_bind].
  assert (first_ok (fold_left section_entry l (MkPartial [] None))) as [H1 H2].
  { assert (first_ok (MkPartial [] None)) as H0 by (split; [by repeat constructor|done]). revert H0.
    generalize (MkPartial [] None). induction l as [|kv l IH]; intros r Hr; [done|]. by apply IH, section_entry_ok. }
  destruct (merge_all _ _) as [r|] eqn:E; [|done]. cbn [res_bind catch]. rewrite default_modules_all in E.
  apply merge_all_full in E as [H _]; [done|decide_now|decide_now|done|done].
Qed.
