(* ===== verification/ChannelForm.v ===== *)
(** * Channel form (features/channels/lib/channel-form.ts)

    The values of the channel form, the checks that its schema calls, and the
    translations between the form and the channel that the server stores.
    [zod], which runs the schema, is not modelled: the predicates and the
    refinement it is given are. *)
From S2P Require Import Prelude JsString JsNumber JsValue JsJson AdvancedCustom.
Open Scope N_scope.

(** [ChannelFormValues] and [Channel] are objects; a field is [formData.k]. *)
Definition field (k : jstr) (o : jsobj) : jsval := oget k o.

(** A field of type [string | undefined]. *)
Definition opt_str (v : jsval) : option jstr := match v with VStr s => Some s | _ => None end.

(** [!value?.trim()] *)
Definition blank (v : option jstr) : bool := negb (str_truthy (trim (default [] v))).

(** [v === n] for a number literal. *)
Definition num_is (n : Z) (v : jsval) : bool :=
  match v with VNum x => neqb x (num_of_Z n) | _ => false end.

(** [ns.includes(v)] *)
Definition one_of (ns : list Z) (v : jsval) : bool := existsb (fun n => num_is n v) ns.

(** ** Checks of the schema *)

(** [None] is [undefined]. *)
Definition parseOptionalJson (value : option jstr) : res (option jsval) :=
  if blank value then Ok None else res_map Some (json_parse (default [] value)).

Definition isJsonObjectValue (value : jsval) : bool := is_plain_object value.

Definition isOptionalJsonObject (value : option jstr) : bool :=
  catch
    (let* parsed := parseOptionalJson value in
     Ok (match parsed with None => true | Some v => isJsonObjectValue v end)) false.

Definition isOptionalModelMapping (value : option jstr) : bool :=
  catch
    (let* parsed := parseOptionalJson value in
     Ok (match parsed with
         | None => true
         | Some (VObj o) => forallb is_string (ovalues o)
         | Some _ => false
         end)) false.

Definition is_status_code (x : num) : bool :=
  is_integer x && nleb (num_of_Z 100) x && nleb x (num_of_Z 599).

(** [every] over the entries: the first entry that fails ends it. *)
Fixpoint every_code_entry (o : jsobj) : res bool :=
  match o with
  | [] => Ok true
  | (from, to) :: rest =>
      let fromCode := num_of_str from in
      let* toCode := to_num to in
      if is_status_code fromCode && is_status_code toCode then every_code_entry rest else Ok false
  end.

Definition isOptionalStatusCodeMapping (value : option jstr) : bool :=
  catch
    (let* parsed := parseOptionalJson value in
     match parsed with
     | None => Ok true
     | Some (VObj o) => every_code_entry o
     | Some _ => Ok false
     end) false.

(** [typeof v === 'string' && v.trim().length > 0] *)
Definition solid_string (v : jsval) : bool :=
  match v with VStr s => str_truthy (trim s) | _ => false end.

Definition isCodexCredential (value : option jstr) : bool :=
  catch
    (let* parsed := parseOptionalJson value in
     Ok (match parsed with
         | None => true
         | Some (VObj o) => solid_string (oget (js "access_token") o) && solid_string (oget (js "account_id") o)
         | Some _ => false
         end)) false.

Definition isVertexJsonKey (value : option jstr) : bool :=
  catch
    (let* parsed := parseOptionalJson value in
     Ok (match parsed with
         | None => true
         | Some (VArr l) => forallb isJsonObjectValue l
         | Some v => isJsonObjectValue v
         end)) false.

(** An issue: the path and the message. *)
Abbreviation issue := (jstr * jstr)%type.

Section refinement.
Context (url_parse : jstr -> option (jstr * jstr)).

Definition base_url_issues (data : jsobj) : list issue :=
  if one_of [3; 8; 36; 45]%Z (field (js "type") data) && blank (opt_str (field (js "base_url") data))
  then [(js "base_url", js "Base URL is required for this channel type")] else [].

Definition advanced_custom_issues (data : jsobj) : res (list issue) :=
  if negb (num_is CHANNEL_TYPE_ADVANCED_CUSTOM (field (js "type") data)) then Ok []
  else
    let config := default VNull (parseAdvancedCustomConfig (opt_str (field (js "advanced_custom") data))) in
    let* error := validateAdvancedCustomConfig url_parse config in
    let first := match error with Some e => [(js "advanced_custom", message e)] | None => [] end in
    let* relative := advancedCustomConfigUsesRelativeUpstreamPath config in
    Ok (first ++
        if relative && blank (opt_str (field (js "base_url") data))
        then [(js "base_url", js "Base URL is required when an advanced route uses an upstream path")]
        else []).

Definition other_issues (data : jsobj) : list issue :=
  if one_of [3; 18; 21; 39; 41; 49]%Z (field (js "type") data) && blank (opt_str (field (js "other") data))
  then [(js "other", js "This channel type requires additional configuration")] else [].

(** [data.multi_key_mode && data.multi_key_mode !== 'single'] *)
Definition creates_many (data : jsobj) : bool :=
  let mode := field (js "multi_key_mode") data in truthy mode && negb (str_is (js "single") mode).

Definition codex_issues (data : jsobj) : list issue :=
  if negb (num_is 57 (field (js "type") data)) then []
  else
    let key := opt_str (field (js "key") data) in
    (if creates_many data
     then [(js "multi_key_mode", js "Codex channels do not support batch creation")] else [])
    ++ (if negb (blank key) && negb (isCodexCredential key)
        then [(js "key", js "Codex credential must be a JSON object with access_token and account_id")]
        else []).

Definition vertex_issues (data : jsobj) : list issue :=
  let vertex := num_is 41 (field (js "type") data) in
  let kind := field (js "vertex_key_type") data in
  let key := opt_str (field (js "key") data) in
  (if vertex && str_is (js "json") kind && negb (blank key) && negb (isVertexJsonKey key)
   then [(js "key", js "Vertex AI service account key must be valid JSON")] else [])
  ++ (if vertex && str_is (js "api_key") kind && creates_many data
      then [(js "multi_key_mode", js "Vertex AI API Key mode does not support batch creation")] else []).

(** The issues that [superRefine] adds, in order. *)
Definition refine_issues (data : jsobj) : res (list issue) :=
  let* custom := advanced_custom_issues data in
  Ok (base_url_issues data ++ custom ++ other_issues data ++ codex_issues data ++ vertex_issues data).
End refinement.

(** ** Default values *)

Definition CHANNEL_FORM_DEFAULT_VALUES : jsobj :=
  let text := VStr [] in let no := VBool false in
  [ (js "name", text); (js "type", VNum (num_of_Z 1)); (js "base_url", text); (js "key", text);
    (js "openai_organization", text); (js "models", text); (js "group", VArr [VStr (js "default")]);
    (js "model_mapping", text); (js "priority", VNum nzero); (js "weight", VNum nzero);
    (js "test_model", text); (js "auto_ban", VNum (num_of_Z 1)); (js "status", VNum (num_of_Z 1));
    (js "status_code_mapping", text); (js "tag", text); (js "remark", text); (js "setting", text);
    (js "param_override", text); (js "header_override", text); (js "settings", VStr (js "{}"));
    (js "other", text); (js "multi_key_mode", VStr (js "single")); (js "multi_key_type", VStr (js "random"));
    (js "batch_add_set_key_prefix_2_name", no); (js "key_mode", VStr (js "append"));
    (js "force_format", no); (js "thinking_to_content", no); (js "proxy", text);
    (js "pass_through_body_enabled", no); (js "system_prompt", text); (js "system_prompt_override", no);
    (js "is_enterprise_account", no); (js "vertex_key_type", VStr (js "json"));
    (js "aws_key_type", VStr (js "ak_sk")); (js "azure_responses_version", text);
    (js "allow_service_tier", no); (js "disable_store", no); (js "allow_safety_identifier", no);
    (js "allow_include_obfuscation", no); (js "allow_inference_geo", no); (js "allow_speed", no);
    (js "claude_beta_query", no); (js "upstream_model_update_check_enabled", no);
    (js "upstream_model_update_auto_sync_enabled", no);
    (js "upstream_model_update_ignored_models", text); (js "advanced_custom", text) ].

(** ** Lists of models and groups *)

Definition parseModels (models : jstr) : list jstr := split_trim_filter models.
Definition parseGroups (groups : jstr) : list jstr := split_trim_filter groups.
Definition formatModels (models : list jstr) : jstr := join (js ",") models.
Definition formatGroups (groups : list jstr) : jstr := join (js ",") groups.

Definition validateJSON (value : jstr) : bool :=
  blank (Some value) || match json_parse value with Ok _ => true | Throw _ => false end.

Definition validateModelMapping (value : jstr) : bool := blank (Some value) || validateJSON value.

(** ** From the form to the stored texts *)

(** The fields of the [setting] text, each with its default. *)
Definition EXTRA_SETTINGS : jsobj :=
  [ (js "force_format", VBool false); (js "thinking_to_content", VBool false); (js "proxy", VStr []);
    (js "pass_through_body_enabled", VBool false); (js "system_prompt", VStr []);
    (js "system_prompt_override", VBool false) ].

(** [{ k: v.k || d, ... }] *)
Definition read_fields (fields : jsobj) (v : jsval) : res jsobj :=
  res_mapM (fun kd => let* x := vget kd.1 v in Ok (kd.1, vor x kd.2)) fields.

Definition buildSettingJSON (formData : jsobj) : res jstr :=
  let* o := read_fields EXTRA_SETTINGS (VObj formData) in Ok (stringify (VObj o)).

(** [if (b) o[k] = v; else if (k in o) delete o[k]] *)
Definition set_or_delete (b : bool) (k : jstr) (v : jsval) (o : jsobj) : jsobj :=
  if b then oset k v o else odelete k o.

Definition flag (k : jstr) (formData : jsobj) : jsval := VBool (is_true (field k formData)).

Definition MODEL_FETCHABLE_TYPES : list Z :=
  [1; 4; 14; 17; 20; 23; 24; 25; 26; 27; 31; 34; 35; 40; 42; 43; 47; 48]%Z.

Definition type_is (n : Z) (formData : jsobj) : bool := num_is n (field (js "type") formData).

(** Vertex AI, Azure, OpenRouter and AWS. *)
Definition provider_settings (f : jsobj) (o : jsobj) : jsobj :=
  let o := set_or_delete (type_is 41 f) (js "vertex_key_type")
             (vor (field (js "vertex_key_type") f) (VStr (js "json"))) o in
  let o := set_or_delete (type_is 3 f && truthy (field (js "azure_responses_version") f))
             (js "azure_responses_version") (field (js "azure_responses_version") f) o in
  let o := set_or_delete (type_is 20 f) (js "openrouter_enterprise") (flag (js "is_enterprise_account") f) o in
  set_or_delete (type_is 33 f) (js "aws_key_type") (vor (field (js "aws_key_type") f) (VStr (js "ak_sk"))) o.

(** The passthrough controls of OpenAI (1) and Anthropic (14). *)
Definition passthrough_settings (f : jsobj) (o : jsobj) : jsobj :=
  let o := set_or_delete (type_is 1 f || type_is 14 f) (js "allow_service_tier") (flag (js "allow_service_tier") f) o in
  let o := set_or_delete (type_is 1 f) (js "disable_store") (flag (js "disable_store") f) o in
  let o := set_or_delete (type_is 1 f) (js "allow_safety_identifier") (flag (js "allow_safety_identifier") f) o in
  let o := set_or_delete (type_is 1 f) (js "allow_include_obfuscation") (flag (js "allow_include_obfuscation") f) o in
  let o := if type_is 1 f then oset (js "allow_inference_geo") (flag (js "allow_inference_geo") f) o
           else if negb (type_is 14 f) then odelete (js "allow_inference_geo") o else o in
  let o := if type_is 14 f then oset (js "allow_inference_geo") (flag (js "allow_inference_geo") f) o else o in
  let o := set_or_delete (type_is 14 f) (js "allow_speed") (flag (js "allow_speed") f) o in
  set_or_delete (type_is 14 f) (js "claude_beta_query") (flag (js "claude_beta_query") f) o.

Definition ignored_models (f : jsobj) : res (list jstr) :=
  let* s := to_str (vor (field (js "upstream_model_update_ignored_models") f) (VStr [])) in
  Ok (dedup (split_trim_filter s)).

(** The settings of the upstream model check. *)
Definition upstream_settings (f : jsobj) (o : jsobj) : res jsobj :=
  if negb (one_of MODEL_FETCHABLE_TYPES (field (js "type") f)) then Ok o
  else
    let check := is_true (field (js "upstream_model_update_check_enabled") f) in
    let o := oset (js "upstream_model_update_check_enabled") (VBool check) o in
    let o := oset (js "upstream_model_update_auto_sync_enabled")
               (VBool (check && is_true (field (js "upstream_model_update_auto_sync_enabled") f))) o in
    let* models := ignored_models f in
    let o := oset (js "upstream_model_update_ignored_models") (VArr (map VStr models)) o in
    let o := if negb (is_array (oget (js "upstream_model_update_last_detected_models") o)) || negb check
             then oset (js "upstream_model_update_last_detected_models") (VArr []) o else o in
    Ok (match oget (js "upstream_model_update_last_check_time") o with
        | VNum _ => o
        | _ => oset (js "upstream_model_update_last_check_time") (VNum nzero) o
        end).

Definition custom_settings (f : jsobj) (o : jsobj) : jsobj :=
  if type_is CHANNEL_TYPE_ADVANCED_CUSTOM f then
    match parseAdvancedCustomConfig (opt_str (field (js "advanced_custom") f)) with
    | Some config => oset (js "advanced_custom") config o
    | None => o
    end
  else odelete (js "advanced_custom") o.

(** What the assignments and deletions do to the parsed settings. *)
Definition settings_object (f : jsobj) (o : jsobj) : res jsobj :=
  let* o := upstream_settings f (passthrough_settings f (provider_settings f o)) in
  Ok (custom_settings f o).

(** The settings the form holds: an unreadable text counts as [{}]. *)
Definition existing_settings (f : jsobj) : jsval :=
  let settings := field (js "settings") f in
  if truthy settings && negb (str_is (js "{}") settings)
  then catch (let* s := to_str settings in json_parse s) (VObj [])
  else VObj [].

(** The properties an array is given are not printed; a value that is no
    object has no properties to set. *)
Definition buildSettingsJSON (f : jsobj) : res jstr :=
  match existing_settings f with
  | VObj o => let* o := settings_object f o in Ok (stringify (VObj o))
  | VArr l => let* _ := settings_object f [] in Ok (stringify (VArr l))
  | _ => Throw TypeError
  end.

(** [s.replace(/\/+$/, '')] *)
Fixpoint drop_slashes (s : jstr) : jstr :=
  match s with c :: t => if c =? 47 then drop_slashes t else s | [] => [] end.
Definition strip_slashes (s : jstr) : jstr := rev (drop_slashes (rev s)).

Definition normalizeBaseUrl (value : jsval) : res jstr :=
  let* s := to_str (vor value (VStr [])) in Ok (strip_slashes (trim s)).

(** ** Payloads *)

Definition format_groups_field (group : jsval) : res jsval :=
  match group with
  | VArr _ => res_map VStr (to_str group)
  | _ => Throw TypeError
  end.

(** [Object.keys(o).forEach(...)]: empty strings become [null]. *)
Definition empty_to_null (o : jsobj) : jsobj :=
  map (fun kv => (kv.1, if str_is [] kv.2 then VNull else kv.2)) o.

(** [formData.k || null] and [formData.k || ''] *)
Definition or_null (k : jstr) (f : jsobj) : jsval := vor (field k f) VNull.
Definition or_empty (k : jstr) (f : jsobj) : jsval := vor (field k f) (VStr []).

(** The channel of a new form, before empty strings become [null]. *)
Definition create_fields (f : jsobj) (base_url : jstr) (group : jsval) (setting settings : jstr) : jsobj :=
  [ (js "name", field (js "name") f); (js "type", field (js "type") f);
    (js "base_url", vor (VStr base_url) VNull); (js "key", field (js "key") f);
    (js "openai_organization", or_null (js "openai_organization") f);
    (js "models", field (js "models") f); (js "group", group);
    (js "model_mapping", or_null (js "model_mapping") f);
    (js "priority", or_null (js "priority") f); (js "weight", or_null (js "weight") f);
    (js "test_model", or_null (js "test_model") f);
    (js "auto_ban", vcoalesce (field (js "auto_ban") f) (VNum (num_of_Z 1)));
    (js "status", field (js "status") f);
    (js "status_code_mapping", or_null (js "status_code_mapping") f);
    (js "tag", or_null (js "tag") f); (js "remark", or_empty (js "remark") f);
    (js "setting", VStr setting); (js "param_override", or_null (js "param_override") f);
    (js "header_override", or_null (js "header_override") f); (js "settings", VStr settings);
    (js "other", or_empty (js "other") f) ].

Record CreatePayload := MkCreate {
  mode : jsval; multi_key_mode : jsval; batch_add_set_key_prefix_2_name : jsval; channel : jsobj }.

Definition transformFormDataToCreatePayload (f : jsobj) : res CreatePayload :=
  let mode := vor (field (js "multi_key_mode") f) (VStr (js "single")) in
  let* base_url := normalizeBaseUrl (field (js "base_url") f) in
  let* group := format_groups_field (field (js "group") f) in
  let* setting := buildSettingJSON f in
  let* settings := buildSettingsJSON f in
  Ok (MkCreate mode
        (if str_is (js "multi_to_single") mode then field (js "multi_key_type") f else VUndef)
        (if str_is (js "batch") mode then field (js "batch_add_set_key_prefix_2_name") f else VUndef)
        (empty_to_null (create_fields f base_url group setting settings))).

(** The nullable fields are sent as strings, so that an update clears them. *)
Definition CLEARED_FIELDS : list jstr :=
  [js "openai_organization"; js "test_model"; js "tag"; js "remark"; js "model_mapping";
   js "status_code_mapping"; js "param_override"; js "header_override"].

Definition update_fields (f : jsobj) (channelId : num) (base_url : jstr) (group : jsval)
    (setting settings : jstr) : jsobj :=
  [ (js "id", VNum channelId); (js "name", field (js "name") f); (js "type", field (js "type") f);
    (js "base_url", vor (VStr base_url) VNull);
    (js "openai_organization", or_null (js "openai_organization") f);
    (js "models", field (js "models") f); (js "group", group);
    (js "model_mapping", or_null (js "model_mapping") f);
    (js "priority", vcoalesce (field (js "priority") f) (VNum nzero));
    (js "weight", vcoalesce (field (js "weight") f) (VNum nzero));
    (js "test_model", or_null (js "test_model") f);
    (js "auto_ban", vcoalesce (field (js "auto_ban") f) (VNum (num_of_Z 1)));
    (js "status", field (js "status") f);
    (js "status_code_mapping", or_null (js "status_code_mapping") f);
    (js "tag", or_null (js "tag") f); (js "remark", or_empty (js "remark") f);
    (js "setting", VStr setting); (js "param_override", or_null (js "param_override") f);
    (js "header_override", or_null (js "header_override") f); (js "settings", VStr settings);
    (js "other", or_empty (js "other") f) ].

(** [formData.key && formData.key.trim()] *)
Definition has_key (f : jsobj) : res bool :=
  let key := field (js "key") f in
  if truthy key then let* s := vtrim key in Ok (str_truthy s) else Ok false.

Definition transformFormDataToUpdatePayload (f : jsobj) (channelId : num) : res jsobj :=
  let* base_url := normalizeBaseUrl (field (js "base_url") f) in
  let* group := format_groups_field (field (js "group") f) in
  let* setting := buildSettingJSON f in
  let* settings := buildSettingsJSON f in
  let payload := update_fields f channelId base_url group setting settings in
  let* changed := has_key f in
  let payload := if changed then oset (js "key") (field (js "key") f) payload else payload in
  let payload := oset (js "base_url") (VStr base_url) (empty_to_null payload) in
  Ok (fold_left (fun o k => oset k (or_empty k f) o) CLEARED_FIELDS payload).

(** ** From the channel to the form *)

Definition extra_settings (setting : jsval) : jsobj :=
  if truthy setting
  then catch (let* s := to_str setting in let* parsed := json_parse s in read_fields EXTRA_SETTINGS parsed)
             EXTRA_SETTINGS
  else EXTRA_SETTINGS.

(** The flags of the form and the settings they are read from. *)
Definition SETTINGS_FLAGS : list (jstr * jstr) :=
  [ (js "is_enterprise_account", js "openrouter_enterprise");
    (js "allow_service_tier", js "allow_service_tier"); (js "disable_store", js "disable_store");
    (js "allow_safety_identifier", js "allow_safety_identifier");
    (js "allow_include_obfuscation", js "allow_include_obfuscation");
    (js "allow_inference_geo", js "allow_inference_geo"); (js "allow_speed", js "allow_speed");
    (js "claude_beta_query", js "claude_beta_query");
    (js "upstream_model_update_check_enabled", js "upstream_model_update_check_enabled");
    (js "upstream_model_update_auto_sync_enabled", js "upstream_model_update_auto_sync_enabled") ].

Definition SETTINGS_TEXTS : jsobj :=
  [ (js "vertex_key_type", VStr (js "json")); (js "azure_responses_version", VStr []);
    (js "aws_key_type", VStr (js "ak_sk")) ].

Definition settings_defaults : jsobj :=
  SETTINGS_TEXTS ++ map (fun kk => (kk.1, VBool false)) SETTINGS_FLAGS.

(** The variables assigned before the first statement that may throw on a
    value that has properties. *)
Definition plain_settings (parsed : jsval) : res jsobj :=
  let* texts := read_fields SETTINGS_TEXTS parsed in
  let* flags := res_mapM (fun kk => let* v := vget kk.2 parsed in Ok (kk.1, VBool (is_true v))) SETTINGS_FLAGS in
  Ok (texts ++ flags).

Definition read_ignored (parsed : jsval) : res jsval :=
  let* v := vget (js "upstream_model_update_ignored_models") parsed in
  match v with VArr _ => res_map VStr (to_str v) | _ => Ok (VStr []) end.

Definition read_advanced (parsed : jsval) : res jsval :=
  let* v := vget (js "advanced_custom") parsed in
  if truthy v then res_map VStr (stringifyAdvancedCustomConfig v) else Ok (VStr []).

Definition form_settings (plain : jsobj) (ignored advanced : jsval) : jsobj :=
  plain ++ [(js "upstream_model_update_ignored_models", ignored); (js "advanced_custom", advanced)].

(** A throw keeps what was assigned before it. *)
Definition type_settings (settings : jsval) : jsobj :=
  let parsed := if truthy settings then let* s := to_str settings in json_parse s else Throw SyntaxError in
  match parsed with
  | Throw _ => form_settings settings_defaults (VStr []) (VStr [])
  | Ok parsed =>
      match plain_settings parsed with
      | Throw _ => form_settings settings_defaults (VStr []) (VStr [])
      | Ok plain =>
          match read_ignored parsed with
          | Throw _ => form_settings plain (VStr []) (VStr [])
          | Ok ignored => form_settings plain ignored (catch (read_advanced parsed) (VStr []))
          end
      end
  end.

(** [parseGroups(group)]: only strings have [split]. *)
Definition parse_groups_field (group : jsval) : res jsval :=
  match group with
  | VStr s => Ok (VArr (map VStr (parseGroups s)))
  | _ => if truthy group then Throw TypeError else Ok (VArr [])
  end.

(** The fields of the form that are not read from the two stored texts. *)
Definition form_fields (c : jsobj) (group multi_key : jsval) : jsobj :=
  let zero k := vor (field k c) (VNum nzero) in
  [ (js "name", or_empty (js "name") c); (js "type", field (js "type") c);
    (js "base_url", or_empty (js "base_url") c); (js "key", VStr []);
    (js "openai_organization", or_empty (js "openai_organization") c);
    (js "models", or_empty (js "models") c); (js "group", group);
    (js "model_mapping", or_empty (js "model_mapping") c);
    (js "priority", zero (js "priority")); (js "weight", zero (js "weight"));
    (js "test_model", or_empty (js "test_model") c);
    (js "auto_ban", vcoalesce (field (js "auto_ban") c) (VNum (num_of_Z 1)));
    (js "status", field (js "status") c);
    (js "status_code_mapping", or_empty (js "status_code_mapping") c);
    (js "tag", or_empty (js "tag") c); (js "remark", or_empty (js "remark") c);
    (js "setting", or_empty (js "setting") c);
    (js "param_override", or_empty (js "param_override") c);
    (js "header_override", or_empty (js "header_override") c);
    (js "settings", vor (field (js "settings") c) (VStr (js "{}")));
    (js "other", or_empty (js "other") c);
    (js "multi_key_mode", VStr (js "single"));
    (js "multi_key_type", vor multi_key (VStr (js "random")));
    (js "batch_add_set_key_prefix_2_name", VBool false); (js "key_mode", VStr (js "append")) ].

Definition transformChannelToFormDefaults (c : jsobj) : res jsobj :=
  let* group := parse_groups_field (vor (field (js "group") c) (VStr (js "default"))) in
  let* multi_key := vget (js "multi_key_mode") (field (js "channel_info") c) in
  Ok (form_fields c group multi_key
      ++ extra_settings (field (js "setting") c) ++ type_settings (field (js "settings") c)).
