(* ===== verification/ChannelSettingsFacts.v ===== *)
(** * Facts on the settings of a channel

    What the [settings] text of a channel holds, and that reading it gives the
    settings of the form back. *)
From S2P Require Import Prelude JsString JsNumber JsValue JsValueFacts JsJson JsJsonFacts JsJsonRoundtrip JsStorable AdvancedCustom AdvancedCustomFacts ChannelForm.
Open Scope N_scope.

(** ** What the stored settings hold *)

Lemma storable_set_or_delete b k v o :
  forallb is_unit k = true -> (b = true -> printable v) -> storable o -> storable (set_or_delete b k v o).
Proof. destruct b; intros ? H ?; [apply storable_oset; auto|by apply storable_odelete]. Qed.

Lemma lookup_set_or_delete b k v o j :
  olookup j (set_or_delete b k v o)
  = if bool_decide (j = k) then (if b then Some v else None) else olookup j o.
Proof.
  destruct b; cbn [set_or_delete]; [apply olookup_oset|apply olookup_odelete].
Qed.

Lemma lookup_provider f o k :
  olookup k (provider_settings f o) =
  if bool_decide (k = js "aws_key_type") then
    if type_is 33 f then Some (vor (field (js "aws_key_type") f) (VStr (js "ak_sk"))) else None
  else if bool_decide (k = js "openrouter_enterprise") then
    if type_is 20 f then Some (flag (js "is_enterprise_account") f) else None
  else if bool_decide (k = js "azure_responses_version") then
    if type_is 3 f && truthy (field (js "azure_responses_version") f)
    then Some (field (js "azure_responses_version") f) else None
  else if bool_decide (k = js "vertex_key_type") then
    if type_is 41 f then Some (vor (field (js "vertex_key_type") f) (VStr (js "json"))) else None
  else olookup k o.
Proof. unfold provider_settings. by rewrite !lookup_set_or_delete. Qed.

Lemma lookup_passthrough f o k :
  olookup k (passthrough_settings f o) =
  if bool_decide (k = js "claude_beta_query") then
    if type_is 14 f then Some (flag (js "claude_beta_query") f) else None
  else if bool_decide (k = js "allow_speed") then
    if type_is 14 f then Some (flag (js "allow_speed") f) else None
  else if bool_decide (k = js "allow_inference_geo") then
    if type_is 1 f || type_is 14 f then Some (flag (js "allow_inference_geo") f) else None
  else if bool_decide (k = js "allow_include_obfuscation") then
    if type_is 1 f then Some (flag (js "allow_include_obfuscation") f) else None
  else if bool_decide (k = js "allow_safety_identifier") then
    if type_is 1 f then Some (flag (js "allow_safety_identifier") f) else None
  else if bool_decide (k = js "disable_store") then
    if type_is 1 f then Some (flag (js "disable_store") f) else None
  else if bool_decide (k = js "allow_service_tier") then
    if type_is 1 f || type_is 14 f then Some (flag (js "allow_service_tier") f) else None
  else olookup k o.
Proof.
  unfold passthrough_settings. cbv zeta. rewrite !lookup_set_or_delete.
  destruct (type_is 1 f), (type_is 14 f); cbn [negb orb];
    repeat first [rewrite olookup_oset|rewrite olookup_odelete|rewrite lookup_set_or_delete];
    by destruct (bool_decide (k = js "allow_inference_geo")).
Qed.

(** The keys that a channel type may add, change or remove. *)
Definition TYPED_KEYS : list jstr :=
  [js "vertex_key_type"; js "azure_responses_version"; js "openrouter_enterprise"; js "aws_key_type";
   js "allow_service_tier"; js "disable_store"; js "allow_safety_identifier"; js "allow_include_obfuscation";
   js "allow_inference_geo"; js "allow_speed"; js "claude_beta_query"].
Definition UPSTREAM_KEYS : list jstr :=
  [js "upstream_model_update_check_enabled"; js "upstream_model_update_auto_sync_enabled";
   js "upstream_model_update_ignored_models"; js "upstream_model_update_last_detected_models";
   js "upstream_model_update_last_check_time"].

Definition fetchable (f : jsobj) : bool := one_of MODEL_FETCHABLE_TYPES (field (js "type") f).

(** The check is on. *)
Definition checks (f : jsobj) : bool := is_true (field (js "upstream_model_update_check_enabled") f).

Definition detected_models (f : jsobj) (v : jsval) : jsval :=
  if negb (is_array v) || negb (checks f) then VArr [] else v.
Definition last_check_time (v : jsval) : jsval := match v with VNum _ => v | _ => VNum nzero end.

Lemma lookup_upstream f o o' :
  upstream_settings f o = Ok o' ->
  if fetchable f then
    exists models, ignored_models f = Ok models /\ forall k,
      oget k o' =
      if bool_decide (k = js "upstream_model_update_last_check_time") then last_check_time (oget k o)
      else if bool_decide (k = js "upstream_model_update_last_detected_models") then detected_models f (oget k o)
      else if bool_decide (k = js "upstream_model_update_ignored_models") then VArr (map VStr models)
      else if bool_decide (k = js "upstream_model_update_auto_sync_enabled")
      then VBool (checks f && is_true (field k f))
      else if bool_decide (k = js "upstream_model_update_check_enabled") then VBool (checks f)
      else oget k o
  else o' = o.
Proof.
  unfold upstream_settings. fold (fetchable f). destruct (fetchable f); cbn [negb]; [|by intros [= <-]].
  destruct (ignored_models f) as [models|]; [|done]. cbn [res_bind]. fold (checks f).
  set (o3 := oset (js "upstream_model_update_ignored_models") _ _).
  assert (H3 : forall k, oget k o3 =
    if bool_decide (k = js "upstream_model_update_ignored_models") then VArr (map VStr models)
    else if bool_decide (k = js "upstream_model_update_auto_sync_enabled")
    then VBool (checks f && is_true (field k f))
    else if bool_decide (k = js "upstream_model_update_check_enabled") then VBool (checks f)
    else oget k o).
  { intros k. unfold o3, oget. rewrite !olookup_oset. repeat case_bool_decide; by subst. }
  clearbody o3.
  assert (H4 : forall k, oget k (if negb (is_array (oget (js "upstream_model_update_last_detected_models") o3)) || negb (checks f)
      then oset (js "upstream_model_update_last_detected_models") (VArr []) o3 else o3) =
    if bool_decide (k = js "upstream_model_update_last_detected_models") then detected_models f (oget k o)
    else oget k o3).
  { intros k. unfold detected_models. rewrite (H3 (js "upstream_model_update_last_detected_models")).
    js_keys. case_bool_decide as E.
    - subst k. destruct (negb _ || negb _); [by rewrite oget_oset_eq|]. rewrite H3. by js_keys.
    - destruct (negb _ || negb _); [by rewrite oget_oset_ne|done]. }
  set (o4 := if _ || _ then oset _ (VArr []) o3 else o3) in *. clearbody o4. intros [= <-]. exists models. split; [done|]. intros k.
  rewrite <-(H3 k), <-(H4 k).
  assert (Ht : oget (js "upstream_model_update_last_check_time") o4
               = oget (js "upstream_model_update_last_check_time") o) by (rewrite H4, H3; by js_keys).
  rewrite Ht. unfold last_check_time. case_bool_decide as E; [subst k|].
  - by destruct (oget _ o) eqn:Eo; rewrite ?oget_oset_eq, ?Ht.
  - by destruct (oget (js "upstream_model_update_last_check_time") o); rewrite ?oget_oset_ne.
Qed.

Lemma oget_custom f o k :
  k <> js "advanced_custom" -> oget k (custom_settings f o) = oget k o.
Proof.
  intros Hk. unfold custom_settings, oget. destruct (type_is _ f).
  - destruct (parseAdvancedCustomConfig _); [by rewrite olookup_oset_ne|done].
  - by rewrite olookup_odelete, bool_decide_eq_false_2.
Qed.

Lemma oget_upstream f o o' k :
  upstream_settings f o = Ok o' -> k ∉ UPSTREAM_KEYS -> oget k o' = oget k o.
Proof.
  intros H Hk. apply lookup_upstream in H. destruct (fetchable f); [|by subst].
  destruct H as (models & _ & ->). unfold UPSTREAM_KEYS in Hk. rewrite !not_elem_of_cons in Hk.
  destruct Hk as (? & ? & ? & ? & ? & _). rewrite !bool_decide_eq_false_2 by assumption. reflexivity.
Qed.

Lemma settings_object_steps f o o' :
  settings_object f o = Ok o' ->
  exists u, upstream_settings f (passthrough_settings f (provider_settings f o)) = Ok u
            /\ o' = custom_settings f u.
Proof.
  unfold settings_object. destruct (upstream_settings _ _) as [u|]; [|done]. intros [= <-]. by exists u.
Qed.

Lemma oget_settings f o o' k :
  settings_object f o = Ok o' -> k ∉ UPSTREAM_KEYS -> k <> js "advanced_custom" ->
  oget k o' = oget k (passthrough_settings f (provider_settings f o)).
Proof.
  intros (u & Hu & ->)%settings_object_steps Hk Hc. rewrite oget_custom by done. by apply (oget_upstream f).
Qed.

(** Which settings belong to which channel types: [VUndef] is an absent key. *)
Definition typed_settings (f : jsobj) : jsobj :=
  let own (types : list Z) (v : jsval) := if one_of types (field (js "type") f) then v else VUndef in
  [ (js "vertex_key_type", own [41%Z] (vor (field (js "vertex_key_type") f) (VStr (js "json"))));
    (js "azure_responses_version",
     own [3%Z] (if truthy (field (js "azure_responses_version") f)
                then field (js "azure_responses_version") f else VUndef));
    (js "openrouter_enterprise", own [20%Z] (flag (js "is_enterprise_account") f));
    (js "aws_key_type", own [33%Z] (vor (field (js "aws_key_type") f) (VStr (js "ak_sk"))));
    (js "allow_service_tier", own [1; 14]%Z (flag (js "allow_service_tier") f));
    (js "disable_store", own [1%Z] (flag (js "disable_store") f));
    (js "allow_safety_identifier", own [1%Z] (flag (js "allow_safety_identifier") f));
    (js "allow_include_obfuscation", own [1%Z] (flag (js "allow_include_obfuscation") f));
    (js "allow_inference_geo", own [1; 14]%Z (flag (js "allow_inference_geo") f));
    (js "allow_speed", own [14%Z] (flag (js "allow_speed") f));
    (js "claude_beta_query", own [14%Z] (flag (js "claude_beta_query") f)) ].

Lemma oget_typed f o k v :
  (k, v) ∈ typed_settings f -> oget k (passthrough_settings f (provider_settings f o)) = v.
Proof.
  unfold oget. rewrite lookup_passthrough, lookup_provider.
  unfold typed_settings. cbv zeta. unfold one_of. cbn [existsb]. unfold type_is.
  rewrite !elem_of_cons, elem_of_nil.
  intros H; repeat (destruct H as [H|H]; [injection H as -> ->; js_keys;
    rewrite ?orb_false_r;
    repeat match goal with |- context [num_is ?n ?v] => destruct (num_is n v) end; cbn [orb andb];
    try (destruct (truthy (field (js "azure_responses_version") f))); reflexivity|]); done.
Qed.

Lemma oget_untyped f o k :
  k ∉ TYPED_KEYS -> oget k (passthrough_settings f (provider_settings f o)) = oget k o.
Proof.
  unfold TYPED_KEYS, oget. rewrite !not_elem_of_cons, lookup_passthrough, lookup_provider.
  intros (? & ? & ? & ? & ? & ? & ? & ? & ? & ? & ? & _).
  rewrite !bool_decide_eq_false_2 by assumption. reflexivity.
Qed.

Lemma typed_keys f k v : (k, v) ∈ typed_settings f -> k ∈ TYPED_KEYS.
Proof. intros H. change TYPED_KEYS with (map fst (typed_settings f)). apply list_elem_of_fmap. by exists (k, v). Qed.

Lemma typed_disjoint k : k ∈ TYPED_KEYS -> k ∉ UPSTREAM_KEYS /\ k <> js "advanced_custom".
Proof.
  assert (Forall (fun k => k ∉ UPSTREAM_KEYS /\ k <> js "advanced_custom") TYPED_KEYS) as H by decide_now.
  rewrite list.Forall_forall in H. apply H.
Qed.

(** The setting of an advanced custom channel. *)
Definition custom_setting (f : jsobj) (old : jsval) : jsval :=
  if type_is CHANNEL_TYPE_ADVANCED_CUSTOM f
  then default old (parseAdvancedCustomConfig (opt_str (field (js "advanced_custom") f)))
  else VUndef.

Lemma oget_custom_key f o :
  oget (js "advanced_custom") (custom_settings f o) = custom_setting f (oget (js "advanced_custom") o).
Proof.
  unfold custom_settings, custom_setting. destruct (type_is _ f).
  - destruct (parseAdvancedCustomConfig _); [by rewrite oget_oset_eq|done].
  - unfold oget. by rewrite olookup_odelete, bool_decide_eq_true_2.
Qed.

(** The settings of the upstream model check. *)
Definition upstream_setting (f : jsobj) (models : list jstr) (old : jsobj) : jsobj :=
  [ (js "upstream_model_update_check_enabled", VBool (checks f));
    (js "upstream_model_update_auto_sync_enabled",
     VBool (checks f && is_true (field (js "upstream_model_update_auto_sync_enabled") f)));
    (js "upstream_model_update_ignored_models", VArr (map VStr models));
    (js "upstream_model_update_last_detected_models",
     detected_models f (oget (js "upstream_model_update_last_detected_models") old));
    (js "upstream_model_update_last_check_time",
     last_check_time (oget (js "upstream_model_update_last_check_time") old)) ].

Lemma oget_upstream_keys f o u models k v :
  upstream_settings f (passthrough_settings f (provider_settings f o)) = Ok u -> fetchable f = true ->
  ignored_models f = Ok models -> (k, v) ∈ upstream_setting f models o -> oget k u = v.
Proof.
  intros H Hf Hm Hk. apply lookup_upstream in H. rewrite Hf in H. destruct H as (models' & E & H).
  rewrite Hm in E. injection E as <-. rewrite H. revert Hk. unfold upstream_setting.
  rewrite !elem_of_cons, elem_of_nil.
  intros [Hk|[Hk|[Hk|[Hk|[Hk|[]]]]]]; injection Hk as -> ->; js_keys; try reflexivity.
  all: rewrite oget_untyped; [reflexivity|decide_now].
Qed.

Lemma upstream_keys f models o k v : (k, v) ∈ upstream_setting f models o -> k ∈ UPSTREAM_KEYS.
Proof.
  intros H. assert (map fst (upstream_setting f models o) = UPSTREAM_KEYS) as <- by reflexivity.
  apply list_elem_of_fmap. exists (k, v). by split.
Qed.

Section stored.
Context (f o o' : jsobj) (Hset : settings_object f o = Ok o').

Lemma settings_typed k v : (k, v) ∈ typed_settings f -> oget k o' = v.
Proof.
  intros Hk. destruct (typed_disjoint k (typed_keys f k v Hk)).
  rewrite (oget_settings f o) by done. by apply oget_typed.
Qed.

Lemma settings_upstream :
  if fetchable f
  then exists models, ignored_models f = Ok models
         /\ forall k v, (k, v) ∈ upstream_setting f models o -> oget k o' = v
  else forall k, k ∈ UPSTREAM_KEYS -> oget k o' = oget k o.
Proof.
  destruct (settings_object_steps _ _ _ Hset) as (u & Hu & Eu).
  assert (Hc : forall k, k ∈ UPSTREAM_KEYS -> oget k o' = oget k u).
  { intros k Hk. subst o'. apply oget_custom. intros ->. revert Hk. decide_now. }
  destruct (fetchable f) eqn:Ef.
  - pose proof (lookup_upstream _ _ _ Hu) as Hl. rewrite Ef in Hl. destruct Hl as (models & Hm & _).
    exists models. split; [done|]. intros k v Hk. rewrite Hc.
    + exact (oget_upstream_keys f o u models k v Hu Ef Hm Hk).
    + exact (upstream_keys f models o k v Hk).
  - intros k Hk. rewrite Hc by done. apply lookup_upstream in Hu. rewrite Ef in Hu. subst u.
    apply oget_untyped. intros Ht. by destruct (typed_disjoint k Ht).
Qed.

Lemma settings_custom :
  oget (js "advanced_custom") o' = custom_setting f (oget (js "advanced_custom") o).
Proof.
  destruct (settings_object_steps _ _ _ Hset) as (u & Hu & ->).
  rewrite oget_custom_key. f_equal.
  rewrite (oget_upstream f _ _ _ Hu) by decide_now. apply oget_untyped. decide_now.
Qed.
End stored.

(** What [buildSettingsJSON] stores: every setting that belongs to a
    channel type is there for that type, with the form's value, and absent for
    every other type; the settings of the upstream check are the form's for
    the types that can list models and untouched for the others, a list of
    detected models being dropped when the check is off; the routes are those
    of the form; and every other key keeps its value. *)
Theorem stored_settings_spec (f o o' : jsobj) :
  settings_object f o = Ok o' ->
  (forall k v, (k, v) ∈ typed_settings f -> oget k o' = v)
  /\ (if fetchable f
      then exists models, ignored_models f = Ok models
             /\ forall k v, (k, v) ∈ upstream_setting f models o -> oget k o' = v
      else forall k, k ∈ UPSTREAM_KEYS -> oget k o' = oget k o)
  /\ oget (js "advanced_custom") o' = custom_setting f (oget (js "advanced_custom") o)
  /\ (forall k, k ∉ TYPED_KEYS -> k ∉ UPSTREAM_KEYS -> k <> js "advanced_custom" -> oget k o' = oget k o).
Proof.
  intros H. split_and!; [by apply (settings_typed f o)|by apply settings_upstream|by apply settings_custom|].
  intros k H1 H2 H3. rewrite (oget_settings f o) by done. by apply oget_untyped.
Qed.

(** ** Reading the stored settings *)

(** The texts the form writes into the settings can be printed. *)
Definition form_printable (f : jsobj) : Prop :=
  (forall k, k ∈ [js "vertex_key_type"; js "azure_responses_version"; js "aws_key_type"] ->
     truthy (field k f) = true -> printable (field k f))
  /\ (forall models, ignored_models f = Ok models -> Forall (fun s => forallb is_unit s = true) models)
  /\ (forall c, parseAdvancedCustomConfig (opt_str (field (js "advanced_custom") f)) = Some c -> printable c).

Lemma printable_vor v s : (truthy v = true -> printable v) -> forallb is_unit s = true -> printable (vor v (VStr s)).
Proof. unfold vor. destruct (truthy v); [auto|]. by intros _ H. Qed.

Lemma storable_provider f o : form_printable f -> storable o -> storable (provider_settings f o).
Proof.
  intros (Ht & _ & _) Ho. unfold provider_settings. cbv zeta.
  repeat (apply storable_set_or_delete; [reflexivity|intros Hb|]); try done.
  - apply printable_vor; [apply Ht; decide_now|reflexivity].
  - apply andb_true_iff in Hb as [_ Hb]. apply Ht; [decide_now|done].
  - apply printable_vor; [apply Ht; decide_now|reflexivity].
Qed.

Lemma storable_passthrough f o : storable o -> storable (passthrough_settings f o).
Proof.
  intros Ho. unfold passthrough_settings. cbv zeta.
  repeat first [apply storable_set_or_delete; [reflexivity|intros; apply printable_bool|]];
    destruct (type_is 1 f), (type_is 14 f); cbn [negb];
    repeat first [apply storable_oset; [reflexivity|apply printable_bool|]
                 |apply storable_odelete
                 |apply storable_set_or_delete; [reflexivity|intros; apply printable_bool|]]; done.
Qed.

Lemma storable_upstream f o u :
  form_printable f -> storable o -> upstream_settings f o = Ok u -> storable u.
Proof.
  intros (_ & Hm & _) Ho. unfold upstream_settings. destruct (one_of _ _); cbn [negb]; [|by intros [= <-]].
  destruct (ignored_models f) as [models|]; [|done]. cbn [res_bind].
  set (o3 := oset (js "upstream_model_update_ignored_models") _ _).
  assert (storable o3) as H3.
  { unfold o3. repeat (apply storable_oset; [reflexivity| |]); try done. apply printable_strings. by apply Hm. }
  set (o4 := if _ || _ then _ else _).
  assert (storable o4) as H4.
  { unfold o4. destruct (negb _ || negb _); [|done]. by apply storable_oset. }
  intros [= <-]. assert (storable (oset (js "upstream_model_update_last_check_time") (VNum nzero) o4)).
  { by apply storable_oset. }
  by destruct (oget _ o4).
Qed.

Lemma storable_settings f o o' :
  form_printable f -> storable o -> settings_object f o = Ok o' -> storable o'.
Proof.
  intros Hf Ho (u & Hu & ->)%settings_object_steps.
  assert (storable u) as Hs.
  { eapply storable_upstream; [done| |done]. apply storable_passthrough. by apply storable_provider. }
  unfold custom_settings. destruct (type_is _ f); [|by apply storable_odelete].
  destruct (parseAdvancedCustomConfig _) eqn:E; [|done]. apply storable_oset; [reflexivity| |done].
  destruct Hf as (_ & _ & Hc). by apply Hc.
Qed.

Lemma oget_same a b k : okeys_nodup b -> a = obj_of b -> oget k a = oget k b.
Proof. intros H ->. unfold oget. by rewrite olookup_obj_of. Qed.

(** The variables that are read without a throw. *)
Definition plain_of (o : jsobj) : jsobj :=
  map (fun kd => (kd.1, vor (oget kd.1 o) kd.2)) SETTINGS_TEXTS
  ++ map (fun kk => (kk.1, VBool (is_true (oget kk.2 o)))) SETTINGS_FLAGS.

Lemma plain_settings_obj o : plain_settings (VObj o) = Ok (plain_of o).
Proof. reflexivity. Qed.

Lemma type_settings_stored o :
  storable o ->
  exists a, (forall k, oget k a = oget k o)
  /\ type_settings (VStr (stringify (VObj o)))
     = match read_ignored (VObj a) with
       | Throw _ => form_settings (plain_of a) (VStr []) (VStr [])
       | Ok i => form_settings (plain_of a) i (catch (read_advanced (VObj a)) (VStr []))
       end.
Proof.
  intros Ho. exists (obj_of o). split.
  - intros k. apply (oget_same _ o); [|done]. by destruct Ho.
  - unfold type_settings. rewrite truthy_stringify. cbn [to_str res_bind]. rewrite storable_json by done. by rewrite plain_settings_obj.
Qed.

(** What the form shows: a flag is on when the channel type has it and it was
    set, a text of another channel type is its default. *)
Definition shown_flags (f : jsobj) : list (jstr * bool) :=
  let own (types : list Z) (k : jstr) := (k, one_of types (field (js "type") f) && is_true (field k f)) in
  [ own [20%Z] (js "is_enterprise_account"); own [1; 14]%Z (js "allow_service_tier");
    own [1%Z] (js "disable_store"); own [1%Z] (js "allow_safety_identifier");
    own [1%Z] (js "allow_include_obfuscation"); own [1; 14]%Z (js "allow_inference_geo");
    own [14%Z] (js "allow_speed"); own [14%Z] (js "claude_beta_query") ].

Definition shown_texts (f : jsobj) : jsobj :=
  let own (types : list Z) (k d : jstr) :=
    (k, if one_of types (field (js "type") f) then vor (field k f) (VStr d) else VStr d) in
  [ own [41%Z] (js "vertex_key_type") (js "json"); own [3%Z] (js "azure_responses_version") [];
    own [33%Z] (js "aws_key_type") (js "ak_sk") ].

Lemma flag_shown (b : bool) k f : is_true (if b then flag k f else VUndef) = b && is_true (field k f).
Proof. by destruct b; cbn; destruct (is_true (field k f)). Qed.

Lemma vor_default (b : bool) v s : vor (if b then vor v (VStr s) else VUndef) (VStr s) = if b then vor v (VStr s) else VStr s.
Proof. destruct b; [apply vor_idemp|done]. Qed.

Lemma plain_flags f o a i adv k b :
  (forall k v, (k, v) ∈ typed_settings f -> oget k o = v) -> (forall k, oget k a = oget k o) ->
  (k, b) ∈ shown_flags f -> oget k (form_settings (plain_of a) i adv) = VBool b.
Proof.
  intros Ho Ha. unfold shown_flags. cbv beta zeta. rewrite !elem_of_cons, elem_of_nil.
  assert (Hflag : forall (n : nat) sk fk ts,
    typed_settings f !! n = Some (sk, if one_of ts (field (js "type") f) then flag fk f else VUndef) ->
    VBool (is_true (oget sk a)) = VBool (one_of ts (field (js "type") f) && is_true (field fk f))).
  { intros n sk fk ts H%list_elem_of_lookup_2. rewrite Ha, (Ho _ _ H). by rewrite flag_shown. }
  intros H; repeat (destruct H as [H|H]; [injection H as -> ->|]); [..|done].
  - exact (Hflag 2%nat (js "openrouter_enterprise") (js "is_enterprise_account") [20]%Z eq_refl).
  - exact (Hflag 4%nat (js "allow_service_tier") (js "allow_service_tier") [1; 14]%Z eq_refl).
  - exact (Hflag 5%nat (js "disable_store") (js "disable_store") [1]%Z eq_refl).
  - exact (Hflag 6%nat (js "allow_safety_identifier") (js "allow_safety_identifier") [1]%Z eq_refl).
  - exact (Hflag 7%nat (js "allow_include_obfuscation") (js "allow_include_obfuscation") [1]%Z eq_refl).
  - exact (Hflag 8%nat (js "allow_inference_geo") (js "allow_inference_geo") [1; 14]%Z eq_refl).
  - exact (Hflag 9%nat (js "allow_speed") (js "allow_speed") [14]%Z eq_refl).
  - exact (Hflag 10%nat (js "claude_beta_query") (js "claude_beta_query") [14]%Z eq_refl).
Qed.

Lemma vor_azure (b : bool) v :
  vor (if b then (if truthy v then v else VUndef) else VUndef) (VStr [])
  = if b then vor v (VStr []) else VStr [].
Proof. destruct b; [|done]. unfold vor. destruct (truthy v) eqn:E; [by rewrite E|done]. Qed.

Lemma plain_texts f o a i adv k v :
  (forall k v, (k, v) ∈ typed_settings f -> oget k o = v) -> (forall k, oget k a = oget k o) ->
  (k, v) ∈ shown_texts f -> oget k (form_settings (plain_of a) i adv) = v.
Proof.
  intros Ho Ha. unfold shown_texts. cbv beta zeta. rewrite !elem_of_cons, elem_of_nil.
  assert (Htext : forall (n : nat) sk x d w,
    typed_settings f !! n = Some (sk, x) -> vor x d = w -> vor (oget sk a) d = w).
  { intros n sk x d w H%list_elem_of_lookup_2 <-. by rewrite Ha, (Ho _ _ H). }
  intros H; repeat (destruct H as [H|H]; [injection H as -> ->|]); [..|done].
  - exact (Htext 0%nat (js "vertex_key_type") _ _ _ eq_refl (vor_default _ _ _)).
  - exact (Htext 1%nat (js "azure_responses_version") _ _ _ eq_refl (vor_azure _ _)).
  - exact (Htext 3%nat (js "aws_key_type") _ _ _ eq_refl (vor_default _ _ _)).
Qed.

Lemma to_str_strings l : to_str (VArr (map VStr l)) = Ok (join (js ",") l).
Proof.
  cbn [to_str]. match goal with |- res_map _ ?c = _ => enough (c = Ok l) as -> by done end.
  induction l as [|x l' IH]; [done|]. cbn [map to_str res_bind]. by rewrite IH.
Qed.

Lemma parsed_config_printed v c :
  parseAdvancedCustomConfig v = Some c -> truthy c = true /\ stringifyAdvancedCustomConfig c = Ok (stringify2 c).
Proof.
  unfold parseAdvancedCustomConfig. destruct (trim _); [done|]. destruct (json_parse _) as [p|]; [|done].
  destruct p; try done. cbn [res_bind]. destruct (normalizeAdvancedCustomConfig _) as [c'|] eqn:E; [|done].
  intros [= <-]. destruct (normalize_config_shape _ _ E) as (rs & -> & Hl). split; [done|].
  unfold stringifyAdvancedCustomConfig. by rewrite normalize_config_object.
Qed.

(** What is shown of the stored list of ignored models. *)
Definition kept_ignored (o : jsobj) : res jsval := read_ignored (VObj o).

(** For a type that cannot list models the stored list stays, and joining it
    can throw, which ends the reading of the settings there. *)
Definition unreadable (f o : jsobj) : bool :=
  negb (fetchable f) && match kept_ignored o with Ok _ => false | Throw _ => true end.

Lemma read_ignored_stored f o o' a :
  settings_object f o = Ok o' -> (forall k, oget k a = oget k o') ->
  if fetchable f then exists models, ignored_models f = Ok models /\ read_ignored (VObj a) = Ok (VStr (join (js ",") models))
  else read_ignored (VObj a) = kept_ignored o.
Proof.
  intros Hs Ha. unfold kept_ignored, read_ignored. cbn [vget res_bind]. rewrite Ha.
  pose proof (settings_upstream f o o' Hs) as Hu. destruct (fetchable f).
  - destruct Hu as (models & Hm & Hu). exists models. split; [done|].
    rewrite (Hu _ _ (list_elem_of_lookup_2 (upstream_setting f models o) 2 _ eq_refl)). by rewrite to_str_strings.
  - by rewrite Hu by decide_now.
Qed.

(** C17.  Storing the settings of a form and loading them shows the same
    settings: the flags and texts of the channel's type as they were entered,
    those of the other types with their defaults; the upstream check as it was
    entered with the ignored models deduplicated, for the types that can list
    models, and as it was stored before for the others, where nothing clears
    it; and the routes of a custom channel in their normal form (unless
    joining such an old list of ignored models throws), none for another.
    What was stored has to be an object of values that JSON prints back, and
    the texts of the form have to be texts. *)
Theorem settings_read_back (f o : jsobj) (text : jstr) :
  existing_settings f = VObj o -> storable o -> form_printable f ->
  buildSettingsJSON f = Ok text ->
  let shown := type_settings (VStr text) in
  (forall k b, (k, b) ∈ shown_flags f -> oget k shown = VBool b)
  /\ (forall k v, (k, v) ∈ shown_texts f -> oget k shown = v)
  /\ (fetchable f = true ->
        oget (js "upstream_model_update_check_enabled") shown = VBool (checks f)
        /\ oget (js "upstream_model_update_auto_sync_enabled") shown
           = VBool (checks f && is_true (field (js "upstream_model_update_auto_sync_enabled") f))
        /\ exists models, ignored_models f = Ok models
             /\ oget (js "upstream_model_update_ignored_models") shown = VStr (join (js ",") models))
  /\ (fetchable f = false ->
        oget (js "upstream_model_update_check_enabled") shown
        = VBool (is_true (oget (js "upstream_model_update_check_enabled") o))
        /\ oget (js "upstream_model_update_auto_sync_enabled") shown
           = VBool (is_true (oget (js "upstream_model_update_auto_sync_enabled") o))
        /\ oget (js "upstream_model_update_ignored_models") shown = catch (kept_ignored o) (VStr []))
  /\ (type_is CHANNEL_TYPE_ADVANCED_CUSTOM f = false -> oget (js "advanced_custom") shown = VStr [])
  /\ (forall c, type_is CHANNEL_TYPE_ADVANCED_CUSTOM f = true ->
        parseAdvancedCustomConfig (opt_str (field (js "advanced_custom") f)) = Some c ->
        oget (js "advanced_custom") shown = if unreadable f o then VStr [] else VStr (stringify2 c)).
Proof.
  intros He Ho Hf. unfold buildSettingsJSON. rewrite He.
  destruct (settings_object f o) as [o'|] eqn:Es; [|done]. intros [= <-]. cbv zeta.
  destruct (type_settings_stored o') as (a & Ha & ->); [by eapply storable_settings|].
  pose proof (read_ignored_stored f o o' a Es Ha) as Hi.
  set (i := catch (read_ignored (VObj a)) (VStr [])).
  set (adv := match read_ignored (VObj a) with Ok _ => catch (read_advanced (VObj a)) (VStr []) | Throw _ => VStr [] end).
  replace (match read_ignored (VObj a) with Ok i => _ | Throw _ => _ end) with (form_settings (plain_of a) i adv)
    by (unfold i, adv; by destruct (read_ignored (VObj a))).
  assert (Hadv : catch (read_advanced (VObj a)) (VStr []) = catch (if truthy (custom_setting f (oget (js "advanced_custom") o))
    then res_map VStr (stringifyAdvancedCustomConfig (custom_setting f (oget (js "advanced_custom") o)))
    else Ok (VStr [])) (VStr [])).
  { unfold read_advanced. cbn [vget res_bind]. by rewrite Ha, (settings_custom f o o' Es). }
  pose proof (settings_upstream f o o' Es) as Hu. split; [|split; [|split; [|split; [|split]]]].
  - intros k b. apply (plain_flags f o'); [by apply (settings_typed f o)|done].
  - intros k v. apply (plain_texts f o'); [by apply (settings_typed f o)|done].
  - intros Hfe. rewrite Hfe in Hu, Hi. destruct Hu as (models & Hm & Hu). destruct Hi as (models' & Hm' & Ei).
    rewrite Hm in Hm'. injection Hm' as <-. split_and!.
    + change (VBool (is_true (oget (js "upstream_model_update_check_enabled") a)) = VBool (checks f)).
      by rewrite Ha, (Hu _ _ (list_elem_of_lookup_2 (upstream_setting f models o) 0 _ eq_refl)); destruct (checks f).
    + change (VBool (is_true (oget (js "upstream_model_update_auto_sync_enabled") a))
              = VBool (checks f && is_true (field (js "upstream_model_update_auto_sync_enabled") f))).
      by rewrite Ha, (Hu _ _ (list_elem_of_lookup_2 (upstream_setting f models o) 1 _ eq_refl)); destruct (checks f && _).
    + exists models. split; [done|]. change (i = VStr (join (js ",") models)). unfold i. by rewrite Ei.
  - intros Hfe. rewrite Hfe in Hu, Hi. split_and!.
    + change (VBool (is_true (oget (js "upstream_model_update_check_enabled") a))
              = VBool (is_true (oget (js "upstream_model_update_check_enabled") o))). by rewrite Ha, Hu by decide_now.
    + change (VBool (is_true (oget (js "upstream_model_update_auto_sync_enabled") a))
              = VBool (is_true (oget (js "upstream_model_update_auto_sync_enabled") o))). by rewrite Ha, Hu by decide_now.
    + change (i = catch (kept_ignored o) (VStr [])). unfold i. by rewrite Hi.
  - intros Ht. change (adv = VStr []). unfold adv. rewrite Hadv. unfold custom_setting. rewrite Ht. by destruct (read_ignored (VObj a)).
  - intros c Ht Hc. change (adv = if unreadable f o then VStr [] else VStr (stringify2 c)). unfold adv, unreadable. rewrite Hadv.
    unfold custom_setting. rewrite Ht, Hc. cbn [default from_option id]. unfold id.
    destruct (parsed_config_printed _ _ Hc) as [-> ->].
    destruct (fetchable f); [destruct Hi as (models & _ & ->)|rewrite Hi; destruct (kept_ignored o)]; done.
Qed.

(** ** A form *)

Definition sample_form : jsobj :=
  fold_left (fun o kv => oset kv.1 kv.2 o)
    [ (js "name", VStr (js "main")); (js "type", VNum (num_of_Z 14)); (js "models", VStr (js "claude-3,gpt-4"));
      (js "base_url", VStr (js " https://api.example.com/ ")); (js "priority", VNum (num_of_Z 2));
      (js "settings", VStr (jsq "{`vertex_key_type`:`json`,`note`:`keep`,`allow_speed`:false}"));
      (js "allow_speed", VBool true); (js "allow_inference_geo", VBool true); (js "disable_store", VBool true);
      (js "upstream_model_update_check_enabled", VBool true);
      (js "upstream_model_update_ignored_models", VStr (js "a, b,a")); (js "proxy", VStr (js "socks5://x")) ]
    CHANNEL_FORM_DEFAULT_VALUES.

Definition sample_old : jsobj := match existing_settings sample_form with VObj o => o | _ => [] end.
Definition sample_stored : jsobj := catch (settings_object sample_form sample_old) [].
Definition sample_text : jstr := catch (buildSettingsJSON sample_form) [].

Lemma sample_printable : form_printable sample_form.
Proof.
  split_and!.
  - intros k Hk _. revert k Hk. apply list.Forall_forall.
    repeat (apply List.Forall_cons; [split; vm_compute; constructor|]). apply List.Forall_nil.
  - intros models H. vm_compute in H. injection H as <-.
    repeat (apply List.Forall_cons; [vm_compute; reflexivity|]). apply List.Forall_nil.
  - intros c H. vm_compute in H. discriminate.
Defined.

Lemma sample_storable : storable sample_old.
Proof.
  split; [unfold okeys_nodup; decide_now|].
  let l := eval vm_compute in sample_old in replace sample_old with l by (vm_compute; reflexivity).
  repeat (apply List.Forall_cons; [split; [vm_compute; reflexivity|split; vm_compute; constructor]|]).
  apply List.Forall_nil.
Defined.

Lemma stored_settings_spec_witness :
  settings_object sample_form sample_old = Ok sample_stored
  /\ oget (js "note") sample_stored = VStr (js "keep")
  /\ oget (js "allow_speed") sample_stored = VBool true /\ oget (js "vertex_key_type") sample_stored = VUndef.
Proof.
  assert (H : settings_object sample_form sample_old = Ok sample_stored) by (vm_compute; reflexivity).
  destruct (stored_settings_spec sample_form sample_old sample_stored H) as (Ht & _ & _ & Hk).
  split; [exact H|]. split; [|split].
  - rewrite (Hk (js "note")) by decide_now. vm_compute. reflexivity.
  - apply Ht. apply (list_elem_of_lookup_2 _ 9). vm_compute. reflexivity.
  - apply Ht. apply (list_elem_of_lookup_2 _ 0). vm_compute. reflexivity.
Defined.

Lemma settings_read_back_witness :
  buildSettingsJSON sample_form = Ok sample_text
  /\ oget (js "allow_speed") (type_settings (VStr sample_text)) = VBool true
  /\ oget (js "disable_store") (type_settings (VStr sample_text)) = VBool false.
Proof.
  assert (H : buildSettingsJSON sample_form = Ok sample_text) by (vm_compute; reflexivity).
  assert (He : existing_settings sample_form = VObj sample_old) by (vm_compute; reflexivity).
  destruct (settings_read_back sample_form sample_old sample_text He sample_storable sample_printable H)
    as (Hf & _).
  split; [exact H|]. split; apply Hf.
  - apply (list_elem_of_lookup_2 _ 6). vm_compute. reflexivity.
  - apply (list_elem_of_lookup_2 _ 2). vm_compute. reflexivity.
Defined.
