(* ===== verification/ChannelFormFacts.v ===== *)
(** * Facts on the payloads of the channel form

    That a channel created from a form shows the form again, what an update
    sends, and what the schema guarantees about the stored routes. *)
From S2P Require Import Prelude JsString JsNumber JsValue JsValueFacts JsJson JsJsonFacts JsJsonRoundtrip JsStorable JsLiteral AdvancedCustom AdvancedCustomFacts ChannelForm ChannelSettingsFacts.
Open Scope N_scope.

Lemma read_fields_obj fields o :
  read_fields fields (VObj o) = Ok (map (fun kd => (kd.1, vor (field kd.1 o) kd.2)) fields).
Proof.
  unfold read_fields. induction fields as [|kd fields IH]; [done|].
  cbn [res_mapM map]. by rewrite IH.
Qed.

(** The fields of the [setting] text are there again. *)
Lemma setting_read_back f text :
  (forall k, k ∈ map fst EXTRA_SETTINGS -> truthy (field k f) = true -> printable (field k f)) ->
  buildSettingJSON f = Ok text ->
  extra_settings (VStr text) = map (fun kd => (kd.1, vor (field kd.1 f) kd.2)) EXTRA_SETTINGS.
Proof.
  intros Hp. unfold buildSettingJSON. rewrite read_fields_obj. cbn [res_bind]. intros <-%Ok_inj.
  set (es := map _ EXTRA_SETTINGS).
  assert (Hk : map fst es = map fst EXTRA_SETTINGS) by exact (keys_map (fun kd => vor (field kd.1 f) kd.2) EXTRA_SETTINGS).
  assert (Hes : forall kd, kd ∈ EXTRA_SETTINGS ->
    forallb is_unit kd.1 = true /\ printable kd.2 /\ truthy kd.2 = false).
  { apply list.Forall_forall. unfold EXTRA_SETTINGS. by repeat constructor. }
  assert (Hs : storable es).
  { split; [unfold okeys_nodup, okeys; rewrite Hk; decide_now|].
    apply list.Forall_forall. intros kv (kd & -> & Hkd)%list_elem_of_fmap. cbn [fst snd].
    destruct (Hes kd Hkd) as (Hu & Hd & _). split; [done|]. unfold vor.
    destruct (truthy (field kd.1 f)) eqn:E; [|done]. apply Hp; [|done].
    apply list_elem_of_fmap. by exists kd. }
  unfold extra_settings. rewrite truthy_stringify. cbn [to_str res_bind].
  rewrite storable_json by done. cbn [res_bind]. rewrite read_fields_obj. cbn [catch].
  unfold es at 2. apply map_ext_in. intros kd Hkd. f_equal.
  unfold field. rewrite (oget_same _ es) by (done || by destruct Hs).
  apply list_elem_of_In in Hkd. rewrite (oget_lookup _ (vor (field kd.1 f) kd.2)).
  - apply vor_idemp.
  - apply (olookup_map_nodup kd); [|done]. decide_now.
Qed.

(** ** Payloads *)

Definition null_if_empty (v : jsval) : jsval := if str_is [] v then VNull else v.

(** The text fields that both directions carry over. *)
Definition STRING_FIELDS : list jstr :=
  [js "name"; js "openai_organization"; js "models"; js "model_mapping"; js "test_model";
   js "status_code_mapping"; js "tag"; js "remark"; js "param_override"; js "header_override"; js "other"].

Lemma oget_empty_to_null k o : oget k (empty_to_null o) = null_if_empty (oget k o).
Proof.
  unfold oget, empty_to_null. induction o as [|[k' v] o IH].
  - cbn [map olookup default from_option]. unfold inherited. by destruct (bool_decide _).
  - cbn [map olookup fst snd]. by destruct (bool_decide (k = k')).
Qed.

Section stored_channel.
Context (f : jsobj) (base : jstr) (group : jsval) (setting settings : jstr) (info : jsval).

(** The channel that the server lists once it stored the payload. *)
Definition stored_channel : jsobj :=
  oset (js "channel_info") info (empty_to_null (create_fields f base group setting settings)).

Lemma oget_stored k :
  k <> js "channel_info" ->
  oget k stored_channel = null_if_empty (oget k (create_fields f base group setting settings)).
Proof. intros H. unfold stored_channel. by rewrite oget_oset_ne, oget_empty_to_null. Qed.

Lemma string_sent k s :
  k ∈ STRING_FIELDS -> field k f = VStr s ->
  vor (oget k (create_fields f base group setting settings)) (VStr []) = VStr s.
Proof.
  unfold STRING_FIELDS. rewrite !elem_of_cons, elem_of_nil.
  assert (H1 : vor (VStr s) (VStr []) = VStr s) by (by destruct s).
  assert (H2 : vor (vor (VStr s) VNull) (VStr []) = VStr s) by (by destruct s).
  assert (H3 : vor (vor (VStr s) (VStr [])) (VStr []) = VStr s) by (by destruct s).
  intros Hk Hs; repeat (destruct Hk as [->|Hk];
    [first [rewrite <-H1, <-Hs; reflexivity|rewrite <-H2, <-Hs; reflexivity|rewrite <-H3, <-Hs; reflexivity]|]); done.
Qed.

Lemma null_if_empty_shown v : vor (null_if_empty v) (VStr []) = vor v (VStr []).
Proof. by destruct v as [| | | |[]| | |]. Qed.

Lemma string_stored k s :
  k ∈ STRING_FIELDS -> field k f = VStr s -> or_empty k stored_channel = VStr s.
Proof.
  intros Hk Hs. unfold or_empty, field. rewrite oget_stored by (intros ->; revert Hk; decide_now).
  rewrite null_if_empty_shown. by apply string_sent.
Qed.

Lemma text_sources_stored :
  extra_settings (field (js "setting") stored_channel) = extra_settings (VStr setting)
  /\ type_settings (field (js "settings") stored_channel) = type_settings (VStr settings).
Proof.
  unfold field. rewrite !oget_stored by decide_now.
  change (oget (js "setting") (create_fields f base group setting settings)) with (VStr setting).
  change (oget (js "settings") (create_fields f base group setting settings)) with (VStr settings).
  by destruct setting, settings.
Qed.

Lemma base_url_stored : or_empty (js "base_url") stored_channel = VStr base.
Proof.
  unfold or_empty, field. rewrite oget_stored by decide_now. rewrite null_if_empty_shown.
  change (oget (js "base_url") (create_fields f base group setting settings)) with (vor (VStr base) VNull).
  by destruct base.
Qed.

Lemma number_stored k x :
  k ∈ [js "priority"; js "weight"] -> field k f = VNum x ->
  vor (field k stored_channel) (VNum nzero) = vor (field k f) (VNum nzero).
Proof.
  intros Hk Hx. unfold field. rewrite oget_stored by (intros ->; revert Hk; decide_now).
  assert (oget k (create_fields f base group setting settings) = or_null k f) as ->.
  { revert Hk. rewrite !elem_of_cons, elem_of_nil. by intros [->|[->|[]]]. }
  unfold or_null. rewrite Hx. unfold field in Hx. rewrite Hx. unfold vor. cbn [truthy].
  by destruct (num_truthy x) eqn:E; cbn; rewrite ?E.
Qed.
End stored_channel.

Lemma create_shape f p :
  transformFormDataToCreatePayload f = Ok p ->
  exists base group setting settings,
    normalizeBaseUrl (field (js "base_url") f) = Ok base
    /\ format_groups_field (field (js "group") f) = Ok group
    /\ buildSettingJSON f = Ok setting /\ buildSettingsJSON f = Ok settings
    /\ forall info, oset (js "channel_info") info (channel p) = stored_channel f base group setting settings info.
Proof.
  unfold transformFormDataToCreatePayload. cbv zeta.
  destruct (normalizeBaseUrl _) as [u|]; [|done]. cbn [res_bind].
  destruct (format_groups_field _) as [g|]; [|done]. cbn [res_bind].
  destruct (buildSettingJSON f) as [s1|]; [|done]. cbn [res_bind].
  destruct (buildSettingsJSON f) as [s2|]; [|done]. cbn [res_bind]. intros <-%Ok_inj.
  exists u, g, s1, s2. do 4 (split; [reflexivity|]). intros info. unfold stored_channel, channel. reflexivity.
Qed.

Definition FORM_KEYS : list jstr :=
  [js "name"; js "type"; js "base_url"; js "key"; js "openai_organization"; js "models"; js "group";
   js "model_mapping"; js "priority"; js "weight"; js "test_model"; js "auto_ban"; js "status";
   js "status_code_mapping"; js "tag"; js "remark"; js "setting"; js "param_override";
   js "header_override"; js "settings"; js "other"; js "multi_key_mode"; js "multi_key_type";
   js "batch_add_set_key_prefix_2_name"; js "key_mode"].

Lemma okeys_form_fields c g m : okeys (form_fields c g m) = FORM_KEYS.
Proof. reflexivity. Qed.

Lemma oget_app_r k a b : k ∉ okeys a -> oget k (a ++ b) = oget k b.
Proof. intros H%olookup_None. unfold oget. by rewrite olookup_app, H. Qed.

Lemma oget_app_l k a b : k ∈ okeys a -> oget k (a ++ b) = oget k a.
Proof.
  intros H. unfold oget. rewrite olookup_app. destruct (olookup k a) eqn:E; [done|].
  by apply olookup_None in E.
Qed.

(** The keys of the form that are read from the [settings] text. *)
Definition SETTINGS_KEYS : list jstr :=
  map fst settings_defaults ++ [js "upstream_model_update_ignored_models"; js "advanced_custom"].

Lemma okeys_extra f : okeys (map (fun kd => (kd.1, vor (field kd.1 f) kd.2)) EXTRA_SETTINGS) = map fst EXTRA_SETTINGS.
Proof. apply keys_map. Qed.

Lemma extra_shown f c g m b kd :
  kd ∈ EXTRA_SETTINGS ->
  field kd.1 (form_fields c g m ++ map (fun kd => (kd.1, vor (field kd.1 f) kd.2)) EXTRA_SETTINGS ++ b)
  = vor (field kd.1 f) kd.2.
Proof.
  intros Hkd. assert (Hk : kd.1 ∈ map fst EXTRA_SETTINGS) by (apply list_elem_of_fmap; by exists kd).
  unfold field at 1. rewrite oget_app_r, oget_app_l.
  - apply oget_lookup. apply (olookup_map_nodup kd (fun kd => vor (field kd.1 f) kd.2)); [decide_now|done].
  - by rewrite okeys_extra.
  - rewrite okeys_form_fields. revert Hk. generalize kd.1. apply list.Forall_forall. decide_now.
Qed.

Lemma settings_shown f c g m b k :
  k ∈ SETTINGS_KEYS ->
  field k (form_fields c g m ++ map (fun kd => (kd.1, vor (field kd.1 f) kd.2)) EXTRA_SETTINGS ++ b) = oget k b.
Proof.
  intros Hk. unfold field at 1. rewrite !oget_app_r; [done| |].
  - rewrite okeys_extra. revert k Hk. apply list.Forall_forall. decide_now.
  - rewrite okeys_form_fields. revert k Hk. apply list.Forall_forall. decide_now.
Qed.

Lemma parse_format_groups gs :
  gs <> [] -> Forall clean_part gs ->
  exists g, format_groups_field (VArr (map VStr gs)) = Ok g
  /\ parse_groups_field (vor (null_if_empty g) (VStr (js "default"))) = Ok (VArr (map VStr gs)).
Proof.
  intros Hne Hgs. exists (VStr (join (js ",") gs)). split.
  - unfold format_groups_field. by rewrite to_str_strings.
  - assert (Hj : split_trim_filter (join (js ",") gs) = gs) by exact (split_trim_filter_join gs Hgs).
    destruct (join (js ",") gs) as [|c s]; [by destruct gs|].
    unfold vor, null_if_empty. cbn [str_is]. rewrite bool_decide_eq_false_2 by done. cbn [truthy str_truthy].
    unfold parse_groups_field, parseGroups. by rewrite Hj.
Qed.

(** C23.  A channel created from a form and loaded again shows the form: the
    texts, the groups, the priority and the weight, the fields of both stored
    texts, and the base URL without its trailing slashes; only the key is
    never shown. *)
Theorem created_channel_read_back (f info : jsobj) (p : CreatePayload) (gs : list jstr) :
  transformFormDataToCreatePayload f = Ok p ->
  (forall k, k ∈ STRING_FIELDS -> is_string (field k f) = true) ->
  field (js "group") f = VArr (map VStr gs) -> gs <> [] -> Forall clean_part gs ->
  (forall k, k ∈ map fst EXTRA_SETTINGS -> truthy (field k f) = true -> printable (field k f)) ->
  exists f', transformChannelToFormDefaults (oset (js "channel_info") (VObj info) (channel p)) = Ok f'
  /\ (forall k, k ∈ STRING_FIELDS -> field k f' = field k f)
  /\ field (js "group") f' = field (js "group") f
  /\ (forall k x, k ∈ [js "priority"; js "weight"] -> field k f = VNum x ->
        field k f' = vor (VNum x) (VNum nzero))
  /\ (forall kd, kd ∈ EXTRA_SETTINGS -> field kd.1 f' = vor (field kd.1 f) kd.2)
  /\ (exists base, normalizeBaseUrl (field (js "base_url") f) = Ok base
        /\ field (js "base_url") f' = VStr base)
  /\ (exists text, buildSettingsJSON f = Ok text
        /\ forall k, k ∈ SETTINGS_KEYS -> field k f' = oget k (type_settings (VStr text)))
  /\ field (js "key") f' = VStr [].
Proof.
  intros Hp Hstr Hg Hne Hgs Hextra.
  destruct (create_shape f p Hp) as (base & group & setting & settings & Hbase & Hgroup & Hs1 & Hs2 & Hc).
  rewrite (Hc (VObj info)).
  destruct (parse_format_groups gs Hne Hgs) as (g & Hfg & Hpg). rewrite Hg, Hfg in Hgroup.
  apply Ok_inj in Hgroup as <-.
  set (c := stored_channel f base g setting settings (VObj info)).
  assert (field (js "group") c = null_if_empty g) as Ec.
  { unfold c, field. by rewrite oget_stored by decide_now. }
  assert (field (js "channel_info") c = VObj info) as Ei by apply oget_oset_eq.
  destruct (text_sources_stored f base g setting settings (VObj info)) as [Et1 Et2].
  set (multi := oget (js "multi_key_mode") info).
  exists (form_fields c (VArr (map VStr gs)) multi ++ extra_settings (VStr setting) ++ type_settings (VStr settings)).
  assert (Hrep := setting_read_back f setting Hextra Hs1).
  assert (Hl : forall k v, oget k (form_fields c (VArr (map VStr gs)) multi) = v -> k ∈ FORM_KEYS ->
    field k (form_fields c (VArr (map VStr gs)) multi ++ extra_settings (VStr setting) ++ type_settings (VStr settings)) = v).
  { intros k v <- Hk. apply oget_app_l. by rewrite okeys_form_fields. }
  split_and!.
  - unfold transformChannelToFormDefaults. rewrite Ec, Ei, Hpg. cbn [res_bind vget].
    unfold c. by rewrite Et1, Et2.
  - intros k Hk. pose proof (Hstr k Hk) as Hs. destruct (field k f) as [| | | |s| | |] eqn:Es; try done.
    apply Hl; [|revert Hk; clear; revert k; apply list.Forall_forall; decide_now].
    rewrite <-(string_stored f base g setting settings (VObj info) k s Hk Es). fold c.
    revert Hk. unfold STRING_FIELDS. rewrite !elem_of_cons, elem_of_nil.
    intros Hk; repeat (destruct Hk as [->|Hk]; [reflexivity|]); done.
  - rewrite Hg. apply Hl; [reflexivity|decide_now].
  - intros k x Hk Hx. rewrite <-Hx, <-(number_stored f base g setting settings (VObj info) k x Hk Hx). fold c.
    apply Hl; revert Hk; rewrite !elem_of_cons, elem_of_nil; (intros [->|[->|[]]]; [reflexivity || decide_now..]).
  - intros kd Hkd. rewrite Hrep. apply (extra_shown f _ _ _ _ kd Hkd).
  - exists base. split; [done|]. rewrite <-(base_url_stored f base g setting settings (VObj info)). fold c.
    apply Hl; [reflexivity|decide_now].
  - exists settings. split; [done|]. intros k Hk. rewrite Hrep. by apply settings_shown.
  - apply Hl; [reflexivity|decide_now].
Qed.

(** ** Updates *)

Lemma olookup_assign_all (g : jstr -> jsval) ks o k :
  olookup k (fold_left (fun o k => oset k (g k) o) ks o)
  = if bool_decide (k ∈ ks) then Some (g k) else olookup k o.
Proof.
  revert o. induction ks as [|k' ks IH]; intros o; cbn [fold_left].
  - by rewrite bool_decide_eq_false_2 by apply not_elem_of_nil.
  - rewrite IH, olookup_oset. destruct (decide (k ∈ ks)) as [Hin|Hin].
    + rewrite !bool_decide_eq_true_2; [done|by right|done].
    + rewrite (bool_decide_eq_false_2 (k ∈ ks)) by done. destruct (decide (k = k')) as [->|Hne].
      * by rewrite !bool_decide_eq_true_2 by (done || by left).
      * rewrite !bool_decide_eq_false_2; [done|rewrite elem_of_cons; naive_solver|done].
Qed.

Lemma olookup_empty_to_null k o : olookup k (empty_to_null o) = option_map null_if_empty (olookup k o).
Proof.
  unfold empty_to_null. induction o as [|[k' v] o IH]; [done|].
  cbn [map olookup fst snd]. by destruct (bool_decide (k = k')).
Qed.

Lemma has_key_text f : has_key f = Ok true -> null_if_empty (field (js "key") f) = field (js "key") f.
Proof.
  unfold has_key. destruct (truthy _) eqn:E; [|done].
  destruct (field (js "key") f) as [| | | |s| | |]; try done. by destruct s.
Qed.

Definition UPDATE_KEYS : list jstr :=
  [js "id"; js "name"; js "type"; js "base_url"; js "openai_organization"; js "models"; js "group";
   js "model_mapping"; js "priority"; js "weight"; js "test_model"; js "auto_ban"; js "status";
   js "status_code_mapping"; js "tag"; js "remark"; js "setting"; js "param_override";
   js "header_override"; js "settings"; js "other"].

Lemma okeys_update_fields f i b g s1 s2 : okeys (update_fields f i b g s1 s2) = UPDATE_KEYS.
Proof. reflexivity. Qed.

(** The fields that an update sends in another way than a creation. *)
Definition OTHER_FIELDS : list jstr := [js "id"; js "key"; js "base_url"; js "priority"; js "weight"].

Definition CREATE_KEYS : list jstr :=
  [js "name"; js "type"; js "base_url"; js "key"; js "openai_organization"; js "models"; js "group";
   js "model_mapping"; js "priority"; js "weight"; js "test_model"; js "auto_ban"; js "status";
   js "status_code_mapping"; js "tag"; js "remark"; js "setting"; js "param_override";
   js "header_override"; js "settings"; js "other"].

Lemma same_fields f channelId base group setting settings k :
  k ∉ OTHER_FIELDS ->
  olookup k (update_fields f channelId base group setting settings) = olookup k (create_fields f base group setting settings).
Proof.
  intros Hk. destruct (decide (k ∈ UPDATE_KEYS)) as [Hin|Hin].
  - unfold OTHER_FIELDS in Hk. rewrite !not_elem_of_cons in Hk. destruct Hk as (? & ? & ? & ? & ? & _).
    unfold UPDATE_KEYS in Hin. unfold update_fields, create_fields.
    repeat (apply elem_of_cons in Hin as [->|Hin]; [first [congruence|cbn [olookup]; js_keys; reflexivity]|]). by apply elem_of_nil in Hin.
  - assert (olookup k (update_fields f channelId base group setting settings) = None) as ->
      by (apply olookup_None; by rewrite okeys_update_fields).
    symmetry. apply olookup_None. change (k ∉ CREATE_KEYS). intros H.
    assert (Forall (fun k => k ∈ OTHER_FIELDS \/ k ∈ UPDATE_KEYS) CREATE_KEYS) as Hall by decide_now.
    rewrite list.Forall_forall in Hall. by destruct (Hall k H).
Qed.

(** C31.  An update carries the key only when a new one was typed, so that the
    stored key survives; it has the identifier, the normalized base URL, and
    every clearable field as the form has it, an empty text included and never
    [null].  Priority and weight are sent as they are, zero when they are
    missing, where the creation sends [null] for zero.  Every other field is
    sent as the creation of the same form sends it. *)
Theorem update_payload_spec (f : jsobj) (channelId : num) (o : jsobj) :
  transformFormDataToUpdatePayload f channelId = Ok o ->
  exists base changed p,
    normalizeBaseUrl (field (js "base_url") f) = Ok base /\ has_key f = Ok changed
    /\ transformFormDataToCreatePayload f = Ok p
    /\ olookup (js "key") o = (if changed then Some (field (js "key") f) else None)
    /\ olookup (js "base_url") o = Some (VStr base)
    /\ olookup (js "id") o = Some (VNum channelId)
    /\ (forall k, k ∈ CLEARED_FIELDS -> olookup k o = Some (or_empty k f))
    /\ (forall k, k ∈ [js "priority"; js "weight"] ->
          olookup k o = Some (null_if_empty (vcoalesce (field k f) (VNum nzero)))
          /\ olookup k (channel p) = Some (null_if_empty (or_null k f)))
    /\ (forall k, k ∉ CLEARED_FIELDS -> k ∉ OTHER_FIELDS -> olookup k o = olookup k (channel p)).
Proof.
  unfold transformFormDataToUpdatePayload, transformFormDataToCreatePayload.
  destruct (normalizeBaseUrl _) as [base|]; [|done]. cbn [res_bind].
  destruct (format_groups_field _) as [group|]; [|done]. cbn [res_bind].
  destruct (buildSettingJSON f) as [setting|]; [|done]. cbn [res_bind].
  destruct (buildSettingsJSON f) as [settings|]; [|done]. cbn [res_bind]. cbv zeta.
  destruct (has_key f) as [changed|] eqn:Ek; [|done]. cbn [res_bind]. intros <-%Ok_inj.
  exists base, changed. eexists. do 3 (split; [reflexivity|]). cbn [channel].
  set (fields := update_fields f channelId base group setting settings).
  assert (Hk : olookup (js "key") fields = None).
  { apply olookup_None. unfold fields. rewrite okeys_update_fields. decide_now. }
  set (o := fold_left _ _ _).
  assert (Ho : forall k, k ∉ CLEARED_FIELDS -> k <> js "base_url" -> k <> js "key" -> olookup k o = option_map null_if_empty (olookup k fields)).
  { intros k H1 H2 H3. unfold o. rewrite olookup_assign_all, bool_decide_eq_false_2 by done.
    rewrite olookup_oset_ne, olookup_empty_to_null by done. f_equal.
    destruct changed; [by rewrite olookup_oset_ne|done]. }
  split; [|split; [|split; [|split; [|split]]]].
  - unfold o. rewrite olookup_assign_all, bool_decide_eq_false_2 by decide_now.
    rewrite olookup_oset_ne, olookup_empty_to_null by decide_now.
    destruct changed; [|by rewrite Hk]. rewrite olookup_oset_eq. cbn [option_map]. by rewrite has_key_text.
  - unfold o. rewrite olookup_assign_all, bool_decide_eq_false_2 by decide_now. apply olookup_oset_eq.
  - rewrite Ho by decide_now. reflexivity.
  - intros k Hin. unfold o. by rewrite olookup_assign_all, bool_decide_eq_true_2.
  - intros k Hin. rewrite olookup_empty_to_null.
    apply elem_of_cons in Hin as [->|[->|Hin]%elem_of_cons]; [| |by apply elem_of_nil in Hin]; (rewrite Ho by decide_now); split; reflexivity.
  - intros k H1 H2. rewrite Ho, olookup_empty_to_null by (done || intros ->; apply H2; decide_now). f_equal.
    unfold fields. by apply same_fields.
Qed.

(** ** The schema and the stored routes *)

(** A form of the advanced custom type that the schema accepts holds
    routes that pass the validation, a base URL when a route needs one, and
    the settings it stores carry exactly those routes. *)
Theorem accepted_custom_stored (url_parse : jstr -> option (jstr * jstr)) (data o o' : jsobj) :
  refine_issues url_parse data = Ok [] ->
  type_is CHANNEL_TYPE_ADVANCED_CUSTOM data = true -> settings_object data o = Ok o' ->
  exists c, parseAdvancedCustomConfig (opt_str (field (js "advanced_custom") data)) = Some c
  /\ validateAdvancedCustomConfig url_parse c = Ok None
  /\ oget (js "advanced_custom") o' = c
  /\ (advancedCustomConfigUsesRelativeUpstreamPath c = Ok true ->
      blank (opt_str (field (js "base_url") data)) = false).
Proof.
  intros Hi Ht Hs. unfold refine_issues in Hi.
  destruct (advanced_custom_issues url_parse data) as [custom|] eqn:Ec; [|done]. cbn [res_bind] in Hi.
  apply Ok_inj in Hi. apply app_eq_nil in Hi as [_ Hi]. apply app_eq_nil in Hi as [-> _].
  unfold advanced_custom_issues in Ec. unfold type_is in Ht. rewrite Ht in Ec. cbn [negb] in Ec.
  destruct (parseAdvancedCustomConfig _) as [c|] eqn:Ep.
  - exists c. cbn [default from_option id] in Ec. unfold id in Ec.
    destruct (validateAdvancedCustomConfig url_parse c) as [e|] eqn:Ev; [|done]. cbn [res_bind] in Ec.
    destruct (advancedCustomConfigUsesRelativeUpstreamPath c) as [rel|] eqn:Er; [|done]. cbn [res_bind] in Ec.
    apply Ok_inj in Ec. apply app_eq_nil in Ec as [He Eb]. destruct e; [done|].
    split_and!; [done|done| |].
    + rewrite (settings_custom data o o' Hs). unfold custom_setting, type_is. rewrite Ht, Ep. done.
    + intros [= ->]. cbn [andb] in Eb. by destruct (blank _).
  - exfalso. unfold validateAdvancedCustomConfig, advancedCustomConfigUsesRelativeUpstreamPath in Ec.
    cbn [default from_option truthy negb res_bind] in Ec.
    by apply Ok_inj, app_eq_nil in Ec as [? _].
Qed.

(** ** A form *)

Definition sample_payload : CreatePayload :=
  catch (transformFormDataToCreatePayload sample_form) (MkCreate VUndef VUndef VUndef []).

Lemma created_channel_read_back_witness :
  transformFormDataToCreatePayload sample_form = Ok sample_payload
  /\ exists f', transformChannelToFormDefaults (oset (js "channel_info") (VObj []) (channel sample_payload)) = Ok f'
       /\ field (js "models") f' = VStr (js "claude-3,gpt-4").
Proof.
  assert (H : transformFormDataToCreatePayload sample_form = Ok sample_payload) by (vm_compute; reflexivity).
  split; [exact H|].
  destruct (created_channel_read_back sample_form [] sample_payload [js "default"] H) as (f' & Hf & Hs & _).
  - apply list.Forall_forall. repeat (apply List.Forall_cons; [vm_compute; reflexivity|]). apply List.Forall_nil.
  - vm_compute. reflexivity.
  - done.
  - apply List.Forall_cons; [|apply List.Forall_nil].
    split; [vm_compute; reflexivity|]. split; [done|decide_now].
  - intros k Hk _. revert k Hk. apply list.Forall_forall.
    repeat (apply List.Forall_cons; [split; vm_compute; constructor|]). apply List.Forall_nil.
  - exists f'. split; [exact Hf|]. rewrite Hs by decide_now. vm_compute. reflexivity.
Defined.

Definition sample_update : jsobj := catch (transformFormDataToUpdatePayload sample_form (num_of_Z 7)) [].

Lemma update_payload_spec_witness :
  transformFormDataToUpdatePayload sample_form (num_of_Z 7) = Ok sample_update
  /\ olookup (js "key") sample_update = None /\ olookup (js "remark") sample_update = Some (VStr []).
Proof.
  assert (H : transformFormDataToUpdatePayload sample_form (num_of_Z 7) = Ok sample_update)
    by (vm_compute; reflexivity).
  split; [exact H|].
  destruct (update_payload_spec sample_form (num_of_Z 7) sample_update H)
    as (base & changed & p & _ & Hk & _ & Hkey & _ & _ & Hc & _).
  split.
  - rewrite Hkey. vm_compute in Hk. by injection Hk as <-.
  - rewrite Hc by decide_now. vm_compute. reflexivity.
Defined.

Definition custom_form : jsobj :=
  fold_left (fun o kv => oset kv.1 kv.2 o)
    [ (js "type", VNum (num_of_Z 58)); (js "base_url", VStr (js "https://up.example.com"));
      (js "advanced_custom", VStr (stringify createAdvancedCustomConfig)) ]
    CHANNEL_FORM_DEFAULT_VALUES.

Lemma accepted_custom_stored_witness :
  refine_issues (fun _ => None) custom_form = Ok []
  /\ exists c, oget (js "advanced_custom") (catch (settings_object custom_form []) []) = c
       /\ validateAdvancedCustomConfig (fun _ => None) c = Ok None.
Proof.
  assert (H : refine_issues (fun _ => None) custom_form = Ok []) by (vm_compute; reflexivity).
  split; [exact H|].
  destruct (accepted_custom_stored (fun _ => None) custom_form [] (catch (settings_object custom_form []) []) H)
    as (c & _ & Hv & Hc & _).
  - vm_compute. reflexivity.
  - vm_compute. reflexivity.
  - exists c. by split.
Defined.
