(* ===== verification/ChannelTags.v ===== *)
(** * Tag mode of the channel list (features/channels/lib/channel-utils.ts)

    [aggregateChannelsByTag] builds one row per tag.  A row is an object that
    the result array and the map of tags share: the map holds its position in
    the array, and an update through the map is an update of the array. *)
From Stdlib Require Import QArith.
From stdpp Require Import gmap.
From S2P Require Import Prelude JsString JsNumber JsValue.
Open Scope N_scope.

(** [Channel]; [others] are the properties that the aggregation carries over
    without reading them. *)
Record Channel := MkChannel {
  id : num; key : jstr; name : jstr; type : num; status : num; group : jstr; tag : option jstr;
  models : jstr; used_quota : num; response_time : num; priority : jsval; weight : jsval;
  balance : num; test_time : num; created_time : num; balance_updated_time : num; others : jsobj
}.

(** [TagRow]: the identifier is the tag, a status may be missing. *)
Record TagRow := MkRow {
  r_id : jstr; r_key : jstr; r_name : jstr; r_tag : jstr; r_type : num; r_status : option num;
  r_group : jstr; r_models : jstr; r_used_quota : num; r_response_time : num; r_priority : jsval;
  r_weight : jsval; r_balance : num; r_test_time : num; r_created_time : num;
  r_balance_updated_time : num; r_others : jsobj; children : list Channel
}.

(** [a === b] for numbers, [null] and [undefined]. *)
Definition strict_eq (a b : jsval) : bool :=
  match a, b with
  | VNum x, VNum y => neqb x y
  | VNull, VNull | VUndef, VUndef => true
  | _, _ => false
  end.

Definition minus_one : jsval := VNum (num_of_Z (-1)).

(** A row as it is created for the first channel of a tag. *)
Definition new_row (channel : Channel) (t : jstr) : TagRow :=
  MkRow t t t t nzero None [] [] nzero nzero minus_one minus_one nzero nzero nzero nzero (others channel) [].

Definition average (old : num) (childCount : nat) (x : num) : num :=
  let n := num_of_Z (Z.of_nat childCount) in
  ndiv (nadd (nmul old (nsub n (num_of_Z 1))) x) n.

(** The common value, or [null]; [-1] stands for no value yet. *)
Definition common (old new : jsval) : jsval :=
  if strict_eq old minus_one then new
  else if negb (strict_eq old new) then VNull else old.

(** [s.split(',').filter(Boolean)] *)
Definition split_groups (s : jstr) : list jstr := List.filter str_truthy (split_char 44 s).

Definition join_groups (row_group channel_group : jstr) : jstr :=
  match row_group with
  | [] => channel_group
  | _ =>
      let existingGroups := split_groups row_group in
      fold_left (fun g x => if bool_decide (x ∈ existingGroups) then g else g ++ js "," ++ x)
        (split_groups channel_group) row_group
  end.

Definition join_status (row_status : option num) (channel_status : num) : option num :=
  if neqb channel_status (num_of_Z 1) then Some (num_of_Z 1)
  else match row_status with None => Some channel_status | Some _ => row_status end.

(** The updates of a row for one channel. *)
Definition add_child (channel : Channel) (r : TagRow) : TagRow :=
  let children' := children r ++ [channel] in
  MkRow (r_id r) (r_key r) (r_name r) (r_tag r) (r_type r) (join_status (r_status r) (status channel))
    (join_groups (r_group r) (group channel)) (r_models r) (nadd (r_used_quota r) (used_quota channel))
    (average (r_response_time r) (length children') (response_time channel))
    (common (r_priority r) (priority channel)) (common (r_weight r) (weight channel))
    (r_balance r) (r_test_time r) (r_created_time r) (r_balance_updated_time r) (r_others r) children'.

(** The state of the loop: the map of tags and the array. *)
Abbreviation loop_state := (gmap jstr nat * list TagRow)%type.

Definition tag_of (channel : Channel) : jstr := default [] (tag channel).

Definition add_channel (s : loop_state) (channel : Channel) : loop_state :=
  let t := tag_of channel in
  let '(tagMap, result) :=
    match s.1 !! t with
    | None => (<[t := length s.2]> s.1, s.2 ++ [new_row channel t])
    | Some _ => s
    end in
  match tagMap !! t with
  | None => (tagMap, result)
  | Some i => (tagMap, alter (add_child channel) i result)
  end.

Definition aggregateChannelsByTag (channels : list Channel) : list TagRow :=
  (fold_left add_channel channels (∅, [])).2.

(** ** The loop: one row per tag, of the channels with that tag *)

Definition with_tag (t : jstr) (channels : list Channel) : list Channel :=
  List.filter (fun c => bool_decide (tag_of c = t)) channels.

Lemma with_tag_app t a b : with_tag t (a ++ b) = with_tag t a ++ with_tag t b.
Proof. apply List.filter_app. Qed.

Lemma with_tag_one t c : with_tag t [c] = if bool_decide (tag_of c = t) then [c] else [].
Proof. unfold with_tag. cbn [List.filter]. by destruct (bool_decide _). Qed.

Lemma with_tag_ne t cs : t ∈ map tag_of cs -> with_tag t cs <> [].
Proof.
  intros H E. apply list_elem_of_fmap in H as (c & -> & Hc).
  assert (c ∈ with_tag (tag_of c) cs) as Hin.
  { apply list_elem_of_In, filter_In. split; [by apply list_elem_of_In|]. by apply bool_decide_eq_true. }
  rewrite E in Hin. by apply elem_of_nil in Hin.
Qed.

Lemma with_tag_nil t cs : t ∉ map tag_of cs -> with_tag t cs = [].
Proof.
  intros H. destruct (with_tag t cs) as [|c l] eqn:E; [done|]. exfalso. apply H.
  assert (c ∈ with_tag t cs) as Hin by (rewrite E; by left).
  apply list_elem_of_In, filter_In in Hin as [Hin Ht]. apply bool_decide_eq_true in Ht.
  apply list_elem_of_fmap. exists c. split; [done|by apply list_elem_of_In].
Qed.

(** The rows as a total function on the tags that occur. *)
Definition row_at (cs : list Channel) (t : jstr) : TagRow :=
  match with_tag t cs with
  | [] => MkRow [] [] [] [] nzero None [] [] nzero nzero VNull VNull nzero nzero nzero nzero [] []
  | c :: l => fold_left (fun r c => add_child c r) (c :: l) (new_row c t)
  end.

Lemma fold_snoc {A B} (f : A -> B -> A) l x a : fold_left f (l ++ [x]) a = f (fold_left f l a) x.
Proof. by rewrite fold_left_app. Qed.

Lemma row_at_snoc cs c t :
  row_at (cs ++ [c]) t
  = if bool_decide (tag_of c = t) then
      if bool_decide (t ∈ map tag_of cs) then add_child c (row_at cs t) else add_child c (new_row c t)
    else row_at cs t.
Proof.
  unfold row_at. rewrite with_tag_app, with_tag_one. case_bool_decide as Ht; [|by rewrite app_nil_r].
  case_bool_decide as Hin.
  - pose proof (with_tag_ne t cs Hin) as Hne. destruct (with_tag t cs) as [|c0 l]; [done|].
    change ((c0 :: l) ++ [c]) with (c0 :: (l ++ [c])). cbn [fold_left]. by rewrite fold_snoc.
  - by rewrite with_tag_nil.
Qed.

(** The loop state after the channels [cs]: the map holds the position of
    each tag, and the array the row of each tag. *)
Definition loop_inv (cs : list Channel) (s : loop_state) : Prop :=
  s.2 = map (row_at cs) (dedup (map tag_of cs))
  /\ forall t i, s.1 !! t = Some i <-> dedup (map tag_of cs) !! i = Some t.

Lemma alter_map_nodup {A B} (f : A -> B) (g : B -> B) l i x :
  NoDup l -> l !! i = Some x -> forall f', f' x = g (f x) -> (forall y, y <> x -> f' y = f y) ->
  alter g i (map f l) = map f' l.
Proof.
  intros Hnd Hi f' Hx Hy. apply list_eq. intros j.
  destruct (decide (i = j)) as [->|Hne].
  - rewrite list_lookup_alter_eq, !list_lookup_fmap, Hi. cbn. by rewrite Hx.
  - rewrite list_lookup_alter_ne, !list_lookup_fmap by done. destruct (l !! j) as [y|] eqn:Ej; [|done]. cbn. f_equal. symmetry.
    apply Hy. intros ->. apply Hne. by eapply NoDup_lookup.
Qed.

Lemma add_channel_inv cs s c : loop_inv cs s -> loop_inv (cs ++ [c]) (add_channel s c).
Proof.
  intros [Hr Hm]. unfold add_channel. set (t := tag_of c). unfold loop_inv.
  rewrite map_app. cbn [map]. fold t. rewrite dedup_snoc.
  pose proof (NoDup_dedup (map tag_of cs)) as Hnd.
  destruct (s.1 !! t) as [i|] eqn:Ei.
  - rewrite (surjective_pairing s), Ei. pose proof (proj1 (Hm t i) Ei) as Hi.
    assert (t ∈ map tag_of cs) as Hin by (apply elem_of_dedup; by eapply list_elem_of_lookup_2).
    rewrite bool_decide_eq_true_2 by done. split; [|done]. cbn [snd]. rewrite Hr.
    apply (alter_map_nodup _ _ _ _ t); [done|done| |].
    + rewrite row_at_snoc. fold t. by rewrite !bool_decide_eq_true_2.
    + intros y Hy. rewrite row_at_snoc. fold t. by rewrite bool_decide_eq_false_2.
  - assert (t ∉ map tag_of cs) as Hin.
    { intros Hin. apply elem_of_dedup, list_elem_of_lookup in Hin as [i Hi].
      apply Hm in Hi. by rewrite Ei in Hi. }
    rewrite bool_decide_eq_false_2 by done. rewrite lookup_insert_eq. cbn [fst snd].
    assert (Hlen : length s.2 = length (dedup (map tag_of cs))) by (by rewrite Hr, length_map).
    split.
    + rewrite alter_app_r_alt, Nat.sub_diag by lia. rewrite map_app, Hr. cbn [map alter list_alter].
      rewrite row_at_snoc. fold t. rewrite bool_decide_eq_true_2, bool_decide_eq_false_2 by done.
      f_equal. apply map_ext_in. intros y Hy%list_elem_of_In. rewrite row_at_snoc. fold t.
      rewrite bool_decide_eq_false_2; [done|]. intros <-. by apply Hin, elem_of_dedup.
    + intros t' i. rewrite lookup_snoc_Some, Hlen. rewrite lookup_insert_Some, Hm. split.
      * intros [[<- <-]|[Hne Hi]]; [by right|]. left. split; [|done]. by eapply lookup_lt_Some.
      * intros [[Hlt Hi]|[-> <-]]; [|by left]. right. split; [|done]. intros ->.
        apply Hin, elem_of_dedup. by eapply list_elem_of_lookup_2.
Qed.

Lemma aggregate_rows cs : aggregateChannelsByTag cs = map (row_at cs) (dedup (map tag_of cs)).
Proof.
  unfold aggregateChannelsByTag. enough (loop_inv cs (fold_left add_channel cs (∅, []))) as [H _] by done.
  induction cs as [|c cs IH] using rev_ind.
  - split; [done|]. intros t i. cbn [fold_left fst]. by rewrite lookup_empty.
  - rewrite fold_left_app. cbn [fold_left]. by apply add_channel_inv.
Qed.

(** ** What a row holds *)

Definition one : num := num_of_Z 1.

Lemma fold_children cs r :
  children (fold_left (fun r c => add_child c r) cs r) = children r ++ cs
  /\ r_tag (fold_left (fun r c => add_child c r) cs r) = r_tag r
  /\ r_used_quota (fold_left (fun r c => add_child c r) cs r)
     = fold_left nadd (map used_quota cs) (r_used_quota r).
Proof.
  revert r. induction cs as [|c cs IH]; intros r; cbn [fold_left map]; [by rewrite app_nil_r|].
  destruct (IH (add_child c r)) as (-> & -> & ->). cbn [add_child children r_tag r_used_quota].
  by rewrite <-app_assoc.
Qed.

Lemma join_status_one s c : join_status s c = Some one <-> s = Some one \/ neqb c one = true.
Proof.
  unfold join_status. fold one. destruct (neqb c one) eqn:E; [naive_solver|].
  destruct s as [s|]; [naive_solver|]. split; [|naive_solver]. intros [= ->]. by vm_compute in E.
Qed.

Lemma fold_status cs r :
  r_status (fold_left (fun r c => add_child c r) cs r) = Some one
  <-> r_status r = Some one \/ exists c, c ∈ cs /\ neqb (status c) one = true.
Proof.
  revert r. induction cs as [|c cs IH]; intros r; cbn [fold_left].
  - split; [by left|]. intros [?|(c & Hc & _)]; [done|by apply elem_of_nil in Hc].
  - rewrite IH. cbn [add_child r_status]. rewrite join_status_one.
    setoid_rewrite elem_of_cons. naive_solver.
Qed.

Lemma split_char_sep c a b : split_char c (a ++ c :: b) = split_char c a ++ split_char c b.
Proof.
  induction a as [|x a IH]; cbn [app split_char]; [by rewrite N.eqb_refl|].
  destruct (x =? c); [by rewrite IH|]. rewrite IH.
  destruct (split_char_cons c a) as (w & ws & ->). done.
Qed.

Lemma split_groups_snoc g x : x <> [] -> 44 ∉ x -> split_groups (g ++ js "," ++ x) = split_groups g ++ [x].
Proof.
  intros Hx Hc. unfold split_groups. change (js "," ++ x) with (44 :: x).
  rewrite split_char_sep, (split_char_none 44 x), List.filter_app by done. cbn [List.filter]. by destruct x.
Qed.

Lemma split_groups_part x g : x ∈ split_groups g -> x <> [] /\ 44 ∉ x.
Proof.
  unfold split_groups. rewrite list_elem_of_In, filter_In, <-list_elem_of_In. intros [Hx Ht].
  split; [by intros ->|]. pose proof (split_char_parts 44 g) as H. rewrite list.Forall_forall in H. by apply H.
Qed.

Lemma append_groups (existing l : list jstr) g x :
  (forall y, y ∈ existing -> y ∈ split_groups g) -> (forall y, y ∈ l -> y <> [] /\ 44 ∉ y) ->
  x ∈ split_groups (fold_left (fun g x => if bool_decide (x ∈ existing) then g else g ++ js "," ++ x) l g)
  <-> x ∈ split_groups g \/ x ∈ l.
Proof.
  revert g. induction l as [|y l IH]; intros g Hex Hl; cbn [fold_left].
  { rewrite elem_of_nil. tauto. }
  assert (Hl' : forall z, z ∈ l -> z <> [] /\ 44 ∉ z) by (intros z Hz; apply Hl; by right).
  destruct (Hl y ltac:(by left)) as [Hy Hc]. case_bool_decide as Hin.
  - rewrite IH by done. rewrite elem_of_cons. naive_solver.
  - rewrite IH; [| |done].
    + rewrite split_groups_snoc by done. rewrite elem_of_app, list_elem_of_singleton, elem_of_cons. tauto.
    + intros z Hz. rewrite split_groups_snoc by done. apply elem_of_app. left. by apply Hex.
Qed.

Lemma join_groups_elem row_group channel_group x :
  x ∈ split_groups (join_groups row_group channel_group)
  <-> x ∈ split_groups row_group \/ x ∈ split_groups channel_group.
Proof.
  unfold join_groups. destruct row_group as [|c0 g0].
  - change (split_groups []) with (@nil jstr). rewrite elem_of_nil. tauto.
  - cbv zeta. apply append_groups; [done|]. intros y. apply split_groups_part.
Qed.

Lemma fold_groups cs r x :
  x ∈ split_groups (r_group (fold_left (fun r c => add_child c r) cs r))
  <-> x ∈ split_groups (r_group r) \/ exists c, c ∈ cs /\ x ∈ split_groups (group c).
Proof.
  revert r. induction cs as [|c cs IH]; intros r; cbn [fold_left].
  - split; [by left|]. intros [?|(c & Hc & _)]; [done|by apply elem_of_nil in Hc].
  - rewrite IH. cbn [add_child r_group]. rewrite join_groups_elem.
    setoid_rewrite elem_of_cons. naive_solver.
Qed.

(** *** The value that the children share *)

(** What a cell shows for the values of the children: leading [-1]s count as
    no value; of the others, the first if all equal it ([===]), else [null]. *)
Definition summarised (vs : list jsval) (shown : jsval) : Prop :=
  exists unset rest, vs = unset ++ rest /\ Forall (fun v => strict_eq v minus_one = true) unset
    /\ match rest with
       | [] => strict_eq shown minus_one = true
       | v :: more =>
           strict_eq v minus_one = false
           /\ shown = if bool_decide (Forall (fun w => strict_eq v w = true) more) then v else VNull
       end.

Lemma common_null vs : fold_left common vs VNull = VNull.
Proof. induction vs as [|v vs IH]; [done|]. cbn [fold_left]. by destruct v. Qed.

Lemma common_settled v vs :
  strict_eq v minus_one = false ->
  fold_left common vs v = if bool_decide (Forall (fun w => strict_eq v w = true) vs) then v else VNull.
Proof.
  intros Hm. induction vs as [|w vs IH]; [by rewrite bool_decide_eq_true_2 by constructor|]. cbn [fold_left].
  assert (common v w = if strict_eq v w then v else VNull) as -> by (unfold common; rewrite Hm; by destruct (strict_eq v w)).
  destruct (strict_eq v w) eqn:E.
  - rewrite IH. case_bool_decide as H; case_bool_decide as H'; rewrite Forall_cons in H'; naive_solver.
  - rewrite common_null. rewrite bool_decide_eq_false_2; [done|]. rewrite Forall_cons. intros [? _]. congruence.
Qed.

Lemma common_summarised old vs :
  strict_eq old minus_one = true -> summarised vs (fold_left common vs old).
Proof.
  revert old. induction vs as [|v vs IH]; intros old Ho.
  - exists [], []. repeat split; [constructor|exact Ho].
  - cbn [fold_left]. unfold common at 2. rewrite Ho. destruct (strict_eq v minus_one) eqn:E.
    + destruct (IH v E) as (unset & rest & -> & Hu & Hr). exists (v :: unset), rest. repeat split; [by constructor|exact Hr].
    + exists [], (v :: vs). split; [done|]. split; [constructor|]. split; [done|]. by apply common_settled.
Qed.

Lemma fold_common (f : Channel -> jsval) (sel : TagRow -> jsval) cs r :
  (forall r c, sel (add_child c r) = common (sel r) (f c)) ->
  sel (fold_left (fun r c => add_child c r) cs r) = fold_left common (map f cs) (sel r).
Proof.
  intros Hs. revert r. induction cs as [|c cs IH]; intros r; [done|]. cbn [fold_left map]. by rewrite IH, Hs.
Qed.

(** *** The mean response time *)

(** The mean that is kept up to date as the values come in, in any arithmetic. *)
Record arith (A : Type) := MkArith {
  plus : A -> A -> A; minus : A -> A -> A; times : A -> A -> A; over : A -> A -> A; of_nat : nat -> A }.
Arguments plus {A}. Arguments minus {A}. Arguments times {A}. Arguments over {A}. Arguments of_nat {A}.

Fixpoint mean_from {A} (R : arith A) (n : nat) (mean : A) (xs : list A) : A :=
  match xs with
  | [] => mean
  | x :: xs =>
      let count := of_nat R (S n) in
      mean_from R (S n) (over R (plus R (times R mean (minus R count (of_nat R 1))) x) count) xs
  end.

Definition running_mean {A} (R : arith A) (xs : list A) : A := mean_from R 0 (of_nat R 0) xs.

(** The numbers of the language, which round, and the rational numbers. *)
Definition floats : arith num := MkArith _ nadd nsub nmul ndiv (fun n => num_of_Z (Z.of_nat n)).
Definition rationals : arith Q := MkArith _ Qplus Qminus Qmult Qdiv (fun n => inject_Z (Z.of_nat n)).

Definition Qsum (qs : list Q) : Q := fold_right Qplus 0%Q qs.
Definition Qlength (qs : list Q) : Q := inject_Z (Z.of_nat (length qs)).

Lemma count_pos n : ~ inject_Z (Z.of_nat (S n)) == 0%Q.
Proof. unfold Qeq, inject_Z. cbn. lia. Qed.

Lemma count_S n : inject_Z (Z.of_nat (S n)) == inject_Z (Z.of_nat n) + 1.
Proof. unfold Qeq, inject_Z, Qplus. cbn. lia. Qed.

Lemma mean_from_exact n q qs :
  mean_from rationals n q qs * inject_Z (Z.of_nat (n + length qs)) == q * inject_Z (Z.of_nat n) + Qsum qs.
Proof.
  revert n q. induction qs as [|x qs IH]; intros n q.
  - cbn [mean_from length Qsum fold_right]. rewrite Nat.add_0_r. ring.
  - cbn [mean_from length Qsum fold_right]. change (fold_right Qplus 0%Q qs) with (Qsum qs).
    replace (n + S (length qs))%nat with (S n + length qs)%nat by lia. rewrite IH. cbn [rationals plus minus times over of_nat].
    rewrite (Qmult_comm (_ / _)), Qmult_div_r by apply count_pos. rewrite count_S. change (inject_Z (Z.of_nat 1)) with 1%Q. ring.
Qed.

Lemma running_mean_exact qs : qs <> [] -> running_mean rationals qs == Qsum qs / Qlength qs.
Proof.
  intros Hne. unfold running_mean. pose proof (mean_from_exact 0 (of_nat rationals 0) qs) as H. cbn [Nat.add] in H.
  assert (Hn : ~ Qlength qs == 0%Q) by (destruct qs as [|x qs]; [done|apply count_pos]).
  apply (Qmult_inj_r _ _ (Qlength qs) Hn). unfold Qlength in *. rewrite H. rewrite (Qmult_comm (_ / _)), Qmult_div_r by done.
  change (of_nat rationals 0) with 0%Q. ring.
Qed.

Lemma fold_mean cs r n :
  length (children r) = n ->
  r_response_time (fold_left (fun r c => add_child c r) cs r)
  = mean_from floats n (r_response_time r) (map response_time cs).
Proof.
  revert r n. induction cs as [|c cs IH]; intros r n Hn; [done|]. cbn [fold_left map mean_from].
  rewrite (IH _ (S n)); [|cbn [add_child children]; rewrite length_app, Hn; cbn [length]; lia].
  cbn [add_child r_response_time]. rewrite length_app, Hn. cbn [length]. by rewrite Nat.add_1_r.
Qed.

(** *** What an aggregate row does not summarise *)

Definition blank_cells (r : TagRow) : Prop :=
  r_id r = r_tag r /\ r_key r = r_tag r /\ r_name r = r_tag r /\ r_type r = nzero /\ r_models r = []
  /\ r_balance r = nzero /\ r_test_time r = nzero /\ r_created_time r = nzero /\ r_balance_updated_time r = nzero.

Lemma fold_blank cs r :
  blank_cells r -> let r' := fold_left (fun r c => add_child c r) cs r in blank_cells r' /\ r_others r' = r_others r.
Proof. revert r. induction cs as [|c cs IH]; intros r H; [done|]. cbn [fold_left]. by destruct (IH (add_child c r) H) as [? ->]. Qed.

(** Once a row has a status, only an enabled child changes it. *)
Lemma fold_disabled cs r s :
  r_status r = Some s -> Forall (fun c => neqb (status c) one = false) cs ->
  r_status (fold_left (fun r c => add_child c r) cs r) = Some s.
Proof.
  revert r. induction cs as [|c cs IH]; intros r Hr Hc; [done|]. cbn [fold_left]. apply Forall_cons in Hc as [Hc Hcs].
  apply IH; [|done]. cbn [add_child r_status]. unfold join_status. fold one. by rewrite Hc, Hr.
Qed.

(** The cells of a row, from its children alone. *)
Record row_of_children (r : TagRow) (first : Channel) (more : list Channel) : Prop := MkRowOf {
  row_children : children r = first :: more;
  row_enabled : r_status r = Some one <-> Exists (fun c => neqb (status c) one = true) (first :: more);
  row_disabled : Forall (fun c => neqb (status c) one = false) (first :: more) -> r_status r = Some (status first);
  row_quota : r_used_quota r = fold_left nadd (map used_quota (first :: more)) nzero;
  row_groups : forall g, g ∈ split_groups (r_group r) <-> Exists (fun c => g ∈ split_groups (group c)) (first :: more);
  row_priority : summarised (map priority (first :: more)) (r_priority r);
  row_weight : summarised (map weight (first :: more)) (r_weight r);
  row_time : r_response_time r = running_mean floats (map response_time (first :: more));
  row_blank : blank_cells r;
  row_others : r_others r = others first }.

Lemma minus_one_unset : strict_eq minus_one minus_one = true.
Proof. vm_compute. reflexivity. Qed.

Lemma fold_row (c : Channel) (cs : list Channel) (t : jstr) :
  row_of_children (fold_left (fun r c => add_child c r) (c :: cs) (new_row c t)) c cs.
Proof.
  destruct (fold_children (c :: cs) (new_row c t)) as (Hc & _ & Hq).
  destruct (fold_blank (c :: cs) (new_row c t)) as [Hb Ho]; [done|].
  constructor; [exact Hc| | |exact Hq| | | | |exact Hb|exact Ho].
  - rewrite fold_status, Exists_exists. cbn [new_row r_status]. naive_solver.
  - intros [H1 H2]%Forall_cons. cbn [fold_left]. apply fold_disabled; [|done].
    cbn [add_child new_row r_status]. unfold join_status. fold one. by rewrite H1.
  - intros g. rewrite fold_groups, Exists_exists. cbn [new_row r_group]. change (split_groups []) with (@nil jstr).
    rewrite elem_of_nil. tauto.
  - rewrite (fold_common priority r_priority) by done. apply common_summarised, minus_one_unset.
  - rewrite (fold_common weight r_weight) by done. apply common_summarised, minus_one_unset.
  - by apply fold_mean.
Qed.

(** C37.  The loop over the shared rows implements grouping: one row per tag,
    in the order in which the tags appear, whose children are the channels
    with that tag in order.  Of its children a row shows: whether one is
    enabled, else the status of the first; the sum of their quotas; the groups
    of any of them; the priority, and the weight, that all share, or [null]
    when two differ, where leading [-1]s are passed over; the mean of their
    response times, kept up to date with every channel in the rounding
    arithmetic of the language - in exact arithmetic the same recurrence is
    the sum divided by the number.  The other cells are blank, and what the
    aggregation does not read comes from the first child. *)
Theorem aggregate_refines_grouping (channels : list Channel) :
  map r_tag (aggregateChannelsByTag channels) = dedup (map tag_of channels)
  /\ (forall r, r ∈ aggregateChannelsByTag channels ->
        exists first more, with_tag (r_tag r) channels = first :: more /\ row_of_children r first more)
  /\ forall qs, qs <> [] -> (running_mean rationals qs == Qsum qs / Qlength qs)%Q.
Proof.
  rewrite aggregate_rows.
  assert (Hrow : forall t, t ∈ dedup (map tag_of channels) -> exists c l,
    with_tag t channels = c :: l
    /\ row_at channels t = fold_left (fun r c => add_child c r) (c :: l) (new_row c t)).
  { intros t Ht. rewrite elem_of_dedup in Ht. pose proof (with_tag_ne t channels Ht). unfold row_at.
    destruct (with_tag t channels) as [|c l]; [done|]. by exists c, l. }
  assert (Htag : forall t, t ∈ dedup (map tag_of channels) -> r_tag (row_at channels t) = t).
  { intros t Ht. destruct (Hrow t Ht) as (c & l & _ & ->). by destruct (fold_children (c :: l) (new_row c t)) as (_ & -> & _). }
  split; [|split; [|exact running_mean_exact]].
  - rewrite map_map. rewrite <-(map_id (dedup _)) at 2. apply map_ext_in. intros t Ht%list_elem_of_In. by apply Htag.
  - intros r (t & -> & Ht)%list_elem_of_fmap. rewrite (Htag t Ht). destruct (Hrow t Ht) as (c & l & E & ->).
    exists c, l. split; [exact E|]. apply fold_row.
Qed.

(** [-1] stands for "no value yet", although a channel may have it: the
    priorities [-1] and [5] differ and the row shows [5]. *)
Lemma sentinel_priority c d :
  priority c = minus_one -> priority d = VNum (num_of_Z 5) -> tag c = None -> tag d = None ->
  map r_priority (aggregateChannelsByTag [c; d]) = [VNum (num_of_Z 5)].
Proof.
  intros Hc Hd Tc Td. rewrite aggregate_rows. cbn [map].
  assert (tag_of c = [] /\ tag_of d = []) as [-> ->] by (unfold tag_of; by rewrite Tc, Td).
  change (dedup [[]; []]) with [@nil N]. cbn [map].
  assert (with_tag [] [c; d] = [c; d]) as Hw.
  { unfold with_tag, tag_of. cbn [List.filter]. by rewrite Tc, Td. }
  unfold row_at. rewrite Hw. cbn [fold_left add_child r_priority new_row]. by rewrite Hc, Hd.
Qed.
