(* ===== verification/ChannelUtils.v ===== *)
(** * Helpers of the channel list (features/channels/lib/channel-utils.ts)

    Labels, badges, keys, models and groups of a channel, as the table of
    channels shows them, with the constants they read
    (features/channels/constants.ts), and the helpers of the multi-key and
    upstream dialogs (multi-key-utils.ts, upstream-update-utils.ts). *)
From stdpp Require Import sorting.
From S2P Require Import Prelude JsString JsNumber JsNumberFacts JsValue JsJson.
Open Scope N_scope.

(** ** Channel types *)

(** The known types; an index that is missing reads [undefined]. *)
Definition CHANNEL_TYPES : list (Z * jstr) :=
  [ (0, js "Unknown"); (1, js "OpenAI"); (2, js "MjProxy"); (3, js "Azure"); (4, js "Ollama");
    (5, js "MjProxyPlus"); (7, js "OhMyGPT"); (8, js "Custom"); (14, js "Anthropic"); (15, js "Baidu");
    (16, js "Zhipu"); (17, js "Ali"); (18, js "Xunfei"); (19, js "360"); (20, js "OpenRouter");
    (22, js "FastGPT"); (23, js "Tencent"); (24, js "Gemini"); (25, js "Moonshot"); (26, js "Zhipu V4");
    (27, js "Perplexity"); (31, js "LingYiWanWu"); (33, js "AWS"); (34, js "Cohere"); (35, js "MiniMax");
    (36, js "SunoAPI"); (37, js "Dify"); (38, js "Jina"); (39, js "Cloudflare"); (40, js "SiliconFlow");
    (41, js "Vertex AI"); (42, js "Mistral"); (43, js "DeepSeek"); (44, js "MokaAI");
    (45, js "VolcEngine"); (46, js "Baidu V2"); (47, js "Xinference"); (48, js "xAI"); (49, js "Coze");
    (50, js "Kling"); (51, js "Jimeng"); (52, js "Vidu"); (53, js "Submodel"); (54, js "DoubaoVideo");
    (55, js "Sora"); (56, js "Replicate"); (57, js "ChatGPT Subscription (Codex)");
    (58, js "Advanced Custom") ]%Z.

(** Icons by type. *)
Definition TYPE_TO_ICON : list (Z * jstr) :=
  [ (1, js "OpenAI"); (6, js "OpenAI"); (7, js "OpenAI"); (8, js "OpenAI"); (58, js "NewAPI");
    (3, js "Azure"); (14, js "Claude"); (24, js "Gemini"); (11, js "Google"); (41, js "Gemini");
    (33, js "Aws"); (39, js "Cloudflare"); (15, js "Baidu"); (46, js "Baidu"); (16, js "Zhipu");
    (26, js "Zhipu"); (17, js "Qwen"); (18, js "Spark"); (23, js "Hunyuan"); (19, js "Ai360");
    (25, js "Moonshot"); (31, js "Yi"); (35, js "Minimax"); (45, js "Volcengine"); (4, js "Ollama");
    (27, js "Perplexity"); (34, js "Cohere"); (42, js "Mistral"); (43, js "DeepSeek"); (48, js "XAI");
    (49, js "Coze"); (40, js "SiliconCloud"); (44, js "OpenAI"); (20, js "OpenRouter");
    (2, js "Midjourney"); (5, js "Midjourney"); (50, js "Kling"); (51, js "Jimeng"); (52, js "Vidu");
    (36, js "Suno"); (55, js "OpenAI"); (54, js "Doubao"); (56, js "Replicate"); (37, js "Dify");
    (38, js "Jina"); (22, js "FastGPT"); (47, js "Xinference"); (53, js "OpenAI"); (10, js "OpenAI");
    (21, js "OpenAI"); (12, js "OpenAI"); (13, js "OpenAI"); (9, js "OpenAI") ]%Z.

(** What the key field asks for. *)
Definition TYPE_TO_KEY_PROMPT : list (Z * jstr) :=
  [ (15, js "Format: APIKey|SecretKey"); (18, js "Format: APPID|APISecret|APIKey");
    (22, js "Format: APIKey-AppId, e.g., fastgpt-0sp2gtvfdgyi4k30jwlgwf1i-64f335d84283f05518e9e041");
    (23, js "Format: AppId|SecretId|SecretKey"); (33, js "Format: Ak|Sk|Region");
    (50, js "Format: AccessKey|SecretKey (or just ApiKey if upstream is HermesToken)");
    (51, js "Format: Access Key ID|Secret Access Key");
    (57, js "Paste Codex OAuth JSON credential (access_token / refresh_token / account_id)") ]%Z.

(** [table[n] || fallback] *)
Definition lookup_or (fallback : jstr) (n : Z) (table : list (Z * jstr)) : jstr :=
  match List.find (fun kv => bool_decide (kv.1 = n)) table with
  | Some kv => str_or kv.2 fallback
  | None => fallback
  end.

Definition getChannelTypeLabel (type : Z) : jstr := lookup_or (js "Unknown") type CHANNEL_TYPES.
Definition getChannelTypeIcon (type : Z) : jstr := lookup_or (js "OpenAI") type TYPE_TO_ICON.
Definition getKeyPromptForType (type : Z) : jstr :=
  lookup_or (js "Enter API key for this channel") type TYPE_TO_KEY_PROMPT.

Definition CHANNEL_TYPE_DISPLAY_ORDER : list Z :=
  [1; 14; 33; 24; 43; 3; 41; 48; 58; 42; 34; 20; 4; 40; 27; 25; 17; 26; 15; 46; 23; 18; 45; 31; 35; 49; 19; 47;
   37; 38; 39; 11; 8; 57; 22; 21; 44; 2; 5; 36; 50; 51; 52; 53; 54; 55; 56]%Z.

(** The options in display order, then the remaining known types. *)
Definition label_of (type : Z) : option jstr :=
  snd <$> List.find (fun kv => bool_decide (kv.1 = type)) CHANNEL_TYPES.

Fixpoint ordered_options (ids : list Z) : list (Z * jstr) :=
  match ids with
  | [] => []
  | i :: rest => match label_of i with
                 | Some l => (i, l) :: ordered_options rest
                 | None => ordered_options rest
                 end
  end.

Definition CHANNEL_TYPE_OPTIONS : list (Z * jstr) :=
  let ordered := ordered_options CHANNEL_TYPE_DISPLAY_ORDER in
  ordered ++ List.filter (fun kv => negb (kv.1 =? 0)%Z && negb (bool_decide (kv.1 ∈ map fst ordered))) CHANNEL_TYPES.

(** ** Badges *)

(** The pair of variant and label. *)
Abbreviation badge := (jstr * jstr)%type.

Definition CHANNEL_STATUS_CONFIG : list (Z * badge) :=
  [ (0, (js "neutral", js "Unknown")); (1, (js "success", js "Enabled"));
    (2, (js "danger", js "Disabled")); (3, (js "warning", js "Auto Disabled")) ]%Z.

Definition MULTI_KEY_STATUS_CONFIG : list (Z * badge) :=
  [ (1, (js "success", js "Enabled")); (2, (js "neutral", js "Manual Disabled"));
    (3, (js "danger", js "Auto Disabled")) ]%Z.

Definition badge_or (fallback : badge) (n : Z) (table : list (Z * badge)) : badge :=
  match List.find (fun kv => bool_decide (kv.1 = n)) table with Some kv => kv.2 | None => fallback end.

Definition getChannelStatusBadge (status : Z) : badge :=
  badge_or (js "neutral", js "Unknown") status CHANNEL_STATUS_CONFIG.
Definition getMultiKeyStatusBadge (status : Z) : badge :=
  badge_or (js "success", js "Enabled") status MULTI_KEY_STATUS_CONFIG.
Definition getMultiKeyStatusConfig (status : Z) : badge :=
  badge_or (js "neutral", js "Unknown") status MULTI_KEY_STATUS_CONFIG.

Inductive MultiKeyConfirmAction :=
  | delete | enable | disable | enable_all | disable_all | delete_disabled.

(** [None] is [null]. *)
Definition getMultiKeyConfirmMessage (action : option MultiKeyConfirmAction) : jstr :=
  match action with
  | None => []
  | Some delete => js "Are you sure you want to delete this key? This action cannot be undone."
  | Some enable => js "Enable this key?"
  | Some disable => js "Disable this key?"
  | Some enable_all => js "Are you sure you want to enable all keys?"
  | Some disable_all => js "Are you sure you want to disable all enabled keys?"
  | Some delete_disabled =>
      js "Are you sure you want to delete all auto-disabled keys? This action cannot be undone."
  end.

Definition isDestructiveAction (action : option MultiKeyConfirmAction) : bool :=
  match action with
  | Some delete | Some delete_disabled | Some disable_all => true
  | _ => false
  end.

(** ** Keys *)

Definition key_lines (key : jstr) : list jstr :=
  List.filter (fun k => str_truthy (trim k)) (split_char 10 key).

Definition formatChannelKey (key : jstr) (isMultiKey : bool) : jstr :=
  match key with
  | [] => []
  | _ =>
      if isMultiKey then show_nat (length (key_lines key)) ++ js " keys"
      else if (length key <=? 16)%nat then take 4 key ++ js "..." ++ slice_last 4 key
      else take 8 key ++ js "..." ++ slice_last 8 key
  end.

Definition formatKeyPreview (key : jstr) (maxLength : nat) : jstr :=
  match key with
  | [] => []
  | _ => if (length key <=? maxLength)%nat then key else take maxLength key ++ js "..."
  end.

Definition countKeys (key : jstr) : nat := match key with [] => 0 | _ => length (key_lines key) end.

Record Deduplicated := MkDedup {
  deduplicatedText : jstr; beforeCount : nat; afterCount : nat; removedCount : nat
}.

(** One step of [forEach]: the set of seen keys and the list. *)
Definition dedup_step (s : list jstr * list jstr) (line : jstr) : list jstr * list jstr :=
  let trimmedLine := trim line in
  if str_truthy trimmedLine && negb (bool_decide (trimmedLine ∈ s.1))
  then (trimmedLine :: s.1, s.2 ++ [trimmedLine]) else s.

Definition deduplicateKeys (keysText : jstr) : Deduplicated :=
  match trim keysText with
  | [] => MkDedup [] 0 0 0
  | _ =>
      let keyLines := split_char 10 keysText in
      let keys := (fold_left dedup_step keyLines ([], [])).2 in
      MkDedup (join [10] keys) (length keyLines) (length keys) (length keyLines - length keys)
  end.

(** ** Models and groups *)

Definition parseModelsList (models : jstr) : list jstr := split_trim_filter models.
Definition formatModelsString (models : list jstr) : jstr := join (js ",") models.
Definition formatGroupsString (groups : list jstr) : jstr := join (js ",") groups.

Section groups.
(** [a.localeCompare(b) <= 0], which the locale of the platform decides. *)
Context (locale_le : jstr -> jstr -> bool).

(** The order of the comparison function: ['default'] first. *)
Definition group_le (a b : jstr) : Prop :=
  if bool_decide (a = js "default") then True
  else if bool_decide (b = js "default") then False
  else locale_le a b = true.

#[export] Instance group_le_dec : RelDecision group_le.
Proof. intros a b. unfold group_le. repeat case_bool_decide; apply _. Defined.

Definition parseGroupsList (groups : jstr) : list jstr := merge_sort group_le (split_trim_filter groups).

Definition validateGroups (groups : jstr) : bool := negb (bool_decide (parseGroupsList groups = [])).
End groups.

Definition validateModels (models : jstr) : bool := negb (bool_decide (parseModelsList models = [])).
Definition validateChannelName (name : jstr) : bool := str_truthy (trim name).
Definition validateApiKey (key : jstr) : bool := str_truthy (trim key).

(** ** Stored settings *)

(** Absent, empty and unreadable texts count as [{}]. *)
Definition parseChannelSettings (settingStr : option jstr) : jsval :=
  match settingStr with
  | None | Some [] => VObj []
  | Some s => catch (json_parse s) (VObj [])
  end.

Definition parseChannelOtherSettings (settingsStr : option jstr) : jsval :=
  match settingsStr with
  | None | Some [] => VObj []
  | Some s => if bool_decide (s = js "{}") then VObj [] else catch (json_parse s) (VObj [])
  end.

Definition validateChannelSettings (settings : jstr) : bool :=
  match trim settings with
  | [] => true
  | _ => match json_parse settings with Ok _ => true | Throw _ => false end
  end.

(** ** Balance and response time *)

Definition getBalanceVariant (balance : num) : jstr :=
  if neqb balance nzero then js "neutral"
  else if nltb balance (num_of_Z 1) then js "danger"
  else if nltb balance (num_of_Z 10) then js "warning"
  else js "success".

(** [t] is the translation function, when one is given. *)
Definition formatResponseTime (t : option (jstr -> option jsval -> jstr)) (timeMs : num) : jstr :=
  if neqb timeMs nzero then
    match t with Some t => t (js "Not tested") None | None => js "Not tested" end
  else if nltb timeMs (num_of_Z 1000) then
    match t with
    | Some t => t (js "{{value}}ms") (Some (VNum timeMs))
    | None => num_to_str timeMs ++ js "ms"
    end
  else
    let s := to_fixed (ndiv timeMs (num_of_Z 1000)) 2 in
    match t with Some t => t (js "{{value}}s") (Some (VStr s)) | None => s ++ js "s" end.

Definition getResponseTimeConfig (timeMs : num) : badge :=
  if neqb timeMs nzero then (js "neutral", js "Not tested")
  else if nleb timeMs (num_of_Z 500) then (js "success", js "Excellent")
  else if nleb timeMs (num_of_Z 1000) then (js "success", js "Good")
  else if nleb timeMs (num_of_Z 2000) then (js "warning", js "Fair")
  else if nleb timeMs (num_of_Z 5000) then (js "danger", js "Poor")
  else (js "danger", js "Poor").

(** [null] and [undefined] show as [0]. *)
Definition getPriorityDisplay (priority : option num) : jstr :=
  match priority with None => js "0" | Some x => num_to_str x end.
Definition getWeightDisplay (weight : option num) : jstr :=
  match weight with None => js "0" | Some x => num_to_str x end.

(** ** Attention *)

(** What the two functions read of a channel; [multi_key_status_list] is an
    object, [None] when it is missing. *)
Record ChannelHealth := MkHealth {
  h_status : num; h_balance : num; is_multi_key : bool; multi_key_status_list : option jsobj;
  multi_key_size : num
}.

Definition isChannelEnabled (status : num) : bool := neqb status (num_of_Z 1).
(** [channel.channel_info?.is_multi_key || false] *)
Definition isMultiKeyChannel (channel_info : option bool) : bool := default false channel_info.

Definition all_keys_disabled (c : ChannelHealth) : bool :=
  is_multi_key c
  && match multi_key_status_list c with
     | Some l => nleb (multi_key_size c) (num_of_Z (Z.of_nat (length (okeys l))))
     | None => false
     end.

Definition low_balance (c : ChannelHealth) : bool :=
  nltb nzero (h_balance c) && nltb (h_balance c) (num_of_Z 1).

Definition channelNeedsAttention (c : ChannelHealth) : bool :=
  if neqb (h_status c) (num_of_Z 3) then true
  else if low_balance c then true
  else if all_keys_disabled c then true
  else false.

Definition getAttentionReason (c : ChannelHealth) : option jstr :=
  if neqb (h_status c) (num_of_Z 3) then Some (js "Auto-disabled")
  else if low_balance c then Some (js "Low balance")
  else if all_keys_disabled c then Some (js "All keys disabled")
  else None.

(** ** Upstream updates *)

(** [models || []] of an unchecked value; only arrays have [map]. *)
Definition normalizeModelList (models : jsval) : res (list jstr) :=
  match vor models (VArr []) with
  | VArr l =>
      let* names := res_mapM (fun model => to_str (vor model (VStr []))) l in
      Ok (dedup (List.filter str_truthy (map trim names)))
  | _ => Throw TypeError
  end.

Record UpdateMeta := MkMeta { enabled : bool; pendingAddModels : list jstr; pendingRemoveModels : list jstr }.

Definition parseUpstreamUpdateMeta (settings : jsval) : res UpdateMeta :=
  let parsed := match settings with
                | VObj _ => settings
                | VStr s => catch (json_parse s) VNull
                | _ => VNull
                end in
  if negb (is_object parsed) then Ok (MkMeta false [] [])
  else
    let* check := vget (js "upstream_model_update_check_enabled") parsed in
    let* added := vget (js "upstream_model_update_last_detected_models") parsed in
    let* added := normalizeModelList (vor added (VArr [])) in
    let* removed := vget (js "upstream_model_update_last_removed_models") parsed in
    let* removed := normalizeModelList (vor removed (VArr [])) in
    Ok (MkMeta (is_true check) added removed).
