(* ===== verification/ChannelUtilsFacts.v ===== *)
(** * Facts on the helpers of the channel list

    Keys are deduplicated once and for all, groups are sorted with the
    default first, every known type is offered once, and what the form stores
    about upstream models is what the list shows. *)
From stdpp Require Import sorting.
From S2P Require Import Prelude JsString JsNumber JsValue JsValueFacts JsJson JsJsonRoundtrip JsStorable AdvancedCustom AdvancedCustomFacts ChannelForm ChannelSettingsFacts ChannelUtils.
Open Scope N_scope.

(** ** Keys *)

Definition clean_lines (text : jstr) : list jstr := List.filter str_truthy (map trim (split_char 10 text)).

Lemma dedup_fold lines seen keys :
  (forall k, k ∈ seen <-> k ∈ keys) ->
  (fold_left dedup_step lines (seen, keys)).2
  = keys ++ dedup_from keys (List.filter str_truthy (map trim lines)).
Proof.
  revert seen keys. induction lines as [|l lines IH]; intros seen keys Hs; cbn [fold_left map List.filter].
  - by rewrite app_nil_r.
  - unfold dedup_step at 2. cbn [fst snd]. destruct (str_truthy (trim l)) eqn:Et; cbn [andb]; [|by apply IH].
    cbn [dedup_from]. rewrite (bool_decide_ext (trim l ∈ seen) (trim l ∈ keys)) by done.
    case_bool_decide as Hin; cbn [negb]; [by apply IH|].
    rewrite IH.
    + rewrite <-app_assoc. cbn [app]. f_equal. f_equal. apply dedup_from_ext.
      intros x. rewrite elem_of_app, !elem_of_cons, elem_of_nil. tauto.
    + intros k. rewrite elem_of_app, !elem_of_cons, elem_of_nil, Hs. tauto.
Qed.

Lemma deduplicateKeys_keys text :
  trim text <> [] ->
  deduplicateKeys text = MkDedup (join [10] (dedup (clean_lines text))) (length (split_char 10 text))
    (length (dedup (clean_lines text))) (length (split_char 10 text) - length (dedup (clean_lines text))).
Proof.
  intros H. unfold deduplicateKeys. destruct (trim text) as [|c s]; [done|]. cbv zeta.
  by rewrite (dedup_fold (split_char 10 text) [] []).
Qed.

(** A clean line: trimmed, not empty, on one line. *)
Lemma clean_line text k : k ∈ clean_lines text -> trim k = k /\ k <> [] /\ 10 ∉ k.
Proof.
  unfold clean_lines. rewrite list_elem_of_In, filter_In, <-list_elem_of_In. intros [Hk Ht].
  apply list_elem_of_fmap in Hk as (l & -> & Hl). split_and!; [apply trim_idemp|by intros E; rewrite E in Ht|].
  intros Hc%elem_of_trim. pose proof (split_char_parts 10 text) as Hp. rewrite list.Forall_forall in Hp.
  by apply (Hp l).
Qed.

Lemma clean_lines_join l :
  Forall (fun k => trim k = k /\ k <> [] /\ 10 ∉ k) l -> l <> [] -> clean_lines (join [10] l) = l.
Proof.
  intros H Hne. unfold clean_lines. rewrite split_char_join; [|eapply Forall_impl; [exact H|]; by intros ? (_ & _ & ?)|done].
  induction H as [|k l (Ht & Hk & _) _ IH]; [done|]. cbn [map List.filter]. rewrite Ht. destruct k; [done|].
  cbn [str_truthy]. destruct l; [done|]. by rewrite IH.
Qed.

Lemma split_char_units c s w x : w ∈ split_char c s -> x ∈ w -> x ∈ s.
Proof.
  revert w. induction s as [|y s IH]; intros w; cbn [split_char].
  { rewrite list_elem_of_singleton. intros ->. by intros ?%elem_of_nil. }
  destruct (split_char_cons c s) as (v & vs & E). rewrite E in *. destruct (y =? c).
  - rewrite elem_of_cons. intros [->|Hw] Hx; [by apply elem_of_nil in Hx|]. right. by apply (IH w).
  - rewrite elem_of_cons. intros [->|Hw].
    + rewrite !elem_of_cons. intros [->|Hx]; [by left|]. right. apply (IH v); [by left|done].
    + intros Hx. right. apply (IH w); [by right|done].
Qed.

Lemma blank_lines text line : trim text = [] -> line ∈ split_char 10 text -> trim line = [].
Proof.
  intros Ht%trim_nil Hl.
  assert (Hl' : forallb is_ws (trim line) = true).
  { apply forallb_trim, forallb_Forall, list.Forall_forall. intros x Hx.
    rewrite forallb_Forall, list.Forall_forall in Ht. apply Ht. by eapply split_char_units. }
  pose proof (trim_trimmed line) as Htr. destruct (trim line) as [|c s]; [done|].
  unfold trimmed in Htr. cbn [forallb] in Hl'. apply andb_true_iff in Hl' as [Hc _].
  by rewrite Hc in Htr.
Qed.

(** A list of clean lines is what its text reads as. *)
Section clean.
Context (keys : list jstr) (Hclean : Forall (fun k => trim k = k /\ k <> [] /\ 10 ∉ k) keys).

Lemma clean_split : keys <> [] -> split_char 10 (join [10] keys) = keys.
Proof.
  intros Hne. apply split_char_join; [|done]. eapply Forall_impl; [exact Hclean|]. by intros ? (_ & _ & ?).
Qed.

Lemma countKeys_join : countKeys (join [10] keys) = length keys.
Proof.
  destruct (decide (keys = [])) as [->|Hne]; [done|]. unfold countKeys.
  assert (length (key_lines (join [10] keys)) = length keys) as E.
  { unfold key_lines. rewrite clean_split, List.forallb_filter_id; [done| |done].
    apply forallb_Forall. eapply Forall_impl; [exact Hclean|]. intros k (-> & Hk & _). by destruct k. }
  rewrite E. destruct (join [10] keys) as [|c s] eqn:Ej; [|done]. cbn in E.
  destruct keys as [|k l]; [done|]. apply Forall_cons in Hclean as [(_ & Hk & _) _].
  destruct k; [done|]. by destruct l.
Qed.

Lemma deduplicateKeys_join :
  dedup keys = keys ->
  deduplicateKeys (join [10] keys) = MkDedup (join [10] keys) (length keys) (length keys) 0.
Proof.
  intros Hd. destruct (decide (keys = [])) as [->|Hne]; [done|]. pose proof clean_split as Hs.
  assert (Ht : trim (join [10] keys) <> []).
  { intros Ht. destruct keys as [|k l]; [done|]. apply Forall_cons in Hclean as [(Hk & Hk0 & _) _].
    apply Hk0. rewrite <-Hk. apply (blank_lines _ _ Ht). rewrite Hs by done. by left. }
  rewrite deduplicateKeys_keys, clean_split, clean_lines_join, Hd, Nat.sub_diag; done.
Qed.
End clean.

(** Deduplicating the keys of a text keeps the first occurrence of each
    trimmed line that is not blank, in order; the counts add up; and what it
    returns counts, and deduplicates, as the same keys. *)
Theorem deduplicate_keys_spec (text : jstr) :
  let r := deduplicateKeys text in
  (exists keys, deduplicatedText r = join [10] keys /\ NoDup keys /\ afterCount r = length keys
     /\ (forall k, k ∈ keys <-> k <> [] /\ exists line, line ∈ split_char 10 text /\ k = trim line))
  /\ (afterCount r + removedCount r = beforeCount r)%nat
  /\ countKeys (deduplicatedText r) = afterCount r
  /\ deduplicateKeys (deduplicatedText r) = MkDedup (deduplicatedText r) (afterCount r) (afterCount r) 0.
Proof.
  intros r. assert (Hmem : forall k, k ∈ dedup (clean_lines text)
    <-> k <> [] /\ exists line, line ∈ split_char 10 text /\ k = trim line).
  { intros k. rewrite elem_of_dedup. unfold clean_lines.
    rewrite list_elem_of_In, filter_In, <-list_elem_of_In, list_elem_of_fmap.
    split; intros [H1 H2]; destruct k; naive_solver. }
  destruct (decide (trim text = [])) as [Ht|Ht].
  - assert (r = MkDedup [] 0 0 0) as -> by (unfold r, deduplicateKeys; by rewrite Ht). split_and!; [|done..].
    exists []. split_and!; [done|constructor|done|]. intros k. split; [by intros ?%elem_of_nil|].
    intros (Hk & line & Hl & ->). by rewrite (blank_lines text line Ht Hl) in Hk.
  - assert (Er := deduplicateKeys_keys text Ht). fold r in Er. set (keys := dedup (clean_lines text)) in *.
    assert (Hclean : Forall (fun k => trim k = k /\ k <> [] /\ 10 ∉ k) keys).
    { apply list.Forall_forall. intros k Hk. apply (clean_line text). unfold keys in Hk.
      by rewrite elem_of_dedup in Hk. }
    assert (Hlen : (length keys <= length (split_char 10 text))%nat).
    { unfold keys, clean_lines. etransitivity; [apply dedup_length|].
      etransitivity; [apply List.filter_length_le|]. by rewrite length_map. }
    assert (Hid : dedup keys = keys) by (apply dedup_id, NoDup_dedup).
    rewrite Er. cbn [deduplicatedText beforeCount afterCount removedCount]. split_and!.
    + exists keys. split_and!; [done|apply NoDup_dedup|done|done].
    + lia.
    + by apply countKeys_join.
    + by apply deduplicateKeys_join.
Qed.

(** ** Groups *)

Section sorted_groups.
Context (locale_le : jstr -> jstr -> bool).
Context (locale_total : forall a b, locale_le a b = true \/ locale_le b a = true).
Context (locale_trans : forall a b c, locale_le a b = true -> locale_le b c = true -> locale_le a c = true).

#[local] Instance group_le_total : Total (group_le locale_le).
Proof. intros a b. unfold group_le. repeat case_bool_decide; simplify_eq; auto. Qed.

#[local] Instance group_le_trans : Transitive (group_le locale_le).
Proof. intros a b c. unfold group_le. repeat case_bool_decide; simplify_eq; eauto; done. Qed.

(** The groups of a text are its parts, sorted, the default group first. *)
Lemma parseGroupsList_sorted (text : jstr) :
  let groups := parseGroupsList locale_le text in
  groups ≡ₚ split_trim_filter text
  /\ StronglySorted (group_le locale_le) groups
  /\ (js "default" ∈ split_trim_filter text -> head groups = Some (js "default")).
Proof.
  cbv zeta. unfold parseGroupsList. pose proof (merge_sort_Permutation (group_le locale_le) (split_trim_filter text)) as Hp.
  pose proof (StronglySorted_merge_sort (group_le locale_le) (split_trim_filter text)) as Hs.
  split_and!; [done|done|]. intros Hd. rewrite <-Hp in Hd. destruct Hs as [|g l _ Hg]; [by apply elem_of_nil in Hd|].
  apply elem_of_cons in Hd as [<-|Hd]; [done|]. rewrite list.Forall_forall in Hg. specialize (Hg _ Hd).
  unfold group_le in Hg. repeat case_bool_decide; try done. by subst.
Qed.
End sorted_groups.

(** ** Types *)

(** Each known type except the unknown one is offered once, with its label. *)
Lemma options_complete :
  NoDup (map fst CHANNEL_TYPE_OPTIONS)
  /\ Forall (fun kv => kv.1 = 0%Z \/ kv ∈ CHANNEL_TYPE_OPTIONS) CHANNEL_TYPES
  /\ Forall (fun kv => getChannelTypeLabel kv.1 = kv.2) CHANNEL_TYPE_OPTIONS.
Proof. split_and!; decide_now. Qed.

(** ** Attention *)

(** The list marks a channel exactly when it can say why. *)
Lemma attention_has_reason c : channelNeedsAttention c = bool_decide (is_Some (getAttentionReason c)).
Proof. unfold channelNeedsAttention, getAttentionReason. by repeat case_match. Qed.

(** ** Hidden keys *)

(** A key of at most four units is shown whole, and twice. *)
Lemma short_key_shown key :
  key <> [] -> (length key <= 4)%nat -> formatChannelKey key false = key ++ js "..." ++ key.
Proof.
  intros Hne Hl. unfold formatChannelKey. destruct key as [|c s]; [done|].
  rewrite (proj2 (Nat.leb_le _ _)) by lia. rewrite (list.take_ge (c :: s)) by lia.
  unfold slice_last. by replace (length (c :: s) - 4)%nat with 0%nat by lia.
Qed.

(** ** Upstream models *)

Lemma normalizeModelList_strings l :
  normalizeModelList (VArr (map VStr l)) = Ok (dedup (List.filter str_truthy (map trim l))).
Proof.
  unfold normalizeModelList. cbn [vor truthy]. enough (res_mapM (fun m => to_str (vor m (VStr []))) (map VStr l) = Ok l) as -> by done.
  induction l as [|s l IH]; [done|]. cbn [map res_mapM]. rewrite IH. by destruct s.
Qed.

Lemma normalize_vor v : normalizeModelList (vor v (VArr [])) = normalizeModelList v.
Proof. unfold normalizeModelList. by rewrite vor_idemp. Qed.

(** The list of channels shows what the form stored: the settings text of
    a form for a type that can list models says whether the check is on,
    which models were detected when it is (none when it is off or when the
    stored value is not a list), and the removed models as they were. *)
Theorem upstream_meta_of_form (f o : jsobj) (text : jstr) :
  existing_settings f = VObj o -> storable o -> form_printable f -> fetchable f = true ->
  buildSettingsJSON f = Ok text ->
  parseUpstreamUpdateMeta (VStr text)
  = (let* added := normalizeModelList
       (detected_models f (oget (js "upstream_model_update_last_detected_models") o)) in
     let* removed := normalizeModelList (oget (js "upstream_model_update_last_removed_models") o) in
     Ok (MkMeta (checks f) added removed)).
Proof.
  intros He Ho Hf Hfe. unfold buildSettingsJSON. rewrite He.
  destruct (settings_object f o) as [o'|] eqn:Es; [|done]. intros <-%Ok_inj.
  unfold parseUpstreamUpdateMeta.
  pose proof (storable_settings f o o' Hf Ho Es) as Hs. rewrite (storable_json o' Hs). cbn [catch is_object negb vget res_bind].
  destruct Hs as [Hnd _]. rewrite !(oget_same (obj_of o') o') by done.
  pose proof (settings_upstream f o o' Es) as Hu. rewrite Hfe in Hu. destruct Hu as (models & _ & Hu).
  rewrite (Hu _ _ (list_elem_of_lookup_2 (upstream_setting f models o) 0 _ eq_refl)).
  rewrite (Hu _ _ (list_elem_of_lookup_2 (upstream_setting f models o) 3 _ eq_refl)).
  assert (oget (js "upstream_model_update_last_removed_models") o'
          = oget (js "upstream_model_update_last_removed_models") o) as ->.
  { rewrite (oget_settings f o o' _ Es) by decide_now. apply oget_untyped. decide_now. }
  rewrite !normalize_vor. by destruct (checks f).
Qed.

Lemma upstream_meta_of_form_witness :
  buildSettingsJSON sample_form = Ok sample_text
  /\ parseUpstreamUpdateMeta (VStr sample_text) = Ok (MkMeta true [] []).
Proof.
  assert (H : buildSettingsJSON sample_form = Ok sample_text) by (vm_compute; reflexivity).
  assert (He : existing_settings sample_form = VObj sample_old) by (vm_compute; reflexivity).
  split; [exact H|].
  rewrite (upstream_meta_of_form sample_form sample_old sample_text He sample_storable sample_printable
    ltac:(vm_compute; reflexivity) H).
  vm_compute. reflexivity.
Defined.
