(* ===== verification/Passkey.v ===== *)
(** * Base64url encoding of credentials (lib/passkey.ts)

    The two conversions between byte buffers and base64url text.  [atob] and
    [btoa] are the functions of the platform (WHATWG Infra, forgiving base64);
    [None] is the exception they throw. *)
From S2P Require Import Prelude JsString.
Open Scope N_scope.

Ltac Zify.zify_post_hook ::= Z.to_euclidean_division_equations.

(** ** The platform's base64 *)

Definition alphabet : jstr := js "ABCDEFGHIJKLMNOPQRSTUVWXYZabcdefghijklmnopqrstuvwxyz0123456789+/".

Definition b64_char (n : N) : N := default 61 (alphabet !! N.to_nat n).

Fixpoint position (c : N) (s : jstr) : option N :=
  match s with
  | [] => None
  | x :: s => if x =? c then Some 0 else N.succ <$> position c s
  end.

Definition b64_value (c : N) : option N := position c alphabet.

(** Bytes as six-bit values, the last one filled with zeros. *)
Fixpoint sextets (bytes : list N) : list N :=
  match bytes with
  | a :: b :: c :: rest =>
      a / 4 :: (a mod 4) * 16 + b / 16 :: (b mod 16) * 4 + c / 64 :: c mod 64 :: sextets rest
  | [a; b] => [a / 4; (a mod 4) * 16 + b / 16; (b mod 16) * 4]
  | [a] => [a / 4; (a mod 4) * 16]
  | [] => []
  end.

Definition padding_of (len : nat) : nat := (3 - len mod 3) mod 3.

(** [btoa(s)]: every unit has to be a byte. *)
Definition btoa (s : jstr) : option jstr :=
  if forallb (fun c => c <? 256) s
  then Some (map b64_char (sextets s) ++ replicate (padding_of (length s)) 61)
  else None.

(** Six-bit values as bytes; the bits that remain are dropped. *)
Fixpoint octets (l : list N) : list N :=
  match l with
  | a :: b :: c :: d :: rest =>
      a * 4 + b / 16 :: (b mod 16) * 16 + c / 4 :: (c mod 4) * 64 + d :: octets rest
  | [a; b; c] => [a * 4 + b / 16; (b mod 16) * 16 + c / 4]
  | [a; b] => [a * 4 + b / 16]
  | _ => []
  end.

Definition ascii_ws (c : N) : bool :=
  (c =? 9) || (c =? 10) || (c =? 12) || (c =? 13) || (c =? 32).

Definition drop_padding (s : jstr) : jstr :=
  match rev s with
  | 61 :: 61 :: t => rev t
  | 61 :: t => rev t
  | _ => s
  end.

Definition atob (input : jstr) : option jstr :=
  let s := List.filter (fun c => negb (ascii_ws c)) input in
  let s := if (length s mod 4 =? 0)%nat then drop_padding s else s in
  if (length s mod 4 =? 1)%nat then None
  else octets <$> mapM b64_value s.

(** ** The conversions *)

Definition base64UrlToArrayBuffer (value : option jstr) : option (list N) :=
  match value with
  | None | Some [] => Some []
  | Some value =>
      let padding := replicate ((4 - length value mod 4) mod 4) 61 in
      let base64 := replace_char 95 [47] (replace_char 45 [43] (value ++ padding)) in
      atob base64
  end.

(** [s.replace(/=+$/g, '')] *)
Fixpoint drop_equals (s : jstr) : jstr :=
  match s with c :: s' => if c =? 61 then drop_equals s' else s | [] => [] end.

Definition arrayBufferToBase64Url (buffer : option (list N)) : option jstr :=
  match buffer with
  | None => Some []
  | Some bytes =>
      (fun encoded => rev (drop_equals (rev (replace_char 47 [95] (replace_char 43 [45] encoded)))))
      <$> btoa bytes
  end.

(** ** The alphabet *)

Definition url_char (n : N) : N :=
  let c := b64_char n in if c =? 43 then 45 else if c =? 47 then 95 else c.

Definition url_safe (c : N) : bool := is_word c || (c =? 45).

Lemma below_64 (f : N -> bool) :
  forallb f (map N.of_nat (seq 0 64)) = true -> forall n, n < 64 -> f n = true.
Proof.
  rewrite forallb_forall. intros Hf n H. apply Hf, in_map_iff. exists (N.to_nat n). split; [lia|]. apply in_seq. lia.
Qed.

Lemma value_char n : n < 64 -> b64_value (b64_char n) = Some n.
Proof.
  intros H. pose proof (below_64 (fun n => match b64_value (b64_char n) with Some m => m =? n | None => false end)
    ltac:(vm_compute; reflexivity) n H) as E. cbn beta in E.
  destruct (b64_value (b64_char n)); [|done]. by apply N.eqb_eq in E as ->.
Qed.

Lemma char_not_padding n : n < 64 -> b64_char n <> 61.
Proof.
  intros H. apply N.eqb_neq, negb_true_iff, (below_64 (fun n => negb (b64_char n =? 61)));
    [vm_compute; reflexivity|exact H].
Qed.

Lemma url_not_padding n : n < 64 -> url_char n <> 61.
Proof.
  intros H. apply N.eqb_neq, negb_true_iff, (below_64 (fun n => negb (url_char n =? 61)));
    [vm_compute; reflexivity|exact H].
Qed.

Lemma char_not_ws n : n < 64 -> negb (ascii_ws (b64_char n)) = true.
Proof. apply (below_64 (fun n => negb (ascii_ws (b64_char n)))). vm_compute. reflexivity. Qed.

Lemma url_char_safe n : n < 64 -> url_safe (url_char n) = true.
Proof. apply (below_64 (fun n => url_safe (url_char n))). vm_compute. reflexivity. Qed.

(** The two replacements before decoding. *)
Definition std_char (c : N) : N := let c := if c =? 45 then 43 else c in if c =? 95 then 47 else c.

Lemma std_url_char n : n < 64 -> std_char (url_char n) = b64_char n.
Proof.
  intros H. apply N.eqb_eq, (below_64 (fun n => std_char (url_char n) =? b64_char n));
    [vm_compute; reflexivity|exact H].
Qed.

#[local] Opaque b64_char b64_value.

(** ** Bytes and six-bit values *)

Definition bytes (l : list N) : Prop := Forall (fun c => c < 256) l.

Lemma ind3 (P : list N -> Prop) :
  P [] -> (forall a, P [a]) -> (forall a b, P [a; b]) ->
  (forall a b c l, P l -> P (a :: b :: c :: l)) -> forall l, P l.
Proof.
  intros H0 H1 H2 H3. fix go 1. intros [|a [|b [|c l]]]; [done|done|done|apply H3, go].
Qed.

Lemma sextets_bound l : bytes l -> Forall (fun n => n < 64) (sextets l).
Proof.
  induction l as [|a|a b|a b c l IH] using ind3; unfold bytes; rewrite ?Forall_cons; cbn [sextets];
    intros H; destruct_and? H; cbv beta in *; repeat (apply List.Forall_cons; [cbv beta; lia|]); try apply List.Forall_nil. by apply IH.
Qed.

Lemma octets_sextets l : bytes l -> octets (sextets l) = l.
Proof.
  induction l as [|a|a b|a b c l IH] using ind3; unfold bytes; rewrite ?Forall_cons; cbn [sextets octets];
    intros H; destruct_and? H; cbv beta in *; [done|repeat f_equal; lia..|]. rewrite IH by done. repeat f_equal; lia.
Qed.

Lemma sextets_length l :
  (length (sextets l) mod 4 + padding_of (length l) = 4 \/ (length (sextets l) mod 4 = 0 /\ padding_of (length l) = 0))%nat
  /\ (padding_of (length l) <= 2)%nat.
Proof.
  unfold padding_of. induction l as [|a|a b|a b c l IH] using ind3; cbn [sextets length]; [cbn; lia..|].
  destruct IH as [IH1 IH2].
  assert (forall n, S (S (S n)) mod 3 = n mod 3)%nat as ->
    by (intros n; rewrite <-(Nat.Div0.mod_add n 1 3); f_equal; lia).
  assert (forall n, S (S (S (S n))) mod 4 = n mod 4)%nat as ->
    by (intros n; rewrite <-(Nat.Div0.mod_add n 1 4); f_equal; lia). done.
Qed.

(** ** The conversions *)

Lemma replace_unit c d s : replace_char c [d] s = map (fun x => if x =? c then d else x) s.
Proof. induction s as [|x s IH]; [done|]. cbn. destruct (x =? c); cbn [app]; by rewrite <-IH. Qed.

Lemma map_replicate {A B} (f : A -> B) x k : map f (replicate k x) = replicate k (f x).
Proof. induction k as [|k IH]; [done|]. cbn [replicate map]. by rewrite IH. Qed.

Lemma rev_replicate {A} (x : A) k : rev (replicate k x) = replicate k x.
Proof. rewrite rev_alt. apply reverse_replicate. Qed.

Lemma drop_equals_pad k s : drop_equals (replicate k 61 ++ s) = drop_equals s.
Proof. induction k as [|k IH]; [done|]. exact IH. Qed.

Lemma drop_equals_none s : Forall (fun c => c <> 61) s -> drop_equals s = s.
Proof. intros [|c s' Hc _]; [done|]. cbn. by rewrite (proj2 (N.eqb_neq _ _)). Qed.

Lemma encode_url l :
  bytes l -> arrayBufferToBase64Url (Some l) = Some (map url_char (sextets l)).
Proof.
  intros H. unfold arrayBufferToBase64Url, btoa.
  assert (forallb (fun c => c <? 256) l = true) as ->.
  { apply forallb_Forall. eapply Forall_impl; [exact H|]. cbn. intros c. by apply N.ltb_lt. }
  cbn [fmap option_fmap option_map]. f_equal.
  rewrite !replace_unit, !map_app, !map_map, rev_app_distr.
  rewrite (map_replicate _ 61), rev_replicate. cbn [N.eqb Pos.eqb].
  rewrite drop_equals_pad.
  assert (map (fun x => if (if b64_char x =? 43 then 45 else b64_char x) =? 47 then 95
                        else if b64_char x =? 43 then 45 else b64_char x) (sextets l) = map url_char (sextets l)) as ->.
  { apply map_ext. intros n. unfold url_char. by destruct (b64_char n =? 43). }
  rewrite drop_equals_none, rev_involutive; [done|].
  apply Forall_rev, Forall_fmap. eapply Forall_impl; [by apply sextets_bound|]. cbn.
  apply url_not_padding.
Qed.

Lemma drop_padding_end s k :
  Forall (fun c => c <> 61) s -> (k <= 2)%nat -> drop_padding (s ++ replicate k 61) = s.
Proof.
  intros H Hk. unfold drop_padding. rewrite rev_app_distr. apply Forall_rev in H. revert H.
  destruct k as [|[|[|k]]]; [| | |lia]; cbn [replicate rev app]; intros H.
  - rewrite app_nil_r. destruct (rev s) as [|c t]; [done|]. apply Forall_cons in H as [Hc _]. by repeat case_match.
  - replace s with (rev (rev s)) by apply rev_involutive. destruct (rev s) as [|c t]; [done|].
    apply Forall_cons in H as [Hc _]. rewrite rev_involutive. by repeat case_match.
  - by rewrite rev_involutive.
Qed.

Lemma mapM_values l : Forall (fun n => n < 64) l -> mapM b64_value (map b64_char l) = Some l.
Proof.
  intros H. apply mapM_Some_2. induction H as [|n l Hn _ IH]; constructor; [by apply value_char|done].
Qed.

Lemma atob_padded l k :
  Forall (fun n => n < 64) l -> (k <= 2)%nat ->
  (length l mod 4 + k = 4 \/ (length l mod 4 = 0 /\ k = 0))%nat ->
  atob (map b64_char l ++ replicate k 61) = Some (octets l).
Proof.
  intros Hl Hk Hm. unfold atob.
  assert (List.filter (fun c => negb (ascii_ws c)) (map b64_char l ++ replicate k 61) = map b64_char l ++ replicate k 61) as ->.
  { apply List.forallb_filter_id. rewrite forallb_app, andb_true_iff. split.
    - apply forallb_Forall, Forall_fmap. eapply Forall_impl; [exact Hl|]. apply char_not_ws.
    - clear. by induction k. }
  assert (Nat.modulo (length (map b64_char l ++ replicate k 61)) 4 = 0%nat) as ->.
  { rewrite length_app, length_map, length_replicate. rewrite Nat.Div0.add_mod.
    destruct Hm as [Hm|[Hm ->]]; [|by rewrite Hm]. rewrite (Nat.mod_small k) by lia. by rewrite Hm. }
  cbn [Nat.eqb]. cbv zeta. rewrite drop_padding_end; [|apply Forall_fmap; eapply Forall_impl; [exact Hl|apply char_not_padding]|done].
  rewrite length_map. assert ((length l mod 4 =? 1)%nat = false) as -> by (apply Nat.eqb_neq; lia).
  by rewrite mapM_values.
Qed.

Lemma decode_url l :
  bytes l -> base64UrlToArrayBuffer (Some (map url_char (sextets l))) = Some l.
Proof.
  intros H. destruct (decide (l = [])) as [->|Hne]; [done|].
  pose proof (sextets_bound l H) as Hb. destruct (sextets_length l) as [Hm Hk].
  assert (E : base64UrlToArrayBuffer (Some (map url_char (sextets l)))
              = atob (map b64_char (sextets l) ++ replicate (padding_of (length l)) 61)).
  { unfold base64UrlToArrayBuffer. destruct (map url_char (sextets l)) as [|c t] eqn:Em.
    { by destruct l as [|a [|b [|d l]]]. }
    rewrite <-Em. f_equal. rewrite length_map. rewrite !replace_unit, map_map, map_app, map_map. f_equal.
    - apply map_ext_in. intros n Hn%list_elem_of_In. rewrite list.Forall_forall in Hb.
      by apply std_url_char, Hb.
    - assert (((4 - length (sextets l) mod 4) mod 4)%nat = padding_of (length l)) as ->.
      { destruct Hm as [Hm|[-> ->]]; [|done]. rewrite Nat.mod_small; lia. }
      by rewrite !(map_replicate _ 61). }
  rewrite E, atob_padded by done. by rewrite octets_sextets.
Qed.

(** C22.  The text of any buffer of bytes is url-safe (letters, digits, [-] and
    [_], no padding), holds six bits per character, and decodes to the same
    bytes, so the identifiers and signatures of a credential reach the server
    unchanged. *)
Theorem base64url_roundtrip (buffer : list N) :
  bytes buffer ->
  exists text, arrayBufferToBase64Url (Some buffer) = Some text
    /\ forallb url_safe text = true
    /\ (4 * length buffer <= 3 * length text < 4 * length buffer + 3)%nat
    /\ base64UrlToArrayBuffer (Some text) = Some buffer.
Proof.
  intros H. exists (map url_char (sextets buffer)). split_and!; [by apply encode_url| | | |by apply decode_url].
  - apply forallb_Forall, Forall_fmap. eapply Forall_impl; [by apply sextets_bound|]. apply url_char_safe.
  - rewrite length_map. clear H. induction buffer as [|a|a b|a b c l IH] using ind3; cbn [sextets length]; lia.
  - rewrite length_map. clear H. induction buffer as [|a|a b|a b c l IH] using ind3; cbn [sextets length]; lia.
Qed.

Lemma base64url_roundtrip_witness :
  arrayBufferToBase64Url (Some [251; 255; 191; 0]) = Some (js "-_-_AA")
  /\ base64UrlToArrayBuffer (Some (js "-_-_AA")) = Some [251; 255; 191; 0].
Proof.
  assert (E : arrayBufferToBase64Url (Some [251; 255; 191; 0]) = Some (js "-_-_AA")) by (vm_compute; reflexivity).
  assert (bytes [251; 255; 191; 0]) as H by (repeat constructor; lia).
  destruct (base64url_roundtrip [251; 255; 191; 0] H) as (text & Ht & _ & _ & Hd).
  split; [exact E|]. assert (text = js "-_-_AA") as -> by congruence. exact Hd.
Defined.
