(* ===== verification/ModelPricing.v ===== *)
(** * Model prices (features/system-settings/models)

    The ten stored tables of prices and ratios, the rows the administrator
    sees (model-pricing-snapshots.ts, pricing-format.ts) and the two operations
    that rewrite the tables (model-ratio-visual-editor.tsx).  The texts are
    JSON; the model covers the tables that are objects, as the server sends
    them: an operation on any other JSON value is [None]. *)
From S2P Require Import Prelude JsString JsNumber JsValue JsValueFacts JsJson JsJsonFacts JsJsonRoundtrip JsStorable BillingExpr.
Open Scope N_scope.

(** ** Numbers (pricing-format.ts) *)

Definition DISPLAY_DECIMALS : Z := 12.
Definition SNAP_DECIMALS : nat := 8.
Definition SNAP_EPSILON : num := num_of_str (js "1e-12").
(** [Number.EPSILON] *)
Definition EPSILON : num := ndiv (num_of_Z 1) (num_of_Z (2 ^ 52)).

Definition roundToDecimals (value : num) (decimals : nat) : num :=
  let factor := num_of_Z (10 ^ Z.of_nat decimals) in
  ndiv (nround (nmul value factor)) factor.

Fixpoint snap_from (fuel : nat) (tolerance value : num) (decimals : nat) : num :=
  match fuel with
  | O => value
  | S fuel =>
      let rounded := roundToDecimals value decimals in
      if nleb (nabs (nsub value rounded)) tolerance then rounded
      else snap_from fuel tolerance value (S decimals)
  end.

Definition snapFloatDrift (value : num) : num :=
  let tolerance := nmax SNAP_EPSILON (nmul (nmul (nabs value) EPSILON) (num_of_Z 8)) in
  snap_from (S SNAP_DECIMALS) tolerance value 0.

Definition formatPricingNumber (value : num) : jstr :=
  if is_finite value
  then num_to_str (parse_float (to_fixed (snapFloatDrift value) DISPLAY_DECIMALS))
  else [].

(** [toNumberOrNull] of a text. *)
Definition toNumberOrNull (value : jstr) : option num :=
  match value with
  | [] => None
  | _ => let x := num_of_str value in if is_finite x then Some x else None
  end.

(** ** The stored tables *)

(** The eight numbers of a model. *)
Inductive price_field :=
  | Price | Ratio | CacheRatio | CreateCacheRatio | CompletionRatio | ImageRatio | AudioRatio
  | AudioCompletionRatio.

(** The ten tables. *)
Inductive table := Num (f : price_field) | BillingMode | BillingExpression.

#[export] Instance price_field_eq_dec : EqDecision price_field.
Proof. solve_decision. Defined.
#[export] Instance table_eq_dec : EqDecision table.
Proof. solve_decision. Defined.

(** The texts of the eight numbers. *)
Record prices := MkPrices {
  price : jstr; ratio : jstr; cacheRatio : jstr; createCacheRatio : jstr; completionRatio : jstr;
  imageRatio : jstr; audioRatio : jstr; audioCompletionRatio : jstr
}.

Definition get (p : prices) (f : price_field) : jstr :=
  match f with
  | Price => price p | Ratio => ratio p | CacheRatio => cacheRatio p | CreateCacheRatio => createCacheRatio p
  | CompletionRatio => completionRatio p | ImageRatio => imageRatio p | AudioRatio => audioRatio p
  | AudioCompletionRatio => audioCompletionRatio p
  end.

Definition prices_of (f : price_field -> jstr) : prices :=
  MkPrices (f Price) (f Ratio) (f CacheRatio) (f CreateCacheRatio) (f CompletionRatio) (f ImageRatio)
    (f AudioRatio) (f AudioCompletionRatio).

Definition price_fields : list price_field :=
  [Price; Ratio; CacheRatio; CreateCacheRatio; CompletionRatio; ImageRatio; AudioRatio; AudioCompletionRatio].
Definition tables : list table := map Num price_fields ++ [BillingMode; BillingExpression].

(** The texts of the tables, and the tables. *)
Definition store : Type := table -> jstr.
Definition maps : Type := table -> jsobj.

(** [safeJsonParse(text, { fallback: {} })] *)
Definition parse_table (text : jstr) : option jsobj :=
  match trim text with
  | [] => Some []
  | t => match json_parse t with
         | Throw _ => Some []
         | Ok (VObj o) => Some o
         | Ok _ => None
         end
  end.

Definition parse_store (st : store) : option maps :=
  if forallb (fun k => bool_decide (is_Some (parse_table (st k)))) tables
  then Some (fun k => default [] (parse_table (st k))) else None.

(** ** Snapshots (model-pricing-snapshots.ts) *)

Record ModelPricingSnapshot := MkSnapshot {
  s_name : jstr; s_value : prices; s_mode : jstr; s_expr : option jstr;
  s_rules : option jstr; hasConflict : bool
}.

(** [map[name]?.toString() || ''] *)
Definition value_text (v : jsval) : res jstr := if is_nullish v then Ok [] else to_str v.

(** The texts of the eight numbers, computed in order. *)
Definition field_text (m : maps) (name : jstr) (f : price_field) : jstr :=
  catch (value_text (oget name (m (Num f)))) [].

Definition field_texts (m : maps) (name : jstr) : res prices :=
  res_map (fun _ => prices_of (field_text m name))
    (res_mapM (fun f => value_text (oget name (m (Num f)))) price_fields).

Definition ratio_fields : list price_field :=
  [Ratio; CompletionRatio; CacheRatio; CreateCacheRatio; ImageRatio; AudioRatio; AudioCompletionRatio].

Definition snapshot_at (m : maps) (name : jstr) : res ModelPricingSnapshot :=
  let* value := field_texts m name in
  if str_is (js "tiered_expr") (oget name (m BillingMode)) then
    match vor (oget name (m BillingExpression)) (VStr []) with
    | VStr fullExpr =>
        let* parts := splitBillingExprAndRequestRules fullExpr in
        Ok (MkSnapshot name value (js "tiered_expr") (Some parts.1) (Some parts.2) false)
    | _ => Throw TypeError
    end
  else
    let priced := str_truthy (price value) in
    Ok (MkSnapshot name value (if priced then js "per-request" else js "per-token") None None
          (priced && existsb (fun f => str_truthy (get value f)) ratio_fields)).

Definition model_names (m : maps) : list jstr := dedup (flat_map (fun k => okeys (m k)) tables).

Definition snapshots_of (m : maps) : res (list ModelPricingSnapshot) :=
  res_mapM (snapshot_at m) (model_names m).

Definition buildModelSnapshots (st : store) : option (res (list ModelPricingSnapshot)) :=
  m ← parse_store st; Some (snapshots_of m).

(** [s || d] *)
Definition opt_or (o : option jstr) (d : jstr) : jstr := str_or (default [] o) d.

Definition getSnapshotSignature (snapshot : option ModelPricingSnapshot) : jstr :=
  match snapshot with
  | None => []
  | Some s =>
      stringify (VObj
        [ (js "price", VStr (price (s_value s))); (js "ratio", VStr (ratio (s_value s)));
          (js "cacheRatio", VStr (cacheRatio (s_value s)));
          (js "createCacheRatio", VStr (createCacheRatio (s_value s)));
          (js "completionRatio", VStr (completionRatio (s_value s)));
          (js "imageRatio", VStr (imageRatio (s_value s))); (js "audioRatio", VStr (audioRatio (s_value s)));
          (js "audioCompletionRatio", VStr (audioCompletionRatio (s_value s)));
          (js "billingMode", VStr (str_or (s_mode s) (js "per-token")));
          (js "billingExpr", VStr (opt_or (s_expr s) []));
          (js "requestRuleExpr", VStr (opt_or (s_rules s) [])) ])
  end.

(** ** What a row says about its prices *)

Definition getModeLabel (mode : jstr) : jstr :=
  if bool_decide (mode = js "per-request") then js "Per-request"
  else if bool_decide (mode = js "tiered_expr") then js "Expression" else js "Per-token".

Definition getModeVariant (mode : jstr) : jstr :=
  if bool_decide (mode = js "per-request") then js "warning"
  else if bool_decide (mode = js "tiered_expr") then js "info" else js "success".

(** [ratioToPrice(ratio, denominator)]; an empty denominator counts as 2. *)
Definition ratioToPrice (ratio denominator : jstr) : jstr :=
  match toNumberOrNull ratio, (match denominator with [] => Some (num_of_Z 2) | _ => toNumberOrNull denominator end) with
  | Some r, Some d => formatPricingNumber (nmul r d)
  | _, _ => []
  end.

(** Occurrences of [tier(], which cannot overlap. *)
Fixpoint count_tiers (s : jstr) : nat :=
  match s with
  | [] => 0
  | _ :: s' => (if starts_with (js "tier(") s then 1 else 0) + count_tiers s'
  end.

Section labels.
(** The translation function. *)
Context (t : jstr -> jstr).

Definition getExpressionSummary (row : ModelPricingSnapshot) : jstr :=
  let tierCount := count_tiers (default [] (s_expr row)) in
  if (0 <? tierCount)%nat
  then t (js "Tiered pricing") ++ js " · " ++ show_nat tierCount ++ js " " ++ t (js "tiers")
  else t (js "Expression pricing").

Definition getPriceSummary (row : ModelPricingSnapshot) : jstr :=
  let v := s_value row in
  if bool_decide (s_mode row = js "tiered_expr") then getExpressionSummary row
  else if bool_decide (s_mode row = js "per-request") then
    if str_truthy (price v) then js "$" ++ price v ++ js " / " ++ t (js "request") else t (js "Unset price")
  else
    let inputPrice := ratioToPrice (ratio v) [] in
    match inputPrice with
    | [] => t (js "Unset price")
    | _ =>
        let extraCount := length (List.filter (fun f => str_truthy (get v f)) (tail ratio_fields)) in
        if (0 <? extraCount)%nat
        then t (js "Input") ++ js " $" ++ inputPrice ++ js " · " ++ show_nat extraCount ++ js " " ++ t (js "extras")
        else t (js "Input") ++ js " $" ++ inputPrice
    end.

Definition price_detail (label ratio inputPrice : jstr) : list jstr :=
  match ratio with [] => [] | _ => [t label ++ js " $" ++ ratioToPrice ratio inputPrice] end.

Definition getPriceDetail (row : ModelPricingSnapshot) : jstr :=
  let v := s_value row in
  if bool_decide (s_mode row = js "tiered_expr") then
    if str_truthy (default [] (s_rules row)) then t (js "Includes request rules") else t (js "Expression based")
  else if bool_decide (s_mode row = js "per-request") then t (js "Fixed request price")
  else
    let inputPrice := ratioToPrice (ratio v) [] in
    match inputPrice with
    | [] => t (js "No base input price")
    | _ =>
        let details := take 2 (price_detail (js "Output") (completionRatio v) inputPrice
                               ++ price_detail (js "Cache") (cacheRatio v) inputPrice
                               ++ price_detail (js "Cache write") (createCacheRatio v) inputPrice) in
        match details with [] => t (js "Base input price only") | _ => join (js " · ") details end
    end.
End labels.

(** ** Rows (model-ratio-visual-editor.tsx) *)

Record ModelRow := MkRow {
  r_name : jstr; r_saved : option ModelPricingSnapshot; r_draft : option ModelPricingSnapshot;
  isDraftChanged : bool; isDraftDeleted : bool; isDraftNew : bool
}.

(** [new Map(rows.map((row) => [row.name, row])).get(name)]: the last one. *)
Definition row_named (name : jstr) (rows : list ModelPricingSnapshot) : option ModelPricingSnapshot :=
  last (List.filter (fun r => bool_decide (s_name r = name)) rows).

Definition row_of (saved draft : list ModelPricingSnapshot) (name : jstr) : ModelRow :=
  let s := row_named name saved in
  let d := row_named name draft in
  MkRow name s d (negb (bool_decide (getSnapshotSignature s = getSnapshotSignature d)))
    (match s, d with Some _, None => true | _, _ => false end)
    (match s, d with None, Some _ => true | _, _ => false end).

(** The rows before they are sorted by name. *)
Definition model_rows (saved draft : list ModelPricingSnapshot) : list ModelRow :=
  map (row_of saved draft) (dedup (map s_name saved ++ map s_name draft)).

(** ** Rewriting the tables *)

(** What the editor submits; [''] also stands for a missing text. *)
Record ModelRatioData := MkData {
  d_name : jstr; d_value : prices; d_mode : jstr; d_expr : jstr; d_rules : jstr
}.

Definition delete_name (name : jstr) (m : maps) : maps := fun k => odelete name (m k).

Definition set_in (k : table) (name : jstr) (v : jsval) (m : maps) : maps :=
  fun j => if bool_decide (j = k) then assign_own name v (m j) else m j.

Definition setIfPresent (m : maps) (f : price_field) (name value : jstr) : maps :=
  match value with
  | [] => m
  | _ => let parsed := parse_float value in
         if is_finite parsed then set_in (Num f) name (VNum parsed) m else m
  end.

Definition set_fields (fs : list price_field) (name : jstr) (data : ModelRatioData) (m : maps) : maps :=
  fold_left (fun m f => setIfPresent m f name (get (d_value data) f)) fs m.

Definition persist_one (data : ModelRatioData) (m : maps) (name : jstr) : maps :=
  let m := delete_name name m in
  if bool_decide (d_mode data = js "tiered_expr") then
    let combined := combineBillingExpr (d_expr data) (d_rules data) in
    let m := if str_truthy combined
             then set_in BillingExpression name (VStr combined)
                    (set_in BillingMode name (VStr (js "tiered_expr")) m)
             else m in
    set_fields price_fields name data m
  else if str_truthy (price (d_value data)) then setIfPresent m Price name (price (d_value data))
  else set_fields (tail price_fields) name data m.

(** [onChange(key, JSON.stringify(map, null, 2))] for each table. *)
Definition write_store (m : maps) : store := fun k => stringify2 (VObj (m k)).

Definition persistPricingData (data : ModelRatioData) (targetNames : list jstr) (st : store) : option store :=
  m ← parse_store st; Some (write_store (fold_left (persist_one data) targetNames m)).

Definition handleDelete (name : jstr) (st : store) : option store :=
  m ← parse_store st; Some (write_store (delete_name name m)).

(** What a click on a row puts into the editor. *)
Definition handleEdit (r : ModelPricingSnapshot) : ModelRatioData :=
  MkData (s_name r) (s_value r)
    (if bool_decide (s_mode r = js "tiered_expr") then js "tiered_expr"
     else if str_truthy (price (s_value r)) then js "per-request" else js "per-token")
    (default [] (s_expr r)) (default [] (s_rules r)).
