(* ===== verification/ModelPricingFacts.v ===== *)
(** * Facts on model prices

    What the rows of a model show after a submission, case by case, and that
    nothing else changes; two rows have the same signature exactly when they
    show the same prices. *)
From S2P Require Import Prelude JsString JsNumber JsValue JsValueFacts JsJson JsJsonFacts JsJsonRoundtrip JsStorable BillingExpr ModelPricing.
Open Scope N_scope.

(** ** Reading the tables back *)

Definition storable_maps (m : maps) : Prop := forall k, storable (m k).

Lemma all_tables k : k ∈ tables.
Proof. destruct k as [f| |]; [destruct f|..]; decide_now. Qed.

Lemma parse_table_text o : storable o -> parse_table (stringify2 (VObj o)) = Some (obj_of o).
Proof.
  intros H. unfold parse_table. rewrite trim_stringify2. pose proof (storable_json2 o H) as Hj.
  destruct (print_obj_ends [32; 32] o) as [t E]. unfold stringify2 in *. rewrite E in *. by rewrite Hj.
Qed.

Lemma parse_store_tables st m :
  parse_store st = Some m -> forall k, parse_table (st k) = Some (m k).
Proof.
  unfold parse_store. destruct (forallb _ _) eqn:E; [|done]. intros [= <-] k.
  rewrite forallb_Forall, list.Forall_forall in E. specialize (E k (all_tables k)).
  apply bool_decide_eq_true in E as [o Ho]. by rewrite Ho.
Qed.

Lemma parse_write m :
  storable_maps m ->
  exists m', parse_store (write_store m) = Some m' /\ forall k, m' k = obj_of (m k).
Proof.
  intros H. eexists. split.
  - unfold parse_store. assert (forallb (fun k => bool_decide (is_Some (parse_table (write_store m k)))) tables = true) as ->;
      [|reflexivity]. apply forallb_Forall, list.Forall_forall. intros k _. unfold write_store.
    rewrite parse_table_text by done. by apply bool_decide_eq_true.
  - intros k. cbn beta. unfold write_store. by rewrite parse_table_text.
Qed.

(** ** What a submission stores *)

Definition tiered (data : ModelRatioData) : bool := bool_decide (d_mode data = js "tiered_expr").
Definition combined_expr (data : ModelRatioData) : jstr := combineBillingExpr (d_expr data) (d_rules data).

(** The numbers that are stored: all for an expression, else the price alone
    when there is one. *)
Definition kept (data : ModelRatioData) : list price_field :=
  if tiered data then price_fields
  else if str_truthy (price (d_value data)) then [Price] else tail price_fields.

Definition number_of (value : jstr) : option num :=
  match value with
  | [] => None
  | _ => if is_finite (parse_float value) then Some (parse_float value) else None
  end.

Definition stored_number (data : ModelRatioData) (f : price_field) : option num :=
  if bool_decide (f ∈ kept data) then number_of (get (d_value data) f) else None.

Definition stored (data : ModelRatioData) (k : table) : option jsval :=
  match k with
  | Num f => VNum <$> stored_number data f
  | BillingMode => if tiered data && str_truthy (combined_expr data) then Some (VStr (js "tiered_expr")) else None
  | BillingExpression => if tiered data && str_truthy (combined_expr data) then Some (VStr (combined_expr data)) else None
  end.

Section persist.
Context (data : ModelRatioData) (name : jstr) (Hname : name <> js "__proto__").

Lemma set_in_lookup k v (m : maps) j n :
  olookup n (set_in k name v m j)
  = if bool_decide (j = k) && bool_decide (n = name) then Some v else olookup n (m j).
Proof.
  unfold set_in, assign_own. rewrite (bool_decide_eq_false_2 (name = js "__proto__")) by done.
  destruct (bool_decide (j = k)); cbn [andb]; [apply olookup_oset|done].
Qed.

Lemma setIfPresent_lookup m f value j n :
  olookup n (setIfPresent m f name value j)
  = match number_of value with
    | Some x => if bool_decide (j = Num f) && bool_decide (n = name) then Some (VNum x) else olookup n (m j)
    | None => olookup n (m j)
    end.
Proof.
  unfold setIfPresent, number_of. destruct value as [|c t]; [done|]. cbv zeta.
  destruct (is_finite _); [apply set_in_lookup|done].
Qed.

Lemma set_fields_lookup fs m j n :
  NoDup fs ->
  olookup n (set_fields fs name data m j)
  = match j with
    | Num f => match (if bool_decide (f ∈ fs) && bool_decide (n = name) then number_of (get (d_value data) f) else None) with
               | Some x => Some (VNum x)
               | None => olookup n (m j)
               end
    | _ => olookup n (m j)
    end.
Proof.
  unfold set_fields. revert m. induction fs as [|g fs IH]; intros m Hn; cbn [fold_left].
  { destruct j; [rewrite bool_decide_eq_false_2 by apply not_elem_of_nil|..]; done. }
  apply NoDup_cons in Hn as [Hg Hn]. rewrite IH by done. rewrite setIfPresent_lookup.
  destruct j as [f| |]; [|by destruct (number_of _)..].
  rewrite (bool_decide_ext (f ∈ g :: fs) (f = g \/ f ∈ fs)) by apply elem_of_cons.
  destruct (decide (f = g)) as [->|Hfg].
  - rewrite (bool_decide_eq_false_2 (g ∈ fs)) by done. cbn [andb].
    rewrite (bool_decide_eq_true_2 (g = g \/ _)), (bool_decide_eq_true_2 (Num g = Num g)) by auto. cbn [andb].
    destruct (bool_decide (n = name)); by destruct (number_of _).
  - rewrite (bool_decide_ext (f = g \/ f ∈ fs) (f ∈ fs)) by tauto.
    rewrite (bool_decide_eq_false_2 (Num f = Num g)) by congruence. cbn [andb].
    destruct (if _ && _ then _ else _); [done|]. by destruct (number_of (get (d_value data) g)).
Qed.

Lemma delete_name_lookup m k n :
  olookup n (delete_name name m k) = if bool_decide (n = name) then None else olookup n (m k).
Proof. apply olookup_odelete. Qed.

Lemma persist_one_lookup m k n :
  olookup n (persist_one data m name k) = if bool_decide (n = name) then stored data k else olookup n (m k).
Proof.
  assert (Hnd : NoDup price_fields) by decide_now.
  unfold persist_one. fold (tiered data) (combined_expr data). unfold stored, stored_number, kept.
  destruct (tiered data); cbn [andb].
  - rewrite set_fields_lookup by done.
    assert (Hm : forall j, olookup n ((if str_truthy (combined_expr data)
        then set_in BillingExpression name (VStr (combined_expr data))
               (set_in BillingMode name (VStr (js "tiered_expr")) (delete_name name m))
        else delete_name name m) j)
      = if bool_decide (n = name) then
          match j with
          | Num _ => None
          | BillingMode => if str_truthy (combined_expr data) then Some (VStr (js "tiered_expr")) else None
          | BillingExpression => if str_truthy (combined_expr data) then Some (VStr (combined_expr data)) else None
          end
        else olookup n (m j)).
    { intros j. destruct (str_truthy _).
      - rewrite !set_in_lookup, delete_name_lookup. destruct (bool_decide (n = name)); [|by rewrite !andb_false_r].
        by destruct j.
      - rewrite delete_name_lookup. by destruct j. }
    rewrite Hm. destruct k as [f| |]; [|done..].
    destruct (bool_decide (f ∈ price_fields)); cbn [andb]; by destruct (bool_decide (n = name)).
  - destruct (str_truthy (price (d_value data))).
    + rewrite setIfPresent_lookup, delete_name_lookup. destruct k as [f| |].
      * rewrite (bool_decide_ext (f ∈ [Price]) (f = Price)) by apply list_elem_of_singleton.
        rewrite (bool_decide_ext (Num f = Num Price) (f = Price)) by (split; congruence).
        destruct (decide (f = Price)) as [->|Hf].
        -- rewrite !bool_decide_eq_true_2 by done. cbn [andb].
           destruct (bool_decide (n = name)); by destruct (number_of _).
        -- rewrite !(bool_decide_eq_false_2 (f = Price)) by done. cbn [andb].
           destruct (number_of _); by destruct (bool_decide (n = name)).
      * cbn [andb]. destruct (number_of _); by destruct (bool_decide (n = name)).
      * cbn [andb]. destruct (number_of _); by destruct (bool_decide (n = name)).
    + rewrite set_fields_lookup by decide_now. rewrite delete_name_lookup. destruct k as [f| |]; [|done..].
      destruct (bool_decide (f ∈ tail price_fields)); cbn [andb]; by destruct (bool_decide (n = name)).
Qed.
End persist.

Lemma persist_lookup data names m k n :
  js "__proto__" ∉ names ->
  olookup n (fold_left (persist_one data) names m k)
  = if bool_decide (n ∈ names) then stored data k else olookup n (m k).
Proof.
  revert m. induction names as [|name names IH]; intros m; cbn [fold_left].
  { by rewrite bool_decide_eq_false_2 by apply not_elem_of_nil. }
  rewrite not_elem_of_cons. intros [Hp Hn]. rewrite IH, persist_one_lookup by congruence.
  rewrite (bool_decide_ext (n ∈ name :: names) (n = name \/ n ∈ names)) by apply elem_of_cons.
  destruct (decide (n ∈ names)) as [H|H].
  - by rewrite !bool_decide_eq_true_2 by auto.
  - rewrite (bool_decide_eq_false_2 (n ∈ names)) by done.
    by rewrite (bool_decide_ext (n = name \/ n ∈ names) (n = name)) by tauto.
Qed.

(** ** What the rows show *)

Lemma get_prices_of g f : get (prices_of g) f = g f.
Proof. by destruct f. Qed.

Lemma prices_eta p :
  p = MkPrices (price p) (ratio p) (cacheRatio p) (createCacheRatio p) (completionRatio p) (imageRatio p)
        (audioRatio p) (audioCompletionRatio p).
Proof. by destruct p. Qed.

Lemma prices_of_ext g h : (forall f, g f = h f) -> prices_of g = prices_of h.
Proof. intros H. unfold prices_of. by rewrite !H. Qed.

Definition shown_value (data : ModelRatioData) (f : price_field) : jstr :=
  match stored_number data f with Some x => num_to_str x | None => [] end.

(** The row of a model after the submission. *)
Definition shown (data : ModelRatioData) (name : jstr) : res ModelPricingSnapshot :=
  let v := prices_of (shown_value data) in
  if tiered data && str_truthy (combined_expr data) then
    let* parts := splitBillingExprAndRequestRules (combined_expr data) in
    Ok (MkSnapshot name v (js "tiered_expr") (Some parts.1) (Some parts.2) false)
  else if str_truthy (shown_value data Price) && tiered data then
    Ok (MkSnapshot name v (js "per-request") None None
          (existsb (fun f => str_truthy (shown_value data f)) ratio_fields))
  else Ok (MkSnapshot name v (if str_truthy (shown_value data Price) then js "per-request" else js "per-token")
             None None false).

Lemma field_texts_ok m name :
  (forall f, exists s, value_text (oget name (m (Num f))) = Ok s) ->
  field_texts m name = Ok (prices_of (field_text m name)).
Proof.
  intros H. unfold field_texts. enough (exists l, res_mapM (fun f => value_text (oget name (m (Num f)))) price_fields = Ok l) as [l ->] by done.
  generalize price_fields. intros fs. induction fs as [|f fs [l IH]]; [by exists []|]. cbn [res_mapM].
  destruct (H f) as [s ->]. rewrite IH. by eexists.
Qed.

Lemma not_price_kept data f :
  tiered data = false -> f ∈ ratio_fields -> str_truthy (shown_value data Price) = true -> shown_value data f = [].
Proof.
  unfold shown_value, stored_number, kept. intros -> Hf Hp. destruct (str_truthy (price (d_value data))).
  - rewrite bool_decide_eq_false_2; [done|]. intros ->%list_elem_of_singleton. revert Hf. decide_now.
  - rewrite (bool_decide_eq_false_2 (Price ∈ _)) in Hp by decide_now. done.
Qed.

Lemma snapshot_shown data m name :
  name ∉ object_prototype_names -> (forall k, olookup name (m k) = stored data k) ->
  snapshot_at m name = shown data name.
Proof.
  intros Hp Hm. assert (Hg : forall k, oget name (m k) = default VUndef (stored data k)).
  { intros k. unfold oget, inherited. by rewrite Hm, bool_decide_eq_false_2. }
  assert (Ht : forall f, value_text (oget name (m (Num f))) = Ok (shown_value data f)).
  { intros f. rewrite Hg. cbn [stored]. unfold shown_value. by destruct (stored_number data f). }
  assert (Hf : forall f, field_text m name f = shown_value data f) by (intros f; unfold field_text; by rewrite Ht).
  unfold snapshot_at. rewrite field_texts_ok by (intros f; by eexists). rewrite (prices_of_ext _ _ Hf).
  cbn [res_bind]. rewrite !Hg. cbn [stored]. unfold shown.
  destruct (tiered data) eqn:Et; cbn [andb].
  - destruct (str_truthy (combined_expr data)) eqn:Ec; cbn [default from_option id str_is vor truthy].
    + unfold id. rewrite bool_decide_eq_true_2 by done. cbn [str_is]. unfold vor. cbn [truthy]. by rewrite Ec.
    + rewrite andb_true_r. change (price (prices_of (shown_value data))) with (shown_value data Price).
      destruct (str_truthy (shown_value data Price)); cbn [andb]; [|done]. f_equal.
  - rewrite andb_false_r. cbn [default from_option id str_is].
    change (price (prices_of (shown_value data))) with (shown_value data Price).
    destruct (str_truthy (shown_value data Price)) eqn:Ep; [|done]. cbn [andb]. do 2 f_equal.
    apply not_true_is_false. intros H%existsb_exists. destruct H as (f & Hin & H). rewrite get_prices_of in H.
    by rewrite not_price_kept in H by (try done; by apply list_elem_of_In).
Qed.

Lemma snapshot_ext m m' name :
  (forall k, olookup name (m' k) = olookup name (m k)) -> snapshot_at m' name = snapshot_at m name.
Proof.
  intros H. assert (Hg : forall k, oget name (m' k) = oget name (m k)) by (intros k; unfold oget; by rewrite H).
  assert (Hf : field_texts m' name = field_texts m name).
  { unfold field_texts. rewrite (prices_of_ext (field_text m' name) (field_text m name))
      by (intros f; unfold field_text; by rewrite Hg).
    f_equal. generalize price_fields. intros fs. induction fs as [|f fs IH]; [done|]. cbn [res_mapM]. by rewrite Hg, IH. }
  unfold snapshot_at. by rewrite Hf, !Hg.
Qed.

Lemma elem_of_model_names m name : name ∈ model_names m <-> exists k, olookup name (m k) <> None.
Proof.
  unfold model_names. rewrite elem_of_dedup, list_elem_of_In, in_flat_map. split.
  - intros (k & _ & Hk). exists k. rewrite olookup_None. intros H. by apply H, list_elem_of_In.
  - intros [k Hk]. exists k. split; [apply list_elem_of_In, all_tables|]. apply list_elem_of_In.
    destruct (decide (name ∈ okeys (m k))) as [|Hn]; [done|]. by apply olookup_None in Hn.
Qed.

(** ** The rewritten tables can be stored *)

Lemma storable_assign k v o :
  forallb is_unit k = true -> printable v -> storable o -> storable (assign_own k v o).
Proof. intros. unfold assign_own. case_bool_decide; [done|by apply storable_oset]. Qed.

Lemma storable_set_in k name v m :
  forallb is_unit name = true -> printable v -> storable_maps m -> storable_maps (set_in k name v m).
Proof. intros Hn Hv Hm j. unfold set_in. case_bool_decide; [by apply storable_assign|done]. Qed.

Lemma storable_setIfPresent m f name value :
  forallb is_unit name = true -> (forall x, number_of value = Some x -> printable (VNum x)) ->
  storable_maps m -> storable_maps (setIfPresent m f name value).
Proof.
  intros Hn Hv Hm. unfold setIfPresent, number_of in *. destruct value as [|c t]; [done|]. cbv zeta.
  destruct (is_finite _); [|done]. apply storable_set_in; auto.
Qed.

Lemma storable_set_fields fs name data m :
  forallb is_unit name = true ->
  (forall f x, f ∈ fs -> number_of (get (d_value data) f) = Some x -> printable (VNum x)) ->
  storable_maps m -> storable_maps (set_fields fs name data m).
Proof.
  unfold set_fields. revert m. induction fs as [|f fs IH]; intros m Hn Hv Hm; [done|]. cbn [fold_left].
  apply IH; [done|intros g x Hg; apply Hv; by right|]. apply storable_setIfPresent; [done| |done].
  intros x. apply Hv. by left.
Qed.

Lemma storable_delete name m : storable_maps m -> storable_maps (delete_name name m).
Proof. intros H k. by apply storable_odelete. Qed.

Definition data_printable (data : ModelRatioData) : Prop := forall k v, stored data k = Some v -> printable v.

Lemma storable_persist data m name :
  data_printable data -> forallb is_unit name = true -> storable_maps m -> storable_maps (persist_one data m name).
Proof.
  intros Hd Hn Hm. assert (Hk : forall f x, f ∈ kept data -> number_of (get (d_value data) f) = Some x -> printable (VNum x)).
  { intros f x Hf Hx. apply (Hd (Num f)). cbn [stored]. unfold stored_number. by rewrite bool_decide_eq_true_2, Hx. }
  pose proof (storable_delete name m Hm) as H0. unfold persist_one. fold (tiered data) (combined_expr data).
  unfold kept in Hk. destruct (tiered data) eqn:Et.
  - apply storable_set_fields; [done|done|]. destruct (str_truthy (combined_expr data)) eqn:Ec; [|done].
    apply storable_set_in; [done| |apply storable_set_in; [done|done|done]].
    apply (Hd BillingExpression). cbn [stored]. by rewrite Et, Ec.
  - destruct (str_truthy (price (d_value data))).
    + apply storable_setIfPresent; [done| |done]. intros x. apply (Hk Price). by left.
    + by apply storable_set_fields.
Qed.

Lemma storable_obj_of o : storable o -> storable (obj_of o).
Proof. intros [_ H]. split; [apply NoDup_ospread; constructor|by apply Forall_obj_of]. Qed.

Lemma persist_tables data names st m :
  parse_store st = Some m -> storable_maps m -> data_printable data ->
  Forall (fun n => forallb is_unit n = true /\ n ∉ object_prototype_names) names ->
  exists st' m', persistPricingData data names st = Some st' /\ parse_store st' = Some m' /\ storable_maps m'
    /\ forall k n, olookup n (m' k) = if bool_decide (n ∈ names) then stored data k else olookup n (m k).
Proof.
  intros Hm Hs Hd Hn. rewrite list.Forall_forall in Hn.
  assert (Hp : js "__proto__" ∉ names) by (intros H; apply Hn in H as [_ H]; apply H; decide_now).
  set (m1 := fold_left (persist_one data) names m).
  assert (Hs1 : storable_maps m1).
  { unfold m1. clear Hm Hp m1. revert m Hs Hn. induction names as [|n names IH]; intros m Hs Hn; [done|]. cbn [fold_left].
    apply IH; [|intros x Hx; apply Hn; by right]. apply storable_persist; [done| |done]. apply Hn. by left. }
  destruct (parse_write m1 Hs1) as (m' & Hm' & E). exists (write_store m1), m'.
  split; [unfold persistPricingData; by rewrite Hm|]. split; [done|].
  split; [intros k; rewrite E; by apply storable_obj_of|].
  intros k n. rewrite E, olookup_obj_of by apply Hs1. by apply persist_lookup.
Qed.

(** The text of the number that a draft holds; nothing when it is none. *)
Definition number_text (s : jstr) : jstr := match number_of s with Some x => num_to_str x | None => [] end.

Definition number_texts (v : prices) : prices := prices_of (fun f => number_text (get v f)).
Definition only_price (v : prices) : prices := prices_of (fun f => if bool_decide (f = Price) then number_text (price v) else []).
Definition without_price (v : prices) : prices := prices_of (fun f => if bool_decide (f = Price) then [] else number_text (get v f)).

Definition price_mode (text : jstr) : jstr := if str_truthy text then js "per-request" else js "per-token".

(** The row of a model after a submission, by what was submitted.  Apart from
    an expression it is the price that decides, not the mode: with a price
    text the ratios are lost. *)
Record row_after (data : ModelRatioData) (n : jstr) (row : res ModelPricingSnapshot) : Prop := MkAfter {
  after_expression : d_mode data = js "tiered_expr" -> combined_expr data <> [] ->
    row = res_map (fun parts => MkSnapshot n (number_texts (d_value data)) (js "tiered_expr") (Some parts.1) (Some parts.2) false)
            (splitBillingExprAndRequestRules (combined_expr data));
  after_no_expression : d_mode data = js "tiered_expr" -> combined_expr data = [] ->
    let v := number_texts (d_value data) in
    row = Ok (MkSnapshot n v (price_mode (price v)) None None
                (str_truthy (price v) && existsb (fun f => str_truthy (get v f)) ratio_fields));
  after_price : d_mode data <> js "tiered_expr" -> price (d_value data) <> [] ->
    row = Ok (MkSnapshot n (only_price (d_value data)) (price_mode (number_text (price (d_value data)))) None None false);
  after_ratios : d_mode data <> js "tiered_expr" -> price (d_value data) = [] ->
    row = Ok (MkSnapshot n (without_price (d_value data)) (js "per-token") None None false) }.

Lemma shown_kept data f : f ∈ kept data -> shown_value data f = number_text (get (d_value data) f).
Proof. intros H. unfold shown_value, stored_number, number_text. by rewrite bool_decide_eq_true_2. Qed.

Lemma shown_dropped data f : f ∉ kept data -> shown_value data f = [].
Proof. intros H. unfold shown_value, stored_number. by rewrite bool_decide_eq_false_2. Qed.

Lemma shown_after data n : row_after data n (shown data n).
Proof.
  assert (Hall : tiered data = true -> prices_of (shown_value data) = number_texts (d_value data)).
  { intros Et. apply prices_of_ext. intros f. apply shown_kept. unfold kept. rewrite Et. destruct f; decide_now. }
  assert (Hp : tiered data = false -> price (d_value data) <> [] -> prices_of (shown_value data) = only_price (d_value data)).
  { intros Et Hne. apply prices_of_ext. intros f.
    assert (kept data = [Price]) as Hk by (unfold kept; rewrite Et; by destruct (price (d_value data))).
    case_bool_decide as Hf; [subst f; apply shown_kept; rewrite Hk; by left|].
    apply shown_dropped. rewrite Hk. by intros H%list_elem_of_singleton. }
  assert (Hr : tiered data = false -> price (d_value data) = [] -> prices_of (shown_value data) = without_price (d_value data)).
  { intros Et He. apply prices_of_ext. intros f. assert (kept data = tail price_fields) as Hk by (unfold kept; by rewrite Et, He).
    case_bool_decide as Hf; [subst f; apply shown_dropped|apply shown_kept]; rewrite Hk; [decide_now|destruct f; [done|decide_now..]]. }
  unfold shown. constructor; unfold tiered in *.
  - intros Hm Hc. rewrite bool_decide_eq_true_2 in * by done. rewrite Hall by done. cbn [andb].
    destruct (combined_expr data) as [|c s] eqn:E; [done|]. by destruct (splitBillingExprAndRequestRules _).
  - intros Hm Hc. rewrite bool_decide_eq_true_2 in * by done. rewrite Hc. cbn [andb str_truthy]. rewrite <-Hall by done. unfold price_mode.
    change (price (prices_of (shown_value data))) with (shown_value data Price). rewrite andb_true_r.
    by destruct (str_truthy (shown_value data Price)).
  - intros Hm Hc. rewrite bool_decide_eq_false_2 in * by done. rewrite Hp by done. cbn [andb]. rewrite andb_false_r.
    assert (shown_value data Price = number_text (price (d_value data))) as -> by exact (f_equal price (Hp eq_refl Hc)). done.
  - intros Hm Hc. rewrite bool_decide_eq_false_2 in * by done. rewrite Hr by done. cbn [andb]. rewrite andb_false_r.
    assert (shown_value data Price = []) as -> by exact (f_equal price (Hr eq_refl Hc)). done.
Qed.

(** C36.  Submitting prices for some models stores tables from which the rows
    of these models follow from what was submitted: an expression shows itself
    and all numbers; otherwise a price shows alone, whatever the mode, so that
    a submission per token with a price left in it loses its ratios, and
    without a price the ratios show per token.  A text that is no number
    shows as nothing.  The row of every other model is unchanged, and a model
    is listed afterwards iff something was stored for it.  The stored texts
    have to be tables that JSON prints back, as the numbers and texts that
    are stored, and the names not those of properties of every object. *)
Theorem persist_shows (data : ModelRatioData) (names : list jstr) (st : store) (m : maps) :
  parse_store st = Some m -> storable_maps m -> data_printable data ->
  Forall (fun n => forallb is_unit n = true /\ n ∉ object_prototype_names) names ->
  exists st' m', persistPricingData data names st = Some st' /\ parse_store st' = Some m' /\ storable_maps m'
    /\ (forall n, n ∈ names -> row_after data n (snapshot_at m' n))
    /\ (forall n, n ∉ names -> snapshot_at m' n = snapshot_at m n)
    /\ (forall n, n ∈ model_names m'
          <-> (n ∈ names /\ exists k, stored data k <> None) \/ (n ∉ names /\ n ∈ model_names m)).
Proof.
  intros Hm Hs Hd Hn. destruct (persist_tables data names st m Hm Hs Hd Hn) as (st' & m' & H1 & H2 & H3 & Hl).
  exists st', m'. rewrite list.Forall_forall in Hn. split_and!; [done|done|done| | |].
  - intros n Hin. rewrite (snapshot_shown data); [apply shown_after|by apply Hn|]. intros k. by rewrite Hl, bool_decide_eq_true_2.
  - intros n Hin. apply snapshot_ext. intros k. by rewrite Hl, bool_decide_eq_false_2.
  - intros n. rewrite !elem_of_model_names. setoid_rewrite Hl.
    destruct (decide (n ∈ names)) as [Hin|Hin].
    + rewrite bool_decide_eq_true_2 by done. naive_solver.
    + rewrite bool_decide_eq_false_2 by done. naive_solver.
Qed.

Lemma delete_shows (name : jstr) (st : store) (m : maps) :
  parse_store st = Some m -> storable_maps m ->
  exists st' m', handleDelete name st = Some st' /\ parse_store st' = Some m'
    /\ name ∉ model_names m' /\ (forall n, n <> name -> snapshot_at m' n = snapshot_at m n)
    /\ (forall n, n <> name -> n ∈ model_names m' <-> n ∈ model_names m).
Proof.
  intros Hm Hs. destruct (parse_write (delete_name name m) (storable_delete name m Hs)) as (m' & Hm' & E).
  assert (Hl : forall k n, olookup n (m' k) = if bool_decide (n = name) then None else olookup n (m k)).
  { intros k n. rewrite E, olookup_obj_of by apply storable_delete, Hs. apply delete_name_lookup. }
  exists (write_store (delete_name name m)), m'. split; [unfold handleDelete; by rewrite Hm|]. split_and!.
  - done.
  - rewrite elem_of_model_names. intros [k Hk]. by rewrite Hl, bool_decide_eq_true_2 in Hk.
  - intros n Hn. apply snapshot_ext. intros k. by rewrite Hl, bool_decide_eq_false_2.
  - intros n Hn. rewrite !elem_of_model_names. by setoid_rewrite Hl; rewrite bool_decide_eq_false_2.
Qed.

(** A submission for two models, one of which is new. *)
Definition sample_store : store := fun k =>
  match k with
  | Num Ratio => jsq "{`gpt-4`: 15, `old`: 2}"
  | Num Price => jsq "{`gpt-4`: 0.5}"
  | _ => []
  end.
Definition sample_maps : maps := fun k => default [] (parse_table (sample_store k)).
Definition sample_data : ModelRatioData :=
  MkData (js "gpt-4") (MkPrices [] (js "2.5") (js "0.1") [] (js "4.") [] [] []) (js "per-token") [] [].

Lemma sample_data_printable : data_printable sample_data.
Proof.
  intros [f| |] v; [destruct f|..]; intros H; vm_compute in H; first [discriminate H|injection H as <-];
    (split; [vm_compute; reflexivity|exact I]).
Defined.

Lemma sample_maps_storable : storable_maps sample_maps.
Proof.
  intros [f| |]; [destruct f|..]; (split; [unfold okeys_nodup; decide_now|]).
  all: try apply List.Forall_nil.
  all: match goal with |- List.Forall _ ?o => let l := eval vm_compute in o in change o with l end.
  all: repeat (apply List.Forall_cons; [split; [vm_compute; reflexivity|split; [vm_compute; reflexivity|exact I]]|]);
    apply List.Forall_nil.
Defined.

(** The same submission with a price left over. *)
Definition leftover_data : ModelRatioData :=
  MkData (js "gpt-4") (MkPrices (js "0.5") (js "2.5") (js "0.1") [] (js "4.") [] [] []) (js "per-token") [] [].

Lemma leftover_data_printable : data_printable leftover_data.
Proof.
  intros [f| |] v; [destruct f|..]; intros H; vm_compute in H; first [discriminate H|injection H as <-];
    (split; [vm_compute; reflexivity|exact I]).
Qed.

Lemma sample_store_tables : parse_store sample_store = Some sample_maps.
Proof.
  unfold parse_store. replace (forallb (fun k => bool_decide (is_Some (parse_table (sample_store k)))) tables) with true
    by (vm_compute; reflexivity). reflexivity.
Qed.

Lemma persist_shows_witness :
  (exists st' m', persistPricingData sample_data [js "gpt-4"; js "new"] sample_store = Some st'
    /\ parse_store st' = Some m'
    /\ snapshot_at m' (js "new")
       = Ok (MkSnapshot (js "new") (MkPrices [] (js "2.5") (js "0.1") [] (js "4") [] [] []) (js "per-token") None None false)
    /\ snapshot_at m' (js "old") = snapshot_at sample_maps (js "old"))
  /\ exists st' m', persistPricingData leftover_data [js "gpt-4"] sample_store = Some st' /\ parse_store st' = Some m'
    /\ snapshot_at m' (js "gpt-4")
       = Ok (MkSnapshot (js "gpt-4") (MkPrices (js "0.5") [] [] [] [] [] [] []) (js "per-request") None None false).
Proof.
  assert (Hn : Forall (fun n => forallb is_unit n = true /\ n ∉ object_prototype_names) [js "gpt-4"; js "new"]).
  { repeat (apply List.Forall_cons; [split; [vm_compute; reflexivity|decide_now]|]). apply List.Forall_nil. }
  split.
  - destruct (persist_shows sample_data [js "gpt-4"; js "new"] sample_store sample_maps sample_store_tables sample_maps_storable
      sample_data_printable Hn) as (st' & m' & H1 & H2 & _ & H3 & H4 & _).
    exists st', m'. split; [exact H1|]. split; [exact H2|]. split; [|apply H4; decide_now].
    rewrite (after_ratios _ _ _ (H3 (js "new") ltac:(decide_now)) ltac:(decide_now) eq_refl). vm_compute. reflexivity.
  - assert (Hn1 : Forall (fun n => forallb is_unit n = true /\ n ∉ object_prototype_names) [js "gpt-4"])
      by (apply Forall_cons in Hn as [Hn _]; by apply List.Forall_cons).
    destruct (persist_shows leftover_data [js "gpt-4"] sample_store sample_maps sample_store_tables sample_maps_storable
      leftover_data_printable Hn1) as (st' & m' & H1 & H2 & _ & H3 & _).
    exists st', m'. split; [exact H1|]. split; [exact H2|].
    rewrite (after_price _ _ _ (H3 (js "gpt-4") ltac:(decide_now)) ltac:(decide_now) ltac:(decide_now)). vm_compute. reflexivity.
Defined.

(** ** Switching the mode *)

(** A price that is still in the form decides the mode: a submission in the
    mode per token stores the price and none of the ratios. *)
Lemma mode_switch_lost data name x :
  d_mode data = js "per-token" -> number_of (price (d_value data)) = Some x -> num_to_str x <> [] ->
  exists s, shown data name = Ok s /\ s_mode s = js "per-request" /\ ratio (s_value s) = [].
Proof.
  intros Hm Hx Hs. assert (tiered data = false) as Et by (unfold tiered; by rewrite Hm).
  assert (Hp : str_truthy (price (d_value data)) = true) by (by destruct (price (d_value data))).
  assert (Hk : kept data = [Price]) by (unfold kept; by rewrite Et, Hp).
  assert (shown_value data Price = num_to_str x) as Hv.
  { unfold shown_value, stored_number. rewrite Hk, bool_decide_eq_true_2 by (by left). cbn [get]. by rewrite Hx. }
  unfold shown. rewrite Et. cbn [andb]. rewrite andb_false_r, Hv.
  destruct (num_to_str x) as [|c t] eqn:E; [done|]. cbn [str_truthy].
  eexists. split; [reflexivity|]. split; [done|]. cbn [s_value prices_of ratio].
  unfold shown_value, stored_number. rewrite Hk. by rewrite bool_decide_eq_false_2 by decide_now.
Qed.

(** ** Signatures *)

Definition same_pricing (a b : ModelPricingSnapshot) : Prop :=
  s_value a = s_value b /\ str_or (s_mode a) (js "per-token") = str_or (s_mode b) (js "per-token")
  /\ opt_or (s_expr a) [] = opt_or (s_expr b) [] /\ opt_or (s_rules a) [] = opt_or (s_rules b) [].

Definition snapshot_units (s : ModelPricingSnapshot) : Prop :=
  (forall f, forallb is_unit (get (s_value s) f) = true) /\ forallb is_unit (s_mode s) = true
  /\ forallb is_unit (default [] (s_expr s)) = true /\ forallb is_unit (default [] (s_rules s)) = true.

Lemma opt_or_nil o : opt_or o [] = default [] o.
Proof. unfold opt_or. by destruct (default [] o). Qed.

Lemma signature_inj a b :
  snapshot_units a -> snapshot_units b ->
  getSnapshotSignature (Some a) = getSnapshotSignature (Some b) <-> same_pricing a b.
Proof.
  intros Ha Hb. split.
  - unfold getSnapshotSignature. intros H. apply (f_equal json_parse) in H.
    assert (Hj : forall s, snapshot_units s -> exists o, json_parse (getSnapshotSignature (Some s)) = Ok (VObj o)
      /\ o = [ (js "price", VStr (price (s_value s))); (js "ratio", VStr (ratio (s_value s)));
          (js "cacheRatio", VStr (cacheRatio (s_value s)));
          (js "createCacheRatio", VStr (createCacheRatio (s_value s)));
          (js "completionRatio", VStr (completionRatio (s_value s)));
          (js "imageRatio", VStr (imageRatio (s_value s))); (js "audioRatio", VStr (audioRatio (s_value s)));
          (js "audioCompletionRatio", VStr (audioCompletionRatio (s_value s)));
          (js "billingMode", VStr (str_or (s_mode s) (js "per-token")));
          (js "billingExpr", VStr (opt_or (s_expr s) []));
          (js "requestRuleExpr", VStr (opt_or (s_rules s) [])) ]).
    { intros s (Hf & Hm & He & Hr). eexists. split; [|reflexivity]. unfold getSnapshotSignature.
      rewrite json_parse_stringify_obj.
      - reflexivity.
      - rewrite jsonable_obj, !opt_or_nil. cbn [forallb fst snd jsonable].
        rewrite (Hf Price : forallb is_unit (price _) = true), (Hf Ratio : forallb is_unit (ratio _) = true),
          (Hf CacheRatio : forallb is_unit (cacheRatio _) = true), (Hf CreateCacheRatio : forallb is_unit (createCacheRatio _) = true),
          (Hf CompletionRatio : forallb is_unit (completionRatio _) = true), (Hf ImageRatio : forallb is_unit (imageRatio _) = true),
          (Hf AudioRatio : forallb is_unit (audioRatio _) = true),
          (Hf AudioCompletionRatio : forallb is_unit (audioCompletionRatio _) = true), He, Hr.
        assert (forallb is_unit (str_or (s_mode s) (js "per-token")) = true) as -> by (by destruct (s_mode s)).
        reflexivity.
      - repeat (apply List.Forall_cons; [exact I|]). apply List.Forall_nil. }
    destruct (Hj a Ha) as (oa & Ea & ->). destruct (Hj b Hb) as (ob & Eb & ->).
    unfold getSnapshotSignature in Ea, Eb. rewrite Ea, Eb in H. injection H as H1 H2 H3 H4 H5 H6 H7 H8 H9 H10 H11.
    refine (conj _ (conj H9 (conj H10 H11))).
    rewrite (prices_eta (s_value a)), (prices_eta (s_value b)), H1, H2, H3, H4, H5, H6, H7, H8. reflexivity.
  - intros (Hv & Hm & He & Hr). unfold getSnapshotSignature. by rewrite Hv, Hm, He, Hr.
Qed.

Lemma signature_some s : getSnapshotSignature (Some s) <> [].
Proof.
  unfold getSnapshotSignature. match goal with |- stringify (VObj ?o) <> [] => destruct (stringify_obj_head o) as [t ->] end.
  done.
Qed.

(** A row is marked as changed exactly when the draft shows other prices,
    another mode or another expression than what is saved, or when only one of
    the two exists; a deleted and a new model are told apart. *)
Theorem draft_changed_iff (saved draft : list ModelPricingSnapshot) (name : jstr) :
  Forall snapshot_units saved -> Forall snapshot_units draft ->
  let r := row_of saved draft name in
  match row_named name saved, row_named name draft with
  | Some a, Some b => (isDraftChanged r = false <-> same_pricing a b) /\ isDraftDeleted r = false /\ isDraftNew r = false
  | Some _, None => isDraftChanged r = true /\ isDraftDeleted r = true /\ isDraftNew r = false
  | None, Some _ => isDraftChanged r = true /\ isDraftDeleted r = false /\ isDraftNew r = true
  | None, None => isDraftChanged r = false /\ isDraftDeleted r = false /\ isDraftNew r = false
  end.
Proof.
  intros Hs Hd. cbv zeta. unfold row_of.
  assert (Hu : forall l s, Forall snapshot_units l -> row_named name l = Some s -> snapshot_units s).
  { intros l s Hl H. unfold row_named in H. apply last_Some in H as [l' H].
    rewrite list.Forall_forall in Hl. apply Hl. apply list_elem_of_In.
    assert (In s (List.filter (fun r => bool_decide (s_name r = name)) l)) as Hin.
    { rewrite H. apply in_app_iff. right. by left. }
    by apply filter_In in Hin as [? _]. }
  destruct (row_named name saved) as [a|] eqn:Ea, (row_named name draft) as [b|] eqn:Eb;
    cbn [isDraftChanged isDraftDeleted isDraftNew]; (split; [|done]).
  - rewrite negb_false_iff, bool_decide_eq_true. apply signature_inj; [by apply (Hu saved)|by apply (Hu draft)].
  - apply negb_true_iff, bool_decide_eq_false. apply signature_some.
  - apply negb_true_iff, bool_decide_eq_false. intros H. symmetry in H. by apply signature_some in H.
  - done.
Qed.

Definition sample_row (mode : jstr) (e : option jstr) : ModelPricingSnapshot :=
  MkSnapshot (js "m") (MkPrices [] (js "2") [] [] [] [] [] []) mode e None false.

Lemma draft_changed_iff_witness :
  isDraftChanged (row_of [sample_row (js "per-token") None] [sample_row [] (Some [])] (js "m")) = false.
Proof.
  assert (forall mode e, forallb is_unit mode = true -> default [] e = [] -> snapshot_units (sample_row mode e)) as Hu.
  { intros mode e Hm He. split; [intros []; reflexivity|]. split; [exact Hm|].
    split; [|reflexivity]. change (forallb is_unit (default [] e) = true). by rewrite He. }
  assert (Forall snapshot_units [sample_row (js "per-token") None]) as H1.
  { apply List.Forall_cons; [by apply Hu|apply List.Forall_nil]. }
  assert (Forall snapshot_units [sample_row [] (Some [])]) as H2.
  { apply List.Forall_cons; [by apply Hu|apply List.Forall_nil]. }
  pose proof (draft_changed_iff _ _ (js "m") H1 H2) as H.
  assert (row_named (js "m") [sample_row (js "per-token") None] = Some (sample_row (js "per-token") None)) as E1
    by (vm_compute; reflexivity).
  assert (row_named (js "m") [sample_row [] (Some [])] = Some (sample_row [] (Some []))) as E2
    by (vm_compute; reflexivity).
  cbv zeta in H. rewrite E1, E2 in H. apply (proj2 (proj1 H)). exact (conj eq_refl (conj eq_refl (conj eq_refl eq_refl))).
Defined.
