(* ===== verification/PricingEditor.v ===== *)
(** * The editor of a model's prices (model-pricing-sheet.tsx, model-pricing-core.ts)

    The panel keeps prices in dollars for the reader and, in its form, the
    ratios that are stored.  The state machine has one event per control; what
    is submitted goes through ModelPricing. *)
From S2P Require Import Prelude JsString JsNumber JsValue JsValueFacts JsJson JsJsonFacts JsRegex JsStorable BillingExpr ModelPricing ModelPricingFacts.
Open Scope N_scope.

(** ** The core (model-pricing-core.ts) *)

Inductive PricingMode := per_token | per_request | tiered_expr.

Inductive LaneKey := completion | cache | createCache | image | audioInput | audioOutput.

#[export] Instance LaneKey_eq_dec : EqDecision LaneKey.
Proof. solve_decision. Defined.
#[export] Instance PricingMode_eq_dec : EqDecision PricingMode.
Proof. solve_decision. Defined.

Definition mode_name (m : PricingMode) : jstr :=
  match m with
  | per_token => js "per-token" | per_request => js "per-request" | tiered_expr => js "tiered_expr"
  end.

Definition numericDraftRegex : regex := re (js "^(\d+(\.\d*)?|\.\d*)?$").

Definition ratioFieldByLane (lane : LaneKey) : price_field :=
  match lane with
  | completion => CompletionRatio | cache => CacheRatio | createCache => CreateCacheRatio
  | image => ImageRatio | audioInput => AudioRatio | audioOutput => AudioCompletionRatio
  end.

(** The keys of [laneConfigs]. *)
Definition lanes : list LaneKey := [completion; cache; createCache; image; audioInput; audioOutput].

Definition hasValue (value : jstr) : bool := str_truthy value.

Definition ratioToBasePrice (ratio : jstr) : jstr :=
  match toNumberOrNull ratio with
  | None => []
  | Some x => formatPricingNumber (nmul x (num_of_Z 2))
  end.

Definition deriveLanePrice (ratio denominator : jstr) : jstr :=
  match toNumberOrNull ratio, toNumberOrNull denominator with
  | Some r, Some d => formatPricingNumber (nmul r d)
  | _, _ => []
  end.

(** [Record<LaneKey, T>] *)
Definition per_lane (A : Type) : Type := LaneKey -> A.
Definition set_lane {A} (lane : LaneKey) (v : A) (r : per_lane A) : per_lane A :=
  fun l => if bool_decide (l = lane) then v else r l.

Definition EMPTY_LANE_PRICES : per_lane jstr := fun _ => [].
Definition EMPTY_LANE_ENABLED : per_lane bool := fun _ => false.

Record LaneState := MkLanes { l_prompt : jstr; l_prices : per_lane jstr; l_enabled : per_lane bool }.

(** [None] is a new model. *)
Definition createInitialLaneState (data : option ModelRatioData) : LaneState :=
  match data with
  | None => MkLanes [] EMPTY_LANE_PRICES EMPTY_LANE_ENABLED
  | Some data =>
      let v := d_value data in
      let promptPrice := ratioToBasePrice (ratio v) in
      let audioInputPrice := deriveLanePrice (audioRatio v) promptPrice in
      MkLanes promptPrice
        (fun lane => match lane with
                     | audioInput => audioInputPrice
                     | audioOutput => deriveLanePrice (audioCompletionRatio v) audioInputPrice
                     | _ => deriveLanePrice (get v (ratioFieldByLane lane)) promptPrice
                     end)
        (fun lane => hasValue (get v (ratioFieldByLane lane)))
  end.

(** ** The panel (model-pricing-sheet.tsx) *)

Record panel := MkPanel {
  p_name : jstr; form : prices; pricingMode : PricingMode; promptPrice : jstr;
  lanePrices : per_lane jstr; laneEnabled : per_lane bool; billingExpr : jstr; requestRuleExpr : jstr
}.

Definition empty_prices : prices := prices_of (fun _ => []).

(** The effect that runs when the edited model changes. *)
Definition open_panel (editData : option ModelRatioData) : panel :=
  let next := createInitialLaneState editData in
  match editData with
  | Some d =>
      MkPanel (d_name d) (d_value d)
        (if bool_decide (d_mode d = js "tiered_expr") then tiered_expr
         else if str_truthy (price (d_value d)) then per_request else per_token)
        (l_prompt next) (l_prices next) (l_enabled next) (d_expr d) (d_rules d)
  | None => MkPanel [] empty_prices per_token (l_prompt next) (l_prices next) (l_enabled next) [] []
  end.

Definition set_price (f : price_field) (v : jstr) (p : prices) : prices :=
  prices_of (fun g => if bool_decide (g = f) then v else get p g).

Definition with_form (fm : prices) (p : panel) : panel :=
  MkPanel (p_name p) fm (pricingMode p) (promptPrice p) (lanePrices p) (laneEnabled p) (billingExpr p) (requestRuleExpr p).

Definition deriveLaneRatio (lane : LaneKey) (price nextPromptPrice : jstr) (nextLanePrices : per_lane jstr) : jstr :=
  match toNumberOrNull price with
  | None => []
  | Some priceNumber =>
      let base := if bool_decide (lane = audioOutput) then nextLanePrices audioInput else nextPromptPrice in
      match toNumberOrNull base with
      | None => []
      | Some b => if neqb b nzero then [] else formatPricingNumber (ndiv priceNumber b)
      end
  end.

Definition base_ratio (nextPromptPrice : jstr) : jstr :=
  match toNumberOrNull nextPromptPrice with
  | Some x => formatPricingNumber (ndiv x (num_of_Z 2))
  | None => []
  end.

Definition sync_lane (prompt : jstr) (ps : per_lane jstr) (en : per_lane bool) (fm : prices) (key : LaneKey) : prices :=
  set_price (ratioFieldByLane key) (if en key then deriveLaneRatio key (ps key) prompt ps else []) fm.

Definition syncLaneRatios (prompt : jstr) (ps : per_lane jstr) (en : per_lane bool) (fm : prices) : prices :=
  fold_left (sync_lane prompt ps en) lanes (set_price Ratio (base_ratio prompt) fm).

Definition handlePromptPriceChange (value : jstr) (p : panel) : panel :=
  if negb (re_test numericDraftRegex value) then p
  else MkPanel (p_name p) (syncLaneRatios value (lanePrices p) (laneEnabled p) (form p)) (pricingMode p) value
         (lanePrices p) (laneEnabled p) (billingExpr p) (requestRuleExpr p).

Definition handleLanePriceChange (lane : LaneKey) (value : jstr) (p : panel) : panel :=
  if negb (re_test numericDraftRegex value) then p
  else
    let next := set_lane lane value (lanePrices p) in
    let fm := if laneEnabled p lane
              then set_price (ratioFieldByLane lane) (deriveLaneRatio lane value (promptPrice p) next) (form p)
              else form p in
    let fm := if bool_decide (lane = audioInput) && laneEnabled p audioOutput
              then set_price AudioCompletionRatio
                     (deriveLaneRatio audioOutput (next audioOutput) (promptPrice p) next) fm
              else fm in
    MkPanel (p_name p) fm (pricingMode p) (promptPrice p) next (laneEnabled p) (billingExpr p) (requestRuleExpr p).

Definition handleLaneToggle (lane : LaneKey) (checked : bool) (p : panel) : panel :=
  let nextEnabled := set_lane lane checked (laneEnabled p) in
  if checked then
    MkPanel (p_name p)
      (set_price (ratioFieldByLane lane)
         (deriveLaneRatio lane (lanePrices p lane) (promptPrice p) (lanePrices p)) (form p))
      (pricingMode p) (promptPrice p) (lanePrices p) nextEnabled (billingExpr p) (requestRuleExpr p)
  else
    let nextPrices := set_lane lane [] (lanePrices p) in
    let fm := set_price (ratioFieldByLane lane) [] (form p) in
    if bool_decide (lane = audioInput) then
      MkPanel (p_name p) (set_price AudioCompletionRatio [] fm) (pricingMode p) (promptPrice p)
        (set_lane audioOutput [] nextPrices) (set_lane audioOutput false nextEnabled) (billingExpr p) (requestRuleExpr p)
    else MkPanel (p_name p) fm (pricingMode p) (promptPrice p) nextPrices nextEnabled (billingExpr p) (requestRuleExpr p).

Definition handleModeChange (next : PricingMode) (p : panel) : panel :=
  MkPanel (p_name p) (form p) next (promptPrice p) (lanePrices p) (laneEnabled p)
    (if bool_decide (next = tiered_expr) && negb (str_truthy (billingExpr p))
     then jsq "tier(`base`, p * 0 + c * 0)" else billingExpr p) (requestRuleExpr p).

(** One event per control.  A control that is disabled (the name of a loaded
    model, the audio output without an audio input price) is not told apart:
    the statements hold for its events too. *)
Inductive event :=
  | EditName (v : jstr) | EditPrice (v : jstr) | EditPrompt (v : jstr) | EditLane (l : LaneKey) (v : jstr)
  | Toggle (l : LaneKey) (checked : bool) | ChangeMode (m : PricingMode) | EditExpr (v : jstr) | EditRules (v : jstr).

Definition handle (p : panel) (e : event) : panel :=
  match e with
  | EditName v => MkPanel v (form p) (pricingMode p) (promptPrice p) (lanePrices p) (laneEnabled p) (billingExpr p) (requestRuleExpr p)
  | EditPrice v => if re_test numericDraftRegex v then with_form (set_price Price v (form p)) p else p
  | EditPrompt v => handlePromptPriceChange v p
  | EditLane l v => handleLanePriceChange l v p
  | Toggle l c => handleLaneToggle l c p
  | ChangeMode m => handleModeChange m p
  | EditExpr v => MkPanel (p_name p) (form p) (pricingMode p) (promptPrice p) (lanePrices p) (laneEnabled p) v (requestRuleExpr p)
  | EditRules v => MkPanel (p_name p) (form p) (pricingMode p) (promptPrice p) (lanePrices p) (laneEnabled p) (billingExpr p) v
  end.

Definition run (p : panel) (es : list event) : panel := fold_left handle es p.

Definition validatePricingValues (p : panel) : bool :=
  if bool_decide (pricingMode p = per_token) && bool_decide (toNumberOrNull (promptPrice p) = None)
     && existsb (fun key => laneEnabled p key && hasValue (lanePrices p key)) lanes
  then false
  else if bool_decide (pricingMode p = per_token) && laneEnabled p audioOutput
          && negb (hasValue (lanePrices p audioInput))
  then false
  else true.

Definition buildSubmitData (p : panel) : ModelRatioData :=
  MkData (trim (p_name p)) (form p) (mode_name (pricingMode p))
    (if bool_decide (pricingMode p = tiered_expr) then billingExpr p else [])
    (if bool_decide (pricingMode p = tiered_expr) then requestRuleExpr p else []).

(** [form.trigger()] checks that the name is not empty. *)
Definition commitDraft (p : panel) : option ModelRatioData :=
  if negb (str_truthy (p_name p)) || negb (validatePricingValues p) then None else Some (buildSubmitData p).

(** ** What the panel shows *)

Record PreviewRow := MkPreview { key : jstr; label : jstr; value : jstr; multiline : bool }.

Section preview.
Context (t : jstr -> jstr).

Definition preview_lane (k l : jstr) (on : bool) (pr : jstr) : PreviewRow :=
  MkPreview k (t l) (if on && str_truthy pr then js "$" ++ pr else t (js "Empty")) false.

Definition buildPreviewRows (p : panel) : list PreviewRow :=
  match pricingMode p with
  | tiered_expr =>
      [ MkPreview (js "mode") (js "BillingMode") (js "tiered_expr") false;
        MkPreview (js "expr") (t (js "Expression"))
          (str_or (combineBillingExpr (billingExpr p) (requestRuleExpr p)) (t (js "Empty"))) true ]
  | per_request =>
      [ MkPreview (js "price") (js "ModelPrice") (str_or (price (form p)) (t (js "Empty"))) false ]
  | per_token =>
      let lane k l lk := preview_lane k l (laneEnabled p lk) (lanePrices p lk) in
      [ preview_lane (js "inputPrice") (js "Input price") true (promptPrice p);
        lane (js "completion") (js "Completion price") completion;
        lane (js "cache") (js "Cache read price") cache;
        lane (js "createCache") (js "Cache write price") createCache;
        lane (js "image") (js "Image input price") image;
        lane (js "audio") (js "Audio input price") audioInput;
        lane (js "audioCompletion") (js "Audio output price") audioOutput ]
  end.

(** The warnings above the form; [editData] is the model that was opened. *)
Definition warnings (editData : option ModelRatioData) (p : panel) : list jstr :=
  (match editData with
   | Some d => if str_truthy (price (d_value d))
                  && existsb (fun f => hasValue (get (d_value d) f))
                       [Ratio; CompletionRatio; CacheRatio; CreateCacheRatio; ImageRatio; AudioRatio; AudioCompletionRatio]
               then [t (js "This model has both fixed-price and token-price settings. Saving the current mode will rewrite the conflicting fields.")]
               else []
   | None => []
   end)
  ++ (if bool_decide (pricingMode p = per_token) && bool_decide (toNumberOrNull (promptPrice p) = None)
         && existsb (fun key => laneEnabled p key && hasValue (lanePrices p key)) lanes
      then [t (js "Input price is required before saving dependent prices.")] else [])
  ++ (if bool_decide (pricingMode p = per_token) && laneEnabled p audioOutput
         && negb (hasValue (lanePrices p audioInput))
      then [t (js "Audio output price requires an audio input price.")] else []).
End preview.

(** A draft with a name is refused exactly when one of the two warnings on
    missing prices is there. *)
Lemma refused_iff_warned p :
  p_name p <> [] -> commitDraft p = None <-> warnings id None p <> [].
Proof.
  intros Hn. unfold commitDraft, validatePricingValues, warnings. destruct (p_name p) as [|c s]; [done|].
  cbn [str_truthy negb orb app]. destruct (_ && existsb _ _); [by split|].
  destruct (_ && negb (hasValue _)); by split.
Qed.

(** ** The form follows the prices *)

Definition lane_ratio (p : panel) (lane : LaneKey) : jstr :=
  if laneEnabled p lane then deriveLaneRatio lane (lanePrices p lane) (promptPrice p) (lanePrices p) else [].

(** Every ratio of the form is the one its price gives. *)
Definition in_sync (p : panel) : Prop :=
  ratio (form p) = base_ratio (promptPrice p)
  /\ forall lane, get (form p) (ratioFieldByLane lane) = lane_ratio p lane.

Lemma get_set_price f v p g : get (set_price f v p) g = if bool_decide (g = f) then v else get p g.
Proof. apply get_prices_of. Qed.

Lemma get_ratio p : ratio p = get p Ratio.
Proof. done. Qed.

(** Decide the equalities of lanes and fields. *)
Ltac lane_cases :=
  repeat match goal with
  | |- context [bool_decide (@eq ?T ?a ?b)] =>
      let r := eval vm_compute in (bool_decide (@eq T a b)) in
      match r with
      | true => change (bool_decide (@eq T a b)) with true
      | false => change (bool_decide (@eq T a b)) with false
      end
  end; cbv iota; cbn [andb negb].

Lemma get_synced prompt ps en fm g :
  get (syncLaneRatios prompt ps en fm) g
  = match g with
    | Price => get fm Price
    | Ratio => base_ratio prompt
    | CompletionRatio => if en completion then deriveLaneRatio completion (ps completion) prompt ps else []
    | CacheRatio => if en cache then deriveLaneRatio cache (ps cache) prompt ps else []
    | CreateCacheRatio => if en createCache then deriveLaneRatio createCache (ps createCache) prompt ps else []
    | ImageRatio => if en image then deriveLaneRatio image (ps image) prompt ps else []
    | AudioRatio => if en audioInput then deriveLaneRatio audioInput (ps audioInput) prompt ps else []
    | AudioCompletionRatio => if en audioOutput then deriveLaneRatio audioOutput (ps audioOutput) prompt ps else []
    end.
Proof.
  unfold syncLaneRatios, lanes. cbn [fold_left]. unfold sync_lane. rewrite !get_set_price.
  destruct g; cbn [ratioFieldByLane]; by lane_cases.
Qed.

Lemma sync_prompt v p : re_test numericDraftRegex v = true -> in_sync (handlePromptPriceChange v p).
Proof.
  intros H. unfold handlePromptPriceChange. rewrite H. cbn [negb]. split; cbn [form promptPrice].
  - by rewrite get_ratio, get_synced.
  - intros lane. rewrite get_synced. by destruct lane.
Qed.

(** A price of a lane enters the ratio of the lane, and the audio input price
    also that of the audio output. *)
Lemma derive_frame l prompt ps ps' v :
  ps' audioInput = ps audioInput -> deriveLaneRatio l v prompt ps' = deriveLaneRatio l v prompt ps.
Proof. intros H. unfold deriveLaneRatio. by rewrite H. Qed.

Lemma derive_other l prompt ps ps' v :
  l <> audioOutput -> deriveLaneRatio l v prompt ps' = deriveLaneRatio l v prompt ps.
Proof. intros H. unfold deriveLaneRatio. by rewrite bool_decide_eq_false_2. Qed.

Lemma sync_lane_price l v p : in_sync p -> in_sync (handleLanePriceChange l v p).
Proof.
  intros [Hr Hl]. unfold handleLanePriceChange. destruct (re_test _ v); [|done]. cbn [negb]. split; cbn [form promptPrice].
  - rewrite get_ratio. destruct (bool_decide (l = audioInput) && laneEnabled p audioOutput), (laneEnabled p l);
      rewrite ?get_set_price; destruct l; cbn [ratioFieldByLane]; lane_cases; done.
  - intros lane. unfold lane_ratio. cbn [laneEnabled lanePrices promptPrice form].
    specialize (Hl lane). unfold lane_ratio in Hl.
    destruct (laneEnabled p l) eqn:El, (laneEnabled p audioOutput) eqn:Eo;
      rewrite ?andb_true_r, ?andb_false_r; destruct (bool_decide (l = audioInput)) eqn:Ea;
      rewrite ?get_set_price; unfold set_lane;
      destruct l; try discriminate Ea; destruct lane; cbn [ratioFieldByLane] in *; lane_cases;
      rewrite ?El, ?Eo in *; cbv iota in *; try done; rewrite Hl; try done.
    all: repeat case_match; try done; try (by rewrite derive_other).
Qed.

Lemma sync_toggle l c p : in_sync p -> in_sync (handleLaneToggle l c p).
Proof.
  intros [Hr Hl]. unfold handleLaneToggle. destruct c; [|case_bool_decide as Ea].
  - split; cbn [form promptPrice].
    + rewrite get_ratio, get_set_price. destruct l; cbn [ratioFieldByLane]; by lane_cases.
    + intros lane. unfold lane_ratio. cbn [laneEnabled lanePrices promptPrice form]. rewrite get_set_price. unfold set_lane.
      destruct (decide (lane = l)) as [->|Hne].
      * by rewrite !bool_decide_eq_true_2.
      * rewrite !bool_decide_eq_false_2 by (try done; by destruct lane, l). apply Hl.
  - subst l. split; cbn [form promptPrice].
    + rewrite get_ratio, !get_set_price. cbn [ratioFieldByLane]. by lane_cases.
    + intros lane. unfold lane_ratio. cbn [laneEnabled lanePrices promptPrice form]. rewrite !get_set_price. unfold set_lane.
      specialize (Hl lane). unfold lane_ratio in Hl.
      destruct lane; cbn [ratioFieldByLane] in *; lane_cases; try done; rewrite Hl; by rewrite derive_other.
  - split; cbn [form promptPrice].
    + rewrite get_ratio, get_set_price. destruct l; cbn [ratioFieldByLane]; by lane_cases.
    + intros lane. unfold lane_ratio. cbn [laneEnabled lanePrices promptPrice form]. rewrite get_set_price. unfold set_lane.
      destruct (decide (lane = l)) as [->|Hne].
      * by rewrite !bool_decide_eq_true_2.
      * rewrite !(bool_decide_eq_false_2 (lane = l)), (bool_decide_eq_false_2 (ratioFieldByLane lane = _))
          by (try done; by destruct lane, l).
        rewrite Hl. unfold lane_ratio. destruct (laneEnabled p lane); [|done]. symmetry. apply derive_frame.
        by rewrite bool_decide_eq_false_2 by congruence.
Qed.

Lemma handle_sync p e : in_sync p -> in_sync (handle p e).
Proof.
  intros H. destruct e as [v|v|v|l v|l c|m|v|v]; cbn [handle]; try done.
  - destruct (re_test _ v); [|done]. destruct H as [Hr Hl]. split; cbn [with_form form promptPrice].
    + by rewrite get_ratio, get_set_price.
    + intros lane. rewrite get_set_price. specialize (Hl lane). destruct lane; cbn [ratioFieldByLane] in *; lane_cases; exact Hl.
  - destruct (re_test numericDraftRegex v) eqn:E; [by apply sync_prompt|].
    unfold handlePromptPriceChange. by rewrite E.
  - by apply sync_lane_price.
  - by apply sync_toggle.
Qed.

Lemma run_sync p es : in_sync p -> in_sync (run p es).
Proof. revert p. unfold run. induction es as [|e es IH]; intros p H; [done|]. by apply IH, handle_sync. Qed.

Lemma new_sync : in_sync (open_panel None).
Proof. split; [done|]. by intros []. Qed.

(** A draft that is ever accepted for the input price brings the form in line,
    whatever was loaded before. *)
Lemma prompt_syncs p es1 v es2 :
  re_test numericDraftRegex v = true -> in_sync (run p (es1 ++ EditPrompt v :: es2)).
Proof. intros H. unfold run. rewrite fold_left_app. cbn [fold_left]. apply run_sync. by apply sync_prompt. Qed.

(** ** From the editor to the rows *)

(** An input price was typed and accepted. *)
Definition accepted_prompt (e : event) : bool := match e with EditPrompt v => re_test numericDraftRegex v | _ => false end.

(** The panel of a new model, and of one that was loaded once an input price
    was typed. *)
Lemma panel_sync editData es :
  editData = None \/ existsb accepted_prompt es = true -> in_sync (run (open_panel editData) es).
Proof.
  intros [->|H]; [by apply run_sync, new_sync|]. apply existsb_exists in H as (e & Hin & He).
  apply in_split in Hin as (es1 & es2 & ->). destruct e; try done. by apply prompt_syncs.
Qed.

Lemma committed_data p data : commitDraft p = Some data -> data = buildSubmitData p.
Proof. unfold commitDraft. by destruct (_ || _); [|intros [= <-]]. Qed.

Lemma mode_not_expression p : pricingMode p = per_token -> d_mode (buildSubmitData p) <> js "tiered_expr".
Proof. intros H. unfold buildSubmitData. cbn [d_mode]. rewrite H. by decide_now. Qed.

(** C35.  What is typed into the panel is what the row of the model shows, for
    a new model, or a loaded one once an input price was typed: after any
    sequence of edits, a draft that is committed in the mode per token is
    stored.  If no fixed price is left in the form, the row has that mode, no
    conflict, half of the input price as its ratio, and for every lane the
    quotient of its price and its base price, or nothing when the lane is off.
    If one is left - typed in the mode per request before, or loaded - the row
    shows it alone, and everything typed per token is lost. *)
Theorem edited_prices_shown (editData : option ModelRatioData) (es : list event) (data : ModelRatioData) (st : store) (m : maps) :
  editData = None \/ existsb accepted_prompt es = true ->
  let p := run (open_panel editData) es in
  commitDraft p = Some data -> pricingMode p = per_token ->
  parse_store st = Some m -> storable_maps m -> data_printable data ->
  forallb is_unit (d_name data) = true -> d_name data ∉ object_prototype_names ->
  exists st' m' s, persistPricingData data [d_name data] st = Some st' /\ parse_store st' = Some m'
    /\ snapshot_at m' (d_name data) = Ok s /\ hasConflict s = false
    /\ match price (form p) with
       | [] =>
           s_mode s = js "per-token" /\ price (s_value s) = []
           /\ ratio (s_value s) = number_text (base_ratio (promptPrice p))
           /\ forall lane, get (s_value s) (ratioFieldByLane lane) = number_text (lane_ratio p lane)
       | text =>
           s_mode s = price_mode (number_text text) /\ price (s_value s) = number_text text
           /\ forall f, f <> Price -> get (s_value s) f = []
       end.
Proof.
  intros He p Hc Hmode Hm Hs Hd Hu Hn. pose proof (panel_sync editData es He) as [Hr Hl]. fold p in Hr, Hl.
  rewrite (committed_data p data Hc) in *. pose proof (mode_not_expression p Hmode) as Ht.
  destruct (persist_tables (buildSubmitData p) [d_name (buildSubmitData p)] st m Hm Hs Hd ltac:(by repeat constructor)) as (st' & m' & H1 & H2 & _ & H3).
  assert (Ha : row_after (buildSubmitData p) (d_name (buildSubmitData p)) (snapshot_at m' (d_name (buildSubmitData p)))).
  { rewrite (snapshot_shown (buildSubmitData p)) by (try done; intros k; rewrite H3; by rewrite bool_decide_eq_true_2 by (by left)).
    apply shown_after. }
  exists st', m'. change (d_value (buildSubmitData p)) with (form p) in *. destruct (price (form p)) as [|c t] eqn:Ep.
  - pose proof (after_ratios _ _ _ Ha Ht Ep) as E. eexists. split; [exact H1|]. split; [exact H2|]. split; [exact E|].
    cbn [hasConflict s_mode s_value]. split; [done|]. split; [done|]. split; [done|]. split.
    + change (number_text (ratio (form p)) = number_text (base_ratio (promptPrice p))). by rewrite Hr.
    + intros lane. unfold without_price. rewrite get_prices_of. change (d_value (buildSubmitData p)) with (form p).
      rewrite Hl. by destruct lane.
  - pose proof (after_price _ _ _ Ha Ht ltac:(change (price (form p) <> []); by rewrite Ep)) as E.
    change (d_value (buildSubmitData p)) with (form p) in E.
    eexists. split; [exact H1|]. split; [exact H2|]. split; [exact E|]. cbn [hasConflict s_mode s_value]. split; [done|].
    split; [by rewrite Ep|]. unfold only_price. split; [change (number_text (price (form p)) = number_text (c :: t)); by rewrite Ep|].
    intros f Hf. rewrite get_prices_of. by rewrite bool_decide_eq_false_2.
Qed.

Definition sample_edits : list event :=
  [EditName (js " my-model "); EditPrompt (js "3"); Toggle completion true; EditLane completion (js "15");
   Toggle audioInput true; EditLane audioInput (js "4"); Toggle audioOutput true; EditLane audioOutput (js "8.");
   EditPrompt (js "2.5x"); EditPrompt (js "2.5")].
Definition sample_committed : ModelRatioData :=
  default sample_data (commitDraft (run (open_panel None) sample_edits)).

(** A price that is typed per request before the mode is changed. *)
Definition switched_edits : list event :=
  [EditName (js "m"); ChangeMode per_request; EditPrice (js "0.5"); ChangeMode per_token; EditPrompt (js "3")].
Definition switched_committed : ModelRatioData :=
  default sample_data (commitDraft (run (open_panel None) switched_edits)).

Lemma edited_prices_shown_witness :
  (exists st' m' s, persistPricingData sample_committed [js "my-model"] sample_store = Some st'
    /\ parse_store st' = Some m' /\ snapshot_at m' (js "my-model") = Ok s
    /\ ratio (s_value s) = js "1.25" /\ completionRatio (s_value s) = js "6"
    /\ audioCompletionRatio (s_value s) = js "2" /\ cacheRatio (s_value s) = [])
  /\ exists st' m' s, persistPricingData switched_committed [js "m"] sample_store = Some st'
    /\ parse_store st' = Some m' /\ snapshot_at m' (js "m") = Ok s
    /\ s_mode s = js "per-request" /\ price (s_value s) = js "0.5" /\ ratio (s_value s) = [].
Proof.
  assert (Hd : forall data, In data [sample_committed; switched_committed] -> data_printable data).
  { intros data [<-|[<-|[]]] [f| |] v; try destruct f; intros H; vm_compute in H; first [discriminate H|injection H as <-];
      (split; [vm_compute; reflexivity|exact I]). }
  split.
  - set (p := run (open_panel None) sample_edits).
    assert (Hc : commitDraft p = Some sample_committed).
    { unfold sample_committed. fold p. destruct (commitDraft p) eqn:E; [reflexivity|vm_compute in E; discriminate E]. }
    destruct (edited_prices_shown None sample_edits sample_committed sample_store sample_maps (or_introl eq_refl) Hc
      ltac:(vm_compute; reflexivity) sample_store_tables sample_maps_storable (Hd _ (or_introl eq_refl))
      ltac:(vm_compute; reflexivity) ltac:(decide_now)) as (st' & m' & s & H1 & H2 & H3 & _ & H4).
    fold p in H4. replace (price (form p)) with (@nil N) in H4 by (vm_compute; reflexivity). destruct H4 as (_ & _ & H4 & H5).
    replace (d_name sample_committed) with (js "my-model") in * by (vm_compute; reflexivity). exists st', m', s.
    refine (conj H1 (conj H2 (conj H3 (conj _ (conj _ (conj _ _)))))).
    + rewrite H4. vm_compute. reflexivity.
    + change (completionRatio (s_value s)) with (get (s_value s) (ratioFieldByLane completion)). rewrite H5. vm_compute. reflexivity.
    + change (audioCompletionRatio (s_value s)) with (get (s_value s) (ratioFieldByLane audioOutput)). rewrite H5. vm_compute. reflexivity.
    + change (cacheRatio (s_value s)) with (get (s_value s) (ratioFieldByLane cache)). rewrite H5. vm_compute. reflexivity.
  - set (p := run (open_panel None) switched_edits).
    assert (Hc : commitDraft p = Some switched_committed).
    { unfold switched_committed. fold p. destruct (commitDraft p) eqn:E; [reflexivity|vm_compute in E; discriminate E]. }
    destruct (edited_prices_shown None switched_edits switched_committed sample_store sample_maps (or_introl eq_refl) Hc
      ltac:(vm_compute; reflexivity) sample_store_tables sample_maps_storable (Hd _ (or_intror (or_introl eq_refl)))
      ltac:(vm_compute; reflexivity) ltac:(decide_now)) as (st' & m' & s & H1 & H2 & H3 & _ & H4).
    fold p in H4. replace (price (form p)) with (js "0.5") in H4 by (vm_compute; reflexivity). destruct H4 as (H4 & H5 & H6).
    replace (d_name switched_committed) with (js "m") in * by (vm_compute; reflexivity). exists st', m', s.
    refine (conj H1 (conj H2 (conj H3 (conj _ (conj _ _))))).
    + rewrite H4. vm_compute. reflexivity.
    + rewrite H5. vm_compute. reflexivity.
    + exact (H6 Ratio ltac:(discriminate)).
Defined.

(** ** What the panel accepts and does not store *)

(** With an input price of zero the price of a lane has no ratio: the draft is
    committed without it. *)
Lemma zero_input_price_drops :
  exists data, commitDraft (run (open_panel None)
      [EditName (js "m"); EditPrompt (js "0"); Toggle completion true; EditLane completion (js "5")]) = Some data
    /\ price (d_value data) = [] /\ ratio (d_value data) = js "0" /\ completionRatio (d_value data) = [].
Proof. eexists. split; [vm_compute; reflexivity|]. repeat split. Qed.

(** A name of white space is accepted and stored as the empty name. *)
Lemma blank_name_accepted :
  d_name <$> commitDraft (run (open_panel None) [EditName (js "  "); EditPrompt (js "1")]) = Some [].
Proof. vm_compute. reflexivity. Qed.

(** A model with a fixed price that is switched to the mode per token keeps the
    price in what is submitted. *)
Lemma switched_mode_keeps_price d v :
  d_mode d = js "per-request" -> price (d_value d) <> [] ->
  price (d_value (buildSubmitData (run (open_panel (Some d)) [ChangeMode per_token; EditPrompt v]))) = price (d_value d)
  /\ d_mode (buildSubmitData (run (open_panel (Some d)) [ChangeMode per_token; EditPrompt v])) = js "per-token".
Proof.
  intros Hm Hp. unfold run. cbn [fold_left handle]. unfold handlePromptPriceChange. destruct (re_test _ v); [|done].
  cbn [negb]. split; [|done]. cbn [buildSubmitData d_value form].
  change (get (syncLaneRatios v (lanePrices (handleModeChange per_token (open_panel (Some d))))
    (laneEnabled (handleModeChange per_token (open_panel (Some d)))) (form (handleModeChange per_token (open_panel (Some d))))) Price
    = price (d_value d)). by rewrite get_synced.
Qed.
