(* ===== verification/TieredEditor.v ===== *)
(** * The editor of tiered prices
      (features/system-settings/models/tiered-pricing-editor.tsx)

    The editor keeps a configuration of tiers, a text and groups of request
    rules of its own, and writes the expression and the rules into the draft of
    the panel by effects.  A step of the machine is a handler followed by the
    renderings it causes, each with its effects in their order. *)
From S2P Require Import Prelude JsString JsNumber JsValue JsValueFacts BillingExpr TierExpr.
Open Scope N_scope.

(** ** Numbers that are typed *)

(** [Number(x) || 0] *)
Definition priceToUnitCost (price : num) : num := if num_truthy price then price else nzero.
Definition unitCostToPrice (uc : jsval) : res num := number_or_zero uc.

Definition formatNumberDraft (value : jsval) : jstr :=
  match value with
  | VNum x => if is_finite x then num_to_str x else js "0"
  | VStr s => s
  | _ => []
  end.

Definition parseNumberDraft (value : jstr) : num :=
  match trim value with
  | [] => nzero
  | _ => let next := num_of_str value in if is_finite next then next else nzero
  end.

Definition isZeroDraft (value : jstr) : bool := str_truthy (trim value) && neqb (parseNumberDraft value) nzero.

(** A field for a number: the typed text, and whether it has the focus. *)
Record DraftInput := MkDraftInput { di_draft : jstr; di_focused : bool }.
Inductive InputEvent := IChange (text : jstr) | IFocus | IBlur | IValue (value : jsval).

(** The next state, and the number reported by [onValueChange]. *)
Definition draft_input (d : DraftInput) (e : InputEvent) : DraftInput * option num :=
  match e with
  | IChange text => (MkDraftInput text (di_focused d), Some (parseNumberDraft text))
  | IFocus => (MkDraftInput (di_draft d) true, None)
  | IBlur => let normalized := parseNumberDraft (di_draft d) in
             (MkDraftInput (num_to_str normalized) false, Some normalized)
  | IValue value => (if di_focused d then d else MkDraftInput (formatNumberDraft value) false, None)
  end.

(** ** A tier *)

(** [{ ...tier, [field]: value }] *)
Definition with_field (field : jstr) (value : jsval) (tier : jsobj) : jsobj := oset field value (obj_of tier).

(** The elements of an array; reading them of another value throws. *)
Definition elements (v : jsval) : res (list jsval) := match v with VArr l => Ok l | _ => Throw TypeError end.
Definition conditions_of (tier : VisualTier) : res (list jsval) := elements (oget (js "conditions") tier).

Definition remove_nth {A} (i : nat) (l : list A) : list A := take i l ++ drop (S i) l.

Definition CONDITION_INPUT_OPTIONS : list (jstr * jstr) :=
  [(js "len", js "Full input length"); (js "p", js "Billable input tokens"); (js "c", js "Billable output tokens")].
Definition OPS : list jstr := [js "<"; js "<="; js ">"; js ">="].

Inductive ConditionPatch := PVar (v : jstr) | POp (op : jstr) | PValue (value : num).
Definition patch_condition (p : ConditionPatch) (condition : jsval) : jsval :=
  VObj (match p with
        | PVar v => with_field (js "var") (VStr v) (entries condition)
        | POp op => with_field (js "op") (VStr op) (entries condition)
        | PValue x => with_field (js "value") (VNum x) (entries condition)
        end).

Definition handleConditionChange (i : nat) (next : jsval) (tier : VisualTier) : res VisualTier :=
  let* l := conditions_of tier in Ok (with_field (js "conditions") (VArr (<[i := next]> l)) tier).
Definition handleConditionRemove (i : nat) (tier : VisualTier) : res VisualTier :=
  let* l := conditions_of tier in Ok (with_field (js "conditions") (VArr (remove_nth i l)) tier).
Definition handlePriceChange (field : jstr) (value : num) (tier : VisualTier) : VisualTier :=
  with_field field (VNum value) tier.
Definition handleCacheModeChange (mode : jstr) (tier : VisualTier) : VisualTier :=
  with_field (js "cache_create_1h_unit_cost")
    (if bool_decide (mode = CACHE_MODE_TIMED)
     then vcoalesce (oget (js "cache_create_1h_unit_cost") tier) (VNum nzero) else VNum nzero)
    (with_field (js "cache_mode") (VStr mode) tier).

Definition CACHE_PRICE_VARS : list BillingVar :=
  List.filter (fun v => bool_decide (bv_group v = Some (js "cache"))) BILLING_EXTRA_VARS.
Definition MEDIA_PRICE_VARS : list BillingVar :=
  List.filter (fun v => bool_decide (bv_group v = Some (js "media"))) BILLING_EXTRA_VARS.

(** What a card does to its tier. *)
Inductive TierEdit :=
  | TLabel (label : jstr)
  | TPrice (field : jstr) (typed : num)
  | TCacheMode (mode : jstr)
  | TCondition (i : nat) (p : ConditionPatch)
  | TConditionRemove (i : nat).

Definition edit_tier (e : TierEdit) (tier : VisualTier) : res VisualTier :=
  match e with
  | TLabel label => Ok (with_field (js "label") (VStr label) tier)
  | TPrice field typed => Ok (handlePriceChange field (priceToUnitCost typed) tier)
  | TCacheMode mode => Ok (handleCacheModeChange mode tier)
  | TCondition i p =>
      let* l := conditions_of tier in
      match l !! i with
      | Some c => handleConditionChange i (patch_condition p c) tier
      | None => Ok tier
      end
  | TConditionRemove i => handleConditionRemove i tier
  end.

(** ** The list of tiers *)

Definition handleTierChange (index : nat) (next : VisualTier) (config : VisualConfig) : res VisualConfig :=
  let* t := normalizeVisualTier next in Ok (<[index := t]> config).

Definition default_condition (var : jstr) : jsval :=
  VObj [(js "var", VStr var); (js "op", VStr (js "<")); (js "value", VNum (num_of_Z 200000))].

(** The last tier gets a bound when it has none. *)
Fixpoint bound_last (tiers : VisualConfig) : res VisualConfig :=
  match tiers with
  | [] => Ok []
  | [last] =>
      let* l := conditions_of last in
      match l with
      | [] => let* t := normalizeVisualTier (with_field (js "conditions") (VArr [default_condition (js "len")]) last) in Ok [t]
      | _ => Ok [last]
      end
  | tier :: tiers => let* tiers := bound_last tiers in Ok (tier :: tiers)
  end.

Definition handleAddTier (config : VisualConfig) : res VisualConfig :=
  let* tiers := bound_last config in
  let* t := normalizeVisualTier
    (obj_of [(js "label", VStr (js "tier_" ++ show_nat (S (length tiers)))); (js "conditions", VArr []);
             (js "input_unit_cost", VNum nzero); (js "output_unit_cost", VNum nzero)]) in
  Ok (tiers ++ [t]).

Definition handleRemoveTier (index : nat) (config : VisualConfig) : VisualConfig :=
  match remove_nth index config with [] => config | tiers => tiers end.

Definition uses_len (l : list jsval) : res bool :=
  let* vars := res_mapM (vget (js "var")) l in Ok (existsb (str_is (js "len")) vars).

Definition handleAddCondition (index : nat) (config : VisualConfig) : res VisualConfig :=
  match config !! index with
  | None => Ok config
  | Some tier =>
      let* l := conditions_of tier in
      if (2 <=? length l)%nat then Ok config
      else
        let* used := uses_len l in
        let c := default_condition (if used then js "c" else js "len") in
        Ok (<[index := with_field (js "conditions") (VArr (l ++ [c])) tier]> config)
  end.

(** ** Request rules *)

Definition handleSourceChange (source : jstr) (c : RequestCondition) : RequestCondition :=
  if bool_decide (source = SOURCE_TIME) then CondTime createEmptyTimeCondition
  else if bool_decide (source = SOURCE_HEADER) then CondPH (MkPH SrcHeader [] MATCH_EQ [])
  else if bool_decide (source = SOURCE_PARAM) then CondPH (MkPH SrcParam [] MATCH_EQ [])
  else c.

Inductive RuleConditionPatch :=
  | RSource (s : jstr) | RMode (m : jstr) | RTimeFunc (f : jstr) | RTimezone (z : jstr)
  | RStart (x : num) | REnd (x : num) | RTimeValue (x : num) | RPath (p : jstr) | RValue (v : jstr).

Definition patch_rule_condition (p : RuleConditionPatch) (c : RequestCondition) : RequestCondition :=
  match p, c with
  | RSource s, _ => handleSourceChange s c
  | RMode m, CondTime (MkTime f z _ v a b) => CondTime (MkTime f z m v a b)
  | RMode m, CondPH (MkPH s pa _ v) => CondPH (MkPH s pa m v)
  | RTimeFunc f, CondTime (MkTime _ z m v a b) => CondTime (MkTime f z m v a b)
  | RTimezone z, CondTime (MkTime f _ m v a b) => CondTime (MkTime f z m v a b)
  | RStart x, CondTime (MkTime f z m v _ b) => CondTime (MkTime f z m v (num_to_str x) b)
  | REnd x, CondTime (MkTime f z m v a _) => CondTime (MkTime f z m v a (num_to_str x))
  | RTimeValue x, CondTime (MkTime f z m _ a b) => CondTime (MkTime f z m (num_to_str x) a b)
  | RPath pa, CondPH (MkPH s _ m v) => CondPH (MkPH s pa m v)
  | RValue v, CondPH (MkPH s pa m _) => CondPH (MkPH s pa m v)
  | _, _ => c
  end.

Inductive GroupEdit :=
  | GCondition (i : nat) (p : RuleConditionPatch)
  | GConditionRemove (i : nat)
  | GConditionAdd (timeMode : bool)
  | GMultiplier (x : num).

Definition edit_group (e : GroupEdit) (g : RequestRuleGroup) : RequestRuleGroup :=
  match e with
  | GCondition i p => MkGroup (alter (patch_rule_condition p) i (rg_conditions g)) (rg_multiplier g)
  | GConditionRemove i => MkGroup (remove_nth i (rg_conditions g)) (rg_multiplier g)
  | GConditionAdd timeMode =>
      MkGroup (rg_conditions g ++ [if timeMode then CondTime createEmptyTimeCondition else CondPH createEmptyCondition])
        (rg_multiplier g)
  | GMultiplier x => MkGroup (rg_conditions g) (num_to_str x)
  end.

(** ** Presets *)

Record Preset := MkPreset {
  pr_key : jstr; pr_label : jstr; pr_expr : jstr; pr_requestRules : list RequestRuleGroup }.

Definition param_is (path value multiplier : jstr) : RequestRuleGroup :=
  MkGroup [CondPH (MkPH SrcParam path MATCH_EQ value)] multiplier.
Definition weekday_is (day : jstr) : RequestRuleGroup :=
  MkGroup [CondTime (MkTime (js "weekday") (js "Asia/Shanghai") MATCH_EQ day [] [])] (js "0.8").

Definition PRESET_GROUPS : list (jstr * list Preset) :=
  [ (js "Fixed price",
     [ MkPreset (js "flat") (js "Flat") (jsq "tier(`base`, p * 2 + c * 4)") [];
       MkPreset (js "claude-opus") (js "Claude Opus 4.6")
         (jsq "tier(`base`, p * 5 + c * 25 + cr * 0.5 + cc * 6.25 + cc1h * 10)") [];
       MkPreset (js "gpt-5.4") (js "GPT-5.4")
         (jsq "len <= 272000 ? tier(`standard`, p * 2.5 + c * 15 + cr * 0.25) : tier(`long_context`, p * 5 + c * 22.5 + cr * 0.5)") [] ]);
    (js "Tiered",
     [ MkPreset (js "claude-sonnet") (js "Claude Sonnet 4.5")
         (jsq "len <= 200000 ? tier(`standard`, p * 3 + c * 15 + cr * 0.3 + cc * 3.75 + cc1h * 6) : tier(`long_context`, p * 6 + c * 22.5 + cr * 0.6 + cc * 7.5 + cc1h * 12)") [];
       MkPreset (js "qwen3-max") (js "Qwen3 Max")
         (jsq "len <= 32000 ? tier(`short`, p * 1.2 + c * 6 + cr * 0.24 + cc * 1.5) : len <= 128000 ? tier(`mid`, p * 2.4 + c * 12 + cr * 0.48 + cc * 3) : tier(`long`, p * 3 + c * 15 + cr * 0.6 + cc * 3.75)") [];
       MkPreset (js "glm-4.5-air") (js "GLM-4.5 Air")
         (jsq "len < 32000 && c < 200 ? tier(`short_output`, p * 0.8 + c * 2 + cr * 0.16) : len < 32000 && c >= 200 ? tier(`long_output`, p * 0.8 + c * 6 + cr * 0.16) : tier(`mid_context`, p * 1.2 + c * 8 + cr * 0.24)") [];
       MkPreset (js "doubao-seed-1.8") (js "Doubao Seed 1.8")
         (jsq "len <= 32000 && c <= 200 ? tier(`discount`, p * 0.8 + c * 2 + cr * 0.16 + cc * 0.17) : len <= 32000 ? tier(`short`, p * 0.8 + c * 8 + cr * 0.16 + cc * 0.17) : len <= 128000 ? tier(`mid`, p * 1.2 + c * 16 + cr * 0.16 + cc * 0.17) : tier(`long`, p * 2.4 + c * 24 + cr * 0.16 + cc * 0.17)") [] ]);
    (js "Multimodal",
     [ MkPreset (js "gpt-image-1-mini") (js "GPT Image 1 Mini") (jsq "tier(`base`, p * 2 + c * 8 + img * 2.5)") [];
       MkPreset (js "gemini-2.5-flash") (js "Gemini 2.5 Flash")
         (jsq "tier(`base`, p * 0.3 + c * 2.5 + cr * 0.03 + ai * 1.0)") [];
       MkPreset (js "gemini-3-pro-image") (js "Gemini 3 Pro Image") (jsq "tier(`base`, p * 2 + c * 12 + img_o * 120)") [];
       MkPreset (js "qwen3-omni-flash") (js "Qwen3 Omni Flash")
         (jsq "tier(`base`, p * 0.43 + c * 3.06 + img * 0.78 + ai * 3.81 + ao * 15.11)") [] ]);
    (js "Request rule",
     [ MkPreset (js "claude-opus-fast") (js "Claude Opus 4.6 Fast")
         (jsq "tier(`base`, p * 5 + c * 25 + cr * 0.5 + cc * 6.25 + cc1h * 10)")
         [MkGroup [CondPH (MkPH SrcHeader (js "anthropic-beta") MATCH_CONTAINS (js "fast-mode-2026-02-01"))] (js "6")];
       MkPreset (js "gpt-5.4-tiers") (js "GPT-5.4 Priority/Flex")
         (jsq "len <= 272000 ? tier(`standard`, p * 2.5 + c * 15 + cr * 0.25) : tier(`long_context`, p * 5 + c * 22.5 + cr * 0.5)")
         [param_is (js "service_tier") (js "priority") (js "2"); param_is (js "service_tier") (js "flex") (js "0.5")] ]);
    (js "Time-based",
     [ MkPreset (js "night-discount") (js "Night discount (50%)") (jsq "tier(`base`, p * 3 + c * 15)")
         [MkGroup [CondTime (MkTime (js "hour") (js "Asia/Shanghai") MATCH_RANGE [] (js "21") (js "6"))] (js "0.5")];
       MkPreset (js "weekend-discount") (js "Weekend discount (80%)") (jsq "tier(`base`, p * 3 + c * 15)")
         [weekday_is (js "0"); weekday_is (js "6")] ]) ].

(** ** The editor *)

Inductive EditorMode := Visual | Raw.

Record Editor := MkEditor {
  editorMode : EditorMode; visualConfig : option VisualConfig; rawExpr : jstr;
  requestRuleGroups : list RequestRuleGroup; initRef : bool }.

(** What the panel passes: the name and the two texts of its draft. *)
Record Draft := MkDraft { modelName : jstr; currentExpr : jstr; currentRequestRuleExpr : jstr }.

(** [seen]: the draft with which the effects last ran. *)
Record State := MkState { editor : Editor; draft : Draft; seen : option Draft }.

Definition parsed_groups (rules : jstr) : res (list RequestRuleGroup) :=
  res_map (default []) (tryParseRequestRuleExpr rules).

(** The first effect: the editor takes over the texts of the draft. *)
Definition init_editor (d : Draft) (e : Editor) : res Editor :=
  let* mc := match tryParseVisualConfig (currentExpr d) with
             | Some cfg => Ok (Visual, Some cfg)
             | None => if str_truthy (currentExpr d) then Ok (Raw, None)
                       else let* cfg := createDefaultVisualConfig in Ok (editorMode e, Some cfg)
             end in
  let* groups := parsed_groups (currentRequestRuleExpr d) in
  Ok (MkEditor mc.1 mc.2 (combineBillingExpr (currentExpr d) (currentRequestRuleExpr d)) groups true).

Definition canUseVisualRules (d : Draft) : res bool :=
  if str_truthy (currentRequestRuleExpr d)
  then res_map (fun o => match o with Some _ => true | None => false end) (tryParseRequestRuleExpr (currentRequestRuleExpr d))
  else Ok true.

Definition effectiveExpr (e : Editor) : res jstr :=
  match editorMode e with
  | Visual => generateExprFromVisualConfig (visualConfig e)
  | Raw => res_map fst (splitBillingExprAndRequestRules (rawExpr e))
  end.

Definition onBillingExprChange (next : jstr) (d : Draft) : Draft := MkDraft (modelName d) next (currentRequestRuleExpr d).
Definition onRequestRuleExprChange (next : jstr) (d : Draft) : Draft := MkDraft (modelName d) (currentExpr d) next.

Definition texts_seen (o : option Draft) (d : Draft) : bool :=
  match o with
  | Some s => bool_decide (currentExpr s = currentExpr d) && bool_decide (currentRequestRuleExpr s = currentRequestRuleExpr d)
  | None => false
  end.
Definition name_seen (o : option Draft) (d : Draft) : bool :=
  match o with Some s => bool_decide (modelName s = modelName d) | None => false end.

Definition set_initRef (b : bool) (e : Editor) : Editor :=
  MkEditor (editorMode e) (visualConfig e) (rawExpr e) (requestRuleGroups e) b.

(** The third and the fourth effect; without a change they do nothing. *)
Definition emit (e : Editor) (effective : jstr) (d : Draft) : Draft :=
  let d := if bool_decide (effective = currentExpr d) then d else onBillingExprChange effective d in
  match editorMode e with
  | Visual =>
      let ruleExpr := buildRequestRuleExpr (requestRuleGroups e) in
      if bool_decide (ruleExpr = currentRequestRuleExpr d) then d else onRequestRuleExprChange ruleExpr d
  | Raw => d
  end.

(** One rendering and its effects, which see the values of the rendering. *)
Definition render (s : State) : res State :=
  let* _ := canUseVisualRules (draft s) in
  let* effective := effectiveExpr (editor s) in
  let* e := if negb (texts_seen (seen s) (draft s)) && negb (initRef (editor s))
            then init_editor (draft s) (editor s) else Ok (editor s) in
  let e := if name_seen (seen s) (draft s) then e else set_initRef false e in
  Ok (MkState e (emit (editor s) effective (draft s)) (Some (draft s))).

Fixpoint renders (n : nat) (s : State) : res State :=
  match n with
  | O => Ok s
  | S n => let* s := render s in renders n s
  end.

(** Five renderings are enough ([settle_stable] in TieredEditorFacts). *)
Definition settle (s : State) : res State := renders 5 s.

Definition mount (d : Draft) : res State :=
  let* groups := parsed_groups (currentRequestRuleExpr d) in
  settle (MkState (MkEditor Visual (tryParseVisualConfig (currentExpr d))
                     (combineBillingExpr (currentExpr d) (currentRequestRuleExpr d)) groups false) d None).

(** ** Handlers *)

Definition set_visualConfig (c : option VisualConfig) (e : Editor) : Editor :=
  MkEditor (editorMode e) c (rawExpr e) (requestRuleGroups e) (initRef e).
Definition set_rawExpr (x : jstr) (e : Editor) : Editor :=
  MkEditor (editorMode e) (visualConfig e) x (requestRuleGroups e) (initRef e).
Definition set_groups (g : list RequestRuleGroup) (e : Editor) : Editor :=
  MkEditor (editorMode e) (visualConfig e) (rawExpr e) g (initRef e).
Definition set_mode (m : EditorMode) (e : Editor) : Editor :=
  MkEditor m (visualConfig e) (rawExpr e) (requestRuleGroups e) (initRef e).

Definition on_editor (f : Editor -> Editor) (s : State) : State := MkState (f (editor s)) (draft s) (seen s).
Definition on_draft (f : Draft -> Draft) (s : State) : State := MkState (editor s) (f (draft s)) (seen s).

Inductive VisualEdit :=
  | VTier (index : nat) (e : TierEdit) | VAddTier | VRemoveTier (index : nat) | VAddCondition (index : nat).

Definition edit_config (e : VisualEdit) (config : VisualConfig) : res VisualConfig :=
  match e with
  | VTier index e =>
      match config !! index with
      | Some tier => let* next := edit_tier e tier in handleTierChange index next config
      | None => Ok config
      end
  | VAddTier => handleAddTier config
  | VRemoveTier index => Ok (handleRemoveTier index config)
  | VAddCondition index => handleAddCondition index config
  end.

(** An exception leaves the configuration as it is. *)
Definition handleVisual (e : VisualEdit) (s : State) : State :=
  match (let* config := normalizeVisualConfig (visualConfig (editor s)) in edit_config e config) with
  | Ok next => on_editor (set_visualConfig (Some next)) s
  | Throw _ => s
  end.

Definition handleRawChange (value : jstr) (s : State) : State :=
  let s := on_editor (set_rawExpr value) s in
  match splitBillingExprAndRequestRules value with
  | Ok parts => on_draft (onRequestRuleExprChange parts.2) s
  | Throw _ => s
  end.

Definition handleModeChange (next : EditorMode) (s : State) : State :=
  let e := editor s in
  match next with
  | Visual =>
      match splitBillingExprAndRequestRules (rawExpr e) with
      | Throw _ => s
      | Ok (expr, ruleStr) =>
          let cfg := match tryParseVisualConfig expr with Some cfg => Ok cfg | None => createDefaultVisualConfig end in
          match cfg with
          | Throw _ => s
          | Ok cfg =>
              let s := on_editor (set_visualConfig (Some cfg)) s in
              match parsed_groups ruleStr with
              | Throw _ => s
              | Ok groups =>
                  on_editor (set_mode Visual) (on_draft (onRequestRuleExprChange ruleStr) (on_editor (set_groups groups) s))
              end
          end
      end
  | Raw =>
      match generateExprFromVisualConfig (visualConfig e) with
      | Throw _ => s
      | Ok expr =>
          let ruleExpr := buildRequestRuleExpr (requestRuleGroups e) in
          on_editor (set_mode Raw) (on_editor (set_rawExpr (str_or (combineBillingExpr expr ruleExpr) expr)) s)
      end
  end.

Definition applyPreset (preset : Preset) (s : State) : State :=
  let presetGroups := pr_requestRules preset in
  let ruleExpr := buildRequestRuleExpr presetGroups in
  let combined := str_or (combineBillingExpr (pr_expr preset) ruleExpr) (pr_expr preset) in
  let parsed := tryParseVisualConfig (pr_expr preset) in
  let mode := match parsed with Some _ => Visual | None => Raw end in
  on_draft (onRequestRuleExprChange ruleExpr)
    (on_editor (fun e => MkEditor mode parsed combined presetGroups (initRef e)) s).

Inductive Event :=
  | EVisual (e : VisualEdit)
  | ERaw (value : jstr)
  | EMode (m : EditorMode)
  | EPreset (p : Preset)
  | EGroup (index : nat) (e : GroupEdit)
  | EGroupAdd
  | EGroupRemove (index : nat)
  (** The panel passes another draft. *)
  | EDraft (d : Draft).

(** The tiers and rules are shown in the visual mode only, the rules when they
    can be edited. *)
Definition is_visual (s : State) : bool := match editorMode (editor s) with Visual => true | Raw => false end.
Definition rules_editable (s : State) : bool := is_visual s && catch (canUseVisualRules (draft s)) false.

Definition handle (s : State) (e : Event) : State :=
  match e with
  | EVisual e => if is_visual s then handleVisual e s else s
  | ERaw value => if is_visual s then s else handleRawChange value s
  | EMode m => handleModeChange m s
  | EPreset p => applyPreset p s
  | EGroup index e =>
      if rules_editable s
      then on_editor (fun ed => set_groups (alter (edit_group e) index (requestRuleGroups ed)) ed) s else s
  | EGroupAdd =>
      if rules_editable s
      then on_editor (fun ed => set_groups (requestRuleGroups ed ++ [createEmptyRuleGroup]) ed) s else s
  | EGroupRemove index =>
      if rules_editable s then on_editor (fun ed => set_groups (remove_nth index (requestRuleGroups ed)) ed) s else s
  | EDraft d => on_draft (fun _ => d) s
  end.

Definition step (s : State) (e : Event) : res State := settle (handle s e).

Fixpoint run (s : State) (es : list Event) : res State :=
  match es with
  | [] => Ok s
  | e :: es => let* s := step s e in run s es
  end.
