(* ===== verification/TieredEditorFacts.v ===== *)
(** * The editor of tiered prices: its renderings

    The renderings that follow an event reach a state in which a rendering
    changes nothing; there the draft holds what is shown.  What opening a draft
    and passing to another model do to the draft. *)
From S2P Require Import Prelude JsString JsNumber JsValue JsValueFacts JsStorable BillingExpr TierExpr ModelPricing PricingEditor TieredEditor.
Open Scope N_scope.

(** ** One rendering *)

Lemma draft_eta d : MkDraft (modelName d) (currentExpr d) (currentRequestRuleExpr d) = d.
Proof. by destruct d. Qed.

Lemma emit_visual e x d :
  editorMode e = Visual -> emit e x d = MkDraft (modelName d) x (buildRequestRuleExpr (requestRuleGroups e)).
Proof.
  intros Hm. unfold emit. rewrite Hm. destruct d as [n a b]. cbn.
  destruct (bool_decide_reflect (x = a)) as [->|]; cbn [currentRequestRuleExpr onBillingExprChange modelName];
    destruct (bool_decide_reflect (buildRequestRuleExpr (requestRuleGroups e) = b)) as [->|]; done.
Qed.

Lemma emit_raw e x d : editorMode e = Raw -> emit e x d = MkDraft (modelName d) x (currentRequestRuleExpr d).
Proof. intros Hm. unfold emit. rewrite Hm. destruct d as [n a b]. cbn. by destruct (bool_decide_reflect (x = a)) as [->|]. Qed.

Lemma emit_name e x d : modelName (emit e x d) = modelName d.
Proof. destruct (editorMode e) eqn:Hm; [by rewrite emit_visual|by rewrite emit_raw]. Qed.

Lemma seen_all o d : name_seen o d = true -> texts_seen o d = true -> o = Some d.
Proof.
  destruct o as [[n a b]|]; [|done]. destruct d as [n' a' b']. cbn. intros Hn [Ha Hb]%andb_true_iff.
  apply bool_decide_eq_true in Hn as ->. apply bool_decide_eq_true in Ha as ->. by apply bool_decide_eq_true in Hb as ->.
Qed.

Lemma emit_idemp e x d : emit e x (emit e x d) = emit e x d.
Proof. destruct (editorMode e) eqn:Hm; [by rewrite !emit_visual|by rewrite !emit_raw]. Qed.

Lemma texts_seen_refl d : texts_seen (Some d) d = true.
Proof. cbn. by rewrite !bool_decide_true. Qed.

Lemma name_seen_refl d : name_seen (Some d) d = true.
Proof. cbn. by rewrite bool_decide_true. Qed.

(** A rendering whose first two effects do nothing. *)
Definition quiet (s : State) : Prop :=
  name_seen (seen s) (draft s) = true /\ (initRef (editor s) = true \/ texts_seen (seen s) (draft s) = true).

#[export] Instance quiet_dec s : Decision (quiet s).
Proof. unfold quiet. apply _. Defined.

Lemma quiet_same e d : quiet (MkState e d (Some d)).
Proof. split; [apply name_seen_refl|right; apply texts_seen_refl]. Qed.

(** What a rendering computes before its effects. *)
Definition reads (s : State) (x : jstr) : Prop :=
  (exists b, canUseVisualRules (draft s) = Ok b) /\ effectiveExpr (editor s) = Ok x.

Lemma render_reads s s' : render s = Ok s' -> exists x, reads s x.
Proof.
  unfold render, reads. destruct (canUseVisualRules _) as [b|]; [|done]. cbn [res_bind].
  destruct (effectiveExpr _) as [x|]; [|done]. eauto.
Qed.

Lemma render_quiet s x : quiet s -> reads s x -> render s = Ok (MkState (editor s) (emit (editor s) x (draft s)) (Some (draft s))).
Proof.
  intros [Hn Hi] [[b Hb] Hx]. unfold render. rewrite Hb, Hx. cbn [res_bind].
  assert (negb (texts_seen (seen s) (draft s)) && negb (initRef (editor s)) = false) as ->
    by (destruct Hi as [-> | ->]; [by destruct (texts_seen (seen s) (draft s))|done]).
  cbn [res_bind]. by rewrite Hn.
Qed.

Lemma render_init s x e :
  texts_seen (seen s) (draft s) = false -> initRef (editor s) = false -> reads s x ->
  init_editor (draft s) (editor s) = Ok e ->
  render s = Ok (MkState (if name_seen (seen s) (draft s) then e else set_initRef false e)
                   (emit (editor s) x (draft s)) (Some (draft s))).
Proof. intros Ht Hi [[b Hb] Hx] He. unfold render. by rewrite Hb, Hx, Ht, Hi, He. Qed.

(** A rendering sees its draft, keeps its name and passes on what it read. *)
Lemma render_inv s s' :
  render s = Ok s' ->
  exists x, reads s x /\ draft s' = emit (editor s) x (draft s) /\ seen s' = Some (draft s)
    /\ (name_seen (seen s) (draft s) = true -> quiet s \/ initRef (editor s') = true).
Proof.
  intros H. destruct (render_reads _ _ H) as [x Hr]. exists x. split; [done|].
  destruct Hr as [[b Hb] Hx]. unfold render in H. rewrite Hb, Hx in H. cbn [res_bind] in H.
  destruct (negb _ && negb _) eqn:E.
  - destruct (init_editor _ _) as [e|] eqn:He; [|done]. cbn [res_bind] in H. apply Ok_inj in H as <-. cbn.
    split; [done|]. split; [done|]. intros ->. right. unfold init_editor in He. match type of He with res_bind ?c _ = _ => destruct c as [mc|]; [|done] end.
    cbn [res_bind] in He. destruct (parsed_groups _) as [g|]; [|done]. by apply Ok_inj in He as <-.
  - cbn [res_bind] in H. apply Ok_inj in H as <-. cbn. split; [done|]. split; [done|]. intros Hn. left. split; [done|].
    apply andb_false_iff in E as [E%negb_false_iff|E%negb_false_iff]; [by right|by left].
Qed.

(** A state that a rendering does not change. *)
Definition settled (s : State) : Prop := render s = Ok s.

Lemma settled_at e d x :
  reads (MkState e d (Some d)) x -> emit e x d = d -> settled (MkState e d (Some d)).
Proof. intros Hr He. unfold settled. rewrite (render_quiet _ x); [|apply quiet_same|done]. cbn [editor draft]. by rewrite He. Qed.

Lemma settled_next s s' : settled s -> render s = Ok s' -> settled s'.
Proof. unfold settled. intros Hs H. rewrite H in Hs. by apply Ok_inj in Hs as ->. Qed.

Lemma renders_settled n s : settled s -> renders n s = Ok s.
Proof. intros H. induction n as [|n IH]; [done|]. cbn [renders]. by rewrite H. Qed.

(** Once the editor is initialised, two renderings settle. *)
Lemma initialised_settles s s1 s2 :
  quiet s -> initRef (editor s) = true -> render s = Ok s1 -> render s1 = Ok s2 -> settled s2.
Proof.
  intros Hq Hi H1 H2. destruct (render_reads _ _ H1) as [x Hx]. rewrite (render_quiet _ x Hq Hx) in H1. apply Ok_inj in H1 as <-.
  destruct (render_reads _ _ H2) as [y Hy].
  assert (y = x) as -> by (destruct Hx as [_ Hx], Hy as [_ Hy]; cbn in Hy; congruence).
  rewrite (render_quiet _ x) in H2; [|split; [cbn; rewrite emit_name; by apply bool_decide_eq_true_2|by left]|done].
  apply Ok_inj in H2 as <-. cbn [editor draft]. rewrite emit_idemp.
  apply (settled_at _ _ x); [exact Hy|apply emit_idemp].
Qed.

(** ** The renderings come to rest *)

Lemma renders_snoc n s s' : renders (S n) s = Ok s' -> exists t, renders n s = Ok t /\ render t = Ok s'.
Proof.
  revert s. induction n as [|n IH]; intros s H.
  - exists s. split; [done|]. cbn in H. destruct (render s); cbn in H; congruence.
  - cbn [renders] in H |- *. destruct (render s) as [s1|]; [|done]. cbn [res_bind] in H |- *. apply IH. exact H.
Qed.

(** After a rendering, the next one is quiet or initialises the editor. *)
Lemma rendered_name s s1 : render s = Ok s1 -> name_seen (seen s1) (draft s1) = true.
Proof.
  intros H. destruct (render_inv _ _ H) as (x & _ & Hd & Hs & _). rewrite Hd, Hs. cbn. rewrite emit_name. by apply bool_decide_eq_true_2.
Qed.

Lemma after_init s1 s2 s3 s4 :
  name_seen (seen s1) (draft s1) = true -> ~ quiet s1 ->
  render s1 = Ok s2 -> render s2 = Ok s3 -> render s3 = Ok s4 -> settled s4.
Proof.
  intros Hn Hq H2 H3 H4. destruct (render_inv _ _ H2) as (x & _ & _ & _ & Hc). destruct (Hc Hn) as [|Hi]; [done|].
  apply (initialised_settles s2 s3 s4); [|done..]. split; [by eapply rendered_name|by left].
Qed.

Lemma five_settle s s' : settle s = Ok s' -> settled s'.
Proof.
  unfold settle. intros H. apply renders_snoc in H as (s4 & H & H5). apply renders_snoc in H as (s3 & H & H4).
  apply renders_snoc in H as (s2 & H & H3). apply renders_snoc in H as (s1 & H & H2). apply renders_snoc in H as (s0 & _ & H1).
  pose proof (settled_next s4 s') as Hrest. pose proof (settled_next s3 s4) as Hrest3. pose proof (settled_next s2 s3) as Hrest2.
  pose proof (rendered_name _ _ H1) as Hn1.
  destruct (decide (quiet s1)) as [Hq1|Hq1]; [|apply Hrest; [|done]; by apply (after_init s1 s2 s3 s4)].
  destruct (initRef (editor s1)) eqn:Hi; [apply Hrest; [apply Hrest3; [by apply (initialised_settles s1 s2 s3)|done]|done]|].
  destruct (render_reads _ _ H2) as [x Hx]. pose proof (render_quiet _ x Hq1 Hx) as E2. rewrite H2 in E2. apply Ok_inj in E2 as ->.
  destruct (decide (quiet (MkState (editor s1) (emit (editor s1) x (draft s1)) (Some (draft s1))))) as [Hq2|Hq2].
  - apply Hrest; [apply Hrest3; [apply Hrest2; [|done]|done]|done]. destruct Hq2 as [Hn2 [Hi2|Ht2]]; cbn [editor seen draft] in *; [congruence|].
    pose proof (seen_all _ _ Hn2 Ht2) as E. injection E as E. rewrite <-E at 1. apply (settled_at _ _ x); [|by rewrite <-E].
    exact Hx.
  - apply (after_init _ s3 s4 s' (rendered_name _ _ H2) Hq2 H3 H4 H5).
Qed.

Lemma renders_plus n m s s' : renders n s = Ok s' -> renders (n + m) s = renders m s'.
Proof.
  revert s. induction n as [|n IH]; intros s H; cbn [renders Nat.add] in *; [by apply Ok_inj in H as ->|].
  destruct (render s) as [s1|]; [|done]. cbn [res_bind] in *. by apply IH.
Qed.

(** C8.  The renderings and effects that an event causes come to rest: when
    five of them do not throw, every further one leaves the state as it is. *)
Theorem renderings_end (s s' : State) (n : nat) : settle s = Ok s' -> renders (5 + n) s = Ok s'.
Proof. intros H. rewrite (renders_plus 5 n s s' H). apply renders_settled. by eapply five_settle. Qed.

Definition flat_draft : Draft := MkDraft (js "m") (jsq "tier(`base`, p * 2 + c * 4)") [].
Definition free_draft : Draft := MkDraft (js "m") (js "p * 0 + c * 0") [].

Lemma renderings_end_witness : exists s, mount (MkDraft (js "m") (js "max(p, c)") []) = Ok s /\ renders 9 s = Ok s.
Proof.
  destruct (mount (MkDraft (js "m") (js "max(p, c)") [])) as [s|e] eqn:E; [|by vm_compute in E].
  exists s. split; [done|]. apply (renderings_end s s 4). vm_compute in E. apply Ok_inj in E as <-. by vm_compute.
Defined.

(** ** What is shown is stored *)

(** The visual editor shows the configuration and the rules that the draft
    holds; the expression editor the text whose expression it holds. *)
Definition shown (s : State) : Prop :=
  match editorMode (editor s) with
  | Visual => generateExprFromVisualConfig (visualConfig (editor s)) = Ok (currentExpr (draft s))
              /\ buildRequestRuleExpr (requestRuleGroups (editor s)) = currentRequestRuleExpr (draft s)
  | Raw => exists rules, splitBillingExprAndRequestRules (rawExpr (editor s)) = Ok (currentExpr (draft s), rules)
  end.

Lemma settled_shown s : settled s -> shown s.
Proof.
  intros H. destruct (render_inv _ _ H) as (x & [_ Hx] & Hd & _ & _). unfold shown, effectiveExpr in *.
  destruct (editorMode (editor s)) eqn:Hm.
  - rewrite emit_visual in Hd by done. split; [by rewrite Hx, Hd|by rewrite Hd].
  - rewrite emit_raw in Hd by done. destruct (splitBillingExprAndRequestRules _) as [[b r]|] eqn:E; [|done].
    cbn in Hx. apply Ok_inj in Hx as ->. exists r. by rewrite Hd.
Qed.

Lemma run_settled s es s' : settled s -> run s es = Ok s' -> settled s'.
Proof.
  revert s. induction es as [|e es IH]; intros s Hs H; cbn [run] in H; [by apply Ok_inj in H as <-|].
  unfold step in H. destruct (settle _) as [s1|] eqn:E; [|done]. cbn [res_bind] in H. apply (IH s1); [by eapply five_settle|done].
Qed.

Lemma mount_settled d s : mount d = Ok s -> settled s.
Proof. unfold mount. destruct (parsed_groups _) as [g|]; [|done]. apply five_settle. Qed.

(** C7.  Along every run of the editor - edits of tiers, conditions and rules,
    typed texts, presets, changes of the mode and drafts that the panel passes -
    the draft holds what is shown: the expression that the tiers generate and
    the rules that the groups print, or the expression of the typed text. *)
Theorem shown_is_stored (d : Draft) (es : list Event) (s0 s : State) :
  mount d = Ok s0 -> run s0 es = Ok s -> shown s.
Proof. intros H0 H. apply settled_shown. eapply run_settled; [|done]. by eapply mount_settled. Qed.

Lemma shown_is_stored_witness :
  exists s0 s, mount flat_draft = Ok s0
    /\ run s0 [EVisual VAddTier; EMode Raw; ERaw (jsq "tier(`a`, p * 1 + c * 1)")] = Ok s /\ shown s.
Proof.
  set (es := [EVisual VAddTier; EMode Raw; ERaw (jsq "tier(`a`, p * 1 + c * 1)")]).
  destruct (mount flat_draft) as [s0|] eqn:E0; [|by vm_compute in E0].
  destruct (run s0 es) as [s|] eqn:E.
  - exists s0, s. split; [done|]. split; [done|]. by apply (shown_is_stored flat_draft es s0 s).
  - vm_compute in E0. apply Ok_inj in E0 as <-. by vm_compute in E.
Defined.

(** ** Opening a draft *)

(** An expression and rules that the editor would print for what it reads. *)
Record canonical (d : Draft) (cfg : VisualConfig) (groups : list RequestRuleGroup) : Prop := {
  cn_config : tryParseVisualConfig (currentExpr d) = Some cfg;
  cn_expr : generateExprFromVisualConfig (Some cfg) = Ok (currentExpr d);
  cn_groups : parsed_groups (currentRequestRuleExpr d) = Ok groups;
  cn_rules : buildRequestRuleExpr groups = currentRequestRuleExpr d }.

Lemma rules_readable d groups : parsed_groups (currentRequestRuleExpr d) = Ok groups -> exists b, canUseVisualRules d = Ok b.
Proof.
  unfold parsed_groups, canUseVisualRules. destruct (tryParseRequestRuleExpr _) as [o|]; [|done]. intros _.
  destruct (str_truthy _); eauto.
Qed.

(** The editor that holds what a canonical draft says. *)
Definition opened (d : Draft) (cfg : VisualConfig) (groups : list RequestRuleGroup) (b : bool) : Editor :=
  MkEditor Visual (Some cfg) (combineBillingExpr (currentExpr d) (currentRequestRuleExpr d)) groups b.

Section canonical.
Context (d : Draft) (cfg : VisualConfig) (groups : list RequestRuleGroup) (C : canonical d cfg groups).

Lemma init_canonical e : init_editor d e = Ok (opened d cfg groups true).
Proof. unfold init_editor. rewrite (cn_config _ _ _ C). cbn [res_bind]. by rewrite (cn_groups _ _ _ C). Qed.

Lemma opened_reads d' b o : (exists b', canUseVisualRules d' = Ok b') -> reads (MkState (opened d cfg groups b) d' o) (currentExpr d).
Proof. intros H. split; [exact H|]. cbn. apply C. Qed.

Lemma opened_emits d' b : emit (opened d cfg groups b) (currentExpr d) d' = MkDraft (modelName d') (currentExpr d) (currentRequestRuleExpr d).
Proof. rewrite emit_visual by done. cbn [opened requestRuleGroups]. by rewrite (cn_rules _ _ _ C). Qed.

Lemma canonical_readable : exists b, canUseVisualRules d = Ok b.
Proof. apply (rules_readable _ groups), C. Qed.

Lemma opened_settled b : settled (MkState (opened d cfg groups b) d (Some d)).
Proof. apply (settled_at _ _ (currentExpr d)); [apply opened_reads, canonical_readable|]. rewrite opened_emits. by destruct d. Qed.
End canonical.

Lemma canonical_mounts d cfg groups :
  canonical d cfg groups -> mount d = Ok (MkState (opened d cfg groups false) d (Some d)).
Proof.
  intros C. unfold mount. rewrite (cn_groups _ _ _ C), (cn_config _ _ _ C). cbn [res_bind].
  pose proof (opened_reads _ _ _ C d false None (canonical_readable _ _ _ C)) as Hr.
  unfold settle. change (renders 5 ?s) with (res_bind (render s) (renders 4)).
  assert (render (MkState (opened d cfg groups false) d None) = Ok (MkState (opened d cfg groups false) d (Some d))) as E.
  { rewrite (render_init _ (currentExpr d) (opened d cfg groups true)); [|done|done|done|by apply init_canonical].
    cbn [seen draft editor name_seen]. rewrite (opened_emits _ _ _ C). by destruct d. }
  unfold opened in E. rewrite E. cbn [res_bind]. apply renders_settled. by apply opened_settled.
Qed.

(** Opening a draft whose expression and rules have the form in which the
    editor writes them shows its tiers and its rules and changes nothing. *)
Theorem canonical_draft_kept (d : Draft) (cfg : VisualConfig) (groups : list RequestRuleGroup) :
  canonical d cfg groups ->
  exists s, mount d = Ok s /\ draft s = d /\ editorMode (editor s) = Visual
    /\ visualConfig (editor s) = Some cfg /\ requestRuleGroups (editor s) = groups.
Proof. intros C. rewrite (canonical_mounts d cfg groups C). by eexists. Qed.

Lemma canonical_draft_kept_witness :
  exists cfg groups s, canonical (MkDraft (js "m") (jsq "tier(`base`, p * 3 + c * 15)") (jsq "(header(`a`) != `` ? 2 : 1)")) cfg groups
    /\ mount (MkDraft (js "m") (jsq "tier(`base`, p * 3 + c * 15)") (jsq "(header(`a`) != `` ? 2 : 1)")) = Ok s
    /\ currentExpr (draft s) = jsq "tier(`base`, p * 3 + c * 15)".
Proof.
  set (d := MkDraft _ _ _).
  destruct (tryParseVisualConfig (currentExpr d)) as [cfg|] eqn:Ec; [|by vm_compute in Ec].
  destruct (parsed_groups (currentRequestRuleExpr d)) as [groups|] eqn:Eg; [|by vm_compute in Eg].
  assert (C : canonical d cfg groups).
  { split; [done| |done|]; [vm_compute in Ec; injection Ec as <-; by vm_compute|].
    vm_compute in Eg. apply Ok_inj in Eg as <-. by vm_compute. }
  destruct (canonical_draft_kept d cfg groups C) as (s & Hs & Hd & _). exists cfg, groups, s. split; [exact C|]. split; [exact Hs|]. rewrite Hd. reflexivity.
Defined.

(** ** Another model *)

Section switch.
Context (a b : Draft) (ca cb : VisualConfig) (ga gb : list RequestRuleGroup).
Context (A : canonical a ca ga) (B : canonical b cb gb) (N : modelName a <> modelName b).
Context (D : texts_seen (Some a) b = false).

(** The draft of [b] with the texts of [a]. *)
Definition taken : Draft := MkDraft (modelName b) (currentExpr a) (currentRequestRuleExpr a).

Lemma taken_canonical : canonical taken ca ga.
Proof. destruct A as [H1 H2 H3 H4]. by split. Qed.

Lemma taken_differs : texts_seen (Some b) taken = false.
Proof.
  clear A. unfold texts_seen, taken in *. cbn in *. apply andb_false_iff in D as [H%bool_decide_eq_false|H%bool_decide_eq_false];
    apply andb_false_iff; [left|right]; apply bool_decide_eq_false_2; congruence.
Qed.

Lemma first_rendering :
  render (MkState (opened a ca ga false) b (Some a)) = Ok (MkState (opened b cb gb false) taken (Some b)).
Proof.
  rewrite (render_init _ (currentExpr a) (opened b cb gb true));
    [|done|done|exact (opened_reads _ _ _ A _ _ _ (canonical_readable _ _ _ B))|exact (init_canonical _ _ _ B _)].
  cbn [seen draft editor name_seen]. rewrite bool_decide_eq_false_2 by done. by rewrite (opened_emits _ _ _ A).
Qed.

Lemma second_rendering :
  render (MkState (opened b cb gb false) taken (Some b)) = Ok (MkState (opened a ca ga true) b (Some taken)).
Proof.
  rewrite (render_init _ (currentExpr b) (opened a ca ga true));
    [|exact taken_differs|done|exact (opened_reads _ _ _ B _ _ _ (canonical_readable _ _ _ taken_canonical))|exact (init_canonical _ _ _ taken_canonical _)].
  cbn [seen draft editor name_seen taken modelName]. rewrite bool_decide_true by done.
  rewrite (opened_emits _ _ _ B). cbn [modelName taken]. by rewrite draft_eta.
Qed.

Lemma third_rendering :
  render (MkState (opened a ca ga true) b (Some taken)) = Ok (MkState (opened a ca ga true) taken (Some b)).
Proof.
  rewrite (render_quiet _ (currentExpr a)).
  - cbn [editor draft]. rewrite (opened_emits _ _ _ A). reflexivity.
  - split; [|by left]. cbn. by apply bool_decide_eq_true_2.
  - exact (opened_reads _ _ _ A _ _ _ (canonical_readable _ _ _ B)).
Qed.

Lemma switched :
  step (MkState (opened a ca ga false) a (Some a)) (EDraft b) = Ok (MkState (opened a ca ga true) taken (Some taken)).
Proof.
  unfold step, settle, handle, on_draft. cbn [editor draft seen]. cbn [renders].
  rewrite first_rendering. cbn [res_bind]. rewrite second_rendering. cbn [res_bind]. rewrite third_rendering. cbn [res_bind].
  assert (render (MkState (opened a ca ga true) taken (Some b)) = Ok (MkState (opened a ca ga true) taken (Some taken))) as ->.
  { rewrite (render_quiet _ (currentExpr a)).
    - cbn [editor draft]. by rewrite (opened_emits _ _ _ A).
    - split; [|by left]. cbn. by apply bool_decide_eq_true_2.
    - exact (opened_reads _ _ _ A _ _ _ (canonical_readable _ _ _ taken_canonical)). }
  cbn [res_bind]. pose proof (opened_settled _ _ _ taken_canonical true) as H. unfold settled, opened, taken in *. cbn in H |- *. by rewrite H.
Qed.
End switch.

Lemma switch_keeps_texts a b ca cb ga gb :
  canonical a ca ga -> canonical b cb gb -> modelName a <> modelName b ->
  exists s, step (MkState (opened a ca ga false) a (Some a)) (EDraft b) = Ok s /\ draft s = taken a b.
Proof.
  intros A B N. destruct (texts_seen (Some a) b) eqn:D; [|by eexists; split; [by apply (switched a b ca cb ga gb)|]].
  assert (E : b = taken a b).
  { destruct a as [na xa ra], b as [nb xb rb]. unfold texts_seen in D. cbn in D. apply andb_true_iff in D as [D1 D2].
    apply bool_decide_eq_true in D1 as ->. by apply bool_decide_eq_true in D2 as ->. }
  assert (Hr : forall o, reads (MkState (opened a ca ga false) b o) (currentExpr a)) by (intros o; exact (opened_reads _ _ _ A _ _ _ (canonical_readable _ _ _ B))).
  assert (H1 : render (MkState (opened a ca ga false) b (Some a)) = Ok (MkState (opened a ca ga false) b (Some b))).
  { unfold render. destruct (Hr (Some a)) as [[v Hv] Hx]. cbn [draft editor seen] in *. rewrite Hv, Hx, D. cbn [res_bind negb andb].
    cbn [name_seen]. rewrite bool_decide_eq_false_2 by done. rewrite (opened_emits _ _ _ A).
    change (MkDraft _ _ _) with (taken a b). by rewrite <-E. }
  exists (MkState (opened a ca ga false) b (Some b)). split; [|exact E].
  unfold step, settle, handle, on_draft. cbn [editor draft seen]. change (renders 5 ?s) with (res_bind (render s) (renders 4)).
  rewrite H1. cbn [res_bind]. apply renders_settled. apply (settled_at _ _ (currentExpr a)); [apply Hr|].
  rewrite (opened_emits _ _ _ A). by symmetry.
Qed.

(** The draft that the panel passes to the editor, and the texts it gets back. *)
Definition panel_draft (p : panel) : Draft := MkDraft (p_name p) (billingExpr p) (requestRuleExpr p).
Definition with_draft (d : Draft) (p : panel) : panel :=
  PricingEditor.run p [EditExpr (currentExpr d); EditRules (currentRequestRuleExpr d)].

Lemma tiered_saved b d :
  d_mode b = js "tiered_expr" -> d_name b <> [] ->
  commitDraft (with_draft d (open_panel (Some b)))
  = Some (MkData (trim (d_name b)) (d_value b) (js "tiered_expr") (currentExpr d) (currentRequestRuleExpr d)).
Proof.
  intros Mb Nb. unfold commitDraft, validatePricingValues, buildSubmitData, with_draft, PricingEditor.run, open_panel.
  cbn [fold_left PricingEditor.handle p_name pricingMode billingExpr requestRuleExpr form].
  rewrite Mb, (bool_decide_true (js "tiered_expr" = js "tiered_expr")) by done.
  destruct (d_name b) as [|c nb]; [done|]. cbn [str_truthy negb orb].
  by rewrite (bool_decide_false (tiered_expr = per_token)), (bool_decide_true (tiered_expr = tiered_expr)) by done.
Qed.

(** When the panel shows a model with tiered prices and another model with
    tiered prices is selected, the editor writes the expression and the rules
    of the first model into the draft of the second, and saving stores them
    under the name of the second. *)
Theorem selected_model_gets_previous_prices (a b : ModelRatioData) ca cb ga gb :
  d_mode a = js "tiered_expr" -> d_mode b = js "tiered_expr" -> d_name b <> [] -> d_name a <> d_name b ->
  canonical (panel_draft (open_panel (Some a))) ca ga -> canonical (panel_draft (open_panel (Some b))) cb gb ->
  exists s0 s data,
    mount (panel_draft (open_panel (Some a))) = Ok s0
    /\ step s0 (EDraft (panel_draft (open_panel (Some b)))) = Ok s
    /\ commitDraft (with_draft (draft s) (open_panel (Some b))) = Some data
    /\ d_name data = trim (d_name b) /\ d_expr data = d_expr a /\ d_rules data = d_rules a.
Proof.
  intros Ma Mb Nb N A B. destruct (switch_keeps_texts _ _ _ _ _ _ A B N) as (s & Hs & Hd).
  eexists _, s, _. split; [by apply canonical_mounts|]. split; [exact Hs|]. split; [by apply tiered_saved|]. by rewrite Hd.
Qed.

Lemma canonical_by_reading n x r cfg groups :
  tryParseVisualConfig x = Some cfg -> generateExprFromVisualConfig (Some cfg) = Ok x ->
  parsed_groups r = Ok groups -> buildRequestRuleExpr groups = r -> canonical (MkDraft n x r) cfg groups.
Proof. by split. Qed.

Definition tiered_model (name expr : jstr) : ModelRatioData := MkData name empty_prices (js "tiered_expr") expr [].
Definition cheap_model : ModelRatioData := tiered_model (js "a") (jsq "tier(`base`, p * 2 + c * 4)").
Definition dear_model : ModelRatioData := tiered_model (js "b") (jsq "tier(`base`, p * 9 + c * 9)").

Lemma tiered_model_canonical n x cfg :
  tryParseVisualConfig x = Some cfg -> generateExprFromVisualConfig (Some cfg) = Ok x ->
  canonical (panel_draft (open_panel (Some (tiered_model n x)))) cfg [].
Proof. intros H1 H2. by apply canonical_by_reading. Qed.

(** The configuration that is read of a text. *)
Definition read_config (x : jstr) : VisualConfig := default [] (tryParseVisualConfig x).

Lemma selected_model_gets_previous_prices_witness :
  exists s0 s data, mount (panel_draft (open_panel (Some cheap_model))) = Ok s0
    /\ step s0 (EDraft (panel_draft (open_panel (Some dear_model)))) = Ok s
    /\ commitDraft (with_draft (draft s) (open_panel (Some dear_model))) = Some data
    /\ d_name data = js "b" /\ d_expr data = jsq "tier(`base`, p * 2 + c * 4)" /\ d_rules data = [].
Proof.
  destruct (selected_model_gets_previous_prices cheap_model dear_model
              (read_config (d_expr cheap_model)) (read_config (d_expr dear_model)) [] [])
    as (s0 & s & data & H1 & H2 & H3 & H4 & H5 & H6);
    [reflexivity|reflexivity|discriminate|discriminate|apply tiered_model_canonical; vm_compute; reflexivity..|].
  exists s0, s, data. split; [exact H1|]. split; [exact H2|]. split; [exact H3|].
  split; [rewrite H4; vm_compute; reflexivity|]. split; [rewrite H5; vm_compute; reflexivity|rewrite H6; reflexivity].
Defined.

(** ** What opening erases *)

Definition FREE : jstr := js "p * 0 + c * 0".

Lemma free_raw : splitBillingExprAndRequestRules (combineBillingExpr FREE []) = Ok (FREE, []).
Proof. by vm_compute. Qed.
Lemma free_unreadable : tryParseVisualConfig FREE = None.
Proof. by vm_compute. Qed.
Lemma generate_none : generateExprFromVisualConfig None = Ok FREE.
Proof. done. Qed.
Lemma no_rules_readable n x : canUseVisualRules (MkDraft n x []) = Ok true.
Proof. done. Qed.
Lemma parsed_no_rules : parsed_groups [] = Ok [].
Proof. by vm_compute. Qed.

(** The editor of a text that the visual editor cannot read. *)
Definition raw_editor (raw : jstr) (b : bool) : Editor := MkEditor Raw None raw [] b.

Lemma init_unreadable n x e :
  tryParseVisualConfig x = None -> str_truthy x = true ->
  init_editor (MkDraft n x []) e = Ok (raw_editor (combineBillingExpr x []) true).
Proof. intros Hx Ht. unfold init_editor. cbn [currentExpr currentRequestRuleExpr]. by rewrite Hx, Ht, parsed_no_rules. Qed.

Lemma free_settled n b : settled (MkState (raw_editor (combineBillingExpr FREE []) b) (MkDraft n FREE []) (Some (MkDraft n FREE []))).
Proof.
  apply (settled_at _ _ FREE).
  - split; [by eexists; apply no_rules_readable|]. cbn [editor effectiveExpr raw_editor editorMode rawExpr]. by rewrite free_raw.
  - by rewrite emit_raw.
Qed.

Lemma emits_no_rules e x d :
  requestRuleGroups e = [] -> currentRequestRuleExpr d = [] -> emit e x d = MkDraft (modelName d) x [].
Proof.
  intros Hg Hr. destruct (editorMode e) eqn:Hm; [rewrite emit_visual by done; by rewrite Hg|rewrite emit_raw by done; by rewrite Hr].
Qed.

Lemma free_quiet n y x r :
  render (MkState (raw_editor (combineBillingExpr FREE []) true) (MkDraft n y []) (Some (MkDraft n x r)))
  = Ok (MkState (raw_editor (combineBillingExpr FREE []) true) (MkDraft n FREE []) (Some (MkDraft n y []))).
Proof.
  rewrite (render_quiet _ FREE).
  - cbn [editor draft]. by rewrite emits_no_rules.
  - split; [|by left]. cbn [seen draft name_seen modelName]. by apply bool_decide_true.
  - split; [by exists true; apply no_rules_readable|]. cbn [editor effectiveExpr raw_editor editorMode rawExpr]. by rewrite free_raw.
Qed.

Lemma free_after n x e y :
  x <> FREE -> initRef e = false -> requestRuleGroups e = [] -> effectiveExpr e = Ok y ->
  exists s, renders 4 (MkState e (MkDraft n FREE []) (Some (MkDraft n x []))) = Ok s
    /\ draft s = MkDraft n FREE [] /\ editorMode (editor s) = Raw.
Proof.
  intros Hx Hi Hg Hy. set (d := MkDraft n FREE []).
  assert (H1 : render (MkState e d (Some (MkDraft n x []))) = Ok (MkState (raw_editor (combineBillingExpr FREE []) true) (MkDraft n y []) (Some d))).
  { rewrite (render_init _ y (raw_editor (combineBillingExpr FREE []) true)).
    - cbn [seen draft editor name_seen modelName d]. rewrite bool_decide_true by done. by rewrite emits_no_rules.
    - cbn [seen draft texts_seen currentExpr d]. by rewrite bool_decide_eq_false_2.
    - done.
    - split; [by exists true; apply no_rules_readable|exact Hy].
    - by apply init_unreadable; [apply free_unreadable|]. }
  eexists. split; [|split].
  - cbn [renders]. rewrite H1. unfold d. cbn [res_bind]. rewrite free_quiet by done. cbn [res_bind]. rewrite free_quiet by done. cbn [res_bind].
    rewrite free_quiet by done. reflexivity.
  - done.
  - done.
Qed.

(** Opening a draft whose expression the visual editor cannot read replaces
    the expression: without any action of the administrator the draft holds
    the expression that makes every request free, and no rules. *)
Theorem opening_erases (n x : jstr) :
  tryParseVisualConfig x = None -> (exists parts, splitBillingExprAndRequestRules (combineBillingExpr x []) = Ok parts) ->
  exists s, mount (MkDraft n x []) = Ok s /\ draft s = MkDraft n FREE [] /\ editorMode (editor s) = Raw.
Proof.
  intros Hx [[y r] Hy]. unfold mount. cbn [currentExpr currentRequestRuleExpr]. rewrite parsed_no_rules, Hx. cbn [res_bind].
  set (e0 := MkEditor Visual None (combineBillingExpr x []) [] false).
  assert (He : exists e z, init_editor (MkDraft n x []) e0 = Ok e /\ requestRuleGroups e = []
                 /\ effectiveExpr (set_initRef false e) = Ok z /\ (x <> [] -> e = raw_editor (combineBillingExpr x []) true)).
  { destruct x as [|c x].
    - destruct createDefaultVisualConfig as [cfg|] eqn:Ec; [|by vm_compute in Ec].
      destruct (generateExprFromVisualConfig (Some cfg)) as [z|] eqn:Ez; [|vm_compute in Ec; apply Ok_inj in Ec as <-; by vm_compute in Ez].
      eexists _, z. split; [unfold init_editor; cbn [currentExpr currentRequestRuleExpr]; by rewrite Hx, parsed_no_rules, Ec|].
      split; [done|]. split; [exact Ez|done].
    - eexists _, y. split; [by apply init_unreadable|]. split; [done|]. split; [|done].
      cbn [set_initRef raw_editor effectiveExpr editorMode rawExpr]. by rewrite Hy. }
  destruct He as (e & z & He & Hg & Hz & Hr).
  assert (H1 : render (MkState e0 (MkDraft n x []) None) = Ok (MkState (set_initRef false e) (MkDraft n FREE []) (Some (MkDraft n x [])))).
  { rewrite (render_init _ FREE e); [|done|done| |done].
    - cbn [seen draft editor name_seen]. by rewrite emits_no_rules.
    - split; [by exists true; apply no_rules_readable|done]. }
  unfold settle. change (renders 5 ?s) with (res_bind (render s) (renders 4)). rewrite H1. cbn [res_bind].
  destruct (decide (x = FREE)) as [->|Hne]; [|by apply (free_after n x _ z)].
  rewrite Hr by discriminate. rewrite (renders_settled _ _ (free_settled n false)). eexists. split; [reflexivity|]. split; reflexivity.
Qed.

Lemma opening_erases_witness :
  exists s, mount (MkDraft (js "m") (js "max(p, c) * 2") []) = Ok s /\ draft s = MkDraft (js "m") FREE [] /\ editorMode (editor s) = Raw.
Proof. apply opening_erases; [vm_compute; reflexivity|eexists; vm_compute; reflexivity]. Defined.
