(* ===== verification/TieredEditorEdits.v ===== *)
(** * The editor of tiered prices: its edits

    Once the editor is initialised any sequence of edits is what the pure
    functions on tiers and rules say, the lock of unreadable rules included; opening rules that the editor cannot read
    erases them; and runs in which an edit is lost. *)
From S2P Require Import Prelude JsString JsNumber JsValue JsValueFacts BillingExpr TierExpr TieredEditor TieredEditorFacts.
Open Scope N_scope.

(** ** The tiers and the rules alone *)

Record View := MkView { v_config : VisualConfig; v_groups : list RequestRuleGroup }.

Definition v_rules (v : View) : jstr := buildRequestRuleExpr (v_groups v).

(** The rules that are shown can be edited while their own text can be read. *)
Definition readable (v : View) : bool := catch (canUseVisualRules (MkDraft [] [] (v_rules v))) false.

(** An edit that throws leaves the tiers as they are; the rules are locked
    when their text cannot be read. *)
Definition edit_view (v : View) (e : Event) : View :=
  let rules (g : list RequestRuleGroup) := if readable v then MkView (v_config v) g else v in
  match e with
  | EVisual e =>
      MkView (catch (let* config := normalizeVisualConfig (Some (v_config v)) in edit_config e config) (v_config v)) (v_groups v)
  | EGroup i e => rules (alter (edit_group e) i (v_groups v))
  | EGroupAdd => rules (v_groups v ++ [createEmptyRuleGroup])
  | EGroupRemove i => rules (remove_nth i (v_groups v))
  | _ => v
  end.

Definition is_edit (e : Event) : bool :=
  match e with EVisual _ | EGroup _ _ | EGroupAdd | EGroupRemove _ => true | _ => false end.

(** The two texts of a view; printing the tiers or reading the rules can
    throw, which is an exception of the rendering. *)
Definition texts (v : View) : res (jstr * jstr) :=
  let* x := generateExprFromVisualConfig (Some (v_config v)) in
  let* _ := canUseVisualRules (MkDraft [] [] (v_rules v)) in
  Ok (x, v_rules v).

Fixpoint edited (v : View) (es : list Event) : res View :=
  match es with
  | [] => Ok v
  | e :: es => let* _ := texts (edit_view v e) in edited (edit_view v e) es
  end.

(** ** The machine on edits *)

(** An initialised editor that shows a view, at rest. *)
Definition at_view (s : State) (v : View) : Prop :=
  editorMode (editor s) = Visual /\ initRef (editor s) = true /\ visualConfig (editor s) = Some (v_config v)
  /\ requestRuleGroups (editor s) = v_groups v /\ seen s = Some (draft s)
  /\ texts v = Ok (currentExpr (draft s), currentRequestRuleExpr (draft s)).

(** Only the text of the rules matters. *)
Lemma can_use_rules d : canUseVisualRules d = canUseVisualRules (MkDraft [] [] (currentRequestRuleExpr d)).
Proof. done. Qed.

Lemma texts_ok v x r : texts v = Ok (x, r) ->
  generateExprFromVisualConfig (Some (v_config v)) = Ok x /\ r = v_rules v
  /\ exists b, canUseVisualRules (MkDraft [] [] (v_rules v)) = Ok b.
Proof.
  unfold texts. destruct (generateExprFromVisualConfig _) as [y|]; [|done]. cbn [res_bind].
  destruct (canUseVisualRules _) as [b|]; [|done]. intros [= <- <-]. eauto.
Qed.

Lemma view_editable s v : at_view s v -> rules_editable s = readable v.
Proof.
  intros (Hm & _ & _ & _ & _ & Ht). apply texts_ok in Ht as (_ & Hr & _).
  unfold rules_editable, is_visual. rewrite Hm, can_use_rules, Hr. done.
Qed.

(** The renderings after an edit: the texts of the view, or its exception. *)
Lemma edit_settles e d v :
  editorMode e = Visual -> initRef e = true -> visualConfig e = Some (v_config v) -> requestRuleGroups e = v_groups v ->
  (exists b, canUseVisualRules d = Ok b) ->
  settle (MkState e d (Some d))
  = (let* t := texts v in let d' := MkDraft (modelName d) t.1 t.2 in Ok (MkState e d' (Some d'))).
Proof.
  intros Hm Hi Hc Hg Hu. unfold texts.
  destruct (generateExprFromVisualConfig (Some (v_config v))) as [x|x] eqn:Ex; cbn [res_bind].
  2:{ destruct Hu as [b Hu]. unfold settle. cbn [renders]. unfold render at 1. cbn [draft editor]. rewrite Hu. cbn [res_bind].
      unfold effectiveExpr. rewrite Hm, Hc, Ex. done. }
  assert (Heff : effectiveExpr e = Ok x) by (unfold effectiveExpr; rewrite Hm, Hc; exact Ex).
  set (d' := MkDraft (modelName d) x (v_rules v)).
  assert (He : forall d0, modelName d0 = modelName d -> emit e x d0 = d')
    by (intros d0 H0; rewrite emit_visual by done; by rewrite Hg, H0).
  unfold settle. cbn [renders].
  rewrite (render_quiet _ x) by (done || apply quiet_same). cbn [res_bind editor draft]. rewrite He by done.
  change (canUseVisualRules (MkDraft [] [] (v_rules v))) with (canUseVisualRules d').
  destruct (canUseVisualRules d') as [b|err] eqn:Eu; cbn [res_bind].
  2:{ unfold render at 1. cbn [draft]. by rewrite Eu. }
  rewrite (render_quiet _ x); [|split; [cbn; by apply bool_decide_true|by left]|split; [eexists; exact Eu|exact Heff]].
  cbn [res_bind editor draft]. rewrite He by done.
  assert (Hs : settled (MkState e d' (Some d'))) by (apply (settled_at _ _ x); [split; [eexists; exact Eu|exact Heff]|by apply He]).
  unfold settled in Hs. rewrite Hs. cbn [res_bind]. rewrite Hs. cbn [res_bind]. by rewrite Hs.
Qed.

Lemma handled_edit s v e :
  at_view s v -> is_edit e = true ->
  exists e', handle s e = MkState e' (draft s) (Some (draft s))
    /\ editorMode e' = Visual /\ initRef e' = true
    /\ visualConfig e' = Some (v_config (edit_view v e)) /\ requestRuleGroups e' = v_groups (edit_view v e).
Proof.
  intros Hs He. pose proof (view_editable _ _ Hs) as Hr. destruct Hs as (Hm & Hi & Hc & Hg & Hs & _).
  destruct s as [ed dr se]. cbn [editor draft seen] in *. subst se.
  assert (Hv : is_visual (MkState ed dr (Some dr)) = true) by (unfold is_visual; cbn [editor]; by rewrite Hm).
  destruct e as [e| | | |i e| |i|]; [|done..| | | |done]; cbn [handle edit_view]; rewrite ?Hv, ?Hr; unfold on_editor; cbn [editor draft seen].
  - unfold handleVisual. cbn [editor]. rewrite Hc.
    destruct (let* config := _ in _) as [next|x]; cbn [catch on_editor v_config v_groups]; eauto 6.
  - destruct (readable v); (eexists; split; [done|]); cbn [editorMode initRef visualConfig requestRuleGroups set_groups v_config v_groups]; by rewrite ?Hg.
  - destruct (readable v); (eexists; split; [done|]); cbn [editorMode initRef visualConfig requestRuleGroups set_groups v_config v_groups]; by rewrite ?Hg.
  - destruct (readable v); (eexists; split; [done|]); cbn [editorMode initRef visualConfig requestRuleGroups set_groups v_config v_groups]; by rewrite ?Hg.
Qed.

(** C6.  Once the editor is initialised for its draft, any sequence of edits of
    tiers, conditions and rules has exactly the effect of the pure functions on
    them: the editor shows the tiers and rules that they give, the draft holds
    their texts, no rendering re-reads or rewrites them, and a rendering throws
    exactly when printing or reading these texts does.  The pure functions
    lock the rules: while the text of the rules that are shown cannot be read
    (as with a rule that compares a parameter or searches in it), edits of
    rules have no effect, here as in the editor. *)
Theorem edits_refined (s : State) (v : View) (es : list Event) :
  at_view s v -> forallb is_edit es = true ->
  match edited v es with
  | Ok v' => exists s', run s es = Ok s' /\ at_view s' v'
  | Throw x => run s es = Throw x
  end.
Proof.
  revert s v. induction es as [|e es IH]; intros s v Hs; cbn [forallb edited run]; [by exists s|].
  intros [He Hes]%andb_true_iff. destruct (handled_edit s v e Hs He) as (e' & Hh & Hm & Hi & Hc & Hg).
  unfold step. rewrite Hh, (edit_settles e' (draft s) (edit_view v e)) by
    (done || (destruct Hs as (_ & _ & _ & _ & _ & Ht); apply texts_ok in Ht as (_ & Hr & Hb); by rewrite can_use_rules, Hr)).
  destruct (texts (edit_view v e)) as [[x r]|] eqn:Et; cbn [res_bind fst snd]; [|done]. by apply IH.
Qed.

Definition set_input (x : Z) : Event := EVisual (VTier 0 (TPrice (js "input_unit_cost") (num_of_Z x))).

(** The editor of one tier after a first change of its price. *)
Definition started : State := Eval vm_compute in
  match (let* s := mount flat_draft in run s [set_input 3]) with
  | Ok s => s
  | Throw _ => MkState (MkEditor Raw None [] [] false) flat_draft None
  end.
Definition started_view : View := MkView (default [] (visualConfig (editor started))) (requestRuleGroups (editor started)).
Definition dearer : View := edit_view started_view (set_input 7).

Lemma started_at : at_view started started_view.
Proof. do 5 (split; [vm_compute; reflexivity|]). vm_compute; reflexivity. Qed.

Lemma started_run : exists s0, mount flat_draft = Ok s0 /\ run s0 [set_input 3] = Ok started.
Proof. eexists. split; [vm_compute; reflexivity|]. vm_compute; reflexivity. Qed.

(** A rule that compares a parameter, typed field by field. *)
Definition comparison_typed : list Event :=
  [EGroupAdd; EGroup 0 (GCondition 0 (RPath (js "n"))); EGroup 0 (GCondition 0 (RMode MATCH_GT));
   EGroup 0 (GCondition 0 (RValue (js "3"))); EGroup 0 (GMultiplier (num_of_Z 2))].

(** A change of a price; and a rule that cannot be read, after which the rules
    are locked: no group is added. *)
Lemma edits_refined_witness :
  at_view started started_view
  /\ (exists s, run started [set_input 7] = Ok s /\ at_view s dearer)
  /\ exists s v, run started (comparison_typed ++ [EGroupAdd]) = Ok s /\ at_view s v /\ length (v_groups v) = 1%nat /\ readable v = false.
Proof.
  split; [exact started_at|]. split.
  - exact (edits_refined started started_view [set_input 7] started_at eq_refl).
  - pose proof (edits_refined started started_view (comparison_typed ++ [EGroupAdd]) started_at eq_refl) as H.
    destruct (edited started_view (comparison_typed ++ [EGroupAdd])) as [v|x] eqn:E; [|exfalso; vm_compute in E; discriminate E].
    destruct H as (s & Hr & Hs). exists s, v. split; [exact Hr|]. split; [exact Hs|]. vm_compute in E. injection E as <-.
    split; vm_compute; reflexivity.
Defined.

(** ** Rules that the editor cannot read *)

(** Opening a draft whose rules the editor cannot read erases them, while
    it says that they can be edited as text. *)
Theorem unreadable_rules_erased (n x r : jstr) (cfg : VisualConfig) :
  canonical (MkDraft n x []) cfg [] -> r <> [] -> tryParseRequestRuleExpr r = Ok None ->
  canUseVisualRules (MkDraft n x r) = Ok false
  /\ exists s, mount (MkDraft n x r) = Ok s /\ draft s = MkDraft n x [] /\ is_visual s = true.
Proof.
  intros C Hr Hp. pose proof (cn_config _ _ _ C) as Hc. cbn [currentExpr] in Hc.
  assert (Hu : canUseVisualRules (MkDraft n x r) = Ok false).
  { unfold canUseVisualRules. cbn [currentRequestRuleExpr]. rewrite Hp. by destruct r. }
  assert (Hg : parsed_groups r = Ok []) by (unfold parsed_groups; by rewrite Hp).
  split; [done|]. set (d := MkDraft n x []). set (d0 := MkDraft n x r). set (e := fun b => MkEditor Visual (Some cfg) (combineBillingExpr x r) [] b).
  assert (Hx : forall b, effectiveExpr (e b) = Ok x) by (intros b; exact (cn_expr _ _ _ C)).
  assert (H1 : render (MkState (e false) d0 None) = Ok (MkState (e false) d (Some d0))).
  { rewrite (render_init _ x (e true)); [|done|done|split; [eexists; exact Hu|apply Hx]|].
    - cbn [seen draft editor name_seen]. by rewrite emit_visual.
    - unfold init_editor. cbn [draft currentExpr currentRequestRuleExpr d0]. by rewrite Hc, Hg. }
  assert (H2 : render (MkState (e false) d (Some d0)) = Ok (MkState (opened d cfg [] true) d (Some d))).
  { rewrite (render_init _ x (opened d cfg [] true)); [| |done|split; [eexists; reflexivity|apply Hx]|exact (init_canonical _ _ _ C _)].
    - cbn [seen draft editor name_seen d0 d modelName]. rewrite bool_decide_true by done. by rewrite emit_visual.
    - cbn [seen draft texts_seen d0 d currentRequestRuleExpr currentExpr]. apply andb_false_iff. right. by apply bool_decide_eq_false_2. }
  exists (MkState (opened d cfg [] true) d (Some d)). split; [|done].
  unfold mount. cbn [currentExpr currentRequestRuleExpr]. unfold d0 at 1 2. cbn [currentExpr currentRequestRuleExpr].
  rewrite Hg, Hc. cbn [res_bind]. unfold settle. change (MkEditor Visual _ _ _ _) with (e false).
  cbn [renders]. rewrite H1. cbn [res_bind]. rewrite H2. cbn [res_bind].
  pose proof (opened_settled _ _ _ C true) as Hs. unfold settled in Hs. fold d in Hs. do 3 (rewrite Hs; cbn [res_bind]). done.
Qed.

Lemma unreadable_rules_erased_witness :
  exists s, mount (MkDraft (js "m") (jsq "tier(`base`, p * 2 + c * 4)") (jsq "(param(`n`) > 3 ? 2 : 1)")) = Ok s
    /\ draft s = MkDraft (js "m") (jsq "tier(`base`, p * 2 + c * 4)") [] /\ is_visual s = true.
Proof.
  destruct (unreadable_rules_erased (js "m") (jsq "tier(`base`, p * 2 + c * 4)") (jsq "(param(`n`) > 3 ? 2 : 1)")
              (read_config (jsq "tier(`base`, p * 2 + c * 4)"))) as [_ H]; [|discriminate|vm_compute; reflexivity|exact H].
  apply canonical_by_reading; vm_compute; reflexivity.
Defined.

(** ** Edits that are lost *)

Definition comparison_text : jstr := jsq "(param(`n`) != nil && param(`n`) > 3 ? 2 : 1)".

(** As the first edit of a session the rule disappears when it is complete:
    the text that appears initialises the editor again, and does not parse. *)
Lemma first_comparison_lost :
  exists s0 s, mount flat_draft = Ok s0 /\ run s0 comparison_typed = Ok s
    /\ requestRuleGroups (editor s) = [] /\ currentRequestRuleExpr (draft s) = [].
Proof. eexists _, _. split; [vm_compute; reflexivity|]. split; [vm_compute; reflexivity|]. by split. Qed.

(** A rule group that is not complete disappears at the first change of a price. *)
Lemma first_price_drops_group :
  exists s0 s, mount flat_draft = Ok s0 /\ run s0 [EGroupAdd; set_input 3] = Ok s /\ requestRuleGroups (editor s) = [].
Proof. eexists _, _. split; [vm_compute; reflexivity|]. split; [vm_compute; reflexivity|]. done. Qed.

(** Passing to the expression editor with such a rule makes the whole text the
    expression and keeps the rule beside it, so that it counts twice; passing
    back loses every price. *)
Lemma mode_change_doubles_rule :
  exists s, run started (comparison_typed ++ [EMode Raw]) = Ok s
    /\ combineBillingExpr (currentExpr (draft s)) (currentRequestRuleExpr (draft s))
       = js "(" ++ jsq "(tier(`base`, p * 3 + c * 4)) * " ++ comparison_text ++ js ") * " ++ comparison_text.
Proof. eexists. split; [vm_compute; reflexivity|]. vm_compute; reflexivity. Qed.

Lemma mode_change_loses_prices :
  exists s, run started (comparison_typed ++ [EMode Raw; EMode Visual]) = Ok s
    /\ currentExpr (draft s) = jsq "tier(`base`, p * 0 + c * 0)" /\ currentRequestRuleExpr (draft s) = [].
Proof. eexists. split; [vm_compute; reflexivity|]. split; vm_compute; reflexivity. Qed.

(** Removing the condition of a tier that is not the last leaves a text that
    is no expression: two calls joined by a colon. *)
Lemma bare_tier_no_expression :
  exists s, run started [EVisual VAddTier; EVisual (VTier 0 (TConditionRemove 0))] = Ok s
    /\ currentExpr (draft s) = jsq "tier(`base`, p * 3 + c * 4) : tier(`tier_2`, p * 0 + c * 0)".
Proof. eexists. split; [vm_compute; reflexivity|]. vm_compute; reflexivity. Qed.

(** The version of an expression is dropped when the draft is opened. *)
Lemma version_dropped :
  exists s, mount (MkDraft (js "m") (jsq "v2:tier(`base`, p * 2 + c * 4)") []) = Ok s
    /\ currentExpr (draft s) = jsq "tier(`base`, p * 2 + c * 4)".
Proof. eexists. split; [vm_compute; reflexivity|]. vm_compute; reflexivity. Qed.

(** Leaving the empty field of a multiplier reports 0: the completed rule makes
    its requests free. *)
Lemma blurred_field_reports_zero : draft_input (MkDraftInput [] true) IBlur = (MkDraftInput (js "0") false, Some nzero).
Proof. vm_compute. reflexivity. Qed.

Lemma blurred_multiplier_free :
  exists s, run started [EGroupAdd; EGroup 0 (GCondition 0 (RPath (js "n"))); EGroup 0 (GCondition 0 (RValue (js "x")));
                         EGroup 0 (GMultiplier nzero)] = Ok s
    /\ currentRequestRuleExpr (draft s) = jsq "(param(`n`) == `x` ? 0 : 1)".
Proof. eexists. split; [vm_compute; reflexivity|]. vm_compute; reflexivity. Qed.
