(* ===== verification/GroupSettings.v ===== *)
(** * The editors of the group settings: their operations
      (features/system-settings/models: group-ratio-visual-editor.tsx,
      group-special-usable-editor.tsx, utils.ts; utils/json-parser.ts)

    Five settings are JSON texts in a form.  The table of groups keeps rows of
    its own and writes two of them; the other lists read their text at every
    event and write it back. *)
From S2P Require Import Prelude JsString JsNumber JsValue JsValueFacts JsJson.
Open Scope N_scope.

(** ** JSON texts *)

(** [fallback] is neither [null] nor [undefined]. *)
Definition safeJsonParse (value : jstr) (fallback : jsval) : jsval :=
  match trim value with
  | [] => fallback
  | t => catch (json_parse t) fallback
  end.

Definition formatJsonForTextarea (value : jstr) : jstr :=
  match trim value with
  | [] => []
  | _ => catch (res_map stringify2 (json_parse value)) value
  end.

Definition normalizeJsonString (value : jstr) : jstr :=
  match trim value with
  | [] => []
  | t => catch (res_map stringify (json_parse t)) t
  end.

(** Whether the value is valid; an empty one is. *)
Definition validateJsonString (predicate : jsval -> bool) (value : jstr) : bool :=
  match trim value with
  | [] => true
  | t => catch (res_map predicate (json_parse t)) false
  end.

(** ** Values of any type used as maps *)

(** [Object.keys(v)] *)
Definition keys_of (v : jsval) : res (list jstr) :=
  match v with VUndef | VNull => Throw TypeError | _ => Ok (okeys (entries v)) end.

(** [Object.prototype.hasOwnProperty.call(v, k)] *)
Definition has_own (k : jstr) (v : jsval) : bool :=
  bool_decide (k ∈ okeys (entries v))
  || match v with VArr _ | VStr _ => bool_decide (k = js "length") | _ => false end.

(** The elements of an array after [a.length = n]; holes print as [null]. *)
Definition resize (n : nat) (l : list jsval) : list jsval := take n l ++ replicate (n - length l) VUndef.

(** [m[k] = x] in a module, which is strict code.  A property of an array that
    is no element, or of a function, is in no text. *)
Definition vset (k : jstr) (x m : jsval) : res jsval :=
  match m with
  | VObj o => Ok (VObj (assign_own k x o))
  | VArr l =>
      if bool_decide (k = js "length") then
        let* n := to_num x in
        let z := num_to_Z n in
        if neqb (num_of_Z z) n && ((0 <=? z) && (z <? 4294967296))%Z then Ok (VArr (resize (Z.to_nat z) l)) else Throw RangeError
      else match array_index k with
           | Some i => Ok (VArr (<[N.to_nat i := x]> (resize (Nat.max (length l) (S (N.to_nat i))) l)))
           | None => Ok m
           end
  | VFun _ => Ok m
  | _ => Throw TypeError
  end.

(** [delete m[k]] *)
Definition vdelete (k : jstr) (m : jsval) : res jsval :=
  match m with
  | VUndef | VNull => Throw TypeError
  | VObj o => Ok (VObj (odelete k o))
  | VArr l =>
      if bool_decide (k = js "length") then Throw TypeError
      else match array_index k with
           | Some i => Ok (VArr (<[N.to_nat i := VUndef]> l))
           | None => Ok m
           end
  | VStr _ => if has_own k m then Throw TypeError else Ok m
  | _ => Ok m
  end.

(** ** The table of groups *)

Record GroupPricingRow := MkRow {
  r_id : jstr; r_name : jstr; r_ratio : num; r_selectable : bool; r_description : jstr }.

(** The counter is the number of identifiers made so far. *)
Definition createGroupPricingId (counter : N) : jstr * N := (js "gpr_" ++ show_N (counter + 1), counter + 1).

Definition finite_or_one (x : num) : num := if is_finite x then x else num_of_Z 1.
Definition normalizeRatio (value : jsval) : res num := res_map finite_or_one (to_num value).

Definition pricing_row (ratioMap usableMap : jsval) (id name : jstr) : res GroupPricingRow :=
  let* ratio := vget name ratioMap in
  let* ratio := normalizeRatio ratio in
  let* usable := vget name usableMap in
  let* description := to_str (vcoalesce usable (VStr [])) in
  Ok (MkRow id name ratio (has_own name usableMap) description).

Fixpoint pricing_rows (ratioMap usableMap : jsval) (counter : N) (names : list jstr) : res (list GroupPricingRow * N) :=
  match names with
  | [] => Ok ([], counter)
  | name :: names =>
      let (id, counter) := createGroupPricingId counter in
      let* row := pricing_row ratioMap usableMap id name in
      let* rc := pricing_rows ratioMap usableMap counter names in
      Ok (row :: rc.1, rc.2)
  end.

Definition buildGroupPricingRows (groupRatio userUsableGroups : jstr) (counter : N) : res (list GroupPricingRow * N) :=
  let ratioMap := safeJsonParse groupRatio (VObj []) in
  let usableMap := safeJsonParse userUsableGroups (VObj []) in
  let* a := keys_of ratioMap in
  let* b := keys_of usableMap in
  pricing_rows ratioMap usableMap counter (dedup (a ++ b)).

(** One iteration of the loop: the two maps. *)
Definition add_row (maps : jsobj * jsobj) (row : GroupPricingRow) : jsobj * jsobj :=
  match trim (r_name row) with
  | [] => maps
  | name => (assign_own name (VNum (finite_or_one (r_ratio row))) maps.1,
             if r_selectable row then assign_own name (VStr (r_description row)) maps.2 else maps.2)
  end.

Definition serialized_maps (rows : list GroupPricingRow) : jsobj * jsobj := fold_left add_row rows ([], []).

Definition serializeGroupPricingRows (rows : list GroupPricingRow) : jstr * jstr :=
  let maps := serialized_maps rows in (stringify2 (VObj maps.1), stringify2 (VObj maps.2)).

Definition sourceGroupPricingSignature (groupRatio userUsableGroups : jstr) : jstr :=
  stringify (VObj [(js "groupRatio", safeJsonParse groupRatio (VObj []));
                   (js "userUsableGroups", safeJsonParse userUsableGroups (VObj []))]).

Definition groupPricingSignature (rows : list GroupPricingRow) : jstr :=
  let serialized := serializeGroupPricingRows rows in sourceGroupPricingSignature serialized.1 serialized.2.

Inductive RowEdit := RName (v : jstr) | RRatio (typed : jstr) | RSelectable (v : bool) | RDescription (v : jstr).

Definition edit_row (e : RowEdit) (r : GroupPricingRow) : GroupPricingRow :=
  match e with
  | RName v => MkRow (r_id r) v (r_ratio r) (r_selectable r) (r_description r)
  | RRatio typed => MkRow (r_id r) (r_name r) (finite_or_one (num_of_str typed)) (r_selectable r) (r_description r)
  | RSelectable v => MkRow (r_id r) (r_name r) (r_ratio r) v (r_description r)
  | RDescription v => MkRow (r_id r) (r_name r) (r_ratio r) (r_selectable r) v
  end.

Definition updateRow (id : jstr) (e : RowEdit) (rows : list GroupPricingRow) : list GroupPricingRow :=
  map (fun row => if bool_decide (r_id row = id) then edit_row e row else row) rows.

Definition removeRow (id : jstr) (rows : list GroupPricingRow) : list GroupPricingRow :=
  List.filter (fun row => negb (bool_decide (r_id row = id))) rows.

Definition group_name (index : N) : jstr := js "group_" ++ show_N index.

(** The loop of [addRow]; a fuel of one more than the number of rows is enough
    ([addRow_fresh] in GroupTableFacts). *)
Fixpoint fresh_name (fuel : nat) (index : N) (existingNames : list jstr) : jstr :=
  match fuel with
  | O => group_name index
  | S fuel => if bool_decide (group_name index ∈ existingNames) then fresh_name fuel (index + 1) existingNames
              else group_name index
  end.

Definition addRow (rows : list GroupPricingRow) (counter : N) : list GroupPricingRow * N :=
  let name := fresh_name (S (length rows)) 1 (map r_name rows) in
  let (id, counter) := createGroupPricingId counter in
  (rows ++ [MkRow id name (num_of_Z 1) true []], counter).

Definition duplicateNames (rows : list GroupPricingRow) : list jstr :=
  let names := List.filter str_truthy (map (fun row => trim (r_name row)) rows) in
  List.filter (fun name => (1 <? length (List.filter (fun n => bool_decide (n = name)) names))%nat) (dedup names).

(** ** The other lists *)

Definition topupRatioList (topupGroupRatio : jstr) : res (list (jstr * jstr)) :=
  let map := safeJsonParse topupGroupRatio (VObj []) in
  let* _ := keys_of map in
  res_mapM (fun kv => res_map (pair kv.1) (to_str kv.2)) (entries map).

(** [groups]: the text that the dialog's type selects; [edited]: the name of
    the entry that is edited. *)
Definition handleSimpleSave (groups : jstr) (edited : option jstr) (name value : jstr) : res jstr :=
  let map := safeJsonParse groups (VObj []) in
  let* map := match edited with
              | Some old => if bool_decide (old = name) then Ok map else vdelete old map
              | None => Ok map
              end in
  res_map stringify2 (vset name (VNum (parse_float value)) map).

Definition handleSimpleDelete (groups name : jstr) : res jstr :=
  res_map stringify2 (vdelete name (safeJsonParse groups (VObj []))).

(** The elements of a value that is iterated; a string does not get here, since
    showing it throws. *)
Definition autoGroupsList (autoGroups : jstr) : res (list jsval) :=
  match safeJsonParse autoGroups (VArr []) with VArr l => Ok l | _ => Throw TypeError end.

(** [None]: nothing is written. *)
Definition handleAutoGroupSave (autoGroups input : jstr) : res (option jstr) :=
  match trim input with
  | [] => Ok None
  | name => let* l := autoGroupsList autoGroups in Ok (Some (stringify2 (VArr (l ++ [VStr name]))))
  end.

Definition remove_at {A} (i : nat) (l : list A) : list A := take i l ++ drop (S i) l.

Definition handleAutoGroupDelete (autoGroups : jstr) (index : nat) : res jstr :=
  let* l := autoGroupsList autoGroups in Ok (stringify2 (VArr (remove_at index l))).

Definition swap {A} (i j : nat) (l : list A) : list A :=
  match l !! i, l !! j with
  | Some x, Some y => <[j := x]> (<[i := y]> l)
  | _, _ => l
  end.

Definition moved {A} (index : nat) (up : bool) (l : list A) : option (list A) :=
  let newIndex := (if up then Z.of_nat index - 1 else Z.of_nat index + 1)%Z in
  if ((newIndex <? 0) || (Z.of_nat (length l) <=? newIndex))%Z then None
  else Some (swap index (Z.to_nat newIndex) l).

Definition handleAutoGroupMove (autoGroups : jstr) (index : nat) (up : bool) : res (option jstr) :=
  let* l := autoGroupsList autoGroups in Ok (option_map (fun l => stringify2 (VArr l)) (moved index up l)).

(** Ratios between groups. *)
Definition override_rows (groupGroupRatio : jstr) : res (list (jstr * list (jstr * jsval))) :=
  let map := safeJsonParse groupGroupRatio (VObj []) in
  let* _ := keys_of map in
  res_mapM (fun kv => let* _ := keys_of kv.2 in Ok (kv.1, entries kv.2)) (entries map).

(** [if (!map[group]) map[group] = {}] *)
Definition with_group (group : jstr) (map : jsval) : res jsval :=
  let* v := vget group map in if truthy v then Ok map else vset group (VObj []) map.

Definition handleUserGroupSave (groupGroupRatio input : jstr) : res (option jstr) :=
  match trim input with
  | [] => Ok None
  | name => let* map := with_group name (safeJsonParse groupGroupRatio (VObj [])) in Ok (Some (stringify2 map))
  end.

Definition handleUserGroupDelete (groupGroupRatio userGroup : jstr) : res jstr :=
  res_map stringify2 (vdelete userGroup (safeJsonParse groupGroupRatio (VObj []))).

(** [f(map[group])], which changes the object that the map holds; what the map
    inherits is not in its text. *)
Definition put_own (group : jstr) (v map : jsval) : jsval :=
  match map with
  | VObj o => VObj (oset group v o)
  | VArr l => match array_index group with Some i => VArr (<[N.to_nat i := v]> l) | None => map end
  | _ => map
  end.
Definition in_group (group : jstr) (f : jsval -> res jsval) (map : jsval) : res jsval :=
  let* v := vget group map in
  let* v := f v in
  Ok (if has_own group map then put_own group v map else map).

Definition handleOverrideSave (groupGroupRatio : jstr) (userGroup : option jstr) (targetGroup : jstr) (ratio : num)
    (oldTargetGroup : option jstr) : res (option jstr) :=
  match userGroup with
  | None | Some [] => Ok None
  | Some group =>
      let* map := with_group group (safeJsonParse groupGroupRatio (VObj [])) in
      let* map := in_group group (fun inner =>
        let* inner := match oldTargetGroup with
                      | None | Some [] => Ok inner
                      | Some old => if bool_decide (old = targetGroup) then Ok inner else vdelete old inner
                      end in
        vset targetGroup (VNum ratio) inner) map in
      Ok (Some (stringify2 map))
  end.

Definition handleOverrideDelete (groupGroupRatio userGroup targetGroup : jstr) : res jstr :=
  let map := safeJsonParse groupGroupRatio (VObj []) in
  let* v := vget userGroup map in
  let* map := if truthy v then
                let* map := in_group userGroup (vdelete targetGroup) map in
                let* v := vget userGroup map in
                let* ks := keys_of v in
                match ks with [] => vdelete userGroup map | _ => Ok map end
              else Ok map in
  Ok (stringify2 map).

(** ** Special rules on usable groups *)

Inductive OpType := OP_ADD | OP_REMOVE | OP_APPEND.

#[export] Instance OpType_eq_dec : EqDecision OpType.
Proof. solve_decision. Defined.

Record Rule := MkRule { u_id : jstr; u_group : jstr; u_op : OpType; u_target : jstr; u_description : jstr }.

Definition uid (counter : N) : jstr * N := (js "gsu_" ++ show_N (counter + 1), counter + 1).

Definition parsePrefix (rawKey : jstr) : OpType * jstr :=
  if starts_with (js "+:") rawKey then (OP_ADD, drop 2 rawKey)
  else if starts_with (js "-:") rawKey then (OP_REMOVE, drop 2 rawKey)
  else (OP_APPEND, rawKey).

Definition toRawKey (op : OpType) (groupName : jstr) : jstr :=
  match op with OP_ADD => js "+:" ++ groupName | OP_REMOVE => js "-:" ++ groupName | OP_APPEND => groupName end.

(** Unlike [safeJsonParse] it parses the text as it is. *)
Definition safeParseJson (s : jstr) : jsval :=
  match trim s with [] => VObj [] | _ => catch (json_parse s) (VObj []) end.

Definition rule_of (id userGroup : jstr) (kv : jstr * jsval) : Rule :=
  let (op, groupName) := parsePrefix kv.1 in
  MkRule id userGroup op groupName
    (match op, kv.2 with OP_REMOVE, _ => js "remove" | _, VStr s => s | _, _ => [] end).

Fixpoint group_rules (userGroup : jstr) (inner : jsobj) (counter : N) : list Rule * N :=
  match inner with
  | [] => ([], counter)
  | kv :: inner =>
      let (id, counter) := uid counter in
      let (rules, counter) := group_rules userGroup inner counter in
      (rule_of id userGroup kv :: rules, counter)
  end.

Fixpoint flatten_groups (nested : jsobj) (counter : N) : list Rule * N :=
  match nested with
  | [] => ([], counter)
  | (userGroup, inner) :: nested =>
      if is_object inner then
        let (rules, counter) := group_rules userGroup (entries inner) counter in
        let (rest, counter) := flatten_groups nested counter in (rules ++ rest, counter)
      else flatten_groups nested counter
  end.

Definition flattenRules (nested : jsval) (counter : N) : res (list Rule * N) :=
  let* _ := keys_of nested in Ok (flatten_groups (entries nested) counter).

Definition nest_rule (result : jsobj) (r : Rule) : jsobj :=
  if negb (str_truthy (u_group r)) || negb (str_truthy (u_target r)) then result
  else
    let result := if truthy (oget (u_group r) result) then result else assign_own (u_group r) (VObj []) result in
    match olookup (u_group r) result with
    | Some (VObj inner) => assign_own (u_group r) (VObj (assign_own (toRawKey (u_op r) (u_target r)) (VStr (u_description r)) inner)) result
    | _ => result
    end.

Definition nestRules (rules : list Rule) : jsobj := fold_left nest_rule rules [].

Definition serializeRules (rules : list Rule) : jstr :=
  match nestRules rules with [] => js "{}" | nested => stringify2 (VObj nested) end.

Inductive RuleEdit := UOp (op : OpType) | UTarget (v : jstr) | UDescription (v : jstr).

Definition edit_rule (e : RuleEdit) (r : Rule) : Rule :=
  match e with
  | UOp OP_REMOVE => MkRule (u_id r) (u_group r) OP_REMOVE (u_target r) (js "remove")
  | UOp op =>
      MkRule (u_id r) (u_group r) op (u_target r)
        (if bool_decide (u_op r = OP_REMOVE) && bool_decide (u_description r = js "remove") then [] else u_description r)
  | UTarget v => MkRule (u_id r) (u_group r) (u_op r) v (u_description r)
  | UDescription v => MkRule (u_id r) (u_group r) (u_op r) (u_target r) v
  end.

Definition updateRule (id : jstr) (e : RuleEdit) (rules : list Rule) : list Rule :=
  map (fun r => if bool_decide (u_id r = id) then edit_rule e r else r) rules.
Definition removeRule (id : jstr) (rules : list Rule) : list Rule :=
  List.filter (fun r => negb (bool_decide (u_id r = id))) rules.
Definition removeGroup (groupName : jstr) (rules : list Rule) : list Rule :=
  List.filter (fun r => negb (bool_decide (u_group r = groupName))) rules.
Definition addRuleToGroup (groupName : jstr) (rules : list Rule) (counter : N) : list Rule * N :=
  let (id, counter) := uid counter in (rules ++ [MkRule id groupName OP_APPEND [] []], counter).
Definition addNewGroup (newGroupName : jstr) (rules : list Rule) (counter : N) : option (list Rule * N) :=
  match trim newGroupName with [] => None | name => Some (addRuleToGroup name rules counter) end.

(** The sections shown.  A group named like a property that every object
    inherits finds no array to push to. *)
Definition grouped (rules : list Rule) : res (list (jstr * list Rule)) :=
  let names := dedup (List.filter str_truthy (map u_group rules)) in
  if existsb (fun name => truthy (inherited name)) names then Throw TypeError
  else Ok (map (fun name => (name, List.filter (fun r => bool_decide (u_group r = name)) rules)) names).
