(* ===== verification/GroupPage.v ===== *)
(** * The page of the group settings
      (features/system-settings/models: group-ratio-form.tsx, the groups of
      ratio-settings-card.tsx, and the components of GroupSettings)

    One form, edited by lists or as texts, with the components' own states.  An
    exception in a handler leaves the state as it is; one in a rendering
    ([step]'s [Throw]) takes the page down. *)
From S2P Require Import Prelude JsString JsNumber JsValue JsValueFacts JsJson GroupSettings.
Open Scope N_scope.

(** ** The form *)

Inductive TextField := GroupRatio | TopupGroupRatio | UserUsableGroups | GroupGroupRatio | AutoGroups | GroupSpecialUsableGroup.

#[export] Instance TextField_eq_dec : EqDecision TextField.
Proof. solve_decision. Defined.

Definition text_fields : list TextField :=
  [GroupRatio; TopupGroupRatio; UserUsableGroups; GroupGroupRatio; AutoGroups; GroupSpecialUsableGroup].

Record GroupFormValues := MkValues { text : TextField -> jstr; DefaultUseAutoGroup : bool }.

Definition set_text (f : TextField) (v : jstr) (x : GroupFormValues) : GroupFormValues :=
  MkValues (fun g => if bool_decide (g = f) then v else text x g) (DefaultUseAutoGroup x).
Definition map_texts (f : jstr -> jstr) (x : GroupFormValues) : GroupFormValues :=
  MkValues (fun g => f (text x g)) (DefaultUseAutoGroup x).

Definition is_group_list (parsed : jsval) : bool := match parsed with VArr l => forallb is_string l | _ => false end.

Definition group_predicate (f : TextField) : jsval -> bool :=
  match f with AutoGroups => is_group_list | _ => fun _ => true end.

(** Whether the schema accepts the values. *)
Definition createGroupSchema (x : GroupFormValues) : bool :=
  forallb (fun f => validateJsonString (group_predicate f) (text x f)) text_fields.

(** The keys of the normalised values, in their order. *)
Definition apiKey (f : TextField) : jstr :=
  match f with
  | GroupRatio => js "GroupRatio" | TopupGroupRatio => js "TopupGroupRatio"
  | UserUsableGroups => js "UserUsableGroups" | GroupGroupRatio => js "GroupGroupRatio"
  | AutoGroups => js "AutoGroups"
  | GroupSpecialUsableGroup => js "group_ratio_setting.group_special_usable_group"
  end.

Definition changed_text (defaults normalized : GroupFormValues) (f : TextField) : list (jstr * jsval) :=
  if bool_decide (text normalized f = text defaults f) then [] else [(apiKey f, VStr (text normalized f))].

(** The requests, one after the other; [defaults] are the normalised values
    that were loaded. *)
Definition saveGroupRatios (defaults values : GroupFormValues) : list (jstr * jsval) :=
  let normalized := map_texts normalizeJsonString values in
  flat_map (changed_text defaults normalized) [GroupRatio; TopupGroupRatio; UserUsableGroups; GroupGroupRatio; AutoGroups]
  ++ (if Bool.eqb (DefaultUseAutoGroup normalized) (DefaultUseAutoGroup defaults) then []
      else [(js "DefaultUseAutoGroup", VBool (DefaultUseAutoGroup normalized))])
  ++ changed_text defaults normalized GroupSpecialUsableGroup.

(** [form.handleSubmit(onSave)]; [None]: the schema refuses. *)
Definition submit (defaults values : GroupFormValues) : option (list (jstr * jsval)) :=
  if createGroupSchema values then Some (saveGroupRatios defaults values) else None.

(** ** Components *)

Record Table := MkTable { rows : list GroupPricingRow; row_counter : N }.

Inductive TableEvent := TEdit (id : jstr) (e : RowEdit) | TAdd | TRemove (id : jstr).

Definition edit_table (t : Table) (e : TableEvent) : Table :=
  match e with
  | TEdit id e => MkTable (updateRow id e (rows t)) (row_counter t)
  | TAdd => let (rows, counter) := addRow (rows t) (row_counter t) in MkTable rows counter
  | TRemove id => MkTable (removeRow id (rows t)) (row_counter t)
  end.

Definition emitRows (t : Table) (x : GroupFormValues) : GroupFormValues :=
  let serialized := serializeGroupPricingRows (rows t) in
  set_text UserUsableGroups serialized.2 (set_text GroupRatio serialized.1 x).

Definition rebuilt (x : GroupFormValues) (counter : N) : res Table :=
  let* rc := buildGroupPricingRows (text x GroupRatio) (text x UserUsableGroups) counter in Ok (MkTable rc.1 rc.2).

(** The effect on the two texts, with its task. *)
Definition sync_rows (x : GroupFormValues) (t : Table) : res Table :=
  if bool_decide (groupPricingSignature (rows t) = sourceGroupPricingSignature (text x GroupRatio) (text x UserUsableGroups))
  then Ok t else rebuilt x (row_counter t).

(** The rules editor; it does not look at its value again. *)
Record Special := MkSpecial { rules : list Rule; rule_counter : N; newGroupName : jstr }.

Inductive SpecialEvent :=
  | UEdit (id : jstr) (e : RuleEdit) | URemove (id : jstr) | URemoveGroup (group : jstr) | UAdd (group : jstr)
  | UName (v : jstr) | UAddGroup.

Definition emitChange (rules : list Rule) (counter : N) (name : jstr) (x : GroupFormValues) : Special * GroupFormValues :=
  (MkSpecial rules counter name, set_text GroupSpecialUsableGroup (serializeRules rules) x).

Definition edit_special (s : Special) (e : SpecialEvent) (x : GroupFormValues) : Special * GroupFormValues :=
  let keep rules := emitChange rules (rule_counter s) (newGroupName s) x in
  match e with
  | UEdit id e => keep (updateRule id e (rules s))
  | URemove id => keep (removeRule id (rules s))
  | URemoveGroup group => keep (removeGroup group (rules s))
  | UAdd group => let (rules, counter) := addRuleToGroup group (rules s) (rule_counter s) in emitChange rules counter (newGroupName s) x
  | UName v => (MkSpecial (rules s) (rule_counter s) v, x)
  | UAddGroup => match addNewGroup (newGroupName s) (rules s) (rule_counter s) with
                 | Some (rules, counter) => emitChange rules counter [] x
                 | None => (s, x)
                 end
  end.

(** ** Dialogs *)

(** A dialog that asks for one name. *)
Record Prompt := MkPrompt { pm_open : bool; pm_input : jstr }.
Inductive PromptEvent := POpen | PInput (v : jstr) | PSubmit | PClose.

(** [save] writes the text when the name is not blank. *)
Definition edit_prompt (save : jstr -> res (option jstr)) (p : Prompt) (e : PromptEvent) : res (Prompt * option jstr) :=
  match e with
  | POpen => Ok (MkPrompt true [], None)
  | PInput v => Ok (MkPrompt (pm_open p) v, None)
  | PSubmit => let* o := save (pm_input p) in
               Ok (match o with Some _ => MkPrompt false (pm_input p) | None => p end, o)
  | PClose => Ok (MkPrompt false (pm_input p), None)
  end.

Definition is_ratio_text (val : jstr) : bool := negb (str_truthy val) || negb (is_nan (parse_float val)).

Inductive SimpleType := SGroupRatio | STopupGroupRatio.
Definition simple_field (t : SimpleType) : TextField := match t with SGroupRatio => GroupRatio | STopupGroupRatio => TopupGroupRatio end.

Record SimpleDialog := MkSimple {
  sd_open : bool; sd_type : option SimpleType; sd_edit : option (jstr * jstr); sd_name : jstr; sd_value : jstr }.

Inductive SimpleEvent :=
  | SAdd (t : SimpleType) | SEdit (t : SimpleType) (name value : jstr) | SDelete (t : SimpleType) (name : jstr)
  | SName (v : jstr) | SValue (v : jstr) | SSubmit | SClose.

Definition edit_simple (s : SimpleDialog) (e : SimpleEvent) (x : GroupFormValues) : res (SimpleDialog * GroupFormValues) :=
  match e with
  | SAdd t => Ok (MkSimple true (Some t) None [] [], x)
  | SEdit t name value => Ok (MkSimple true (Some t) (Some (name, value)) name value, x)
  | SDelete t name => let* v := handleSimpleDelete (text x (simple_field t)) name in Ok (s, set_text (simple_field t) v x)
  | SName v => Ok (match sd_edit s with None => MkSimple (sd_open s) (sd_type s) None v (sd_value s) | _ => s end, x)
  | SValue v => Ok (if is_ratio_text v then MkSimple (sd_open s) (sd_type s) (sd_edit s) (sd_name s) v else s, x)
  | SSubmit =>
      match trim (sd_name s), trim (sd_value s) with
      | [], _ | _, [] => Ok (s, x)
      | name, value =>
          match sd_type s with
          | None => Ok (MkSimple (sd_open s) None (sd_edit s) [] [], x)
          | Some t =>
              let* v := handleSimpleSave (text x (simple_field t)) (option_map fst (sd_edit s)) name value in
              Ok (MkSimple false (Some t) (sd_edit s) [] [], set_text (simple_field t) v x)
          end
      end
  | SClose => Ok (MkSimple false (sd_type s) (sd_edit s) [] [], x)
  end.

Record OverrideDialog := MkOverride {
  od_open : bool; od_group : option jstr; od_edit : option (jstr * jsval); od_target : jstr; od_ratio : jstr }.

Inductive OverrideEvent :=
  | OAdd (group : jstr) | OEdit (group target : jstr) (ratio : jsval) | ODelete (group target : jstr)
  | OTarget (v : jstr) | ORatio (v : jstr) | OSubmit | OClose.

Definition edit_override (s : OverrideDialog) (e : OverrideEvent) (x : GroupFormValues) : res (OverrideDialog * GroupFormValues) :=
  match e with
  | OAdd group => Ok (MkOverride true (Some group) None [] [], x)
  | OEdit group target ratio => Ok (MkOverride true (Some group) (Some (target, ratio)) target (catch (to_str ratio) []), x)
  | ODelete group target => let* v := handleOverrideDelete (text x GroupGroupRatio) group target in Ok (s, set_text GroupGroupRatio v x)
  | OTarget v => Ok (match od_edit s with None => MkOverride (od_open s) (od_group s) None v (od_ratio s) | _ => s end, x)
  | ORatio v => Ok (if is_ratio_text v then MkOverride (od_open s) (od_group s) (od_edit s) (od_target s) v else s, x)
  | OSubmit =>
      let parsedRatio := parse_float (od_ratio s) in
      match trim (od_target s), trim (od_ratio s) with
      | [], _ | _, [] => Ok (s, x)
      | target, _ =>
          if is_nan parsedRatio then Ok (s, x)
          else
            let* v := handleOverrideSave (text x GroupGroupRatio) (od_group s) target parsedRatio (option_map fst (od_edit s)) in
            Ok (match v with
                | Some v => (MkOverride false (od_group s) (od_edit s) [] [], set_text GroupGroupRatio v x)
                | None => (MkOverride (od_open s) (od_group s) (od_edit s) [] [], x)
                end)
      end
  | OClose => Ok (MkOverride false (od_group s) (od_edit s) [] [], x)
  end.

(** ** The page *)

Record Dialogs := MkDialogs { dg_simple : SimpleDialog; dg_override : OverrideDialog; dg_auto : Prompt; dg_user : Prompt }.

Definition no_dialogs : Dialogs :=
  MkDialogs (MkSimple false None None [] []) (MkOverride false None None [] []) (MkPrompt false []) (MkPrompt false []).

(** [defaults]: the normalised values that were loaded; [visual]: whether the
    lists are shown; a hidden component has no state. *)
Record Page := MkPage {
  values : GroupFormValues; defaults : GroupFormValues; visual : bool;
  table : Table; special : Special; dialogs : Dialogs }.

Definition set_values (x : GroupFormValues) (p : Page) : Page :=
  MkPage x (defaults p) (visual p) (table p) (special p) (dialogs p).
Definition set_table (t : Table) (p : Page) : Page :=
  MkPage (values p) (defaults p) (visual p) t (special p) (dialogs p).
Definition set_special (s : Special) (p : Page) : Page :=
  MkPage (values p) (defaults p) (visual p) (table p) s (dialogs p).
Definition set_dialogs (d : Dialogs) (p : Page) : Page :=
  MkPage (values p) (defaults p) (visual p) (table p) (special p) d.

(** What the lists show; showing a value of a wrong type throws. *)
Definition shown_lists (x : GroupFormValues) : res unit :=
  let* _ := topupRatioList (text x TopupGroupRatio) in
  let* _ := override_rows (text x GroupGroupRatio) in
  let* _ := autoGroupsList (text x AutoGroups) in
  Ok tt.

(** The lists appear: the components take their first states, and the table
    compares them with the texts. *)
Definition mount_lists (p : Page) : res Page :=
  let x := values p in
  let* t := rebuilt x (row_counter (table p)) in
  let* t := sync_rows x t in
  let* rc := flattenRules (safeParseJson (text x GroupSpecialUsableGroup)) (rule_counter (special p)) in
  let* _ := shown_lists x in
  Ok (MkPage x (defaults p) true t (MkSpecial rc.1 rc.2 []) no_dialogs).

(** The page with the loaded values. *)
Definition loaded (x : GroupFormValues) : GroupFormValues := map_texts formatJsonForTextarea x.

Definition open_page (x : GroupFormValues) : res Page :=
  mount_lists (MkPage (loaded x) (map_texts normalizeJsonString x) true (MkTable [] 0) (MkSpecial [] 0 []) no_dialogs).

Inductive AutoEvent := ADelete (index : nat) | AMove (index : nat) (up : bool).

Inductive Event :=
  | ETable (e : TableEvent)
  | ESpecial (e : SpecialEvent)
  | ESimple (e : SimpleEvent)
  | EOverride (e : OverrideEvent)
  | EAutoPrompt (e : PromptEvent)
  | EAuto (e : AutoEvent)
  | EUserPrompt (e : PromptEvent)
  | EUserDelete (group : jstr)
  | EDefaultAuto (b : bool)
  | EText (f : TextField) (v : jstr)
  | EToggle
  (** The options are loaded again. *)
  | EDefaults (x : GroupFormValues).

Definition write (f : TextField) (v : option jstr) (p : Page) : Page :=
  match v with Some v => set_values (set_text f v (values p)) p | None => p end.

Definition for_lists (e : Event) : option bool :=
  match e with
  | EText _ _ => Some false
  | EDefaultAuto _ | EToggle | EDefaults _ => None
  | _ => Some true
  end.

(** A handler; the components that are not shown have none. *)
Definition handler (e : Event) (p : Page) : res Page :=
  let x := values p in
  let d := dialogs p in
  match e with
  | ETable e => let t := edit_table (table p) e in Ok (set_values (emitRows t x) (set_table t p))
  | ESpecial e => let (s, x) := edit_special (special p) e x in Ok (set_values x (set_special s p))
  | ESimple e => let* sx := edit_simple (dg_simple d) e x in
                 Ok (set_values sx.2 (set_dialogs (MkDialogs sx.1 (dg_override d) (dg_auto d) (dg_user d)) p))
  | EOverride e => let* sx := edit_override (dg_override d) e x in
                   Ok (set_values sx.2 (set_dialogs (MkDialogs (dg_simple d) sx.1 (dg_auto d) (dg_user d)) p))
  | EAutoPrompt e => let* po := edit_prompt (handleAutoGroupSave (text x AutoGroups)) (dg_auto d) e in
                     Ok (write AutoGroups po.2 (set_dialogs (MkDialogs (dg_simple d) (dg_override d) po.1 (dg_user d)) p))
  | EAuto (ADelete i) => let* v := handleAutoGroupDelete (text x AutoGroups) i in Ok (write AutoGroups (Some v) p)
  | EAuto (AMove i up) => let* v := handleAutoGroupMove (text x AutoGroups) i up in Ok (write AutoGroups v p)
  | EUserPrompt e => let* po := edit_prompt (handleUserGroupSave (text x GroupGroupRatio)) (dg_user d) e in
                     Ok (write GroupGroupRatio po.2 (set_dialogs (MkDialogs (dg_simple d) (dg_override d) (dg_auto d) po.1) p))
  | EUserDelete group => let* v := handleUserGroupDelete (text x GroupGroupRatio) group in Ok (write GroupGroupRatio (Some v) p)
  | EDefaultAuto b => Ok (set_values (MkValues (text x) b) p)
  | EText f v => Ok (write f (Some v) p)
  | EToggle => Ok p
  | EDefaults x => Ok (MkPage (loaded x) (map_texts normalizeJsonString x) (visual p) (table p) (special p) d)
  end.

Definition handled (e : Event) (p : Page) : Page :=
  if bool_decide (for_lists e = Some (negb (visual p))) then p else catch (handler e p) p.

Definition texts_kept (p q : Page) : bool :=
  bool_decide (text (values p) GroupRatio = text (values q) GroupRatio)
  && bool_decide (text (values p) UserUsableGroups = text (values q) UserUsableGroups).

(** A handler, the effects and the rendering that follow it. *)
Definition step (p : Page) (e : Event) : res Page :=
  let q := handled e p in
  match e with
  | EToggle => if visual p then Ok (MkPage (values p) (defaults p) false (table p) (special p) no_dialogs) else mount_lists p
  | _ =>
      if visual q then
        let* t := if texts_kept p q then Ok (table q) else sync_rows (values q) (table q) in
        let* _ := shown_lists (values q) in
        let* _ := grouped (rules (special q)) in
        Ok (set_table t q)
      else Ok q
  end.

Fixpoint run (p : Page) (es : list Event) : res Page :=
  match es with
  | [] => Ok p
  | e :: es => let* p := step p e in run p es
  end.
