(* ===== verification/GroupTableFacts.v ===== *)
(** * The table of groups: what its rows store

    The names of new rows, the identifiers, the two maps that rows are written
    to, and the rows that are read back. *)
From stdpp Require Import sorting.
From S2P Require Import Prelude JsString JsNumber JsNumberFacts JsValue JsValueFacts JsJson JsJsonFacts JsJsonRoundtrip JsStorable GroupSettings GroupPage.
Open Scope N_scope.

(** ** New rows *)

Lemma group_name_inj a b : group_name a = group_name b -> a = b.
Proof. unfold group_name. intros H. apply app_inv_head in H. by apply show_N_inj. Qed.

(** The names that the loop tries. *)
Definition tried (i : N) (n : nat) : list jstr := map (fun k => group_name (i + N.of_nat k)) (seq 0 n).

Lemma NoDup_tried i n : NoDup (tried i n).
Proof.
  unfold tried. apply NoDup_fmap_2; [|apply NoDup_seq]. intros a b H. apply group_name_inj in H. lia.
Qed.

Lemma fresh_name_after fuel i names :
  fresh_name fuel i names ∉ names \/ tried i fuel ⊆ names.
Proof.
  revert i. induction fuel as [|fuel IH]; intros i; cbn [fresh_name].
  - right. intros x Hx. by apply elem_of_nil in Hx.
  - case_bool_decide as Hi; [|by left]. destruct (IH (i + 1)) as [|Hs]; [by left|]. right.
    intros x Hx. unfold tried in Hx, Hs. apply list_elem_of_fmap in Hx as (k & -> & Hk). apply elem_of_seq in Hk.
    destruct k as [|k]; [by rewrite N.add_0_r|]. apply Hs, list_elem_of_fmap. exists k. split; [f_equal; lia|].
    apply elem_of_seq. lia.
Qed.

Lemma fresh_name_fuel n m i names : fresh_name n i names ∉ names -> fresh_name (n + m) i names = fresh_name n i names.
Proof.
  revert i. induction n as [|n IH]; intros i; cbn [fresh_name Nat.add].
  - intros H. destruct m; cbn [fresh_name]; [done|]. by rewrite bool_decide_eq_false_2.
  - case_bool_decide; [apply IH|done].
Qed.

(** The loop that names a new row ends after at most one more step than
    there are rows, with a name that no row has. *)
Theorem addRow_fresh (rows : list GroupPricingRow) (counter : N) (m : nat) :
  let name := fresh_name (S (length rows)) 1 (map r_name rows) in
  name ∉ map r_name rows
  /\ fresh_name (S (length rows) + m) 1 (map r_name rows) = name
  /\ map r_name (addRow rows counter).1 = map r_name rows ++ [name].
Proof.
  intros name. assert (H : name ∉ map r_name rows).
  { destruct (fresh_name_after (S (length rows)) 1 (map r_name rows)) as [|Hs]; [done|]. exfalso.
    pose proof (submseteq_length _ _ (NoDup_submseteq _ _ (NoDup_tried 1 (S (length rows))) (fun x => Hs x))) as Hl.
    unfold tried in Hl. rewrite !length_map, length_seq in Hl. lia. }
  split; [done|]. split; [by apply fresh_name_fuel|]. unfold addRow, createGroupPricingId. cbn [fst]. by rewrite map_app.
Qed.

(** ** Identifiers *)

(** Identifiers are distinct and were made by the counter. *)
Definition ids_ok (t : Table) : Prop :=
  NoDup (map r_id (rows t))
  /\ Forall (fun r => exists k, k <= row_counter t /\ r_id r = js "gpr_" ++ show_N k) (rows t).

Lemma gpr_inj a b : js "gpr_" ++ show_N a = js "gpr_" ++ show_N b -> a = b.
Proof. intros H%app_inv_head. by apply show_N_inj. Qed.

Lemma edit_row_id e r : r_id (edit_row e r) = r_id r.
Proof. by destruct e. Qed.

Lemma updateRow_ids id e l : map r_id (updateRow id e l) = map r_id l.
Proof.
  unfold updateRow. rewrite map_map. apply map_ext. intros r. case_bool_decide; [apply edit_row_id|done].
Qed.

Lemma ids_edit t e : ids_ok t -> ids_ok (edit_table t e).
Proof.
  intros [Hn Hf]. destruct e as [id e| |id]; cbn [edit_table].
  - split; cbn [rows row_counter]; [by rewrite updateRow_ids|].
    rewrite list.Forall_forall in Hf |- *. intros r Hr. unfold updateRow in Hr. apply list_elem_of_fmap in Hr as (r' & -> & Hr').
    destruct (Hf r' Hr') as (k & Hk & E). exists k. split; [done|]. case_bool_decide; [by rewrite edit_row_id|done].
  - unfold addRow, createGroupPricingId. split; cbn [rows row_counter].
    + rewrite map_app. apply NoDup_app. split; [done|]. split; [|apply NoDup_singleton].
      intros x Hx. cbn [map r_id]. rewrite list_elem_of_singleton. intros ->.
      apply list_elem_of_fmap in Hx as (r & E & Hr). rewrite list.Forall_forall in Hf. destruct (Hf r Hr) as (k & Hk & E').
      rewrite E' in E. apply gpr_inj in E. lia.
    + apply Forall_app. split; [|apply Forall_singleton; by exists (row_counter t + 1)].
      eapply Forall_impl; [exact Hf|]. intros r (k & Hk & E). exists k. split; [lia|done].
  - split; cbn [rows row_counter]; unfold removeRow.
    + clear Hf. induction (rows t) as [|r l IH]; [done|]. cbn [map] in Hn. apply NoDup_cons in Hn as [Hr Hn].
      cbn [List.filter]. destruct (negb _); cbn [map]; [|by apply IH]. apply NoDup_cons. split; [|by apply IH].
      intros (r' & E & Hr')%list_elem_of_fmap. apply Hr. rewrite E. apply list_elem_of_fmap. exists r'. split; [done|].
      apply list_elem_of_In, List.filter_In in Hr' as [Hr' _]. by apply list_elem_of_In.
    + rewrite list.Forall_forall in Hf |- *. intros r Hr. apply Hf. apply list_elem_of_In, List.filter_In in Hr as [Hr _]. by apply list_elem_of_In.
Qed.

Lemma pricing_rows_ids a b c names l c' :
  pricing_rows a b c names = Ok (l, c') ->
  map r_id l = map (fun k => js "gpr_" ++ show_N (c + 1 + N.of_nat k)) (seq 0 (length names)) /\ c' = c + N.of_nat (length names).
Proof.
  revert c l. induction names as [|name names IH]; intros c l; cbn [pricing_rows createGroupPricingId].
  { intros [= <- <-]. split; [done|]. cbn. lia. }
  destruct (pricing_row a b _ name) as [row|] eqn:Er; [|done]. cbn [res_bind].
  destruct (pricing_rows a b _ names) as [[l' c2]|] eqn:El; [|done]. cbn [res_bind fst snd]. intros [= <- <-].
  destruct (IH _ _ El) as [H1 ->]. split; [|cbn [length]; lia]. cbn [map length seq]. f_equal.
  - unfold pricing_row in Er. destruct (vget name a); [|done]. cbn [res_bind] in Er. destruct (normalizeRatio _); [|done].
    cbn [res_bind] in Er. destruct (vget name b); [|done]. cbn [res_bind] in Er. destruct (to_str _); [|done].
    cbn [res_bind] in Er. apply Ok_inj in Er as <-. cbn [r_id]. do 2 f_equal. lia.
  - rewrite H1, <-seq_shift, map_map. apply map_ext. intros k. do 2 f_equal. lia.
Qed.

Lemma ids_rebuilt x c t : rebuilt x c = Ok t -> ids_ok t.
Proof.
  unfold rebuilt, buildGroupPricingRows. destruct (keys_of _) as [ka|]; [|done]. cbn [res_bind].
  destruct (keys_of _) as [kb|]; [|done]. cbn [res_bind]. destruct (pricing_rows _ _ c _) as [[l c']|] eqn:E; [|done].
  cbn [res_bind fst snd]. intros [= <-]. apply pricing_rows_ids in E as [E ->]. split; cbn [rows row_counter].
  - rewrite E. apply NoDup_fmap_2; [|apply NoDup_seq]. intros i j H. apply gpr_inj in H. lia.
  - apply list.Forall_forall. intros r Hr. assert (Hi : r_id r ∈ map r_id l) by (apply list_elem_of_fmap; by exists r).
    rewrite E in Hi. apply list_elem_of_fmap in Hi as (k & Hk & Hin). apply elem_of_seq in Hin. eexists. split; [|exact Hk]. lia.
Qed.

(** ** What the rows store *)

(** The last row with a name, among those that satisfy [P]. *)
Definition last_named (P : GroupPricingRow -> bool) (name : jstr) (l : list GroupPricingRow) : option GroupPricingRow :=
  last (List.filter (fun r => bool_decide (trim (r_name r) = name) && P r) l).

Lemma last_named_snoc P name l r :
  last_named P name (l ++ [r]) = if bool_decide (trim (r_name r) = name) && P r then Some r else last_named P name l.
Proof.
  unfold last_named. rewrite List.filter_app. cbn [List.filter]. destruct (_ && _).
  - apply last_snoc.
  - by rewrite app_nil_r.
Qed.

Lemma serialized_snoc l r : serialized_maps (l ++ [r]) = add_row (serialized_maps l) r.
Proof. unfold serialized_maps. by rewrite fold_left_app. Qed.

(** The names under which a row can be stored. *)
Definition storable_name (name : jstr) : Prop := name <> [] /\ name <> js "__proto__".

Lemma olookup_assign_own name k v o :
  name <> js "__proto__" -> olookup name (assign_own k v o) = if bool_decide (k = name) then Some v else olookup name o.
Proof.
  intros Hn. unfold assign_own. case_bool_decide as Hk.
  - rewrite bool_decide_eq_false_2; [done|]. congruence.
  - rewrite olookup_oset. destruct (decide (k = name)) as [->|H]; [by rewrite !bool_decide_eq_true_2|].
    rewrite !bool_decide_eq_false_2; congruence.
Qed.

Lemma add_row_lookup maps r name :
  storable_name name ->
  olookup name (add_row maps r).1
  = (if bool_decide (trim (r_name r) = name) then Some (VNum (finite_or_one (r_ratio r))) else olookup name maps.1)
  /\ olookup name (add_row maps r).2
     = (if bool_decide (trim (r_name r) = name) && r_selectable r then Some (VStr (r_description r)) else olookup name maps.2).
Proof.
  intros [Hne Hp]. unfold add_row. destruct (trim (r_name r)) as [|c s] eqn:E.
  - by rewrite (bool_decide_eq_false_2 ([] = name)).
  - cbn [fst snd]. rewrite olookup_assign_own by done. split; [done|]. destruct (r_selectable r).
    + rewrite olookup_assign_own by done. by rewrite andb_true_r.
    + by rewrite andb_false_r.
Qed.

Lemma stored_lookup (rows : list GroupPricingRow) (name : jstr) :
  storable_name name ->
  olookup name (serialized_maps rows).1
  = option_map (fun r => VNum (finite_or_one (r_ratio r))) (last_named (fun _ => true) name rows)
  /\ olookup name (serialized_maps rows).2 = option_map (fun r => VStr (r_description r)) (last_named r_selectable name rows).
Proof.
  intros Hn. induction rows as [|r rows IH] using rev_ind; [done|].
  rewrite serialized_snoc, !last_named_snoc. destruct (add_row_lookup (serialized_maps rows) r name Hn) as [-> ->].
  destruct IH as [-> ->]. rewrite andb_true_r. split; [by destruct (bool_decide _)|by destruct (_ && _)].
Qed.

(** The table stores, for every name, the ratio of the last row with that
    name, and the description of the last selectable one. *)
Theorem rows_stored (rows : list GroupPricingRow) (name : jstr) :
  storable_name name ->
  olookup name (serialized_maps rows).1
  = option_map (fun r => VNum (finite_or_one (r_ratio r))) (last_named (fun _ => true) name rows)
  /\ olookup name (serialized_maps rows).2 = option_map (fun r => VStr (r_description r)) (last_named r_selectable name rows).
Proof. apply stored_lookup. Qed.

Definition two_rows : list GroupPricingRow :=
  [MkRow (js "gpr_1") (js "vip") (num_of_Z 2) true (js "a"); MkRow (js "gpr_2") (js " vip") (num_of_Z 3) false (js "b")].

Lemma rows_stored_witness :
  storable_name (js "vip")
  /\ olookup (js "vip") (serialized_maps two_rows).1 = Some (VNum (num_of_Z 3))
  /\ olookup (js "vip") (serialized_maps two_rows).2 = Some (VStr (js "a")).
Proof.
  assert (Hn : storable_name (js "vip")) by (split; discriminate). split; [done|].
  destruct (rows_stored two_rows (js "vip") Hn) as [-> ->]. split; vm_compute; reflexivity.
Defined.

(** ** Rows read back *)

Lemma serialized_keys rows k :
  (k ∈ okeys (serialized_maps rows).1 -> k <> js "__proto__" /\ k <> [] /\ exists r, r ∈ rows /\ trim (r_name r) = k)
  /\ (k ∈ okeys (serialized_maps rows).2 -> k ∈ okeys (serialized_maps rows).1).
Proof.
  induction rows as [|r rows IH] using rev_ind; [split; intros H; by apply elem_of_nil in H|].
  rewrite serialized_snoc. unfold add_row. destruct IH as [IH1 IH2].
  assert (Hold : k ∈ okeys (serialized_maps rows).1 -> k <> js "__proto__" /\ k <> [] /\ exists r', r' ∈ rows ++ [r] /\ trim (r_name r') = k).
  { intros H. destruct (IH1 H) as (Hp & Hne & r' & Hr' & E). split; [done|]. split; [done|]. exists r'. split; [|done].
    apply elem_of_app. by left. }
  destruct (trim (r_name r)) as [|c s] eqn:E; [done|]. cbn [fst snd].
  unfold assign_own. case_bool_decide as Hp; [by destruct (r_selectable r)|]. split.
  - intros [->|H]%okeys_oset; [|by apply Hold]. split; [done|]. split; [done|]. exists r. split; [|done].
    apply elem_of_app. right. by left.
  - intros H. apply okeys_oset. destruct (r_selectable r); [apply okeys_oset in H as [->|H]; [by left|]|]; right; by apply IH2.
Qed.

Lemma serialized_nodup rows : okeys_nodup (serialized_maps rows).1 /\ okeys_nodup (serialized_maps rows).2.
Proof.
  induction rows as [|r rows [IH1 IH2]] using rev_ind; [split; constructor|]. rewrite serialized_snoc. unfold add_row.
  destruct (trim (r_name r)); [done|]. cbn [fst snd]. unfold assign_own. case_bool_decide; [by destruct (r_selectable r)|].
  split; [by apply NoDup_oset|]. destruct (r_selectable r); [by apply NoDup_oset|done].
Qed.

(** A row that is written as it is. *)
Record plain_row (r : GroupPricingRow) : Prop := {
  pl_trimmed : trim (r_name r) = r_name r;
  pl_name : storable_name (r_name r);
  pl_own : inherited (r_name r) = VUndef;
  pl_units : forallb is_unit (r_name r) = true;
  pl_ratio : json_num (r_ratio r) = true;
  pl_text : forallb is_unit (r_description r) = true;
  pl_hidden : r_selectable r = false -> r_description r = [] }.

(** What an administrator sees of a row. *)
Definition content (r : GroupPricingRow) : jstr * num * bool * jstr := (r_name r, r_ratio r, r_selectable r, r_description r).

Section read_back.
Context (l : list GroupPricingRow) (Hp : Forall plain_row l) (Hn : NoDup (map r_name l)).

Lemma json_num_finite x : json_num x = true -> finite_or_one x = x.
Proof. unfold json_num, finite_or_one. intros H. bool_hyps. by destruct (is_finite x). Qed.

Lemma named_only r : r ∈ l -> List.filter (fun r' => bool_decide (trim (r_name r') = r_name r)) l = [r].
Proof.
  clear -Hp Hn. induction l as [|x l' IH]; [by intros ?%not_elem_of_nil|]. apply Forall_cons in Hp as [Hx Hp'].
  cbn [map] in Hn. apply NoDup_cons in Hn as [Hni Hn']. rewrite elem_of_cons. cbn [List.filter]. rewrite (pl_trimmed x Hx).
  intros [->|Hr].
  - rewrite bool_decide_eq_true_2 by done. f_equal. clear IH Hn'. induction l' as [|y l' IH]; [done|].
    apply Forall_cons in Hp' as [Hy Hp']. cbn [map] in Hni. apply not_elem_of_cons in Hni as [Hne Hni]. cbn [List.filter].
    rewrite (pl_trimmed y Hy), bool_decide_eq_false_2 by done. by apply IH.
  - rewrite bool_decide_eq_false_2; [by apply IH|]. intros E. apply Hni. rewrite E. apply list_elem_of_fmap. by exists r.
Qed.

Lemma named_filter P r : r ∈ l -> last_named P (r_name r) l = if P r then Some r else None.
Proof.
  intros Hr. unfold last_named.
  assert (E : forall (A : Type) (f g : A -> bool) (m : list A), List.filter (fun x => f x && g x) m = List.filter g (List.filter f m)).
  { intros A f g m. induction m as [|x m IH]; [done|]. cbn [List.filter]. destruct (f x); cbn [andb List.filter]; by rewrite IH. }
  rewrite E, named_only by done. cbn [List.filter]. by destruct (P r).
Qed.

Lemma plain_of r : r ∈ l -> plain_row r.
Proof. intros Hr. rewrite list.Forall_forall in Hp. by apply Hp. Qed.

Lemma stored_row r : r ∈ l ->
  olookup (r_name r) (serialized_maps l).1 = Some (VNum (r_ratio r))
  /\ olookup (r_name r) (serialized_maps l).2 = if r_selectable r then Some (VStr (r_description r)) else None.
Proof.
  intros Hr. pose proof (plain_of r Hr) as P. destruct (stored_lookup l (r_name r) (pl_name r P)) as [-> ->].
  rewrite !named_filter by done. cbn [option_map]. rewrite json_num_finite by apply P. split; [done|]. by destruct (r_selectable r).
Qed.

Lemma stored_keys : okeys (serialized_maps l).1 ≡ₚ map r_name l.
Proof.
  apply NoDup_Permutation; [apply serialized_nodup|done|]. intros k. split.
  - intros H. destruct (proj1 (serialized_keys l k) H) as (_ & _ & r & Hr & <-). rewrite (pl_trimmed r (plain_of r Hr)).
    apply list_elem_of_fmap. by exists r.
  - intros (r & -> & Hr)%list_elem_of_fmap. destruct (stored_row r Hr) as [E _].
    destruct (decide (r_name r ∈ okeys (serialized_maps l).1)) as [|H]; [done|]. apply olookup_None in H. congruence.
Qed.

Lemma value_storable (o : jsobj) :
  okeys_nodup o -> (forall k v, olookup k o = Some v -> forallb is_unit k = true /\ printable v) -> storable o.
Proof. intros Hd H. split; [done|]. by apply Forall_olookup. Qed.

Lemma stored_storable : storable (serialized_maps l).1 /\ storable (serialized_maps l).2.
Proof.
  assert (Hrow : forall k, k ∈ okeys (serialized_maps l).1 -> exists r, r ∈ l /\ r_name r = k).
  { intros k H. destruct (proj1 (serialized_keys l k) H) as (_ & _ & r & Hr & <-). exists r. split; [done|].
    by rewrite (pl_trimmed r (plain_of r Hr)). }
  split; apply value_storable; try apply serialized_nodup; intros k v Hv.
  - destruct (Hrow k) as (r & Hr & <-).
    { destruct (decide (k ∈ okeys (serialized_maps l).1)) as [|H]; [done|]. apply olookup_None in H. congruence. }
    destruct (stored_row r Hr) as [E _]. rewrite E in Hv. injection Hv as <-. pose proof (plain_of r Hr) as P.
    split; [apply P|]. split; [apply (pl_ratio r P)|done].
  - destruct (Hrow k) as (r & Hr & <-).
    { apply (serialized_keys l k). destruct (decide (k ∈ okeys (serialized_maps l).2)) as [|H]; [done|]. apply olookup_None in H. congruence. }
    destruct (stored_row r Hr) as [_ E]. rewrite E in Hv. pose proof (plain_of r Hr) as P.
    destruct (r_selectable r); [|done]. injection Hv as <-. split; [apply P|]. split; [apply (pl_text r P)|done].
Qed.
(** The row that is read for a name. *)
Lemma row_of_name r i : r ∈ l -> storable (serialized_maps l).1 -> storable (serialized_maps l).2 ->
  pricing_row (VObj (obj_of (serialized_maps l).1)) (VObj (obj_of (serialized_maps l).2)) i (r_name r)
  = Ok (MkRow i (r_name r) (r_ratio r) (r_selectable r) (r_description r)).
Proof.
  intros Hr [H1 _] [H2 _]. destruct (stored_row r Hr) as [E1 E2]. pose proof (plain_of r Hr) as P.
  unfold pricing_row, vget, oget. rewrite !olookup_obj_of, E1, E2 by done. cbn [res_bind default from_option id].
  unfold normalizeRatio. cbn [to_num res_map res_bind]. rewrite json_num_finite by apply P.
  assert (Ho : has_own (r_name r) (VObj (obj_of (serialized_maps l).2)) = r_selectable r).
  { unfold has_own. cbn [entries]. rewrite orb_false_r. pose proof (olookup_obj_of _ (r_name r) H2) as E. rewrite E2 in E.
    destruct (r_selectable r).
    - apply bool_decide_eq_true_2. destruct (decide (r_name r ∈ okeys (obj_of (serialized_maps l).2))) as [|Hk]; [done|].
      apply olookup_None in Hk. congruence.
    - apply bool_decide_eq_false_2. by apply olookup_None. }
  rewrite Ho. destruct (r_selectable r) eqn:Es; [done|]. rewrite (pl_own r P), (pl_hidden r P Es). done.
Qed.
Lemma rows_of_names ks c : (forall r, r ∈ ks -> r ∈ l) -> storable (serialized_maps l).1 -> storable (serialized_maps l).2 ->
  exists l' c', pricing_rows (VObj (obj_of (serialized_maps l).1)) (VObj (obj_of (serialized_maps l).2)) c (map r_name ks) = Ok (l', c')
    /\ map content l' = map content ks.
Proof.
  intros Hs S1 S2. revert c. induction ks as [|r ks IH]; intros c; [by exists [], c|].
  cbn [map pricing_rows createGroupPricingId]. rewrite row_of_name by (try done; apply Hs; by left). cbn [res_bind].
  destruct (IH (fun r' Hr' => Hs r' (list_elem_of_further _ _ _ Hr')) (c + 1)) as (l' & c' & -> & E). cbn [res_bind fst snd].
  eexists _, c'. split; [done|]. cbn [map]. by rewrite E.
Qed.
End read_back.

Lemma okeys_obj_of o : okeys_nodup o -> okeys (obj_of o) ≡ₚ okeys o.
Proof.
  intros Hn. apply NoDup_Permutation; [apply NoDup_ospread; constructor|done|]. intros k.
  destruct (decide (k ∈ okeys (obj_of o))) as [H|H], (decide (k ∈ okeys o)) as [H'|H']; try done.
  - apply olookup_None in H'. rewrite <-(olookup_obj_of o k Hn) in H'. by apply olookup_None in H'.
  - apply olookup_None in H. rewrite (olookup_obj_of o k Hn) in H. by apply olookup_None in H.
Qed.

Lemma dedup_covered `{EqDecision A} (a b : list A) : NoDup a -> (forall x, x ∈ b -> x ∈ a) -> dedup (a ++ b) = a.
Proof.
  intros Hn. induction b as [|x b IH] using rev_ind; intros Hb; [by rewrite app_nil_r, dedup_id|].
  rewrite app_assoc, dedup_snoc, bool_decide_eq_true_2; [apply IH; intros y Hy; apply Hb, elem_of_app; by left|].
  apply elem_of_app. left. apply Hb, elem_of_app. right. by left.
Qed.

Lemma safe_parse_text o : storable o -> safeJsonParse (stringify2 (VObj o)) (VObj []) = VObj (obj_of o).
Proof.
  intros H. unfold safeJsonParse. rewrite trim_stringify2. pose proof (storable_json2 o H) as Hj.
  destruct (print_obj_ends [32; 32] o) as [t E]. unfold stringify2 in *. rewrite E in *. by rewrite Hj.
Qed.

(** Rows with distinct names that are stored and read again are the same
    rows: name, ratio, whether users can select the group, and description. *)
Theorem rows_reopened (rows : list GroupPricingRow) (counter : N) :
  Forall plain_row rows -> NoDup (map r_name rows) ->
  exists rows' counter',
    buildGroupPricingRows (serializeGroupPricingRows rows).1 (serializeGroupPricingRows rows).2 counter = Ok (rows', counter')
    /\ map content rows' ≡ₚ map content rows.
Proof.
  intros Hp Hn. destruct (stored_storable rows Hp Hn) as [S1 S2].
  unfold buildGroupPricingRows, serializeGroupPricingRows. cbn [fst snd]. rewrite !safe_parse_text by done. cbn [keys_of entries res_bind].
  assert (K : okeys (obj_of (serialized_maps rows).1) ≡ₚ map r_name rows) by (rewrite okeys_obj_of by apply S1; by apply stored_keys).
  rewrite dedup_covered.
  - apply Permutation_map_inv in K as (ks & -> & Hks). symmetry in Hks.
    destruct (rows_of_names rows Hp Hn ks counter) as (l' & c' & -> & E); [|done|done|].
    { intros r Hr. by rewrite <-Hks. }
    exists l', c'. split; [done|]. rewrite E. by apply Permutation_map.
  - apply NoDup_ospread. constructor.
  - intros k. rewrite (okeys_obj_of (serialized_maps rows).2) by apply S2. rewrite (okeys_obj_of (serialized_maps rows).1) by apply S1.
    apply serialized_keys.
Qed.

Definition plain_rows : list GroupPricingRow :=
  [MkRow (js "gpr_1") (js "vip") (num_of_Z 2) true (js "a"); MkRow (js "gpr_2") (js "10") (num_of_Z 3) false []].

Lemma rows_reopened_witness :
  Forall plain_row plain_rows
  /\ exists rows' counter', buildGroupPricingRows (serializeGroupPricingRows plain_rows).1 (serializeGroupPricingRows plain_rows).2 7 = Ok (rows', counter')
       /\ map content rows' ≡ₚ map content plain_rows.
Proof.
  assert (Hp : Forall plain_row plain_rows).
  { repeat constructor; try (vm_compute; reflexivity); try discriminate. }
  split; [exact Hp|]. apply (rows_reopened plain_rows 7 Hp). decide_now.
Defined.
