(* ===== verification/GroupPageFacts.v ===== *)
(** * The page of the group settings: its invariant and what saving leaves *)
From S2P Require Import Prelude JsString JsNumber JsNumberFacts JsValue JsValueFacts JsJson JsJsonFacts JsJsonRoundtrip JsStorable GroupSettings GroupPage GroupTableFacts.
Open Scope N_scope.

(** ** The table and the texts *)

(** The rows print the stored texts, or are what the texts say. *)
Definition agrees (x : GroupFormValues) (t : Table) : Prop :=
  groupPricingSignature (rows t) = sourceGroupPricingSignature (text x GroupRatio) (text x UserUsableGroups)
  \/ exists c, rebuilt x c = Ok t.

Definition table_ok (x : GroupFormValues) (t : Table) : Prop := ids_ok t /\ agrees x t.

Lemma agrees_texts x y t :
  text x GroupRatio = text y GroupRatio -> text x UserUsableGroups = text y UserUsableGroups -> agrees x t -> agrees y t.
Proof. intros E1 E2. unfold agrees, rebuilt. by rewrite E1, E2. Qed.

Lemma synced_ok x t t' : ids_ok t -> sync_rows x t = Ok t' -> table_ok x t'.
Proof.
  intros Hi. unfold sync_rows. case_bool_decide as Hs.
  - intros [= <-]. split; [done|by left].
  - intros H. split; [by eapply ids_rebuilt|]. right. by exists (row_counter t).
Qed.

Lemma emitted_text t x f :
  text (emitRows t x) f
  = match f with
    | GroupRatio => (serializeGroupPricingRows (rows t)).1
    | UserUsableGroups => (serializeGroupPricingRows (rows t)).2
    | _ => text x f
    end.
Proof. by destruct f. Qed.

Lemma emitted_agrees t x : groupPricingSignature (rows t)
  = sourceGroupPricingSignature (text (emitRows t x) GroupRatio) (text (emitRows t x) UserUsableGroups).
Proof. by rewrite !emitted_text. Qed.

Lemma mounted_ok p q : mount_lists p = Ok q -> table_ok (values q) (table q) /\ visual q = true.
Proof.
  unfold mount_lists. destruct (rebuilt (values p) _) as [t|] eqn:Et; [|done]. cbn [res_bind].
  destruct (sync_rows (values p) t) as [t'|] eqn:Es; [|done]. cbn [res_bind]. destruct (flattenRules _ _) as [rc|]; [|done].
  cbn [res_bind]. destruct (shown_lists _); [|done]. cbn [res_bind]. intros [= <-]. split; [|done].
  eapply synced_ok; [|exact Es]. by eapply ids_rebuilt.
Qed.

(** Handlers other than those of the table leave the rows. *)
Lemma handler_table e p q :
  handler e p = Ok q ->
  visual q = visual p
  /\ table q = match e with ETable e => edit_table (table p) e | _ => table p end.
Proof.
  destruct e; cbn [handler]; intros H;
    repeat match type of H with
    | res_bind ?c _ = _ => destruct c eqn:?; [|done]; cbn [res_bind] in H
    | (let (_, _) := ?c in _) = _ => destruct c eqn:?
    | match ?c with ADelete _ => _ | AMove _ _ => _ end = _ => destruct c
    end; apply Ok_inj in H as <-; try done;
    match goal with |- context [write _ ?o _] => by destruct o end.
Qed.

Lemma handled_ids e p : ids_ok (table p) -> ids_ok (table (handled e p)) /\ visual (handled e p) = visual p.
Proof.
  intros Hi. unfold handled. case_bool_decide; [done|]. destruct (handler e p) as [q|] eqn:E; cbn [catch]; [|done].
  destruct (handler_table e p q E) as [Hv ->]. split; [|done]. destruct e; [by apply ids_edit|done..].
Qed.

(** What holds between two events. *)
Definition page_ok (p : Page) : Prop := visual p = true -> table_ok (values p) (table p).

Lemma toggled_ok p q : page_ok p -> step p EToggle = Ok q -> page_ok q.
Proof.
  intros _. unfold step. destruct (visual p); [intros [= <-]; discriminate|].
  intros H. apply mounted_ok in H as [H _]. by intros _.
Qed.

(** A step of the lists, apart from the switch to the texts. *)
Lemma list_step p e q :
  e <> EToggle -> step p e = Ok q ->
  if visual (handled e p)
  then exists t, (if texts_kept p (handled e p) then Ok (table (handled e p)) else sync_rows (values (handled e p)) (table (handled e p))) = Ok t
         /\ q = set_table t (handled e p)
  else q = handled e p.
Proof.
  intros He H. assert (E : (if visual (handled e p) then
     let* t := if texts_kept p (handled e p) then Ok (table (handled e p)) else sync_rows (values (handled e p)) (table (handled e p)) in
     let* _ := shown_lists (values (handled e p)) in let* _ := grouped (rules (special (handled e p))) in Ok (set_table t (handled e p))
     else Ok (handled e p)) = Ok q) by (by destruct e).
  destruct (visual (handled e p)); [|by apply Ok_inj in E].
  destruct (if texts_kept _ _ then _ else _) as [t|]; [|done]. cbn [res_bind] in E. destruct (shown_lists _); [|done]. cbn [res_bind] in E.
  destruct (grouped _); [|done]. cbn [res_bind] in E. apply Ok_inj in E as <-. by exists t.
Qed.

Lemma kept_texts p q : texts_kept p q = true ->
  text (values p) GroupRatio = text (values q) GroupRatio /\ text (values p) UserUsableGroups = text (values q) UserUsableGroups.
Proof. unfold texts_kept. intros [H1 H2]%andb_true_iff. by apply bool_decide_eq_true in H1, H2. Qed.

(** A handled event of the table, or the same rows. *)
Lemma handled_cases e p :
  visual (handled e p) = visual p
  /\ (table (handled e p) = table p
      \/ exists e', e = ETable e' /\ table (handled e p) = edit_table (table p) e' /\ values (handled e p) = emitRows (edit_table (table p) e') (values p)).
Proof.
  unfold handled. case_bool_decide; [split; [done|by left]|]. destruct (handler e p) as [q|] eqn:E; cbn [catch]; [|split; [done|by left]].
  destruct (handler_table e p q E) as [Hv Ht]. split; [done|]. destruct e; try (by left). right. exists e.
  cbn [handler] in E. apply Ok_inj in E as <-. done.
Qed.

Lemma page_step p e q : page_ok p -> step p e = Ok q -> page_ok q.
Proof.
  intros Hp H. assert (He : e = EToggle \/ e <> EToggle) by (destruct e; auto; right; discriminate).
  destruct He as [->|He]; [by eapply toggled_ok|].
  pose proof (list_step p e q He H) as Hq. destruct (handled_cases e p) as [Hv Hc].
  destruct (visual (handled e p)) eqn:Hv'; [|subst q; intros Hv''; congruence].
  destruct Hq as (t & Ht & ->). intros _. cbn [set_table values table]. symmetry in Hv. destruct (Hp Hv) as [Hi Ha].
  destruct (handled_ids e p Hi) as [Hi' _].
  destruct (texts_kept p (handled e p)) eqn:Hk; [|by eapply synced_ok].
  apply Ok_inj in Ht as <-. split; [done|]. apply kept_texts in Hk as [K1 K2].
  destruct Hc as [->|(e' & _ & -> & ->)]; [by eapply agrees_texts|]. left. apply emitted_agrees.
Qed.

Lemma page_run p es q : page_ok p -> run p es = Ok q -> page_ok q.
Proof.
  revert p. induction es as [|e es IH]; intros p Hp; cbn [run]; [by intros [= <-]|].
  destruct (step p e) as [p'|] eqn:E; [|done]. cbn [res_bind]. apply IH. by eapply page_step.
Qed.

(** C33.  Along every run of the page - edits in the table, in the lists and in
    the dialogs, texts, and options that are loaded again - the rows shown
    print the stored texts or are what the texts say, and their identifiers
    are distinct. *)
Theorem table_follows_texts (x : GroupFormValues) (es : list Event) (p q : Page) :
  open_page x = Ok p -> run p es = Ok q -> visual q = true ->
  agrees (values q) (table q) /\ NoDup (map r_id (rows (table q))).
Proof.
  intros H0 H Hv. assert (Hp : page_ok p) by (intros _; by eapply mounted_ok).
  destruct (page_run p es q Hp H Hv) as [[Hn _] Ha]. done.
Qed.

Definition sample_values : GroupFormValues :=
  MkValues (fun f => match f with
                     | GroupRatio => jsq "{`default`:1,`vip`:2}" | UserUsableGroups => jsq "{`vip`:`best`}"
                     | AutoGroups => jsq "[`default`]" | _ => [] end) false.

(** A computation that gives a value with a property, by evaluation. *)
Definition gives {A} (P : A -> bool) (c : res A) : bool := match c with Ok a => P a | Throw _ => false end.

Lemma gives_ok {A} (P : A -> bool) (c : res A) : gives P c = true -> exists a, c = Ok a /\ P a = true.
Proof. destruct c; [eauto|done]. Qed.

Lemma table_follows_texts_witness :
  exists p q, open_page sample_values = Ok p /\ run p [ETable TAdd; ETable (TEdit (js "gpr_1") (RName (js "base")))] = Ok q
    /\ agrees (values q) (table q).
Proof.
  set (es := [ETable TAdd; ETable (TEdit (js "gpr_1") (RName (js "base")))]).
  destruct (gives_ok (fun p => gives (fun q => visual q) (run p es)) (open_page sample_values)) as (p & E0 & H); [vm_compute; reflexivity|].
  destruct (gives_ok _ _ H) as (q & E & Hv). exists p, q. split; [done|]. split; [done|].
  exact (proj1 (table_follows_texts sample_values es p q E0 E Hv)).
Defined.

(** An edit of the table is never overtaken by the effect that reads the
    texts: the rows are the edited ones, identifiers and unnamed rows
    included, and the two texts are what they print. *)
Theorem own_edit_kept (p q : Page) (e : TableEvent) :
  visual p = true -> step p (ETable e) = Ok q ->
  table q = edit_table (table p) e
  /\ text (values q) GroupRatio = (serializeGroupPricingRows (rows (table q))).1
  /\ text (values q) UserUsableGroups = (serializeGroupPricingRows (rows (table q))).2
  /\ forall f, f <> GroupRatio -> f <> UserUsableGroups -> text (values q) f = text (values p) f.
Proof.
  intros Hv H. pose proof (list_step p (ETable e) q ltac:(discriminate) H) as Hq.
  assert (E : handled (ETable e) p = set_values (emitRows (edit_table (table p) e) (values p)) (set_table (edit_table (table p) e) p)).
  { unfold handled. cbn [for_lists]. rewrite bool_decide_eq_false_2; [done|]. by rewrite Hv. }
  rewrite E in Hq. change (visual (set_values _ (set_table _ p))) with (visual p) in Hq. rewrite Hv in Hq.
  destruct Hq as (t & Ht & ->). set (t0 := edit_table (table p) e) in *.
  assert (t = t0) as ->.
  { change (table (set_values _ (set_table t0 p))) with t0 in Ht. change (values (set_values ?v _)) with v in Ht.
    destruct (texts_kept _ _); [by apply Ok_inj in Ht|]. unfold sync_rows in Ht.
    rewrite bool_decide_eq_true_2 in Ht by apply emitted_agrees. by apply Ok_inj in Ht. }
  cbn [set_table set_values values table]. split; [done|]. rewrite !emitted_text. split; [done|]. split; [done|].
  intros f H1 H2. rewrite emitted_text. by destruct f.
Qed.

Lemma own_edit_kept_witness :
  exists p q, open_page sample_values = Ok p /\ step p (ETable (TEdit (js "gpr_1") (RName []))) = Ok q
    /\ table q = edit_table (table p) (TEdit (js "gpr_1") (RName [])).
Proof.
  set (e := TEdit (js "gpr_1") (RName [])).
  destruct (gives_ok (fun p => visual p && gives (fun _ => true) (step p (ETable e))) (open_page sample_values))
    as (p & E0 & [Hv H]%andb_true_iff); [vm_compute; reflexivity|].
  destruct (gives_ok _ _ H) as (q & E & _). exists p, q. split; [done|]. split; [done|].
  exact (proj1 (own_edit_kept p q e Hv E)).
Defined.

(** ** Saving *)

(** A text as the lists write it, or none. *)
Definition list_text (v : jstr) : Prop :=
  v = [] \/ exists w, is_object w = true /\ printable w /\ v = stringify2 w.

Lemma object_text gap w : is_object w = true ->
  exists t op cl, default (js "undefined") (json_print gap [] w) = op :: t ++ [cl] /\ is_ws op = false /\ is_ws cl = false.
Proof.
  destruct w as [| | | | |l|o|]; try done; intros _; cbn [json_print default from_option id]; unfold id;
    match goal with |- context [json_wrap ?op ?cl gap [] ?parts] =>
      destruct (json_wrap_ends op cl gap [] parts) as [t ->]; by exists t, op, cl end.
Qed.

Lemma object_text_trim gap w : is_object w = true ->
  trim (default (js "undefined") (json_print gap [] w)) = default (js "undefined") (json_print gap [] w)
  /\ default (js "undefined") (json_print gap [] w) <> [].
Proof.
  intros H. destruct (object_text gap w H) as (t & op & cl & -> & Ho & Hc). split; [|done]. apply trim_id. unfold trimmed.
  change (op :: t ++ [cl]) with ((op :: t) ++ [cl]). rewrite rev_app_distr. cbn [rev app]. by rewrite Ho, Hc.
Qed.

Lemma normalized_list_text w : is_object w = true -> printable w -> normalizeJsonString (stringify2 w) = stringify w.
Proof.
  intros Ho [Hj Hi]. unfold normalizeJsonString. pose proof (json_parse_stringify2 w Hj Hi) as E. unfold stringify2 in *.
  destruct (object_text_trim [32; 32] w Ho) as [-> Hne]. destruct (default _ _) as [|c s]; [done|]. by rewrite E.
Qed.

Lemma normalized_again w : is_object w = true -> printable w ->
  normalizeJsonString (stringify w) = stringify w /\ formatJsonForTextarea (stringify w) = stringify2 w.
Proof.
  intros Ho [Hj Hi]. unfold normalizeJsonString, formatJsonForTextarea. pose proof (json_parse_stringify w Hj Hi) as E. unfold stringify in *.
  destruct (object_text_trim [] w Ho) as [-> Hne]. destruct (default (js "undefined") (json_print [] [] w)) as [|c s] eqn:Es; [done|].
  rewrite E. cbn [res_map res_bind catch]. by rewrite Es.
Qed.

(** A text that spells an object or a list, however it is laid out, or a blank
    one. *)
Definition json_text (v : jstr) : Prop :=
  trim v = [] \/ exists w, is_object w = true /\ printable w /\ json_parse (trim v) = Ok w.

Lemma list_json_text v : list_text v -> json_text v.
Proof.
  intros [->|(w & Ho & [Hj Hi] & ->)]; [by left|]. right. exists w. split; [done|]. split; [done|].
  pose proof (json_parse_stringify2 w Hj Hi) as E. unfold stringify2 in *. by destruct (object_text_trim [32; 32] w Ho) as [-> _].
Qed.

(** The text after it was stored and loaded again: laid out as the lists write
    it, with the same meaning; and once more it does not change. *)
Definition reloaded (v : jstr) : jstr := formatJsonForTextarea (normalizeJsonString v).

Lemma json_text_reloaded v : json_text v ->
  list_text (reloaded v) /\ normalizeJsonString (reloaded v) = normalizeJsonString v
  /\ normalizeJsonString (normalizeJsonString v) = normalizeJsonString v
  /\ safeJsonParse (reloaded v) (VObj []) = safeJsonParse v (VObj []).
Proof.
  unfold reloaded. intros [E|(w & Ho & Hp & E)].
  - assert (normalizeJsonString v = []) as -> by (unfold normalizeJsonString; by rewrite E).
    split; [by left|]. split; [done|]. split; [done|]. unfold safeJsonParse. by rewrite E.
  - assert (En : normalizeJsonString v = stringify w).
    { unfold normalizeJsonString. destruct (trim v) as [|c s]; [discriminate E|]. by rewrite E. }
    rewrite En. destruct (normalized_again w Ho Hp) as [-> ->]. split; [right; by exists w|]. split; [by apply normalized_list_text|].
    split; [done|]. destruct Hp as [Hj Hi]. unfold safeJsonParse. pose proof (json_parse_stringify2 w Hj Hi) as E2.
    unfold stringify2 in *. destruct (object_text_trim [32; 32] w Ho) as [-> Hne].
    destruct (default (js "undefined") (json_print [32; 32] [] w)) as [|c s]; [done|]. rewrite E2. destruct (trim v) as [|c' s']; [discriminate E|]. by rewrite E.
Qed.

Lemma list_text_reloaded v : list_text v -> reloaded v = v.
Proof.
  intros [->|(w & Ho & Hp & ->)]; [done|]. unfold reloaded. rewrite normalized_list_text by done.
  by destruct (normalized_again w Ho Hp) as [_ ->].
Qed.

Lemma changed_text_nil d n f : text n f = text d f -> changed_text d n f = [].
Proof. intros E. unfold changed_text. by rewrite bool_decide_eq_true_2. Qed.

(** The rows print what the two texts say. *)
Definition in_step (p : Page) : Prop :=
  groupPricingSignature (rows (table p)) = sourceGroupPricingSignature (text (values p) GroupRatio) (text (values p) UserUsableGroups).

(** C34.  When what the form holds was stored and the options are loaded again,
    nothing is left to be saved and the rules are as they were.  A text that
    the lists wrote does not change; one that was typed (an object or a list,
    in any layout) is laid out as the lists would write it, with the same
    meaning.  The rows, with their identifiers, are as they were if both their
    texts are texts of the lists or the rows print what the texts say.  The
    texts have to be blank or to spell an object or a list that JSON prints
    back. *)
Theorem saved_values_reloaded (p q : Page) :
  (forall f, json_text (text (values p) f)) ->
  step p (EDefaults (map_texts normalizeJsonString (values p))) = Ok q ->
  (forall f, text (values q) f = reloaded (text (values p) f) /\ list_text (text (values q) f)
     /\ normalizeJsonString (text (values q) f) = normalizeJsonString (text (values p) f))
  /\ (forall f, list_text (text (values p) f) -> text (values q) f = text (values p) f)
  /\ DefaultUseAutoGroup (values q) = DefaultUseAutoGroup (values p)
  /\ ((list_text (text (values p) GroupRatio) /\ list_text (text (values p) UserUsableGroups)) \/ in_step p -> table q = table p)
  /\ special q = special p
  /\ saveGroupRatios (defaults q) (values q) = [].
Proof.
  intros Ht H. set (x := map_texts normalizeJsonString (values p)) in *.
  pose proof (list_step p (EDefaults x) q ltac:(discriminate) H) as Hq.
  set (p' := MkPage (loaded x) (map_texts normalizeJsonString x) (visual p) (table p) (special p) (dialogs p)).
  assert (E : handled (EDefaults x) p = p') by done. rewrite E in Hq.
  assert (Hl : forall f, text (loaded x) f = reloaded (text (values p) f)) by done.
  assert (Hk : values q = loaded x /\ defaults q = map_texts normalizeJsonString x /\ special q = special p
    /\ ((list_text (text (values p) GroupRatio) /\ list_text (text (values p) UserUsableGroups)) \/ in_step p -> table q = table p)).
  { change (visual p') with (visual p) in Hq. destruct (visual p); [|by subst q]. destruct Hq as (t & Hk & ->).
    do 3 (split; [done|]). cbn [set_table table]. intros Hor. change (table p') with (table p) in Hk.
    destruct (texts_kept p p') eqn:K; [by apply Ok_inj in Hk|]. unfold sync_rows in Hk.
    rewrite bool_decide_eq_true_2 in Hk; [by apply Ok_inj in Hk|].
    destruct Hor as [[H1 H2]|Hs].
    - exfalso. revert K. unfold texts_kept. change (values p') with (loaded x). rewrite !Hl, !list_text_reloaded by done.
      by rewrite !bool_decide_eq_true_2 by done.
    - rewrite Hs. unfold sourceGroupPricingSignature. change (values p') with (loaded x). rewrite !Hl.
      destruct (json_text_reloaded _ (Ht GroupRatio)) as (_ & _ & _ & ->).
      by destruct (json_text_reloaded _ (Ht UserUsableGroups)) as (_ & _ & _ & ->). }
  destruct Hk as (-> & -> & Hs & Htab). split; [|split; [|split; [|split; [|split]]]]; [|  |done|done|done|].
  - intros f. destruct (json_text_reloaded _ (Ht f)) as (H1 & H2 & _). by rewrite Hl.
  - intros f Hf. by rewrite Hl, list_text_reloaded.
  - assert (C : forall f, changed_text (map_texts normalizeJsonString x) (map_texts normalizeJsonString (loaded x)) f = []).
    { intros f. apply changed_text_nil. cbn [map_texts text]. fold (text (loaded x) f). rewrite (Hl f).
      destruct (json_text_reloaded _ (Ht f)) as (_ & -> & E2 & _). symmetry. exact E2. }
    unfold saveGroupRatios. cbn [flat_map]. rewrite !C. cbn [app]. cbn [map_texts DefaultUseAutoGroup loaded].
    by rewrite Bool.eqb_reflx.
Qed.

Lemma mounted_values p q : mount_lists p = Ok q -> values q = values p.
Proof.
  unfold mount_lists. destruct (rebuilt _ _); [|done]. cbn [res_bind]. destruct (sync_rows _ _); [|done]. cbn [res_bind].
  destruct (flattenRules _ _); [|done]. cbn [res_bind]. destruct (shown_lists _); [|done]. by intros [= <-].
Qed.

Lemma sample_list_text f : list_text (text (loaded sample_values) f).
Proof.
  destruct f; try (by left); right.
  - exists (VObj [(js "default", VNum (num_of_Z 1)); (js "vip", VNum (num_of_Z 2))]). split; [done|].
    split; [split; [vm_compute; reflexivity|]|vm_compute; reflexivity]. apply in_order_obj. split; [vm_compute; reflexivity|]. by repeat constructor.
  - exists (VObj [(js "vip", VStr (js "best"))]). split; [done|].
    split; [split; [vm_compute; reflexivity|]|vm_compute; reflexivity]. apply in_order_obj. split; [vm_compute; reflexivity|]. by repeat constructor.
  - exists (VArr [VStr (js "default")]). split; [done|]. split; [|vm_compute; reflexivity]. split; [vm_compute; reflexivity|].
    apply in_order_arr. by repeat constructor.
Qed.

(** A compact ratio table that was typed in the text. *)
Definition typed_values : GroupFormValues := set_text GroupRatio (jsq "{`vip`:1}") (loaded sample_values).

Lemma typed_json_text f : json_text (text typed_values f).
Proof.
  unfold typed_values. cbn [set_text text]. case_bool_decide as E; [subst f|by apply list_json_text, sample_list_text].
  right. exists (VObj [(js "vip", VNum (num_of_Z 1))]). split; [done|]. split; [|vm_compute; reflexivity].
  split; [vm_compute; reflexivity|]. apply in_order_obj. split; [vm_compute; reflexivity|]. by repeat constructor.
Qed.

(** The lists' own texts; and a compact text that was typed, the rows of which
    stay. *)
Lemma saved_values_reloaded_witness :
  (exists p q, open_page sample_values = Ok p /\ step p (EDefaults (map_texts normalizeJsonString (values p))) = Ok q
    /\ table q = table p /\ saveGroupRatios (defaults q) (values q) = [])
  /\ exists p q, mount_lists (MkPage typed_values typed_values false (MkTable [] 0) (MkSpecial [] 0 []) no_dialogs) = Ok p
    /\ step p (EDefaults (map_texts normalizeJsonString (values p))) = Ok q
    /\ text (values q) GroupRatio <> text (values p) GroupRatio /\ table q = table p /\ saveGroupRatios (defaults q) (values q) = [].
Proof.
  split.
  - destruct (gives_ok (fun p => gives (fun _ => true) (step p (EDefaults (map_texts normalizeJsonString (values p)))))
              (open_page sample_values)) as (p & E0 & H); [vm_compute; reflexivity|].
    destruct (gives_ok _ _ H) as (q & E & _). exists p, q. split; [done|]. split; [done|].
    assert (Ht : forall f, list_text (text (values p) f)) by (intros f; rewrite (mounted_values _ _ E0); apply sample_list_text).
    destruct (saved_values_reloaded p q (fun f => list_json_text _ (Ht f)) E) as (_ & _ & _ & H1 & _ & H2).
    split; [apply H1; left; split; apply Ht|exact H2].
  - set (p0 := MkPage typed_values typed_values false (MkTable [] 0) (MkSpecial [] 0 []) no_dialogs).
    destruct (gives_ok (fun p => bool_decide (in_step p) && gives (fun _ => true) (step p (EDefaults (map_texts normalizeJsonString (values p)))))
              (mount_lists p0)) as (p & E0 & [Hs%bool_decide_eq_true H]%andb_true_iff); [vm_compute; reflexivity|].
    destruct (gives_ok _ _ H) as (q & E & _). exists p, q. split; [done|]. split; [done|].
    assert (Hv : values p = typed_values) by exact (mounted_values _ _ E0).
    destruct (saved_values_reloaded p q ltac:(intros f; rewrite Hv; apply typed_json_text) E) as (H0 & _ & _ & H1 & _ & H2).
    split; [|split; [by apply H1; right|exact H2]]. destruct (H0 GroupRatio) as [-> _]. rewrite Hv. vm_compute. discriminate.
Defined.

(** ** What goes wrong *)

(** The schema accepts a text that takes the page down when the lists are
    shown. *)
Lemma null_accepted :
  let x := MkValues (fun f => if bool_decide (f = GroupRatio) then js "null" else []) false in
  createGroupSchema x = true /\ open_page x = Throw TypeError.
Proof. split; vm_compute; reflexivity. Qed.

(** So does a new group of rules named like a property of every object. *)
Lemma inherited_group_name :
  gives (fun p => negb (gives (fun _ => true) (run p [ESpecial (UName (js "constructor")); ESpecial UAddGroup])))
    (open_page sample_values) = true.
Proof. vm_compute. reflexivity. Qed.

(** An empty ratio is 0, not the default 1. *)
Lemma cleared_ratio r : r_ratio (edit_row (RRatio []) r) = nzero.
Proof. done. Qed.

(** The rules editor keeps its rules when the options are loaded again, and
    the next edit stores them. *)
Definition other_rules : GroupFormValues :=
  MkValues (fun f => if bool_decide (f = GroupSpecialUsableGroup) then jsq "{`vip`:{`+:x`:`new`}}" else text sample_values f) false.

Lemma reloaded_rules_lost :
  gives (fun p => gives (fun q => bool_decide (text (values q) GroupSpecialUsableGroup = js "{}"))
                    (run p [EDefaults other_rules; ESpecial (UAdd (js "vip"))])) (open_page sample_values) = true.
Proof. vm_compute. reflexivity. Qed.

(** The field of a ratio accepts a text that is stored as [null]. *)
Lemma infinite_ratio_stored_null :
  is_ratio_text (js "Infinity") = true
  /\ handleSimpleSave (js "{}") None (js "vip") (js "Infinity") = Ok (js "{" ++ [10] ++ jsq "  `vip`: null" ++ [10] ++ js "}").
Proof. split; vm_compute; reflexivity. Qed.
