(* ===== verification/GroupRulesFacts.v ===== *)
(** * The lists of the group settings: rules, overrides and the order of groups *)
From S2P Require Import Prelude JsString JsNumber JsValue JsValueFacts JsJson JsJsonFacts JsJsonRoundtrip JsStorable GroupSettings GroupTableFacts.
Open Scope N_scope.

(** ** Rules are read and written back *)

Lemma oset_oset k v w o : oset k v (oset k w o) = oset k v o.
Proof.
  unfold oset at 1. rewrite olookup_oset_eq. unfold oset. destruct (olookup k o) as [u|] eqn:E.
  - clear E. induction o as [|[k' v'] o IH]; [done|]. cbn [oreplace]. destruct (decide (k = k')) as [->|Hne].
    + rewrite !(bool_decide_eq_true_2 (k' = k')) by done. cbn [oreplace]. by rewrite bool_decide_eq_true_2.
    + rewrite !(bool_decide_eq_false_2 (k = k')) by done. cbn [oreplace]. by rewrite bool_decide_eq_false_2, IH.
  - induction o as [|[k' v'] o IH]; cbn [oinsert oreplace].
    { by rewrite bool_decide_eq_true_2. }
    cbn [olookup] in E. destruct (decide (k = k')) as [->|Hne]; [by rewrite bool_decide_eq_true_2 in E|].
    rewrite bool_decide_eq_false_2 in E by done. pose proof (IH E) as IH'.
    assert (T : bool_decide (k = k) = true) by (by apply bool_decide_eq_true_2).
    assert (F : bool_decide (k = k') = false) by (by apply bool_decide_eq_false_2).
    cbn [oinsert] in IH'.
    destruct (array_index k) as [n|]; [destruct (array_index k') as [n'|]; [destruct (n <? n')|]|]; cbn [oreplace];
      rewrite ?T, ?F, ?IH'; done.
Qed.

(** The key of a rule spells the rule. *)
Lemma prefix_split k : toRawKey (parsePrefix k).1 (parsePrefix k).2 = k.
Proof.
  unfold parsePrefix. destruct (starts_with (js "+:") k) eqn:Ha; [|destruct (starts_with (js "-:") k) eqn:Hr]; [..|done].
  - by apply starts_with_spec in Ha as [t ->].
  - by apply starts_with_spec in Hr as [t ->].
Qed.

(** A stored rule that the editor shows as it is. *)
Record stored_rule (kv : jstr * jsval) : Prop := {
  sr_own : kv.1 <> js "__proto__";
  sr_target : (parsePrefix kv.1).2 <> [];
  sr_value : exists d, kv.2 = VStr d /\ ((parsePrefix kv.1).1 = OP_REMOVE -> d = js "remove") }.

Record stored_group (gv : jstr * jsval) : Prop := {
  sg_name : gv.1 <> [];
  sg_own : inherited gv.1 = VUndef;
  sg_rules : exists inner, gv.2 = VObj inner /\ inner <> [] /\ obj_of inner = inner /\ Forall stored_rule inner }.

Lemma own_name g : inherited g = VUndef -> g <> js "__proto__".
Proof. intros H ->. by vm_compute in H. Qed.

Lemma assign_oset g v o : g <> js "__proto__" -> assign_own g v o = oset g v o.
Proof. intros H. unfold assign_own. by rewrite bool_decide_eq_false_2. Qed.

Lemma str_truthy_true s : s <> [] -> str_truthy s = true.
Proof. by destruct s. Qed.

(** One rule goes into the object of its group. *)
Lemma nest_one i g kv d acc base :
  stored_rule kv -> kv.2 = VStr d -> g <> [] -> inherited g = VUndef ->
  (olookup g acc = Some (VObj base) \/ olookup g acc = None /\ base = []) ->
  nest_rule acc (rule_of i g kv) = oset g (VObj (oset kv.1 (VStr d) base)) acc.
Proof.
  intros [Ho Ht (d' & Ev & Hd)] E Hg Hi Hb. rewrite E in Ev. injection Ev as <-. unfold nest_rule, rule_of. rewrite E.
  pose proof (prefix_split kv.1) as Hk. destruct (parsePrefix kv.1) as [op name]. cbn [fst snd] in *.
  cbn [u_group u_target u_op u_description]. rewrite (str_truthy_true g), (str_truthy_true name) by done. cbn [negb orb].
  assert (Hdesc : match op with OP_REMOVE => js "remove" | _ => d end = d) by (destruct op; [done|symmetry; by apply Hd|done]).
  rewrite Hdesc, Hk. unfold oget. pose proof (own_name g Hi) as Hp. destruct Hb as [Hb|[Hb ->]]; rewrite Hb; cbn [default from_option].
  - cbn [id truthy]. rewrite Hb, !assign_oset by done. done.
  - rewrite Hi. cbn [truthy]. rewrite (assign_oset g) by done. rewrite olookup_oset_eq, !assign_oset by done. by rewrite oset_oset.
Qed.

(** The rules of a group, from what the group already has. *)
Lemma nest_inner g inner c acc base :
  g <> [] -> inherited g = VUndef -> Forall stored_rule inner -> olookup g acc = Some (VObj base) ->
  fold_left nest_rule (group_rules g inner c).1 acc = oset g (VObj (ospread base inner)) acc.
Proof.
  intros Hg Hi. revert c acc base. induction inner as [|kv inner IH]; intros c acc base Hf Hb.
  - cbn [group_rules fst fold_left ospread]. unfold oset. rewrite Hb. clear -Hb. induction acc as [|[k v] acc IH]; [done|].
    cbn [olookup oreplace] in *. case_bool_decide; [injection Hb as ->; by subst|]. by rewrite <-IH.
  - apply Forall_cons in Hf as [Hr Hf]. cbn [group_rules uid]. pose proof (sr_value kv Hr) as (d & Ed & _).
    destruct (group_rules g inner (c + 1)) as [l c'] eqn:El. cbn [fst fold_left].
    rewrite (nest_one _ g kv d acc base) by (done || by left).
    pose proof (IH (c + 1) (oset g (VObj (oset kv.1 (VStr d) base)) acc) (oset kv.1 (VStr d) base) Hf (olookup_oset_eq _ _ _)) as H.
    rewrite El in H. cbn [fst] in H. rewrite H, oset_oset. unfold ospread. cbn [fold_left]. by rewrite Ed.
Qed.

Lemma nest_group g inner c acc :
  stored_group (g, VObj inner) -> olookup g acc = None ->
  fold_left nest_rule (group_rules g inner c).1 acc = oset g (VObj inner) acc.
Proof.
  intros [Hg Hi (inner' & [= <-] & Hne & Ho & Hf)] Hn. cbn [fst] in *. destruct inner as [|kv inner]; [done|].
  apply Forall_cons in Hf as [Hr Hf]. cbn [group_rules uid]. pose proof (sr_value kv Hr) as (d & Ed & _).
  destruct (group_rules g inner (c + 1)) as [l c'] eqn:El. cbn [fst fold_left].
  rewrite (nest_one _ g kv d acc []) by (done || by right).
  pose proof (nest_inner g inner (c + 1) (oset g (VObj (oset kv.1 (VStr d) [])) acc) (oset kv.1 (VStr d) []) Hg Hi Hf (olookup_oset_eq _ _ _)) as H.
  rewrite El in H. cbn [fst] in H. rewrite H, oset_oset. do 2 f_equal. etransitivity; [|exact Ho]. unfold obj_of, ospread. cbn [fold_left]. by rewrite Ed.
Qed.

Lemma nest_groups nested c acc :
  Forall stored_group nested -> okeys_nodup nested -> (forall k, k ∈ okeys nested -> olookup k acc = None) ->
  fold_left nest_rule (flatten_groups nested c).1 acc = ospread acc nested.
Proof.
  intros Hf. revert c acc. induction Hf as [|[g v] nested Hg Hf IH]; intros c acc Hn Ha; [done|].
  pose proof (sg_rules _ Hg) as (inner & Ev & _). cbn [snd] in Ev. subst v. cbn [flatten_groups is_object entries].
  unfold okeys_nodup in Hn. cbn [okeys map fst] in Hn, Ha. apply NoDup_cons in Hn as [Hni Hn].
  pose proof (nest_group g inner c acc Hg (Ha g (list_elem_of_here _ _))) as H1.
  destruct (group_rules g inner c) as [l c1]. cbn [fst] in H1.
  pose proof (IH c1 (oset g (VObj inner) acc) Hn) as H2. destruct (flatten_groups nested c1) as [l' c2]. cbn [fst] in H2 |- *.
  rewrite fold_left_app, H1, H2; [done|]. intros k Hk. rewrite olookup_oset_ne; [apply Ha; by right|]. by intros ->.
Qed.

Lemma obj_of_nodup o : obj_of o = o -> okeys_nodup o.
Proof. intros <-. apply NoDup_ospread. constructor. Qed.

Lemma safe_parse_rules nested : storable nested -> safeParseJson (stringify2 (VObj nested)) = VObj (obj_of nested).
Proof.
  intros H. unfold safeParseJson. rewrite trim_stringify2. pose proof (storable_json2 nested H) as Hj.
  destruct (print_obj_ends [32; 32] nested) as [t E]. unfold stringify2 in *. rewrite E in *. by rewrite Hj.
Qed.

(** The special rules that are stored are shown and written back as they
    are: opening the editor and any edit that leaves the rules alone do not
    change the stored text. *)
Theorem stored_rules_kept (nested : jsobj) (counter : N) :
  obj_of nested = nested -> storable nested -> Forall stored_group nested ->
  exists rules counter', flattenRules (safeParseJson (stringify2 (VObj nested))) counter = Ok (rules, counter')
    /\ serializeRules rules = stringify2 (VObj nested).
Proof.
  intros Ho Hs Hf. rewrite safe_parse_rules, Ho by done. unfold flattenRules. cbn [keys_of entries res_bind].
  destruct (flatten_groups nested counter) as [rules counter'] eqn:E. exists rules, counter'. split; [done|].
  pose proof (nest_groups nested counter [] Hf (obj_of_nodup _ Ho) (fun _ _ => eq_refl)) as H. rewrite E in H. cbn [fst] in H.
  unfold serializeRules, nestRules. rewrite H. change (ospread [] nested) with (obj_of nested). rewrite Ho. by destruct nested.
Qed.

Definition sample_rules : jsobj :=
  [(js "vip", VObj [(js "+:gold", VStr (js "Gold")); (js "-:default", VStr (js "remove"))]); (js "edu", VObj [(js "lab", VStr [])])].

Definition stored_ruleb (kv : jstr * jsval) : bool :=
  negb (bool_decide (kv.1 = js "__proto__")) && str_truthy (parsePrefix kv.1).2
  && match kv.2 with
     | VStr d => negb (bool_decide ((parsePrefix kv.1).1 = OP_REMOVE)) || bool_decide (d = js "remove")
     | _ => false
     end.

Lemma stored_ruleb_ok l : forallb stored_ruleb l = true -> Forall stored_rule l.
Proof.
  intros H. apply forallb_Forall in H. eapply Forall_impl; [exact H|]. intros [k v]. unfold stored_ruleb. cbn [fst snd].
  destruct v; rewrite ?andb_false_r; try done. intros [[H1 H2]%andb_true_iff H3]%andb_true_iff.
  apply negb_true_iff, bool_decide_eq_false in H1. split; cbn [fst snd]; [done|by intros E; rewrite E in H2|].
  eexists. split; [done|]. intros Hr. rewrite Hr in H3. by apply bool_decide_eq_true in H3.
Qed.

Lemma sample_groups : Forall stored_group sample_rules.
Proof.
  apply Forall_cons. split; [|apply Forall_cons; split; [|apply Forall_nil; done]]; (split; [discriminate|vm_compute; reflexivity|]);
    eexists; (split; [reflexivity|]); (split; [discriminate|]); (split; [vm_compute; reflexivity|]); apply stored_ruleb_ok; vm_compute; reflexivity.
Qed.

Lemma sample_rules_storable : storable sample_rules.
Proof.
  split; [decide_now|]. apply Forall_cons. split; [|apply Forall_cons; split; [|apply Forall_nil; done]];
    (split; [vm_compute; reflexivity|]); (split; [vm_compute; reflexivity|]); apply in_order_obj; (split; [vm_compute; reflexivity|]); repeat constructor.
Qed.

Lemma stored_rules_kept_witness :
  Forall stored_group sample_rules
  /\ exists rules counter', flattenRules (safeParseJson (stringify2 (VObj sample_rules))) 0 = Ok (rules, counter')
       /\ serializeRules rules = stringify2 (VObj sample_rules).
Proof.
  split; [exact sample_groups|]. apply (stored_rules_kept sample_rules 0); [vm_compute; reflexivity|exact sample_rules_storable|exact sample_groups].
Defined.

(** A target typed with a prefix changes the meaning of its rule. *)
Lemma append_reread_as_add : parsePrefix (toRawKey OP_APPEND (js "+:lab")) = (OP_ADD, js "lab").
Proof. vm_compute. reflexivity. Qed.

(** ** Ratios between groups *)

(** The ratio stored for a group and a target. *)
Definition ratio_of (group target : jstr) (m : jsobj) : option jsval :=
  match olookup group m with Some (VObj inner) => olookup target inner | _ => None end.

Record overrides (m : jsobj) : Prop := {
  ov_order : obj_of m = m;
  ov_storable : storable m;
  ov_objects : forall g v, olookup g m = Some v -> exists inner, v = VObj inner }.

Lemma overrides_read m : overrides m -> safeJsonParse (stringify2 (VObj m)) (VObj []) = VObj m.
Proof. intros [Ho Hs _]. rewrite safe_parse_text by done. by rewrite Ho. Qed.

Lemma own_has g o v : olookup g o = Some v -> has_own g (VObj o) = true.
Proof.
  intros H. unfold has_own. cbn [entries]. rewrite orb_false_r. apply bool_decide_eq_true_2.
  destruct (decide (g ∈ okeys o)) as [|Hn]; [done|]. apply olookup_None in Hn. congruence.
Qed.

(** The group is there after [with_group]. *)
Lemma with_group_own g m : overrides m -> inherited g = VUndef ->
  exists m', with_group g (VObj m) = Ok (VObj m')
    /\ (exists inner, olookup g m' = Some (VObj inner) /\ forall b, olookup b inner = ratio_of g b m)
    /\ forall a, a <> g -> olookup a m' = olookup a m.
Proof.
  intros M Hi. unfold with_group, vget, oget. cbn [res_bind]. destruct (olookup g m) as [v|] eqn:E; cbn [default from_option].
  - destruct (ov_objects m M g v E) as (inner & ->). cbn [truthy]. exists m. split; [done|]. split; [|done].
    exists inner. split; [done|]. intros b. unfold ratio_of. by rewrite E.
  - rewrite Hi. cbn [truthy vset]. rewrite assign_oset by (by apply own_name). exists (oset g (VObj []) m). split; [done|]. split.
    + exists []. split; [apply olookup_oset_eq|]. intros b. unfold ratio_of. by rewrite E.
    + intros a Ha. by rewrite olookup_oset_ne.
Qed.

Lemma in_own_group g f m inner inner' :
  olookup g m = Some (VObj inner) -> f (VObj inner) = Ok (VObj inner') -> in_group g f (VObj m) = Ok (VObj (oset g (VObj inner') m)).
Proof.
  intros E Hf. unfold in_group, vget, oget. rewrite E. cbn [default from_option id res_bind]. rewrite Hf. cbn [res_bind].
  by rewrite (own_has g m (VObj inner)).
Qed.

(** Saving an override stores the ratio for the group and the target,
    drops the target that was edited when it is another one, and leaves every
    other ratio. *)
Theorem override_saved (m : jsobj) (group target : jstr) (ratio : num) (old : option jstr) :
  overrides m -> group <> [] -> inherited group = VUndef -> target <> js "__proto__" -> old <> Some [] ->
  exists m', handleOverrideSave (stringify2 (VObj m)) (Some group) target ratio old = Ok (Some (stringify2 (VObj m')))
    /\ forall a b, ratio_of a b m'
         = if bool_decide (a = group) && bool_decide (b = target) then Some (VNum ratio)
           else if bool_decide (a = group) && bool_decide (Some b = old) then None
           else ratio_of a b m.
Proof.
  intros M Hg Hi Ht Ho. destruct (with_group_own group m M Hi) as (m1 & H1 & (inner & E & Hin) & Hother).
  set (inner1 := match old with Some o => if bool_decide (o = target) then inner else odelete o inner | None => inner end).
  exists (oset group (VObj (oset target (VNum ratio) inner1)) m1). split.
  - unfold handleOverrideSave. destruct group as [|c group]; [done|]. rewrite overrides_read, H1 by done. cbn [res_bind].
    rewrite (in_own_group _ _ m1 inner (oset target (VNum ratio) inner1)); [done|done|].
    unfold inner1. destruct old as [[|c' o]|]; [done| |]; [case_bool_decide|]; cbn [res_bind vdelete vset]; by rewrite assign_oset.
  - intros a b. unfold ratio_of at 1. rewrite olookup_oset. destruct (decide (a = group)) as [->|Ha].
    + rewrite (bool_decide_eq_true_2 (group = group)) by done. cbn [andb]. rewrite olookup_oset.
      destruct (decide (b = target)) as [->|Hb]; [by rewrite !(bool_decide_eq_true_2 (target = target))|].
      rewrite (bool_decide_eq_false_2 (b = target)) by done. unfold inner1. destruct old as [o|].
      * destruct (decide (o = target)) as [->|Hne].
        { rewrite (bool_decide_eq_true_2 (target = target)) by done. rewrite bool_decide_eq_false_2; [apply Hin|congruence]. }
        rewrite (bool_decide_eq_false_2 (o = target)) by done. rewrite olookup_odelete.
        destruct (decide (b = o)) as [->|Hbo]; [by rewrite !bool_decide_eq_true_2|].
        rewrite (bool_decide_eq_false_2 (b = o)), bool_decide_eq_false_2 by congruence. apply Hin.
      * rewrite bool_decide_eq_false_2 by done. apply Hin.
    + rewrite (bool_decide_eq_false_2 (a = group)) by done. cbn [andb]. unfold ratio_of. by rewrite Hother.
Qed.

(** Deleting an override removes its ratio and no other, and a group
    without ratios is removed with its last one. *)
Theorem override_deleted (m : jsobj) (group target : jstr) :
  overrides m -> inherited group = VUndef ->
  exists m', handleOverrideDelete (stringify2 (VObj m)) group target = Ok (stringify2 (VObj m'))
    /\ (forall a b, ratio_of a b m' = if bool_decide (a = group) && bool_decide (b = target) then None else ratio_of a b m)
    /\ olookup group m' <> Some (VObj []).
Proof.
  intros M Hi. unfold handleOverrideDelete. rewrite overrides_read by done. unfold vget at 1, oget.
  destruct (olookup group m) as [v|] eqn:E; cbn [default from_option res_bind].
  - destruct (ov_objects m M group v E) as (inner & ->). cbn [id truthy].
    rewrite (in_own_group group _ m inner (odelete target inner)) by done. cbn [res_bind]. unfold vget, oget. rewrite olookup_oset_eq.
    cbn [default from_option id res_bind keys_of entries].
    assert (R : forall a b, ratio_of a b (oset group (VObj (odelete target inner)) m)
                = if bool_decide (a = group) && bool_decide (b = target) then None else ratio_of a b m).
    { intros a b. unfold ratio_of. rewrite olookup_oset. destruct (decide (a = group)) as [->|Ha].
      - rewrite (bool_decide_eq_true_2 (group = group)) by done. cbn [andb]. by rewrite olookup_odelete, E.
      - by rewrite (bool_decide_eq_false_2 (a = group)). }
    destruct (odelete target inner) as [|kv rest] eqn:Ed; cbn [okeys map res_bind].
    + eexists. split; [done|]. split; [|rewrite olookup_odelete; by rewrite bool_decide_eq_true_2].
      intros a b. rewrite <-R. unfold ratio_of. rewrite olookup_odelete, olookup_oset. destruct (decide (a = group)) as [->|Ha].
      * by rewrite !(bool_decide_eq_true_2 (group = group)).
      * by rewrite !(bool_decide_eq_false_2 (a = group)).
    + eexists. split; [done|]. split; [exact R|]. rewrite olookup_oset_eq. congruence.
  - rewrite Hi. cbn [truthy res_bind]. exists m. split; [done|]. split; [|by rewrite E].
    intros a b. unfold ratio_of. destruct (decide (a = group)) as [->|Ha]; [rewrite E; by destruct (_ && _)|].
    by rewrite (bool_decide_eq_false_2 (a = group)).
Qed.

Definition sample_overrides : jsobj :=
  [(js "vip", VObj [(js "a", VNum (num_of_Z 2))]); (js "edu", VObj [(js "b", VNum (num_of_Z 3))])].

Lemma sample_overrides_ok : overrides sample_overrides.
Proof.
  split; [vm_compute; reflexivity| |].
  - split; [decide_now|]. apply Forall_cons. split; [|apply Forall_cons; split; [|apply Forall_nil; done]];
      (split; [vm_compute; reflexivity|]); (split; [vm_compute; reflexivity|]); apply in_order_obj; (split; [vm_compute; reflexivity|]); repeat constructor.
  - intros g v Hv. apply olookup_elem in Hv. unfold sample_overrides in Hv. rewrite !elem_of_cons in Hv.
    destruct Hv as [[= _ ->]|[[= _ ->]|H]]; [eauto|eauto|by apply elem_of_nil in H].
Qed.

Lemma override_saved_witness :
  exists m', handleOverrideSave (stringify2 (VObj sample_overrides)) (Some (js "vip")) (js "c") (num_of_Z 5) (Some (js "a")) = Ok (Some (stringify2 (VObj m')))
    /\ ratio_of (js "vip") (js "c") m' = Some (VNum (num_of_Z 5)) /\ ratio_of (js "vip") (js "a") m' = None
    /\ ratio_of (js "edu") (js "b") m' = Some (VNum (num_of_Z 3)).
Proof.
  destruct (override_saved sample_overrides (js "vip") (js "c") (num_of_Z 5) (Some (js "a")) sample_overrides_ok) as (m' & H & R);
    [discriminate|vm_compute; reflexivity|discriminate|discriminate|].
  exists m'. split; [exact H|]. rewrite !R. split; [vm_compute; reflexivity|]. split; vm_compute; reflexivity.
Defined.

Lemma override_deleted_witness :
  exists m', handleOverrideDelete (stringify2 (VObj sample_overrides)) (js "vip") (js "a") = Ok (stringify2 (VObj m'))
    /\ ratio_of (js "vip") (js "a") m' = None /\ olookup (js "vip") m' <> Some (VObj []).
Proof.
  destruct (override_deleted sample_overrides (js "vip") (js "a") sample_overrides_ok) as (m' & H & R & E); [vm_compute; reflexivity|].
  exists m'. split; [exact H|]. rewrite R. split; [vm_compute; reflexivity|exact E].
Defined.

(** ** The order of the automatic groups *)

Lemma swap_lookup {A} i j (l : list A) x y k :
  l !! i = Some x -> l !! j = Some y -> i <> j ->
  swap i j l !! k = if bool_decide (k = j) then Some x else if bool_decide (k = i) then Some y else l !! k.
Proof.
  intros Hi Hj Hne. unfold swap. rewrite Hi, Hj. pose proof (lookup_lt_Some _ _ _ Hi). pose proof (lookup_lt_Some _ _ _ Hj).
  destruct (decide (k = j)) as [->|Hkj].
  - rewrite bool_decide_eq_true_2, list_lookup_insert_eq; [done|by rewrite length_insert|done].
  - rewrite bool_decide_eq_false_2, list_lookup_insert_ne by done. destruct (decide (k = i)) as [->|Hki].
    + by rewrite bool_decide_eq_true_2, list_lookup_insert_eq.
    + by rewrite bool_decide_eq_false_2, list_lookup_insert_ne.
Qed.

Lemma swap_swap {A} i j (l : list A) : (i < length l)%nat -> (j < length l)%nat -> i <> j -> swap j i (swap i j l) = l.
Proof.
  intros [x Hx]%lookup_lt_is_Some_2 [y Hy]%lookup_lt_is_Some_2 Hne. apply list_eq. intros k.
  rewrite (swap_lookup j i (swap i j l) x y).
  - rewrite (swap_lookup i j l x y) by done. destruct (decide (k = i)) as [->|Hki]; [by rewrite bool_decide_eq_true_2|].
    rewrite (bool_decide_eq_false_2 (k = i)) by done. destruct (decide (k = j)) as [->|Hkj]; [by rewrite bool_decide_eq_true_2|].
    by rewrite (bool_decide_eq_false_2 (k = j)).
  - rewrite (swap_lookup i j l x y) by done. by rewrite bool_decide_eq_true_2.
  - rewrite (swap_lookup i j l x y) by done. by rewrite bool_decide_eq_false_2, bool_decide_eq_true_2.
  - done.
Qed.

Lemma length_swap {A} i j (l : list A) : length (swap i j l) = length l.
Proof. unfold swap. destruct (l !! i), (l !! j); by rewrite ?length_insert. Qed.

(** A group that is moved can be moved back, and a group at the end of the
    list does not move. *)
Theorem moved_back {A} (i : nat) (up : bool) (l : list A) :
  (i < length l)%nat ->
  match moved i up l with
  | None => if up then i = 0%nat else S i = length l
  | Some l' => length l' = length l
      /\ moved (if up then i - 1 else i + 1)%nat (negb up) l' = Some l
  end.
Proof.
  intros Hi. unfold moved. destruct up; cbn [negb]; destruct (_ || _) eqn:E.
  - apply orb_true_iff in E as [E|E]; [apply Z.ltb_lt in E|apply Z.leb_le in E]; lia.
  - apply orb_false_iff in E as [E1 E2]. apply Z.ltb_ge in E1. split; [apply length_swap|]. rewrite length_swap.
    assert (((Z.of_nat (i - 1) + 1 <? 0) || (Z.of_nat (length l) <=? Z.of_nat (i - 1) + 1))%Z = false) as ->
      by (apply orb_false_iff; split; [apply Z.ltb_ge|apply Z.leb_gt]; lia).
    replace (Z.to_nat (Z.of_nat (i - 1) + 1)) with i by lia. replace (Z.to_nat (Z.of_nat i - 1)) with (i - 1)%nat by lia.
    f_equal. apply swap_swap; lia.
  - apply orb_true_iff in E as [E|E]; [apply Z.ltb_lt in E|apply Z.leb_le in E]; lia.
  - apply orb_false_iff in E as [E1 E2]. apply Z.leb_gt in E2. split; [apply length_swap|]. rewrite length_swap.
    assert (((Z.of_nat (i + 1) - 1 <? 0) || (Z.of_nat (length l) <=? Z.of_nat (i + 1) - 1))%Z = false) as ->
      by (apply orb_false_iff; split; [apply Z.ltb_ge|apply Z.leb_gt]; lia).
    replace (Z.to_nat (Z.of_nat (i + 1) - 1)) with i by lia. replace (Z.to_nat (Z.of_nat i + 1)) with (i + 1)%nat by lia.
    f_equal. apply swap_swap; lia.
Qed.
