(* ===== verification/UpstreamSync.v ===== *)
(** * Synchronising prices with upstream channels
      (features/system-settings/models/upstream-ratio-sync*.ts, tsx)

    The server compares the stored prices with those of the chosen channels;
    the administrator picks one value per model and kind of price; the picked
    values are merged into the ten stored tables, which are sent one by one.
    The page is a machine whose events are the handlers of its components and
    the answers of the server. *)
From stdpp Require Import gmap.
From S2P Require Import Prelude JsString JsNumber JsValue JsValueFacts JsJson ModelPricing.
Open Scope N_scope.

(** ** Fields (upstream-ratio-sync-helpers.ts, constants.ts) *)

Definition DEFAULT_ENDPOINT : jstr := js "/api/pricing".
Definition OFFICIAL_CHANNEL_ID : Z := -100.
Definition MODELS_DEV_PRESET_ID : Z := -101.
Definition MODELS_DEV_PRESET_ENDPOINT : jstr := js "https://models.dev/api.json".
Definition OPENROUTER_ENDPOINT : jstr := js "openrouter".
Definition OPENROUTER_CHANNEL_TYPE : Z := 20.

(** Label and value. *)
Definition ENDPOINT_OPTIONS : list (jstr * jstr) :=
  [ (js "pricing", js "/api/pricing"); (js "ratio_config", js "/api/ratio_config");
    (js "OpenRouter", OPENROUTER_ENDPOINT); (js "custom", js "custom") ].

Definition RATIO_TYPE_OPTIONS : list (jstr * jstr) :=
  [ (js "Model ratio", js "model_ratio"); (js "Completion ratio", js "completion_ratio");
    (js "Cache ratio", js "cache_ratio"); (js "Create cache ratio", js "create_cache_ratio");
    (js "Image ratio", js "image_ratio"); (js "Audio ratio", js "audio_ratio");
    (js "Audio completion ratio", js "audio_completion_ratio"); (js "Fixed price", js "model_price");
    (js "Expression billing", js "billing_expr") ].

Definition RATIO_SYNC_FIELDS : list jstr :=
  [js "model_ratio"; js "completion_ratio"; js "cache_ratio"; js "create_cache_ratio"; js "image_ratio";
   js "audio_ratio"; js "audio_completion_ratio"].
Definition SYNC_FIELD_ORDER : list jstr :=
  RATIO_SYNC_FIELDS ++ [js "model_price"; js "billing_mode"; js "billing_expr"].
Definition NUMERIC_SYNC_FIELDS : list jstr := RATIO_SYNC_FIELDS ++ [js "model_price"].

Definition getSyncFieldLabel (t : jstr -> jstr) (ratioType : jstr) : jstr :=
  match List.find (fun o => bool_decide (o.2 = ratioType)) RATIO_TYPE_OPTIONS with
  | Some opt => t opt.1
  | None => ratioType
  end.

(** [v?.[k]]; it never throws. *)
Definition prop (k : jstr) (v : jsval) : jsval := catch (vget_opt k v) VUndef.

(** [a === b] of numbers, texts, [null] and [undefined]. *)
Definition strict_equal (a b : jsval) : bool :=
  match a, b with
  | VNum x, VNum y => neqb x y
  | VStr s, VStr t => bool_decide (s = t)
  | VBool x, VBool y => Bool.eqb x y
  | VNull, VNull | VUndef, VUndef => true
  | _, _ => false
  end.

Definition isSelectableUpstreamValue (value : jsval) : bool :=
  negb (is_nullish value) && negb (str_is (js "same") value).

(** [entry?.upstreams?.[sourceName]] of [ratioTypes[field]] *)
Definition upstream_value (ratioTypes : jsval) (field sourceName : jstr) : jsval :=
  prop sourceName (prop (js "upstreams") (prop field ratioTypes)).

Definition getOrderedRatioTypes (ratioTypes : jsval) (filter : jstr) : list jstr :=
  let keys := okeys (entries ratioTypes) in
  let ordered := List.filter (fun f => bool_decide (f ∈ keys)) SYNC_FIELD_ORDER
                 ++ List.filter (fun f => negb (bool_decide (f ∈ SYNC_FIELD_ORDER))) keys in
  if negb (str_truthy filter) || bool_decide (filter = js "__all__") then ordered
  else List.filter (fun f => bool_decide (f = filter)) ordered.

Definition getPreferredSyncField (ratioTypes : jsval) (ratioType sourceName : jstr) : jstr :=
  if negb (bool_decide (ratioType = js "billing_expr"))
     && isSelectableUpstreamValue (upstream_value ratioTypes (js "billing_expr") sourceName)
  then js "billing_expr" else ratioType.

(** ** Choosing values (upstream-ratio-sync.tsx) *)

Inductive category := CPrice | CRatio | CTiered.
#[export] Instance category_eq_dec : EqDecision category.
Proof. solve_decision. Defined.

Definition getBillingCategory (ratioType : jstr) : category :=
  if bool_decide (ratioType = js "model_price") then CPrice
  else if bool_decide (ratioType = js "billing_mode") || bool_decide (ratioType = js "billing_expr") then CTiered
  else CRatio.

(** The copy [{ ...(res[model] || {}) }] of what is chosen for a model. *)
Definition chosen_for (model : jstr) (res : jsobj) : jsobj := obj_of (entries (vor (oget model res) (VObj []))).

Definition deleteResolutionField (res : jsobj) (model ratioType : jstr) : jsobj :=
  if negb (truthy (oget model res)) then res
  else
    let newModelRes := odelete ratioType (chosen_for model res) in
    let newModelRes := if bool_decide (ratioType = js "billing_expr")
                       then odelete (js "billing_mode") newModelRes else newModelRes in
    let newModelRes := if bool_decide (ratioType = js "billing_mode")
                       then odelete (js "billing_expr") newModelRes else newModelRes in
    let next := obj_of res in
    match okeys newModelRes with
    | [] => odelete model next
    | _ => oset model (VObj newModelRes) next
    end.

(** The fields of another category than the chosen one are dropped; the tiered
    fields exclude nothing. *)
Definition clashes (c : category) (rt : jstr) : bool :=
  negb (bool_decide (c = CTiered)) && negb (bool_decide (getBillingCategory rt = CTiered))
  && negb (bool_decide (getBillingCategory rt = c)).

Definition clear_category (c : category) (r : jsobj) : jsobj :=
  fold_left (fun r rt => if clashes c rt then odelete rt r else r) (okeys r) r.

(** A tiered choice takes the paired fields of the same source. *)
Definition pair_tiered (modelDiffs : jsval) (finalType sourceName : jstr) (r : jsobj) : jsobj :=
  let modeVal := upstream_value modelDiffs (js "billing_mode") sourceName in
  let exprVal := upstream_value modelDiffs (js "billing_expr") sourceName in
  let r := if isSelectableUpstreamValue modeVal then oset (js "billing_mode") modeVal r
           else if bool_decide (finalType = js "billing_expr") then oset (js "billing_mode") (VStr (js "tiered_expr")) r
           else r in
  if isSelectableUpstreamValue exprVal then oset (js "billing_expr") exprVal r else r.

Definition handleSelectValue (differences : jsobj) (model ratioType : jstr) (value : jsval) (sourceName : jstr)
    (prev : jsobj) : jsobj :=
  let modelDiffs := oget model differences in
  let finalType := if str_truthy sourceName
                   then getPreferredSyncField (vor modelDiffs (VObj [])) ratioType sourceName else ratioType in
  let finalValue := if bool_decide (finalType = ratioType) then value
                    else vcoalesce (upstream_value modelDiffs finalType sourceName) value in
  let c := getBillingCategory finalType in
  let newModelRes := oset finalType finalValue (clear_category c (chosen_for model prev)) in
  let newModelRes := if bool_decide (c = CTiered) && str_truthy sourceName && truthy modelDiffs
                     then pair_tiered modelDiffs finalType sourceName newModelRes else newModelRes in
  oset model (VObj newModelRes) (obj_of prev).

(** ** The table of differences (upstream-ratio-sync-table.tsx, -columns.tsx) *)

Record ModelRow := MkModelRow { mr_model : jstr; mr_ratioTypes : jsval; billingConflict : bool }.

(** [k in v] of an object *)
Definition prop_in (k : jstr) (v : jsval) : bool :=
  bool_decide (k ∈ okeys (entries v)) || bool_decide (k ∈ object_prototype_names).

Definition dataSource (differences : jsobj) : list ModelRow :=
  map (fun kv => MkModelRow kv.1 kv.2
    (prop_in (js "model_price") kv.2 && existsb (fun rt => prop_in rt kv.2) RATIO_SYNC_FIELDS)) differences.

Definition filteredData (differences : jsobj) (search ratioTypeFilter : jstr) : list ModelRow :=
  let data := dataSource differences in
  let data := if str_truthy (trim search)
              then List.filter (fun row => includes (to_lower search) (to_lower (mr_model row))) data else data in
  if str_truthy ratioTypeFilter && negb (bool_decide (ratioTypeFilter = js "__all__"))
  then List.filter (fun row => prop_in ratioTypeFilter (mr_ratioTypes row)) data else data.

Definition upstreamNames (rows : list ModelRow) (ratioTypeFilter : jstr) : list jstr :=
  dedup (flat_map (fun row =>
    flat_map (fun ratioType =>
      okeys (entries (vor (prop (js "upstreams") (prop ratioType (mr_ratioTypes row))) (VObj []))))
      (getOrderedRatioTypes (mr_ratioTypes row) ratioTypeFilter)) rows).

(** The fields of a row that the column of an upstream offers. *)
Definition offered (ratioTypes : jsval) (upstream ratioType : jstr) : bool :=
  bool_decide (getPreferredSyncField ratioTypes ratioType upstream = ratioType)
  && isSelectableUpstreamValue (upstream_value ratioTypes ratioType upstream).

(** What is chosen for a field: [resolutions[model]?.[ratioType]] *)
Definition chosen (resolutions : jsobj) (model ratioType : jstr) : jsval := prop ratioType (oget model resolutions).

(** The check box of a column: the fields it counts, and those selected. *)
Definition selectable_cells (rows : list ModelRow) (ratioTypeFilter upstream : jstr) : list (ModelRow * jstr) :=
  flat_map (fun row => map (pair row)
    (List.filter (offered (mr_ratioTypes row) upstream) (getOrderedRatioTypes (mr_ratioTypes row) ratioTypeFilter))) rows.
Definition cell_selected (resolutions : jsobj) (upstream : jstr) (cell : ModelRow * jstr) : bool :=
  strict_equal (chosen resolutions (mr_model cell.1) cell.2)
    (upstream_value (mr_ratioTypes cell.1) cell.2 upstream).

Definition selectableCount (rows : list ModelRow) (f u : jstr) : nat := length (selectable_cells rows f u).
Definition selectedCount (resolutions : jsobj) (rows : list ModelRow) (f u : jstr) : nat :=
  length (List.filter (cell_selected resolutions u) (selectable_cells rows f u)).
Definition allSelected (resolutions : jsobj) (rows : list ModelRow) (f u : jstr) : bool :=
  (0 <? selectableCount rows f u)%nat && (selectedCount resolutions rows f u =? selectableCount rows f u)%nat.
Definition someSelected (resolutions : jsobj) (rows : list ModelRow) (f u : jstr) : bool :=
  (0 <? selectedCount resolutions rows f u)%nat && (selectedCount resolutions rows f u <? selectableCount rows f u)%nat.

Definition handleBulkSelect (differences : jsobj) (upstream : jstr) (rows : list ModelRow) (ratioTypeFilter : jstr)
    (resolutions : jsobj) : jsobj :=
  fold_left (fun res row =>
    fold_left (fun res ratioType =>
      if offered (mr_ratioTypes row) upstream ratioType
      then handleSelectValue differences (mr_model row) ratioType
             (upstream_value (mr_ratioTypes row) ratioType upstream) upstream res
      else res) (getOrderedRatioTypes (mr_ratioTypes row) ratioTypeFilter) res) rows resolutions.

Definition is_undefined (v : jsval) : bool := match v with VUndef => true | _ => false end.

Definition handleBulkUnselect (upstream : jstr) (rows : list ModelRow) (ratioTypeFilter : jstr)
    (resolutions : jsobj) : jsobj :=
  fold_left (fun res row =>
    fold_left (fun res ratioType =>
      if is_undefined (upstream_value (mr_ratioTypes row) ratioType upstream) then res
      else deleteResolutionField res (mr_model row) ratioType)
      (getOrderedRatioTypes (mr_ratioTypes row) ratioTypeFilter) res) rows resolutions.
