(* ===== verification/UpstreamPage.v ===== *)
(** * Synchronising prices: merging the choices and the page
      (features/system-settings/models/upstream-ratio-sync.tsx, channel-selector-dialog.tsx) *)
From stdpp Require Import gmap sorting.
From S2P Require Import Prelude JsString JsNumber JsValue JsValueFacts JsJson ModelPricing UpstreamSync.
Open Scope N_scope.

(** ** Merging into the tables *)

(** The names of the ten tables, in the order of the literal [finalRatios]. *)
Definition option_names : list (jstr * table) :=
  [ (js "ModelRatio", Num Ratio); (js "CompletionRatio", Num CompletionRatio); (js "CacheRatio", Num CacheRatio);
    (js "CreateCacheRatio", Num CreateCacheRatio); (js "ImageRatio", Num ImageRatio); (js "AudioRatio", Num AudioRatio);
    (js "AudioCompletionRatio", Num AudioCompletionRatio); (js "ModelPrice", Num Price);
    (js "billing_setting.billing_mode", BillingMode); (js "billing_setting.billing_expr", BillingExpression) ].
Definition sync_tables : list table := map snd option_names.

(** The units whose upper case is a capital letter; no other unit starts the
    name of a table. *)
Definition upper_first (c : N) : N := if c =? 305 then 73 else if c =? 383 then 83 else upper_unit c.
Definition capitalize (word : jstr) : jstr := match word with [] => [] | c :: w => upper_first c :: w end.

Definition optionKeyBySyncField (ratioType : jstr) : jstr :=
  let explicit := [ (js "billing_mode", VStr (js "billing_setting.billing_mode"));
                    (js "billing_expr", VStr (js "billing_setting.billing_expr")) ] in
  if truthy (oget ratioType explicit) then catch (to_str (oget ratioType explicit)) []
  else concat (map capitalize (split_char 95 ratioType)).

(** [JSON.parse(raw || '{}')], or an empty object. *)
Definition parseJsonRecord (raw : jstr) : jsval := catch (json_parse (str_or raw (js "{}"))) (VObj []).

Definition parsedRatios (modelRatios : store) (k : table) : jsval := parseJsonRecord (modelRatios k).

(** [currentRatios.X[model] !== undefined] *)
Definition is_set (current : table -> jsval) (model : jstr) (k : table) : res bool :=
  res_map (fun v => negb (is_undefined v)) (vget model (current k)).

(** [a || b || ...] of conditions that may throw. *)
Fixpoint any_set (current : table -> jsval) (model : jstr) (ks : list table) : res bool :=
  match ks with
  | [] => Ok false
  | k :: ks => let* b := is_set current model k in if b then Ok true else any_set current model ks
  end.

Definition ratio_tables : list table := map Num ratio_fields.

Definition getLocalBillingCategory (model : jstr) (current : table -> jsval) : res (option category) :=
  let* priced := is_set current model (Num Price) in
  if priced then Ok (Some CPrice)
  else let* rated := any_set current model ratio_tables in Ok (if rated then Some CRatio else None).

Definition has_price (ratios : jsobj) : bool := bool_decide (js "model_price" ∈ okeys ratios).
Definition has_ratio (ratios : jsobj) : bool := existsb (fun rt => bool_decide (rt ∈ RATIO_SYNC_FIELDS)) (okeys ratios).

Definition delete_from (ks : list table) (model : jstr) (m : maps) : maps :=
  fun k => if bool_decide (k ∈ ks) then odelete model (m k) else m k.

(** [finalRatios[optionKey][model] = ...]; it throws when there is no such table. *)
Definition write_field (model : jstr) (m : maps) (field : jstr * jsval) : res maps :=
  let* value := if bool_decide (field.1 ∈ NUMERIC_SYNC_FIELDS) then res_map VNum (to_num field.2) else Ok field.2 in
  match assoc (optionKeyBySyncField field.1) option_names with
  | Some k => Ok (set_in k model value m)
  | None => Throw TypeError
  end.

Fixpoint res_fold {A B} (f : A -> B -> res A) (l : list B) (a : A) : res A :=
  match l with
  | [] => Ok a
  | x :: l => let* a := f a x in res_fold f l a
  end.

Definition merge_model (m : maps) (resolution : jstr * jsval) : res maps :=
  let model := resolution.1 in
  let ratios := entries resolution.2 in
  let m := if has_price ratios then delete_from ratio_tables model m else m in
  let m := if has_ratio ratios then delete_from [Num Price] model m else m in
  res_fold (write_field model) ratios m.

Definition finalRatios (resolutions : jsobj) (current : table -> jsval) : res maps :=
  res_fold merge_model resolutions (fun k => obj_of (entries (current k))).

Definition Update : Type := table * jstr.

(** The first half of [performSync]: the requests it sends. *)
Definition sync_updates (resolutions : jsobj) (current : table -> jsval) : res (list Update) :=
  let* final := finalRatios resolutions current in Ok (map (fun k => (k, stringify2 (VObj (final k)))) sync_tables).

(** ** Conflicts with the stored prices *)

Definition findSourceChannel (differences : jsobj) (model ratioType : jstr) (value : jsval) : jstr :=
  let upMap := prop (js "upstreams") (prop ratioType (oget model differences)) in
  if negb (truthy upMap) then js "Unknown"
  else match List.find (fun kv => strict_equal kv.2 value) (entries upMap) with
       | Some kv => kv.1
       | None => js "Unknown"
       end.

Record ConflictItem := MkConflict { ci_channel : jstr; ci_model : jstr; ci_current : jstr; ci_newVal : jstr }.

Definition newCategory (ratios : jsobj) : category :=
  if prop_in (js "model_price") (VObj ratios) then CPrice
  else if existsb (fun rt => bool_decide (rt ∈ okeys ratios)) RATIO_SYNC_FIELDS then CRatio else CTiered.

Section conflicts.
(** The translation function. *)
Context (t : jstr -> jstr) (differences : jsobj) (current : table -> jsval).

Definition conflict_of (resolution : jstr * jsval) : res (list ConflictItem) :=
  let model := resolution.1 in
  let ratios := entries resolution.2 in
  let* localCat := getLocalBillingCategory model current in
  let newCat := newCategory ratios in
  match localCat with
  | Some c =>
      if negb (bool_decide (newCat = CTiered)) && negb (bool_decide (c = newCat)) then
        let dash (v : jsval) := to_str (vcoalesce v (VStr (js "-"))) in
        let* currentDesc :=
          if bool_decide (c = CPrice) then
            let* v := vget model (current (Num Price)) in
            res_map (fun s => t (js "Fixed price") ++ js ": " ++ s) (to_str v)
          else
            let* r := vget model (current (Num Ratio)) in let* rs := dash r in
            let* q := vget model (current (Num CompletionRatio)) in let* qs := dash q in
            Ok (t (js "Model ratio") ++ js ": " ++ rs ++ [10] ++ t (js "Completion ratio") ++ js ": " ++ qs) in
        let* newDesc :=
          if bool_decide (newCat = CPrice) then
            res_map (fun s => t (js "Fixed price") ++ js ": " ++ s) (to_str (oget (js "model_price") ratios))
          else
            let* rs := dash (oget (js "model_ratio") ratios) in
            let* qs := dash (oget (js "completion_ratio") ratios) in
            Ok (t (js "Model ratio") ++ js ": " ++ rs ++ [10] ++ t (js "Completion ratio") ++ js ": " ++ qs) in
        let channelNames := join (js ", ") (dedup (map (fun rv => findSourceChannel differences model rv.1 rv.2) ratios)) in
        Ok [MkConflict channelNames model currentDesc newDesc]
      else Ok []
  | None => Ok []
  end.

Definition conflicts_of (resolutions : jsobj) : res (list ConflictItem) :=
  res_map (@concat ConflictItem) (res_mapM conflict_of resolutions).
End conflicts.

(** ** Channels and endpoints (channel-selector-dialog.tsx) *)

Record UpstreamChannel := MkUpstream {
  uc_id : Z; uc_name : jstr; uc_base_url : jstr; uc_endpoint : option jstr; uc_status : Z; uc_type : option Z }.

Section endpoints.
(** The endpoint of the official preset, fixed when the page is built. *)
Context (OFFICIAL_CHANNEL_ENDPOINT : jstr).

Definition getDefaultEndpointForChannel (channel : UpstreamChannel) : jstr :=
  if str_truthy (default [] (uc_endpoint channel)) then default [] (uc_endpoint channel)
  else if bool_decide (uc_id channel = MODELS_DEV_PRESET_ID) then MODELS_DEV_PRESET_ENDPOINT
  else if bool_decide (uc_id channel = OFFICIAL_CHANNEL_ID) && str_truthy OFFICIAL_CHANNEL_ENDPOINT
  then OFFICIAL_CHANNEL_ENDPOINT
  else if bool_decide (uc_type channel = Some OPENROUTER_CHANNEL_TYPE) then OPENROUTER_ENDPOINT
  else DEFAULT_ENDPOINT.

(** [channelEndpoints[id] || d] *)
Definition endpoint_or (endpoints : gmap Z jstr) (id : Z) (d : jstr) : jstr := str_or (default [] (endpoints !! id)) d.

(** The effect that fills in the endpoints of loaded channels. *)
Definition fill_endpoints (channels : list UpstreamChannel) (prev : gmap Z jstr) : gmap Z jstr :=
  fold_left (fun next channel =>
    if str_truthy (default [] (next !! uc_id channel)) then next
    else <[uc_id channel := getDefaultEndpointForChannel channel]> next) channels prev.

Definition isOfficialChannel (channel : UpstreamChannel) : bool :=
  bool_decide (uc_id channel = OFFICIAL_CHANNEL_ID) || bool_decide (uc_id channel = MODELS_DEV_PRESET_ID).

Definition getEndpointType (endpoint : jstr) : jstr :=
  if existsb (fun o => bool_decide (o.2 = endpoint)) ENDPOINT_OPTIONS then endpoint else js "custom".

(** The endpoint a row of the dialog shows, and whether it has a text field. *)
Definition currentEndpoint (endpoints : gmap Z jstr) (id : Z) : jstr := endpoint_or endpoints id DEFAULT_ENDPOINT.
Definition customField (endpoints : gmap Z jstr) (id : Z) : bool :=
  bool_decide (getEndpointType (currentEndpoint endpoints id) = js "custom").

Definition updateEndpoint (channelId : Z) (endpoint : jstr) (endpoints : gmap Z jstr) : gmap Z jstr :=
  <[channelId := endpoint]> endpoints.

Definition handleTypeChange (channelId : Z) (value : jstr) (endpoints : gmap Z jstr) : gmap Z jstr :=
  if bool_decide (value = js "custom") then updateEndpoint channelId [] endpoints
  else updateEndpoint channelId value endpoints.

Definition filteredChannels (search : jstr) (channels : list UpstreamChannel) : list UpstreamChannel :=
  if negb (str_truthy (trim search)) then channels
  else List.filter (fun ch => includes (to_lower search) (to_lower (uc_name ch))
                              || includes (to_lower search) (to_lower (uc_base_url ch))) channels.

(** The comparison of [sort]: official channels first, else the order is kept. *)
Definition channel_le (a b : UpstreamChannel) : Prop := isOfficialChannel a = true \/ isOfficialChannel b = false.
#[export] Instance channel_le_dec a b : Decision (channel_le a b).
Proof. unfold channel_le. solve_decision. Defined.

Definition sortedChannels (search : jstr) (channels : list UpstreamChannel) : list UpstreamChannel :=
  merge_sort channel_le (filteredChannels search channels).

Record UpstreamConfig := MkConfig { cf_id : Z; cf_name : jstr; cf_base_url : jstr; cf_endpoint : jstr }.

Definition selectedChannels (channels : list UpstreamChannel) (selectedIds : list Z) : list UpstreamChannel :=
  List.filter (fun ch => bool_decide (uc_id ch ∈ selectedIds)) channels.
Definition upstreams_of (endpoints : gmap Z jstr) (chs : list UpstreamChannel) : list UpstreamConfig :=
  map (fun ch => MkConfig (uc_id ch) (uc_name ch) (uc_base_url ch) (endpoint_or endpoints (uc_id ch) DEFAULT_ENDPOINT)) chs.
End endpoints.

(** ** The page as a machine *)

Record TestResult := MkTest { tr_name : jstr; tr_status : jstr; tr_error : option jstr }.
Record FetchReply := MkReply {
  fr_success : bool; fr_message : jstr; fr_differences : jsobj; fr_test_results : list TestResult }.

(** How a request to store a table ends: whether the server stored the text,
    and whether the promise was resolved.  A refusal that the server reports in
    the body of its answer resolves the promise. *)
Record Answer := MkAnswer { an_stored : bool; an_resolved : bool; an_message : jstr }.
Definition accepted : Answer := MkAnswer true true [].

Inductive Toast := TError (s : jstr) | TWarning (s : jstr) | TSuccess (s : jstr) | TInfo (s : jstr).

(** [modelRatios] is the property of the page, [sy_server] what the server
    stores.  [sy_sync]: the requests still to be answered, and whether the
    dialog of conflicts started them. *)
Record Sync := MkSync {
  sy_modelRatios : store; sy_server : store;
  sy_channels : list UpstreamChannel; sy_endpoints : gmap Z jstr; sy_selectedIds : list Z;
  sy_channelDialog : bool; sy_conflictDialog : bool; sy_conflicts : list ConflictItem;
  sy_differences : jsobj; sy_resolutions : jsobj; sy_search : jstr; sy_filter : jstr;
  sy_fetch : option (list UpstreamConfig); sy_sync : option (list Update * bool); sy_toasts : list Toast }.

Definition set_endpoints (e : gmap Z jstr) (s : Sync) : Sync :=
  let '(MkSync mr sv ch _ si cd xd ci di re se fi ft sc to) := s in MkSync mr sv ch e si cd xd ci di re se fi ft sc to.
Definition set_resolutions (r : jsobj) (s : Sync) : Sync :=
  let '(MkSync mr sv ch ep si cd xd ci di _ se fi ft sc to) := s in MkSync mr sv ch ep si cd xd ci di r se fi ft sc to.
Definition set_differences (d : jsobj) (s : Sync) : Sync :=
  let '(MkSync mr sv ch ep si cd xd ci _ re se fi ft sc to) := s in MkSync mr sv ch ep si cd xd ci d re se fi ft sc to.
Definition set_channels (c : list UpstreamChannel) (s : Sync) : Sync :=
  let '(MkSync mr sv _ ep si cd xd ci di re se fi ft sc to) := s in MkSync mr sv c ep si cd xd ci di re se fi ft sc to.
Definition set_channelDialog (b : bool) (s : Sync) : Sync :=
  let '(MkSync mr sv ch ep si _ xd ci di re se fi ft sc to) := s in MkSync mr sv ch ep si b xd ci di re se fi ft sc to.
Definition set_selectedIds (l : list Z) (s : Sync) : Sync :=
  let '(MkSync mr sv ch ep _ cd xd ci di re se fi ft sc to) := s in MkSync mr sv ch ep l cd xd ci di re se fi ft sc to.
Definition set_conflictDialog (b : bool) (s : Sync) : Sync :=
  let '(MkSync mr sv ch ep si cd _ ci di re se fi ft sc to) := s in MkSync mr sv ch ep si cd b ci di re se fi ft sc to.
Definition set_conflicts (l : list ConflictItem) (s : Sync) : Sync :=
  let '(MkSync mr sv ch ep si cd xd _ di re se fi ft sc to) := s in MkSync mr sv ch ep si cd xd l di re se fi ft sc to.
Definition set_search (q : jstr) (s : Sync) : Sync :=
  let '(MkSync mr sv ch ep si cd xd ci di re _ fi ft sc to) := s in MkSync mr sv ch ep si cd xd ci di re q fi ft sc to.
Definition set_filter (f : jstr) (s : Sync) : Sync :=
  let '(MkSync mr sv ch ep si cd xd ci di re se _ ft sc to) := s in MkSync mr sv ch ep si cd xd ci di re se f ft sc to.
Definition set_fetch (f : option (list UpstreamConfig)) (s : Sync) : Sync :=
  let '(MkSync mr sv ch ep si cd xd ci di re se fi _ sc to) := s in MkSync mr sv ch ep si cd xd ci di re se fi f sc to.
Definition set_sync (p : option (list Update * bool)) (s : Sync) : Sync :=
  let '(MkSync mr sv ch ep si cd xd ci di re se fi ft _ to) := s in MkSync mr sv ch ep si cd xd ci di re se fi ft p to.
Definition set_server (st : store) (s : Sync) : Sync :=
  let '(MkSync mr _ ch ep si cd xd ci di re se fi ft sc to) := s in MkSync mr st ch ep si cd xd ci di re se fi ft sc to.
Definition set_modelRatios (st : store) (s : Sync) : Sync :=
  let '(MkSync _ sv ch ep si cd xd ci di re se fi ft sc to) := s in MkSync st sv ch ep si cd xd ci di re se fi ft sc to.
Definition toast (x : Toast) (s : Sync) : Sync :=
  let '(MkSync mr sv ch ep si cd xd ci di re se fi ft sc to) := s in
  MkSync mr sv ch ep si cd xd ci di re se fi ft sc (to ++ [x]).

Inductive Event :=
  | SearchFor (q : jstr)
  | FilterType (f : jstr)
  | SelectCell (model ratioType upstream : jstr)
  | UnselectCell (model ratioType upstream : jstr)
  | BulkSelect (upstream : jstr)
  | BulkUnselect (upstream : jstr)
  | OpenChannels
  | CloseChannels
  | ChannelsLoaded (chs : list UpstreamChannel)
  | EndpointType (channelId : Z) (value : jstr)
  | EndpointText (channelId : Z) (text : jstr)
  | ConfirmChannels (ids : list Z)
  | FetchDone (reply : FetchReply)
  | FetchFailed (message : jstr)
  | ApplySync
  | CloseConflict
  | ConfirmConflict
  | Answered (a : Answer)
  | OptionsLoaded (st : store).

Section page.
Context (t : jstr -> jstr) (OFFICIAL_CHANNEL_ENDPOINT : jstr).

Definition isLoading (s : Sync) : bool := bool_decide (is_Some (sy_fetch s)) || bool_decide (is_Some (sy_sync s)).
Definition hasSelections (s : Sync) : bool := match sy_resolutions s with [] => false | _ => true end.

Definition rows (s : Sync) : list ModelRow := filteredData (sy_differences s) (sy_search s) (sy_filter s).

(** The cell of a field in the column of an upstream has a check box. *)
Definition has_cell (s : Sync) (model ratioType upstream : jstr) : bool :=
  existsb (fun row => bool_decide (mr_model row = model)
                      && bool_decide (ratioType ∈ getOrderedRatioTypes (mr_ratioTypes row) (sy_filter s))
                      && offered (mr_ratioTypes row) upstream ratioType) (rows s)
  && bool_decide (upstream ∈ upstreamNames (rows s) (sy_filter s)).

(** The column of an upstream has a check box. *)
Definition has_column (s : Sync) (upstream : jstr) : bool :=
  bool_decide (upstream ∈ upstreamNames (rows s) (sy_filter s))
  && (0 <? selectableCount (rows s) (sy_filter s) upstream)%nat.

Definition handleConfirmChannelSelection (selectedIds : list Z) (s : Sync) : Sync :=
  match selectedChannels (sy_channels s) selectedIds with
  | [] => toast (TWarning (t (js "Please select at least one channel"))) s
  | chs => set_fetch (Some (upstreams_of (sy_endpoints s) chs)) s
  end.

(** [fetchMutation]: what its answer changes. *)
Definition failed_tests (l : list TestResult) : list TestResult :=
  List.filter (fun r => bool_decide (tr_status r = js "error")) l.
Definition test_text (r : TestResult) : jstr := tr_name r ++ js ": " ++ default (js "undefined") (tr_error r).

Definition onFetched (data : FetchReply) (s : Sync) : Sync :=
  if negb (fr_success data)
  then toast (TError (str_or (fr_message data) (t (js "Failed to fetch upstream prices")))) s
  else
    let s := match failed_tests (fr_test_results data) with
             | [] => s
             | l => toast (TWarning (t (js "Some channels failed: ") ++ join (js ", ") (map test_text l))) s
             end in
    let s := set_resolutions [] (set_differences (fr_differences data) s) in
    match fr_differences data with
    | [] => toast (TSuccess (t (js "No price differences found"))) s
    | _ => toast (TSuccess (t (js "Upstream prices fetched successfully"))) s
    end.

(** [syncMutation]: the differences that were synchronised are dropped. *)
Definition drop_field (model : jstr) (diffs : jsobj) (ratioType : jstr) : jsobj :=
  if truthy (prop ratioType (oget model diffs)) then
    match odelete ratioType (entries (oget model diffs)) with
    | [] => odelete model diffs
    | d => oset model (VObj d) diffs
    end
  else diffs.

Definition drop_resolved (resolutions diffs : jsobj) : jsobj :=
  fold_left (fun diffs mr => fold_left (drop_field mr.1) (okeys (entries mr.2)) diffs) resolutions (obj_of diffs).

Definition onSynced (confirmed : bool) (s : Sync) : Sync :=
  let s := toast (TSuccess (t (js "Prices synced successfully"))) s in
  let s := set_differences (drop_resolved (sy_resolutions s) (sy_differences s)) s in
  let s := set_sync None (set_resolutions [] s) in
  if confirmed then set_conflictDialog false s else s.

Definition onSyncFailed (message : jstr) (s : Sync) : Sync :=
  set_sync None (toast (TError (str_or message (t (js "Failed to sync prices")))) s).

Definition store_text (u : Update) (st : store) : store := fun k => if bool_decide (k = u.1) then u.2 else st k.

(** The loop of the mutation awaits one answer after the other. *)
Definition onAnswer (a : Answer) (s : Sync) : Sync :=
  match sy_sync s with
  | Some (u :: rest, confirmed) =>
      let s := if an_stored a then set_server (store_text u (sy_server s)) s else s in
      if negb (an_resolved a) then onSyncFailed (an_message a) s
      else match rest with
           | [] => onSynced confirmed s
           | _ => set_sync (Some (rest, confirmed)) s
           end
  | _ => s
  end.

(** An exception of [performSync] leaves the page as it is. *)
Definition performSync (confirmed : bool) (s : Sync) : Sync :=
  match sync_updates (sy_resolutions s) (parsedRatios (sy_modelRatios s)) with
  | Ok updates => set_sync (Some (updates, confirmed)) s
  | Throw _ => s
  end.

Definition handleApplySync (s : Sync) : Sync :=
  match conflicts_of t (sy_differences s) (parsedRatios (sy_modelRatios s)) (sy_resolutions s) with
  | Throw _ => s
  | Ok [] => performSync false (toast (TInfo (t (js "Syncing prices, please wait..."))) s)
  | Ok conflicts => set_conflictDialog true (set_conflicts conflicts s)
  end.

Definition when (b : bool) (f : Sync -> Sync) (s : Sync) : Sync := if b then f s else s.

Definition handle (s : Sync) (e : Event) : Sync :=
  match e with
  | SearchFor q => set_search q s
  | FilterType f => set_filter f s
  | SelectCell m rt u =>
      when (negb (isLoading s) && has_cell s m rt u)
        (set_resolutions (handleSelectValue (sy_differences s) m rt
           (upstream_value (oget m (sy_differences s)) rt u) u (sy_resolutions s))) s
  | UnselectCell m rt u =>
      when (negb (isLoading s) && has_cell s m rt u)
        (set_resolutions (deleteResolutionField (sy_resolutions s) m rt)) s
  | BulkSelect u =>
      when (negb (isLoading s) && has_column s u)
        (set_resolutions (handleBulkSelect (sy_differences s) u (rows s) (sy_filter s) (sy_resolutions s))) s
  | BulkUnselect u =>
      when (negb (isLoading s) && has_column s u)
        (set_resolutions (handleBulkUnselect u (rows s) (sy_filter s) (sy_resolutions s))) s
  | OpenChannels => when (negb (isLoading s)) (set_channelDialog true) s
  | CloseChannels => set_channelDialog false s
  | ChannelsLoaded chs =>
      set_endpoints (fill_endpoints OFFICIAL_CHANNEL_ENDPOINT chs (sy_endpoints s)) (set_channels chs s)
  | EndpointType id v =>
      when (sy_channelDialog s && bool_decide (v ∈ map snd ENDPOINT_OPTIONS))
        (set_endpoints (handleTypeChange id v (sy_endpoints s))) s
  | EndpointText id x =>
      when (sy_channelDialog s && customField (sy_endpoints s) id)
        (set_endpoints (updateEndpoint id x (sy_endpoints s))) s
  | ConfirmChannels ids =>
      when (sy_channelDialog s)
        (fun s => handleConfirmChannelSelection ids (set_channelDialog false (set_selectedIds ids s))) s
  | FetchDone reply => when (bool_decide (is_Some (sy_fetch s))) (fun s => onFetched reply (set_fetch None s)) s
  | FetchFailed m =>
      when (bool_decide (is_Some (sy_fetch s)))
        (fun s => toast (TError (str_or m (t (js "Failed to fetch upstream prices")))) (set_fetch None s)) s
  | ApplySync => when (hasSelections s && negb (isLoading s)) handleApplySync s
  | CloseConflict => set_conflictDialog false s
  | ConfirmConflict => when (sy_conflictDialog s && negb (isLoading s)) (performSync true) s
  | Answered a => onAnswer a s
  | OptionsLoaded st => set_modelRatios st s
  end.

Definition run (s : Sync) (es : list Event) : Sync := fold_left handle es s.

(** The page as it is first shown. *)
Definition open_page (st : store) : Sync :=
  MkSync st st [] ∅ [] false false [] [] [] [] [] None None [].
End page.
