(* ===== verification/UpstreamChoices.v ===== *)
(** * Synchronising prices: the choices

    Whatever is selected and unselected, every model keeps at least one
    choice, never a fixed price next to a ratio, never an expression without
    a billing mode, and every chosen value is one an upstream reported. *)
From S2P Require Import Prelude JsString JsNumber JsValue JsValueFacts JsStorable UpstreamSync.
Open Scope N_scope.

(** ** What the server reports *)

(** A reported value: a number, a text (["same"] when it equals the stored
    value) or nothing. *)
Definition reported (v : jsval) : Prop :=
  match v with VNum x => neqb x x = true | VStr _ | VNull => True | _ => False end.
Definition upstream_name (u : jstr) : Prop := u <> [] /\ u ∉ object_prototype_names.

Definition typed_field (kv : jstr * jsval) : Prop :=
  kv.1 ∈ SYNC_FIELD_ORDER
  /\ exists e us, kv.2 = VObj e /\ olookup (js "upstreams") e = Some (VObj us)
     /\ Forall (fun uv => upstream_name uv.1 /\ reported uv.2) us.
Definition typed_model (kv : jstr * jsval) : Prop :=
  exists fs, kv.2 = VObj fs /\ okeys_nodup fs /\ Forall typed_field fs.
(** The type [DifferencesMap]. *)
Definition typed_differences (d : jsobj) : Prop := okeys_nodup d /\ Forall typed_model d.

(** ** What may be chosen *)

Definition picked (d : jsobj) (model : jstr) (fv : jstr * jsval) : Prop :=
  (exists u, isSelectableUpstreamValue fv.2 = true /\ reported fv.2
             /\ upstream_value (oget model d) fv.1 u = fv.2 /\ u <> [])
  \/ fv = (js "billing_mode", VStr (js "tiered_expr")).

Definition priced (r : jsobj) : Prop := js "model_price" ∈ okeys r.
Definition rated (r : jsobj) : Prop := exists f, f ∈ RATIO_SYNC_FIELDS /\ f ∈ okeys r.

Record model_choice (d : jsobj) (model : jstr) (r : jsobj) : Prop := {
  mc_some : r <> [];
  mc_nodup : okeys_nodup r;
  mc_pure : priced r -> rated r -> False;
  mc_mode : js "billing_expr" ∈ okeys r -> js "billing_mode" ∈ okeys r;
  mc_fields : Forall (fun fv => fv.1 ∈ SYNC_FIELD_ORDER /\ picked d model fv) r }.

Definition choices_ok (d res : jsobj) : Prop :=
  okeys_nodup res /\ Forall (fun mv => exists r, mv.2 = VObj r /\ model_choice d mv.1 r) res.

Lemma choices_nil d : choices_ok d [].
Proof. split; constructor. Qed.

(** ** Categories *)

Lemma ratio_category f : f ∈ RATIO_SYNC_FIELDS -> getBillingCategory f = CRatio.
Proof.
  assert (H : Forall (fun f => getBillingCategory f = CRatio) RATIO_SYNC_FIELDS) by (repeat constructor).
  rewrite list.Forall_forall in H. apply H.
Qed.

Lemma clashes_spec c f :
  clashes c f = true <->
  (c = CPrice /\ getBillingCategory f = CRatio) \/ (c = CRatio /\ getBillingCategory f = CPrice).
Proof. unfold clashes. destruct c, (getBillingCategory f); cbn; naive_solver. Qed.

Lemma price_category f : getBillingCategory f = CPrice <-> f = js "model_price".
Proof.
  unfold getBillingCategory. case_bool_decide; [done|]. destruct (_ || _); done.
Qed.

Lemma clear_category_from c r (ks : list jstr) f :
  olookup f (fold_left (fun r rt => if clashes c rt then odelete rt r else r) ks r)
  = if clashes c f && bool_decide (f ∈ ks) then None else olookup f r.
Proof.
  revert r. induction ks as [|k ks IH]; intros r; cbn [fold_left].
  { by rewrite (bool_decide_eq_false_2 (f ∈ [])), andb_false_r by apply not_elem_of_nil. }
  rewrite IH. destruct (clashes c k) eqn:Ek.
  - rewrite olookup_odelete. destruct (decide (f = k)) as [->|Hne].
    + rewrite Ek, (bool_decide_eq_true_2 (k = k)) by done. rewrite (bool_decide_eq_true_2 (k ∈ k :: ks)) by (by left).
      by destruct (bool_decide (k ∈ ks)).
    + rewrite (bool_decide_eq_false_2 (f = k)) by done.
      by rewrite (bool_decide_ext (f ∈ k :: ks) (f ∈ ks)) by (rewrite elem_of_cons; naive_solver).
  - destruct (decide (f = k)) as [->|Hne]; [by rewrite Ek|].
    by rewrite (bool_decide_ext (f ∈ k :: ks) (f ∈ ks)) by (rewrite elem_of_cons; naive_solver).
Qed.

Lemma clear_category_lookup c r f : olookup f (clear_category c r) = if clashes c f then None else olookup f r.
Proof.
  unfold clear_category. rewrite clear_category_from. destruct (clashes c f); [|done]. cbn [andb].
  case_bool_decide as H; [done|]. by apply olookup_None.
Qed.

Lemma in_keys k o : k ∈ okeys o <-> olookup k o <> None.
Proof. rewrite olookup_None. destruct (decide (k ∈ okeys o)); naive_solver. Qed.

Lemma NoDup_clear c r : okeys_nodup r -> okeys_nodup (clear_category c r).
Proof.
  unfold clear_category. generalize (okeys r). intros ks. revert r. induction ks as [|k ks IH]; intros r H; [done|].
  cbn [fold_left]. apply IH. destruct (clashes c k); [by apply NoDup_odelete|done].
Qed.

Lemma nonempty_lookup k o : olookup k o <> None -> o <> [].
Proof. by destruct o. Qed.

(** ** Reading the choices *)

Section choices.
Context (d : jsobj).

Lemma choice_lookup res m v :
  choices_ok d res -> olookup m res = Some v -> exists r, v = VObj r /\ model_choice d m r.
Proof. intros [Hn Hf] H. rewrite Forall_olookup in Hf by done. by apply (Hf m v). Qed.

Lemma choices_change res m o :
  choices_ok d res ->
  (forall r, o = Some r -> model_choice d m r) ->
  choices_ok d (match o with Some r => oset m (VObj r) (obj_of res) | None => odelete m (obj_of res) end).
Proof.
  intros Hc Ho. pose proof Hc as [Hn _].
  assert (Hn' : okeys_nodup (match o with Some r => oset m (VObj r) (obj_of res) | None => odelete m (obj_of res) end)).
  { destruct o; [apply NoDup_oset|apply NoDup_odelete]; apply NoDup_ospread; constructor. }
  split; [done|]. apply Forall_olookup; [done|]. intros k v Hk. cbn [fst snd].
  destruct (decide (k = m)) as [->|Hne].
  - destruct o as [r|]; [|rewrite olookup_odelete, bool_decide_eq_true_2 in Hk by done; done].
    rewrite olookup_oset_eq in Hk. injection Hk as <-. exists r. split; [done|by apply Ho].
  - assert (Hk' : olookup k res = Some v).
    { destruct o; [rewrite olookup_oset_ne in Hk by done|rewrite olookup_odelete, bool_decide_eq_false_2 in Hk by done];
        by rewrite olookup_obj_of in Hk. }
    by apply (choice_lookup res).
Qed.

(** The copy of what is chosen for a model. *)
Lemma chosen_for_spec res m :
  choices_ok d res ->
  okeys_nodup (chosen_for m res)
  /\ (chosen_for m res = [] \/ exists r, olookup m res = Some (VObj r) /\ model_choice d m r
      /\ forall f, olookup f (chosen_for m res) = olookup f r).
Proof.
  intros Hc. split; [apply NoDup_ospread; constructor|]. unfold chosen_for, oget.
  destruct (olookup m res) as [v|] eqn:E; cbn [default from_option id].
  - right. destruct (choice_lookup res m v Hc E) as (r & -> & Hr). exists r. split_and!; [done|done|].
    intros f. cbn [vor truthy entries]. apply olookup_obj_of, Hr.
  - left. unfold inherited. by case_bool_decide.
Qed.

Lemma chosen_truthy res m : truthy (oget m res) = false -> olookup m res <> None -> choices_ok d res -> False.
Proof.
  intros Ht Hm Hc. unfold oget in Ht. destruct (olookup m res) as [v|] eqn:E; [|done].
  by destruct (choice_lookup res m v Hc E) as (r & -> & _).
Qed.

(** ** Unselecting *)

Definition unselected (rt f : jstr) : bool :=
  bool_decide (f = rt)
  || bool_decide (rt = js "billing_expr") && bool_decide (f = js "billing_mode")
  || bool_decide (rt = js "billing_mode") && bool_decide (f = js "billing_expr").

Definition without (rt : jstr) (r : jsobj) : jsobj :=
  let r := odelete rt r in
  let r := if bool_decide (rt = js "billing_expr") then odelete (js "billing_mode") r else r in
  if bool_decide (rt = js "billing_mode") then odelete (js "billing_expr") r else r.

Lemma without_lookup rt r f : olookup f (without rt r) = if unselected rt f then None else olookup f r.
Proof.
  unfold without, unselected. cbv zeta.
  destruct (bool_decide (rt = js "billing_mode")), (bool_decide (rt = js "billing_expr"));
    rewrite ?olookup_odelete; cbn [andb orb]; rewrite ?orb_false_r; destruct (bool_decide (f = rt)); cbn [orb];
    repeat match goal with |- context [bool_decide (f = ?x)] => destruct (bool_decide (f = x)) end; done.
Qed.

Lemma unselected_pair rt : unselected rt (js "billing_mode") = true -> unselected rt (js "billing_expr") = true.
Proof.
  unfold unselected. intros [[H|H]%orb_true_iff|H]%orb_true_iff.
  - apply bool_decide_eq_true in H as <-. by rewrite orb_true_r.
  - apply andb_true_iff in H as [H _]. apply bool_decide_eq_true in H as ->. by rewrite bool_decide_eq_true_2.
  - by apply andb_true_iff in H as [_ H%bool_decide_eq_true].
Qed.

Lemma delete_ok res m rt : choices_ok d res -> choices_ok d (deleteResolutionField res m rt).
Proof.
  intros Hc. unfold deleteResolutionField. destruct (truthy (oget m res)); [|done]. cbn [negb]. cbv zeta.
  fold (without rt (chosen_for m res)). destruct (chosen_for_spec res m Hc) as [Hn [->|(r & Hm & Hr & Hl)]].
  - assert (okeys (without rt []) = []) as ->
      by (unfold without; cbv zeta; do 2 destruct (bool_decide _); done). by apply (choices_change res m None).
  - assert (Hw : forall f, olookup f (without rt (chosen_for m res)) = if unselected rt f then None else olookup f r)
      by (intros f; by rewrite without_lookup, Hl).
    assert (Hnw : okeys_nodup (without rt (chosen_for m res)))
      by (unfold without; cbv zeta; repeat case_bool_decide; repeat apply NoDup_odelete; done).
    assert (Hk : forall f, f ∈ okeys (without rt (chosen_for m res)) <-> unselected rt f = false /\ f ∈ okeys r)
      by (intros f; rewrite !in_keys, Hw; destruct (unselected rt f); naive_solver).
    clear Hn Hl. revert Hw Hnw Hk. generalize (without rt (chosen_for m res)). intros w Hw Hnw Hk.
    destruct (okeys w) as [|k ks] eqn:Ek; [by apply (choices_change res m None)|].
    apply (choices_change res m (Some _)); [done|]. intros r' [= <-]. rewrite <-Ek in Hk. destruct Hr as [_ Hr1 Hr2 Hr3 Hr4].
    split; [intros ->; done|done| | |].
    + intros [_ Hp]%Hk (f & Hf & Hin%Hk). apply Hr2; [done|]. exists f. naive_solver.
    + rewrite !Hk. intros [Hu Hin]. split; [|by apply Hr3].
      apply not_true_is_false. intros H%unselected_pair. congruence.
    + apply Forall_olookup; [done|]. intros f v. rewrite Hw. destruct (unselected rt f); [done|].
      rewrite Forall_olookup in Hr4 by done. apply Hr4.
Qed.

(** ** Selecting *)

Lemma prop_obj k o : prop k (VObj o) = oget k o.
Proof. done. Qed.

(** Without an own property there are no upstreams. *)
Lemma no_upstreams k k' u : prop u (prop (js "upstreams") (prop k (inherited k'))) = VUndef.
Proof.
  unfold inherited. case_bool_decide; [|done]. cbn [prop catch vget_opt vget]. unfold inherited. by case_bool_decide.
Qed.

(** A selectable value is one that the server reported for the field. *)
Lemma selectable_own m f u :
  typed_differences d -> upstream_name u -> isSelectableUpstreamValue (upstream_value (oget m d) f u) = true ->
  exists fs, olookup m d = Some (VObj fs) /\ f ∈ okeys fs /\ f ∈ SYNC_FIELD_ORDER
    /\ reported (upstream_value (oget m d) f u).
Proof.
  intros [Hd Hf] [_ Hu]. unfold upstream_value, oget. destruct (olookup m d) as [v|] eqn:Em; cbn [default from_option id].
  2: by rewrite no_upstreams.
  rewrite Forall_olookup in Hf by done. destruct (Hf _ _ Em) as (fs & E & Hn & Hfs). cbn in E. subst v.
  rewrite prop_obj. unfold oget. destruct (olookup f fs) as [v|] eqn:Ef; cbn [default from_option id].
  2: { unfold inherited. by case_bool_decide. }
  rewrite Forall_olookup in Hfs by done. destruct (Hfs _ _ Ef) as (Ho & e & us & E & Eu & Hus). cbn in E. subst v.
  rewrite prop_obj. unfold oget at 1 2. rewrite Eu. cbn [default from_option id]. rewrite prop_obj. unfold oget.
  destruct (olookup u us) as [v|] eqn:Ev; cbn [default from_option id].
  - intros _. exists fs. split_and!; [done| |done|].
    + apply in_keys. by rewrite Ef.
    + apply olookup_elem in Ev. rewrite list.Forall_forall in Hus. by apply (Hus (u, v)).
  - unfold inherited. by rewrite bool_decide_eq_false_2.
Qed.

Definition is_tiered (rt : jstr) : bool := bool_decide (getBillingCategory rt = CTiered).

(** What a choice of an offered value makes of the choices of its model. *)
Definition selected_fields (modelDiffs : jsval) (rt u : jstr) (r : jsobj) : jsobj :=
  let r := oset rt (upstream_value modelDiffs rt u) (clear_category (getBillingCategory rt) r) in
  if is_tiered rt then pair_tiered modelDiffs rt u r else r.

Lemma select_eq m rt u res :
  truthy (oget m d) = true -> u <> [] -> offered (oget m d) u rt = true ->
  handleSelectValue d m rt (upstream_value (oget m d) rt u) u res
  = oset m (VObj (selected_fields (oget m d) rt u (chosen_for m res))) (obj_of res).
Proof.
  intros Ht Hu [Hp _]%andb_true_iff. apply bool_decide_eq_true in Hp.
  assert (Hu' : str_truthy u = true) by (by destruct u).
  unfold handleSelectValue. cbv zeta. unfold vor. rewrite Ht, Hu', Hp, (bool_decide_eq_true_2 (rt = rt)) by done.
  by rewrite !andb_true_r.
Qed.

Section selected.
Context (md : jsval) (rt u : jstr) (r : jsobj).
Notation value f := (upstream_value md f u).
Notation r' := (selected_fields md rt u r).

Definition set_field (f : jstr) : option jsval :=
  if is_tiered rt && bool_decide (f = js "billing_expr") && isSelectableUpstreamValue (value f) then Some (value f)
  else if is_tiered rt && bool_decide (f = js "billing_mode") && isSelectableUpstreamValue (value f) then Some (value f)
  else if bool_decide (rt = js "billing_expr") && bool_decide (f = js "billing_mode") then Some (VStr (js "tiered_expr"))
  else if bool_decide (f = rt) then Some (value f) else None.

Lemma selected_lookup f :
  olookup f r' = match set_field f with
                 | Some v => Some v
                 | None => if clashes (getBillingCategory rt) f then None else olookup f r
                 end.
Proof.
  unfold selected_fields, set_field. destruct (is_tiered rt) eqn:Et; cbn [andb]; cbv zeta.
  - unfold pair_tiered. cbv zeta.
    destruct (isSelectableUpstreamValue (value (js "billing_mode"))) eqn:Em,
      (isSelectableUpstreamValue (value (js "billing_expr"))) eqn:Ex;
      destruct (bool_decide (rt = js "billing_expr")) eqn:Er;
      rewrite ?olookup_oset, ?clear_category_lookup;
      (destruct (decide (f = js "billing_expr")) as [->|Hx];
        [rewrite (bool_decide_eq_true_2 (js "billing_expr" = js "billing_expr")) by done;
         rewrite ?(bool_decide_eq_false_2 (js "billing_expr" = js "billing_mode")) by done
        |rewrite (bool_decide_eq_false_2 (f = js "billing_expr")) by done;
         destruct (decide (f = js "billing_mode")) as [->|Hm];
         [rewrite (bool_decide_eq_true_2 (js "billing_mode" = js "billing_mode")) by done
         |rewrite (bool_decide_eq_false_2 (f = js "billing_mode")) by done]]);
      rewrite ?Em, ?Ex; cbn [andb]; try done; try (destruct (bool_decide (_ = rt)) eqn:Ef; [apply bool_decide_eq_true in Ef as <-|]; try done).
  - rewrite olookup_oset, clear_category_lookup.
    assert (bool_decide (rt = js "billing_expr") = false) as ->.
    { apply bool_decide_eq_false. intros ->. done. }
    cbn [andb]. by destruct (bool_decide (f = rt)) eqn:Ef; [apply bool_decide_eq_true in Ef as ->|].
Qed.

Lemma NoDup_selected : okeys_nodup r -> okeys_nodup r'.
Proof.
  intros Hr. unfold selected_fields, pair_tiered. cbv zeta. pose proof (NoDup_clear (getBillingCategory rt) r Hr).
  destruct (is_tiered rt); [|by apply NoDup_oset].
  repeat match goal with |- context [if ?b then _ else _] => destruct b end; repeat apply NoDup_oset; done.
Qed.
End selected.

Lemma category_price_or f : getBillingCategory f = CPrice \/ getBillingCategory f = CRatio \/ is_tiered f = true.
Proof. unfold is_tiered. destruct (getBillingCategory f); naive_solver. Qed.

Lemma tiered_iff f : is_tiered f = true <-> f = js "billing_mode" \/ f = js "billing_expr".
Proof.
  unfold is_tiered. rewrite bool_decide_eq_true. unfold getBillingCategory. case_bool_decide as H; [subst; split; [done|]|].
  - by intros [|].
  - destruct (_ || _) eqn:E.
    + apply orb_true_iff in E. rewrite !bool_decide_eq_true in E. naive_solver.
    + apply orb_false_iff in E. rewrite !bool_decide_eq_false in E. naive_solver.
Qed.

(** Fields of other categories are only set by choosing them. *)
Lemma set_field_other md rt u f : is_tiered f = false -> set_field md rt u f <> None -> f = rt.
Proof.
  intros Hf. unfold set_field.
  assert (Hx : bool_decide (f = js "billing_expr") = false) by (apply bool_decide_eq_false; by intros ->).
  assert (Hm : bool_decide (f = js "billing_mode") = false) by (apply bool_decide_eq_false; by intros ->).
  rewrite Hx, Hm, !andb_false_r. cbn [andb]. clear Hx Hm. by case_bool_decide.
Qed.

Lemma set_field_rt md rt u : set_field md rt u rt <> None.
Proof.
  unfold set_field. rewrite (bool_decide_eq_true_2 (rt = rt)) by done.
  repeat match goal with |- context [if ?b then _ else _] => destruct b end; done.
Qed.

Lemma selected_pure md rt u r :
  ~ (priced r /\ rated r) -> ~ (priced (selected_fields md rt u r) /\ rated (selected_fields md rt u r)).
Proof.
  intros H [Hp (f & Hf & Hr)]. apply in_keys in Hp, Hr. rewrite selected_lookup in Hp, Hr.
  pose proof (ratio_category f Hf) as Hc.
  assert (Hft : is_tiered f = false) by (unfold is_tiered; by rewrite Hc).
  destruct (set_field md rt u (js "model_price")) eqn:Ep.
  - assert (js "model_price" = rt) as <- by (apply (set_field_other md _ u); [done|by rewrite Ep]).
    destruct (set_field md _ u f) eqn:Er.
    + assert (f = js "model_price") as -> by (apply (set_field_other md _ u); [done|by rewrite Er]). done.
    + assert (clashes (getBillingCategory (js "model_price")) f = true) as E by (apply clashes_spec; by left).
      by rewrite E in Hr.
  - destruct (clashes _ (js "model_price")) eqn:Ec; [done|]. destruct (set_field md rt u f) eqn:Er.
    + assert (f = rt) as -> by (apply (set_field_other md _ u); [done|by rewrite Er]).
      apply not_true_iff_false in Ec. apply Ec, clashes_spec. right. by rewrite Hc.
    + destruct (clashes _ f); [done|]. apply H. split; [by apply in_keys|]. exists f. by rewrite in_keys.
Qed.

Lemma selected_mode md rt u r :
  (js "billing_expr" ∈ okeys r -> js "billing_mode" ∈ okeys r) ->
  js "billing_expr" ∈ okeys (selected_fields md rt u r) -> js "billing_mode" ∈ okeys (selected_fields md rt u r).
Proof.
  intros H. rewrite !in_keys, !selected_lookup. rewrite !in_keys in H.
  assert (Hc : forall c f, is_tiered f = true -> clashes c f = false).
  { intros c f Hf%tiered_iff. unfold clashes. destruct Hf as [->| ->]; by destruct c. }
  rewrite !Hc by done. intros Hx. destruct (set_field md rt u (js "billing_mode")) eqn:Em; [done|]. apply H.
  destruct (set_field md rt u (js "billing_expr")) eqn:Ex; [|done]. exfalso. revert Em.
  destruct (is_tiered rt) eqn:Et.
  - apply tiered_iff in Et as [->| ->]; [intros E; by apply set_field_rt in E|]. unfold set_field.
    destruct (_ && _ && _); [done|]. by destruct (_ && _ && _).
  - intros _. revert Ex. unfold set_field. rewrite Et. cbn [andb].
    rewrite (bool_decide_eq_false_2 (js "billing_expr" = js "billing_mode")) by done. rewrite andb_false_r.
    case_bool_decide as E; [|done]. by subst rt.
Qed.

Lemma select_ok res m rt u :
  typed_differences d -> upstream_name u -> choices_ok d res -> offered (oget m d) u rt = true ->
  choices_ok d (handleSelectValue d m rt (upstream_value (oget m d) rt u) u res).
Proof.
  intros Hd Hu Hc Ho. pose proof Ho as [_ Hs]%andb_true_iff.
  destruct (selectable_own m rt u Hd Hu Hs) as (fs & Em & _ & Hrt & Hrep). pose proof (oget_lookup _ _ _ Em) as Eg.
  rewrite select_eq; [|by rewrite Eg|apply Hu|done]. apply (choices_change res m (Some _)); [done|].
  intros r' Hr'. apply (inj Some) in Hr' as <-. destruct (chosen_for_spec res m Hc) as [Hn Hr].
  assert (Hold : ~ (priced (chosen_for m res) /\ rated (chosen_for m res))
    /\ (js "billing_expr" ∈ okeys (chosen_for m res) -> js "billing_mode" ∈ okeys (chosen_for m res))
    /\ forall f v, olookup f (chosen_for m res) = Some v -> f ∈ SYNC_FIELD_ORDER /\ picked d m (f, v)).
  { destruct Hr as [->|(r & Er & Hr & Hl)].
    - split_and!; [|by intros ?%not_elem_of_nil|done]. by intros [?%not_elem_of_nil _].
    - assert (Hk : forall f, f ∈ okeys (chosen_for m res) <-> f ∈ okeys r) by (intros f; by rewrite !in_keys, Hl).
      destruct Hr as [_ H1 H2 H3 H4]. unfold priced, rated. split_and!.
      + intros [Hp (f & Hf & Hin)]. apply H2; [by apply Hk|]. exists f. by rewrite <-Hk.
      + by rewrite !Hk.
      + intros f v. rewrite Hl. rewrite Forall_olookup in H4 by done. apply H4. }
  destruct Hold as (Hp & Hm & Hf). split.
  - apply (nonempty_lookup rt). rewrite selected_lookup. by pose proof (set_field_rt (oget m d) rt u); destruct (set_field _ _ _ _).
  - by apply NoDup_selected.
  - intros H1 H2. by apply (selected_pure (oget m d) rt u (chosen_for m res) Hp).
  - by apply selected_mode.
  - apply Forall_olookup; [by apply NoDup_selected|]. intros f v. rewrite selected_lookup. cbn [fst].
    destruct (set_field (oget m d) rt u f) as [w|] eqn:Ew.
    + intros Hw. apply (inj Some) in Hw as ->. revert Ew. unfold set_field.
      assert (Hval : isSelectableUpstreamValue (upstream_value (oget m d) f u) = true ->
        Some (upstream_value (oget m d) f u) = Some v -> f ∈ SYNC_FIELD_ORDER /\ picked d m (f, v)).
      { intros Hsel Hv. apply (inj Some) in Hv as <-. destruct (selectable_own m f u Hd Hu Hsel) as (_ & _ & _ & Hin & Hrp).
        split; [done|]. left. exists u. split_and!; [done..|apply Hu]. }
      destruct (is_tiered rt && bool_decide (f = js "billing_expr") && _) eqn:E1;
        [apply andb_true_iff in E1 as [_ E1]; by apply Hval|clear E1].
      destruct (is_tiered rt && bool_decide (f = js "billing_mode") && _) eqn:E2;
        [apply andb_true_iff in E2 as [_ E2]; by apply Hval|clear E2].
      destruct (_ && _) eqn:E3.
      * intros Hv. apply (inj Some) in Hv as <-. apply andb_true_iff in E3 as [_ ->%bool_decide_eq_true].
        split; [decide_now|by right].
      * clear E3. case_bool_decide as E4; [|done]. subst f. by apply Hval.
    + destruct (clashes _ f); [done|]. apply Hf.
Qed.

(** ** Columns *)

Lemma fold_choices {B} (f : jsobj -> B -> jsobj) (l : list B) res :
  (forall res x, x ∈ l -> choices_ok d res -> choices_ok d (f res x)) -> choices_ok d res ->
  choices_ok d (fold_left f l res).
Proof.
  revert res. induction l as [|x l IH]; intros res Hf Hc; [done|]. cbn [fold_left].
  apply IH; [intros ?? Hin; apply Hf; by right|]. apply Hf; [by left|done].
Qed.

Lemma row_differences row search f :
  okeys_nodup d -> row ∈ filteredData d search f -> mr_ratioTypes row = oget (mr_model row) d.
Proof.
  intros Hd H. assert (Hr : row ∈ dataSource d).
  { unfold filteredData in H. cbv zeta in H. revert H. generalize (dataSource d). intros l H.
    destruct (str_truthy f && _); [apply list_elem_of_In, List.filter_In in H as [H%list_elem_of_In _]|];
      (destruct (str_truthy (trim search)); [by apply list_elem_of_In, List.filter_In in H as [H%list_elem_of_In _]|done]). }
  unfold dataSource in Hr. apply list_elem_of_fmap in Hr as ([m v] & -> & Hin). cbn [mr_model mr_ratioTypes fst snd].
  symmetry. by apply oget_lookup, elem_olookup.
Qed.

Lemma bulk_select_ok u search f res :
  typed_differences d -> upstream_name u -> choices_ok d res ->
  choices_ok d (handleBulkSelect d u (filteredData d search f) f res).
Proof.
  intros Hd Hu Hc. unfold handleBulkSelect. apply fold_choices; [|done]. intros res' row Hrow Hc'.
  apply fold_choices; [|done]. intros res2 rt _ Hc2. rewrite (row_differences row search f) by (try done; apply Hd).
  destruct (offered _ u rt) eqn:Eo; [|done]. by apply select_ok.
Qed.

Lemma bulk_unselect_ok u rows f res : choices_ok d res -> choices_ok d (handleBulkUnselect u rows f res).
Proof.
  intros Hc. unfold handleBulkUnselect. apply fold_choices; [|done]. intros res' row _ Hc'.
  apply fold_choices; [|done]. intros res2 rt _ Hc2. destruct (is_undefined _); [done|]. by apply delete_ok.
Qed.

(** The columns are named after upstreams. *)
Lemma upstream_names_ok u search f :
  typed_differences d -> u ∈ upstreamNames (filteredData d search f) f -> upstream_name u.
Proof.
  intros [Hd Hf] H. unfold upstreamNames in H. apply elem_of_dedup, list_elem_of_In, in_flat_map in H as (row & Hrow & H).
  apply in_flat_map in H as (rt & _ & H). apply list_elem_of_In in H, Hrow.
  rewrite (row_differences row search f) in H by done. revert H. unfold oget.
  destruct (olookup (mr_model row) d) as [v|] eqn:Em; cbn [default from_option id].
  2: { unfold inherited. case_bool_decide; cbn [prop catch vget_opt vget]; unfold inherited; try case_bool_decide;
       cbn; by intros ?%not_elem_of_nil. }
  rewrite Forall_olookup in Hf by done. destruct (Hf _ _ Em) as (fs & E & Hn & Hfs). cbn in E. subst v.
  rewrite prop_obj. unfold oget. destruct (olookup rt fs) as [v|] eqn:Ef; cbn [default from_option id].
  2: { unfold inherited. case_bool_decide; cbn; unfold inherited; try case_bool_decide;
       cbn; by intros ?%not_elem_of_nil. }
  rewrite Forall_olookup in Hfs by done. destruct (Hfs _ _ Ef) as (Ho & e & us & E & Eu & Hus). cbn in E. subst v.
  rewrite prop_obj. unfold oget. rewrite Eu. cbn [default from_option id vor truthy entries]. intros H.
  apply list_elem_of_fmap in H as (uv & -> & H). rewrite list.Forall_forall in Hus. by apply Hus.
Qed.
End choices.
