(* ===== verification/UpstreamMerge.v ===== *)
(** * Synchronising prices: what the merge writes

    Merging the choices into the tables never throws, writes each choice into
    the table of its field, drops the ratios of a model that gets a fixed price
    and the price of one that gets a ratio, and keeps everything else. *)
From S2P Require Import Prelude JsString JsNumber JsValue JsValueFacts JsJson JsJsonFacts JsJsonRoundtrip JsStorable ModelPricing ModelPricingFacts UpstreamSync UpstreamPage UpstreamChoices.
Open Scope N_scope.

(** ** Fields and tables *)

Definition field_of (k : table) : jstr :=
  match k with
  | Num Ratio => js "model_ratio" | Num CompletionRatio => js "completion_ratio"
  | Num CacheRatio => js "cache_ratio" | Num CreateCacheRatio => js "create_cache_ratio"
  | Num ImageRatio => js "image_ratio" | Num AudioRatio => js "audio_ratio"
  | Num AudioCompletionRatio => js "audio_completion_ratio" | Num Price => js "model_price"
  | BillingMode => js "billing_mode" | BillingExpression => js "billing_expr"
  end.

Lemma table_of_field f k :
  f ∈ SYNC_FIELD_ORDER -> assoc (optionKeyBySyncField f) option_names = Some k <-> f = field_of k.
Proof.
  intros Hf.
  assert (H : forallb (fun f => forallb (fun k => Bool.eqb
      (bool_decide (assoc (optionKeyBySyncField f) option_names = Some k)) (bool_decide (f = field_of k))) tables)
      SYNC_FIELD_ORDER = true) by (vm_compute; reflexivity).
  rewrite forallb_forall in H. specialize (H f (proj1 (list_elem_of_In _ _) Hf)).
  rewrite forallb_forall in H. specialize (H k (proj1 (list_elem_of_In _ _) (all_tables k))).
  apply eqb_prop in H. by rewrite <-(bool_decide_eq_true (assoc _ _ = _)), H, bool_decide_eq_true.
Qed.

Lemma some_table f : f ∈ SYNC_FIELD_ORDER -> exists k, assoc (optionKeyBySyncField f) option_names = Some k.
Proof.
  intros Hf. assert (H : forallb (fun f => bool_decide (is_Some (assoc (optionKeyBySyncField f) option_names)))
    SYNC_FIELD_ORDER = true) by (vm_compute; reflexivity).
  rewrite forallb_forall in H. specialize (H f (proj1 (list_elem_of_In _ _) Hf)). apply bool_decide_eq_true in H as [k Hk]. by exists k.
Qed.

Lemma field_listed k : field_of k ∈ SYNC_FIELD_ORDER.
Proof. destruct k as [f| |]; [destruct f|..]; decide_now. Qed.

Lemma field_numeric k : bool_decide (field_of k ∈ NUMERIC_SYNC_FIELDS) = match k with Num _ => true | _ => false end.
Proof. destruct k as [f| |]; [destruct f|..]; vm_compute; reflexivity. Qed.

Lemma field_inj j k : field_of j = field_of k -> j = k.
Proof.
  intros H.
  pose proof (proj2 (table_of_field (field_of j) j (field_listed j)) eq_refl) as Hj.
  pose proof (proj2 (table_of_field (field_of j) k (field_listed j)) H) as Hk. congruence.
Qed.

(** What the table of [k] gets from a chosen value. *)
Definition written (k : table) (v : jsval) : jsval :=
  match k with Num _ => VNum (catch (to_num v) nan) | _ => v end.

(** ** One model *)

(** A value that a cell can hold. *)
Definition plain_value (v : jsval) : Prop := match v with VNum _ | VStr _ => True | _ => False end.

Definition plain_fields (r : jsobj) : Prop := Forall (fun fv => fv.1 ∈ SYNC_FIELD_ORDER /\ plain_value fv.2) r.

Lemma write_field_ok model m f v :
  f ∈ SYNC_FIELD_ORDER -> plain_value v ->
  exists k, f = field_of k /\ write_field model m (f, v) = Ok (set_in k model (written k v) m).
Proof.
  intros Hf Hv. destruct (some_table f Hf) as [k Hk]. exists k.
  pose proof (proj1 (table_of_field f k Hf) Hk) as E. split; [done|]. unfold write_field. cbn [fst snd]. rewrite Hk.
  rewrite E, field_numeric. destruct k; [|done..]. by destruct v.
Qed.

Lemma write_fields_ok model r m :
  model <> js "__proto__" -> okeys_nodup r -> plain_fields r ->
  exists m', res_fold (write_field model) r m = Ok m'
    /\ forall k n, olookup n (m' k)
       = if bool_decide (n = model) then match olookup (field_of k) r with
                                         | Some v => Some (written k v)
                                         | None => olookup n (m k)
                                         end
         else olookup n (m k).
Proof.
  intros Hm. revert m. induction r as [|[f v] r IH]; intros m Hn Hf; cbn [res_fold].
  { exists m. split; [done|]. intros k n. cbn [olookup]. by destruct (bool_decide _). }
  unfold okeys_nodup in Hn. cbn [okeys map fst] in Hn. apply NoDup_cons in Hn as [Hk Hn].
  apply list.Forall_cons in Hf as [[Hl Hv] Hf]. destruct (write_field_ok model m f v Hl Hv) as (k0 & E & ->).
  cbn [res_bind]. destruct (IH (set_in k0 model (written k0 v) m) Hn Hf) as (m' & Hm' & H). exists m'. split; [done|].
  intros k n. rewrite H. rewrite set_in_lookup by done. cbn [olookup].
  destruct (bool_decide (n = model)) eqn:En; [|by rewrite andb_false_r]. rewrite andb_true_r.
  destruct (decide (k = k0)) as [->|Hne].
  - rewrite (bool_decide_eq_true_2 (field_of k0 = f)) by done. rewrite (bool_decide_eq_true_2 (k0 = k0)) by done.
    by apply olookup_None in Hk; rewrite <-E, Hk.
  - rewrite (bool_decide_eq_false_2 (k = k0)) by done.
    by rewrite (bool_decide_eq_false_2 (field_of k = f)) by (intros E'; apply Hne, field_inj; congruence).
Qed.

(** The entry of a model that the other choices drop. *)
Definition dropped (k : table) (r : jsobj) : bool :=
  match k with Num Price => has_ratio r | Num _ => has_price r | _ => false end.

Definition merged (k : table) (r : jsobj) (old : option jsval) : option jsval :=
  match olookup (field_of k) r with
  | Some v => Some (written k v)
  | None => if dropped k r then None else old
  end.

Lemma delete_from_lookup ks model m k n :
  olookup n (delete_from ks model m k)
  = if bool_decide (n = model) && bool_decide (k ∈ ks) then None else olookup n (m k).
Proof.
  unfold delete_from. destruct (bool_decide (k ∈ ks)); [|by rewrite andb_false_r].
  rewrite olookup_odelete. by rewrite andb_true_r.
Qed.

Lemma merge_model_ok model r m :
  model <> js "__proto__" -> okeys_nodup r -> plain_fields r ->
  exists m', merge_model m (model, VObj r) = Ok m'
    /\ forall k n, olookup n (m' k)
       = if bool_decide (n = model) then merged k r (olookup n (m k)) else olookup n (m k).
Proof.
  intros Hm Hn Hf. unfold merge_model. cbn [fst snd entries]. cbv zeta.
  match goal with |- context [res_fold _ r ?m1] => destruct (write_fields_ok model r m1 Hm Hn Hf) as (m' & -> & H) end.
  exists m'. split; [done|]. intros k n. rewrite H. unfold merged.
  destruct (bool_decide (n = model)) eqn:En.
  - destruct (olookup (field_of k) r); [done|]. destruct (has_ratio r) eqn:Er, (has_price r) eqn:Ep;
      rewrite ?delete_from_lookup, ?En; cbn [andb]; unfold dropped;
      (destruct k as [f| |]; [destruct f|..]); rewrite ?Er, ?Ep; done.
  - destruct (has_ratio r), (has_price r); rewrite ?delete_from_lookup, ?En; done.
Qed.

(** ** All models *)

Lemma choice_plain d m r : model_choice d m r -> okeys_nodup r /\ plain_fields r.
Proof.
  intros [_ Hn _ _ Hf]. split; [done|]. unfold plain_fields. eapply list.Forall_impl; [exact Hf|].
  intros [f v] [Hl Hp]. split; [done|]. cbn [fst snd].
  destruct Hp as [(u & Hs & Hr & _)|E]; [|apply (f_equal snd) in E; cbn [snd] in E; by rewrite E].
  cbn [snd] in Hs, Hr. clear -Hs Hr. by destruct v.
Qed.

(** The tables after the merge, from those before it. *)
Definition merged_table (res : jsobj) (k : table) (n : jstr) (old : option jsval) : option jsval :=
  match olookup n res with Some v => merged k (entries v) old | None => old end.

Lemma merge_all d res m :
  choices_ok d res -> js "__proto__" ∉ okeys res ->
  exists m', res_fold merge_model res m = Ok m'
    /\ forall k n, olookup n (m' k) = merged_table res k n (olookup n (m k)).
Proof.
  unfold merged_table. intros [Hn Hf]. revert m. induction res as [|[x v] res IH]; intros m Hp; cbn [res_fold].
  { by exists m. }
  unfold okeys_nodup in Hn. cbn [okeys map fst] in Hn, Hp. apply NoDup_cons in Hn as [Hx Hn].
  apply not_elem_of_cons in Hp as [Hxp Hp]. apply list.Forall_cons in Hf as [(r & E & Hr) Hf]. cbn in E. subst v.
  destruct (choice_plain d x r Hr) as [Hrn Hrf].
  destruct (merge_model_ok x r m (not_eq_sym Hxp) Hrn Hrf) as (m1 & -> & H1). cbn [res_bind].
  destruct (IH Hn Hf m1 Hp) as (m' & Hm' & H). exists m'. split; [done|]. intros k n. rewrite H, H1. cbn [olookup].
  destruct (decide (n = x)) as [->|Hne].
  - rewrite (bool_decide_eq_true_2 (x = x)) by done. apply olookup_None in Hx. by rewrite Hx.
  - by rewrite (bool_decide_eq_false_2 (n = x)) by done.
Qed.

(** The tables as the page reads them. *)
Definition tables_read (st : store) (m : maps) : Prop := forall k, parsedRatios st k = VObj (m k) /\ okeys_nodup (m k).

Lemma finalRatios_ok d res st m :
  choices_ok d res -> js "__proto__" ∉ okeys res -> tables_read st m ->
  exists final, finalRatios res (parsedRatios st) = Ok final
    /\ forall k n, olookup n (final k) = merged_table res k n (olookup n (m k)).
Proof.
  intros Hc Hp Hm. unfold finalRatios.
  destruct (merge_all d res (fun k => obj_of (entries (parsedRatios st k))) Hc Hp) as (final & -> & H).
  exists final. split; [done|]. intros k n. rewrite H. destruct (Hm k) as [-> Hn]. cbn [entries].
  by rewrite olookup_obj_of.
Qed.

(** The merge repeats no key. *)
Lemma res_fold_inv {A B} (P : A -> Prop) (f : A -> B -> res A) l a b :
  (forall a x b, f a x = Ok b -> P a -> P b) -> res_fold f l a = Ok b -> P a -> P b.
Proof.
  intros Hf. revert a. induction l as [|x l IH]; intros a; cbn [res_fold]; [by intros ->%Ok_inj|].
  destruct (f a x) as [a'|] eqn:E; [|done]. cbn [res_bind]. intros H Ha. by apply (IH a'), (Hf a x).
Qed.

Definition nodup_maps (m : maps) : Prop := forall k, okeys_nodup (m k).

Lemma nodup_delete_from ks n m : nodup_maps m -> nodup_maps (delete_from ks n m).
Proof. intros H k. unfold delete_from. case_bool_decide; [by apply NoDup_odelete|done]. Qed.

Lemma nodup_merge res m m' : res_fold merge_model res m = Ok m' -> nodup_maps m -> nodup_maps m'.
Proof.
  apply (res_fold_inv nodup_maps). intros a [n v] b. unfold merge_model. cbv zeta. intros H Ha. revert H.
  match goal with |- res_fold _ _ ?a1 = _ -> _ => assert (H1 : nodup_maps a1); [|revert H1; generalize a1] end.
  { destruct (has_price _), (has_ratio _); repeat apply nodup_delete_from; done. }
  intros a1 H1 H. revert H H1. apply (res_fold_inv nodup_maps). intros c [f w] e H Hc. unfold write_field in H.
  revert H. match goal with |- context [res_bind ?x _] => destruct x as [y|]; [|done] end. cbn [res_bind].
  destruct (assoc _ _) as [k|]; [|done]. intros <-%Ok_inj j. unfold set_in, assign_own.
  case_bool_decide; [|done]. case_bool_decide; [done|by apply NoDup_oset].
Qed.

Lemma nodup_final res st m final :
  tables_read st m -> finalRatios res (parsedRatios st) = Ok final -> nodup_maps final.
Proof.
  intros Hm H. apply (nodup_merge _ _ _ H). intros k. apply NoDup_ospread. constructor.
Qed.

(** ** Conflicts *)

Definition local_category (m : maps) (n : jstr) : option category :=
  if bool_decide (n ∈ okeys (m (Num Price))) then Some CPrice
  else if existsb (fun k => bool_decide (n ∈ okeys (m k))) ratio_tables then Some CRatio else None.

Lemma local_not_tiered m n : local_category m n <> Some CTiered.
Proof. unfold local_category. destruct (bool_decide _); [done|]. by destruct (existsb _ _). Qed.

(** A stored price against a chosen ratio, or a stored ratio against a chosen price. *)
Definition clash_with (local : option category) (r : jsobj) : bool :=
  match local with
  | Some CPrice => has_ratio r
  | Some CRatio => has_price r
  | _ => false
  end.
Definition conflicting (m : maps) (res : jsobj) (n : jstr) : bool :=
  clash_with (local_category m n) (entries (oget n res)).

(** The stored tables hold numbers and texts. *)
Definition plain_tables (m : maps) : Prop := forall k, Forall (fun nv => plain_value nv.2) (m k).

Section conflicts.
Context (t : jstr -> jstr) (d : jsobj) (st : store) (m : maps).
Context (Hread : tables_read st m) (Hplain : plain_tables m).

Lemma is_set_ok n k : n ∉ object_prototype_names ->
  is_set (parsedRatios st) n k = Ok (bool_decide (n ∈ okeys (m k))).
Proof.
  intros Hn. unfold is_set. destruct (Hread k) as [-> Hnd]. cbn [vget res_map res_bind]. f_equal. unfold oget.
  destruct (olookup n (m k)) as [v|] eqn:E; cbn [default from_option id].
  - rewrite bool_decide_eq_true_2 by (apply in_keys; by rewrite E). apply olookup_elem in E.
    pose proof (Hplain k) as H. rewrite list.Forall_forall in H. specialize (H _ E). by destruct v.
  - rewrite bool_decide_eq_false_2 by (by apply olookup_None). unfold inherited. by rewrite bool_decide_eq_false_2.
Qed.

Lemma any_set_ok n ks : n ∉ object_prototype_names ->
  any_set (parsedRatios st) n ks = Ok (existsb (fun k => bool_decide (n ∈ okeys (m k))) ks).
Proof.
  intros Hn. induction ks as [|k ks IH]; [done|]. cbn [any_set existsb]. rewrite is_set_ok by done. cbn [res_bind].
  destruct (bool_decide _); [done|exact IH].
Qed.

Lemma local_category_ok n : n ∉ object_prototype_names ->
  getLocalBillingCategory n (parsedRatios st) = Ok (local_category m n).
Proof.
  intros Hn. unfold getLocalBillingCategory, local_category. rewrite is_set_ok by done. cbn [res_bind].
  destruct (bool_decide _); [done|]. rewrite any_set_ok by done. by destruct (existsb _ _).
Qed.

(** The descriptions never throw. *)
Lemma plain_text k n : n ∉ object_prototype_names ->
  exists v, vget n (parsedRatios st k) = Ok v /\ (plain_value v \/ v = VUndef).
Proof.
  intros Hn. destruct (Hread k) as [-> Hnd]. eexists. split; [reflexivity|]. unfold oget.
  destruct (olookup n (m k)) as [v|] eqn:E; cbn [default from_option id].
  - left. apply olookup_elem in E. pose proof (Hplain k) as H. rewrite list.Forall_forall in H. by apply (H _ E).
  - right. unfold inherited. by rewrite bool_decide_eq_false_2.
Qed.

Lemma chosen_text f r : plain_fields r -> f ∉ object_prototype_names -> plain_value (oget f r) \/ oget f r = VUndef.
Proof.
  intros Hr Hf. unfold oget. destruct (olookup f r) as [v|] eqn:E; cbn [default from_option id].
  - left. apply olookup_elem in E. unfold plain_fields in Hr. rewrite list.Forall_forall in Hr. by apply (Hr _ E).
  - right. unfold inherited. by rewrite bool_decide_eq_false_2.
Qed.

Lemma dash_ok v : plain_value v \/ v = VUndef -> exists s, to_str (vcoalesce v (VStr (js "-"))) = Ok s.
Proof. intros [H| ->]; [|by eexists]. destruct v; try done; by eexists. Qed.
Lemma text_ok v : plain_value v \/ v = VUndef -> exists s, to_str v = Ok s.
Proof. intros [H| ->]; [|by eexists]. destruct v; try done; by eexists. Qed.

Lemma newCategory_spec n r : model_choice d n r ->
  newCategory r = if has_price r then CPrice else if has_ratio r then CRatio else CTiered.
Proof.
  intros _. unfold newCategory, prop_in, has_price, has_ratio. cbn [entries].
  rewrite (bool_decide_eq_false_2 (js "model_price" ∈ object_prototype_names)) by decide_now. rewrite orb_false_r.
  destruct (bool_decide _); [done|].
  assert (existsb (fun rt => bool_decide (rt ∈ okeys r)) RATIO_SYNC_FIELDS
          = existsb (fun rt => bool_decide (rt ∈ RATIO_SYNC_FIELDS)) (okeys r)) as ->; [|done].
  apply eq_true_iff_eq. rewrite !existsb_exists. setoid_rewrite bool_decide_eq_true.
  setoid_rewrite <-list_elem_of_In. naive_solver.
Qed.

Lemma pure_choice n r : model_choice d n r -> has_price r = true -> has_ratio r = true -> False.
Proof.
  intros Hr Hp Hq. apply (mc_pure _ _ _ Hr).
  - by apply bool_decide_eq_true in Hp.
  - apply existsb_exists in Hq as (f & Hin & Hf). apply bool_decide_eq_true in Hf. exists f.
    split; [done|by apply list_elem_of_In].
Qed.

Lemma conflict_of_ok n r :
  n ∉ object_prototype_names -> model_choice d n r ->
  exists cs, conflict_of t d (parsedRatios st) (n, VObj r) = Ok cs
    /\ map ci_model cs = if clash_with (local_category m n) r then [n] else [].
Proof.
  intros Hn Hr. destruct (choice_plain d n r Hr) as [_ Hf]. unfold conflict_of. cbn [fst snd entries]. cbv zeta.
  rewrite local_category_ok by done. cbn [res_bind]. rewrite (newCategory_spec n r) by done.
  pose proof (pure_choice n r Hr) as Hpure.
  destruct (plain_text (Num Price) n Hn) as (p & -> & Hp), (plain_text (Num Ratio) n Hn) as (q & -> & Hq),
    (plain_text (Num CompletionRatio) n Hn) as (w & -> & Hw).
  destruct (text_ok p Hp) as [ps Eps], (dash_ok q Hq) as [qs Eqs], (dash_ok w Hw) as [ws Ews].
  assert (Hfield : forall f, f ∉ object_prototype_names -> exists s s', to_str (oget f r) = Ok s
    /\ to_str (vcoalesce (oget f r) (VStr (js "-"))) = Ok s').
  { intros f Hfn. destruct (text_ok _ (chosen_text f r Hf Hfn)) as [s ?], (dash_ok _ (chosen_text f r Hf Hfn)) as [s' ?].
    by exists s, s'. }
  destruct (Hfield (js "model_price")) as (s1 & _ & E1 & _); [decide_now|].
  destruct (Hfield (js "model_ratio")) as (_ & s2 & _ & E2); [decide_now|].
  destruct (Hfield (js "completion_ratio")) as (_ & s3 & _ & E3); [decide_now|].
  unfold clash_with. destruct (local_category m n) as [[]|] eqn:El; destruct (has_price r) eqn:Ep, (has_ratio r) eqn:Eq;
    try (exfalso; by apply Hpure); try (by apply local_not_tiered in El); cbv iota;
    repeat (match goal with |- context [bool_decide (?a = ?b :> category)] =>
      let x := eval vm_compute in (bool_decide (a = b)) in change (bool_decide (a = b)) with x end);
    cbn [negb andb res_bind res_map]; rewrite ?Eps, ?Eqs, ?Ews, ?E1, ?E2, ?E3; cbn [res_bind res_map];
    eexists; (split; [reflexivity|done]).
Qed.

Lemma conflicts_of_ok res :
  choices_ok d res -> Forall (fun n => n ∉ object_prototype_names) (okeys res) ->
  exists cs, conflicts_of t d (parsedRatios st) res = Ok cs
    /\ map ci_model cs = List.filter (conflicting m res) (okeys res).
Proof.
  intros [Hn Hf] Hp. unfold conflicts_of.
  enough (exists css, res_mapM (conflict_of t d (parsedRatios st)) res = Ok css
    /\ map ci_model (concat css)
       = List.filter (fun n => clash_with (local_category m n) (entries (oget n res))) (okeys res)) as (css & -> & E)
    by (by exists (concat css)).
  assert (Hl : forall n v, (n, v) ∈ res -> oget n res = v) by (intros; by apply oget_lookup, elem_olookup).
  revert Hl. generalize res at 2 4. intros all Hl. clear Hn. induction res as [|[n v] res IH]; [by exists []|].
  cbn [okeys map fst] in Hp. apply list.Forall_cons in Hp as [Hnp Hp]. apply list.Forall_cons in Hf as [(r & E & Hr) Hf].
  cbn in E. subst v. destruct (conflict_of_ok n r Hnp Hr) as (c & Ec & Em). cbn [res_mapM]. rewrite Ec. cbn [res_bind].
  destruct IH as (css & -> & IH); [done|done|intros; apply Hl; by right|]. eexists. split; [reflexivity|].
  cbn [concat okeys map fst List.filter]. rewrite map_app, IH, Em.
  rewrite (Hl n (VObj r)) by (by left). cbn [entries]. by destruct (clash_with _ _).
Qed.
End conflicts.
