(* ===== verification/UpstreamPageFacts.v ===== *)
(** * Synchronising prices: the page

    The invariant of every run, what an accepted synchronisation stores and
    shows, that every synchronisation ends, and what the dialog of channels
    lets the administrator choose. *)
From stdpp Require Import gmap sorting.
From S2P Require Import Prelude JsString JsNumber JsValue JsValueFacts JsJson JsJsonFacts JsJsonRoundtrip JsStorable BillingExpr ModelPricing ModelPricingFacts UpstreamSync UpstreamPage UpstreamChoices UpstreamMerge.
Open Scope N_scope.

Section page_facts.
Context (t : jstr -> jstr) (official : jstr).
Notation handle := (handle t official).
Notation run := (run t official).

(** ** The invariant *)

Record page_ok (s : Sync) : Prop := {
  pk_differences : typed_differences (sy_differences s);
  pk_choices : choices_ok (sy_differences s) (sy_resolutions s);
  pk_pending : forall ups c, sy_sync s = Some (ups, c) -> ups <> [] }.

(** The server's answer has the type it declares. *)
Definition typed_event (e : Event) : Prop :=
  match e with FetchDone r => typed_differences (fr_differences r) | _ => True end.

Lemma typed_drop_field m d rt : typed_differences d -> typed_differences (drop_field m d rt).
Proof.
  intros Hd. pose proof Hd as [Hn Hf]. unfold drop_field. destruct (truthy _) eqn:Et; [|done].
  assert (Hdel : typed_differences (odelete m d)).
  { split; [by apply NoDup_odelete|]. apply list.Forall_forall. intros kv Hin. rewrite list.Forall_forall in Hf.
    apply Hf. unfold odelete in Hin. apply list_elem_of_In, List.filter_In in Hin as [Hin _]. by apply list_elem_of_In. }
  destruct (odelete rt (entries (oget m d))) as [|kv l] eqn:E; [done|]. rewrite <-E.
  split; [by apply NoDup_oset|]. apply Forall_oset; [|done]. unfold oget in E |- *.
  destruct (olookup m d) as [v|] eqn:Em; cbn [default from_option id] in E |- *.
  2: { unfold inherited in E. by case_bool_decide. }
  apply olookup_elem in Em. rewrite list.Forall_forall in Hf. destruct (Hf _ Em) as (fs & Ev & Hnf & Hfs). cbn in Ev. subst v.
  exists (odelete rt fs). cbn [entries fst snd]. split; [done|]. split; [by apply NoDup_odelete|].
  apply list.Forall_forall. intros x Hin. rewrite list.Forall_forall in Hfs. apply Hfs.
  unfold odelete in Hin. apply list_elem_of_In, List.filter_In in Hin as [Hin _]. by apply list_elem_of_In.
Qed.

Lemma typed_drop_resolved res d : typed_differences d -> typed_differences (drop_resolved res d).
Proof.
  intros [Hn Hf]. unfold drop_resolved.
  assert (H : typed_differences (obj_of d)) by (split; [apply NoDup_ospread; constructor|by apply Forall_obj_of]).
  revert H. generalize (obj_of d). clear Hn Hf d. induction res as [|[m v] res IH]; intros d H; [done|].
  cbn [fold_left fst snd]. apply IH. revert d H. generalize (okeys (entries v)). clear. intros ks.
  induction ks as [|k ks IH]; intros d H; [done|]. cbn [fold_left]. apply IH. by apply typed_drop_field.
Qed.

Lemma cell_offered s m rt u :
  typed_differences (sy_differences s) -> has_cell s m rt u = true ->
  upstream_name u /\ offered (oget m (sy_differences s)) u rt = true.
Proof.
  intros Hd H. unfold has_cell in H. apply andb_true_iff in H as [H1 H2]. apply bool_decide_eq_true in H2.
  split; [by apply (upstream_names_ok (sy_differences s) u (sy_search s) (sy_filter s))|].
  apply existsb_exists in H1 as (row & Hrow & H1). apply andb_true_iff in H1 as [H1 Ho].
  apply andb_true_iff in H1 as [Hm _]. apply bool_decide_eq_true in Hm as <-.
  apply list_elem_of_In in Hrow. by rewrite <-(row_differences (sy_differences s) row (sy_search s) (sy_filter s)) by (try done; apply Hd).
Qed.

Lemma when_ok b f s : page_ok s -> (b = true -> page_ok (f s)) -> page_ok (when b f s).
Proof. destruct b; cbn; auto. Qed.

Lemma set_resolutions_ok r s : page_ok s -> choices_ok (sy_differences s) r -> page_ok (set_resolutions r s).
Proof. destruct s. intros [H1 H2 H3] Hc. by split. Qed.

Lemma updates_nonempty res current ups : sync_updates res current = Ok ups -> map fst ups = sync_tables.
Proof.
  unfold sync_updates. destruct (finalRatios res current) as [final|e]; [|done]. cbn [res_bind]. intros H.
  apply Ok_inj in H as <-. rewrite map_map. apply map_id.
Qed.

Lemma perform_ok c s : page_ok s -> page_ok (performSync c s).
Proof.
  intros [H1 H2 H3]. unfold performSync. destruct (sync_updates _ _) as [ups|e] eqn:E; [|done].
  apply updates_nonempty in E. destruct s. split; [done|done|]. cbn. intros ups' c' [= <- _] ->. done.
Qed.

Lemma apply_ok s : page_ok s -> page_ok (handleApplySync t s).
Proof.
  intros Hs. unfold handleApplySync. destruct (conflicts_of _ _ _ _) as [[|c cs]|e]; [|by destruct s, Hs|done].
  apply perform_ok. by destruct s, Hs.
Qed.

Lemma answer_ok a s : page_ok s -> page_ok (onAnswer t a s).
Proof.
  intros Hs. unfold onAnswer. destruct (sy_sync s) as [[[|u rest] c]|] eqn:E; [done| |done].
  set (s1 := if an_stored a then _ else _).
  assert (H1 : page_ok s1 /\ sy_differences s1 = sy_differences s /\ sy_resolutions s1 = sy_resolutions s)
    by (unfold s1; destruct (an_stored a), s, Hs; done).
  destruct H1 as (H1 & Hd & Hr). clearbody s1. destruct (an_resolved a); cbn [negb].
  - destruct rest as [|u' rest]; [|destruct s1, H1; split; [done|done|]; cbn; by intros ? ? [= <- _]].
    unfold onSynced. cbv zeta. assert (page_ok (set_sync None (set_resolutions []
      (set_differences (drop_resolved (sy_resolutions s1) (sy_differences s1)) s1)))).
    { destruct s1, H1 as [D C _]. split; [by apply typed_drop_resolved|by apply choices_nil|done]. }
    destruct c, s1, H; by split.
  - unfold onSyncFailed. destruct s1, H1. by split.
Qed.

Lemma handle_ok s e : page_ok s -> typed_event e -> page_ok (handle s e).
Proof.
  intros Hs He. pose proof Hs as [Hd Hc Hp]. destruct e; cbn [UpstreamPage.handle];
    try (apply when_ok; [done|intros Hb]); try (apply andb_true_iff in Hb as [_ Hb]).
  1,2,8: by destruct s, Hs.
  - apply set_resolutions_ok; [done|]. destruct (cell_offered s model ratioType upstream Hd Hb). by apply select_ok.
  - apply set_resolutions_ok; [done|]. by apply delete_ok.
  - apply set_resolutions_ok; [done|]. apply bulk_select_ok; [done| |done]. unfold has_column in Hb.
    apply andb_true_iff in Hb as [Hb _]. apply bool_decide_eq_true in Hb.
    by apply (upstream_names_ok (sy_differences s) upstream (sy_search s) (sy_filter s)).
  - apply set_resolutions_ok; [done|]. by apply bulk_unselect_ok.
  - by destruct s, Hs.
  - by destruct s, Hs.
  - by destruct s, Hs.
  - by destruct s, Hs.
  - unfold handleConfirmChannelSelection. destruct (selectedChannels _ _); by destruct s, Hs.
  - unfold onFetched. destruct (fr_success reply); cbn [negb]; [|by destruct s, Hs]. cbv zeta.
    assert (H : page_ok (set_resolutions [] (set_differences (fr_differences reply) (set_fetch None s)))).
    { destruct s, Hs. split; [done|by apply choices_nil|done]. }
    destruct (failed_tests _); destruct (fr_differences reply) eqn:E; rewrite <-?E in *; by destruct s, H.
  - by destruct s, Hs.
  - by apply apply_ok.
  - by destruct s, Hs.
  - by apply perform_ok.
  - by apply answer_ok.
  - by destruct s, Hs.
Qed.
End page_facts.

(** ** Requests *)

Section requests.
Context (t : jstr -> jstr) (official : jstr).
Notation handle := (handle t official).
Notation run := (run t official).

Definition answers (l : list Answer) : list Event := map Answered l.

(** What the server holds after it answered the first requests. *)
Definition served (l : list (Update * Answer)) (st : store) : store :=
  fold_left (fun st ua => if an_stored ua.2 then store_text ua.1 st else st) l st.

Lemma onSynced_sync c p s : onSynced t c (set_sync p s) = onSynced t c s.
Proof. by destruct s, c. Qed.

Lemma onSynced_fields c s :
  sy_server (onSynced t c s) = sy_server s /\ sy_sync (onSynced t c s) = None /\ sy_resolutions (onSynced t c s) = []
  /\ sy_differences (onSynced t c s) = drop_resolved (sy_resolutions s) (sy_differences s)
  /\ sy_toasts (onSynced t c s) = sy_toasts s ++ [TSuccess (t (js "Prices synced successfully"))].
Proof. by destruct s, c. Qed.

Lemma set_server_fields st s :
  sy_server (set_server st s) = st /\ sy_resolutions (set_server st s) = sy_resolutions s
  /\ sy_differences (set_server st s) = sy_differences s.
Proof. by destruct s. Qed.

Lemma answered_all l ups c s :
  length l = length ups -> ups <> [] -> Forall (fun a => an_resolved a = true) l -> sy_sync s = Some (ups, c) ->
  run s (answers l) = onSynced t c (set_server (served (zip ups l) (sy_server s)) s).
Proof.
  revert ups s. induction l as [|a l IH]; intros [|u ups] s Hl Hne Hr Hs; try done.
  apply list.Forall_cons in Hr as [Ha Hr]. cbn [length] in Hl. injection Hl as Hl.
  cbn [answers map UpstreamPage.run fold_left UpstreamPage.handle zip_with served fst snd].
  unfold onAnswer at 1. rewrite Hs, Ha. cbn [negb].
  destruct ups as [|u' ups].
  - destruct l; [|done]. destruct (an_stored a), s; done.
  - destruct l as [|a' l]; [done|]. set (s1 := if an_stored a then _ else _).
    change (fold_left handle (map Answered (a' :: l)) (set_sync (Some (u' :: ups, c)) s1))
      with (run (set_sync (Some (u' :: ups, c)) s1) (answers (a' :: l))).
    rewrite (IH (u' :: ups)); [|done|done|done|by destruct s1].
    assert (E : forall st, set_server st (set_sync (Some (u' :: ups, c)) s1) = set_sync (Some (u' :: ups, c)) (set_server st s)).
    { intros st. unfold s1. by destruct (an_stored a), s. }
    rewrite E, onSynced_sync. do 2 f_equal.
    replace (sy_server (set_sync _ s1)) with (if an_stored a then store_text u (sy_server s) else sy_server s); [done|].
    unfold s1. by destruct (an_stored a), s.
Qed.

(** Every way of answering the requests leads to a state with [P]. *)
Inductive eventually (P : Sync -> Prop) (s : Sync) : Prop :=
  | ev_now : P s -> eventually P s
  | ev_answer : sy_sync s <> None -> (forall a, eventually P (handle s (Answered a))) -> eventually P s.

Lemma eventually_mono P Q s : (forall s, P s -> Q s) -> eventually P s -> eventually Q s.
Proof. intros H. induction 1 as [s Hs|s Hs _ IH]; [apply ev_now, H, Hs|by apply ev_answer]. Qed.

(** The synchronisation that [s0] started has ended: the requests were sent in
    order up to one, the server stored some of these and nothing else, and the
    choices are used up exactly when all requests were answered. *)
Definition settled (s0 : Sync) (ups : list Update) (s : Sync) : Prop :=
  sy_sync s = None
  /\ exists sent stored, sent `prefix_of` ups /\ stored `sublist_of` sent
     /\ sy_server s = fold_left (fun st u => store_text u st) stored (sy_server s0)
     /\ ((sent = ups /\ sy_resolutions s = []) \/ (sy_resolutions s = sy_resolutions s0 /\ sy_differences s = sy_differences s0)).

Lemma settles_from s0 ups c sent stored rest s :
  ups = sent ++ rest -> rest <> [] -> sy_sync s = Some (rest, c) -> stored `sublist_of` sent ->
  sy_server s = fold_left (fun st u => store_text u st) stored (sy_server s0) ->
  sy_resolutions s = sy_resolutions s0 -> sy_differences s = sy_differences s0 ->
  eventually (settled s0 ups) s.
Proof.
  revert sent stored s. induction rest as [|u rest IH]; intros sent stored s Hu Hne Hs Hsub Hsv Hr Hd; [done|].
  apply ev_answer; [by rewrite Hs|]. intros a. cbn [UpstreamPage.handle]. unfold onAnswer. rewrite Hs.
  set (s1 := if an_stored a then _ else _).
  assert (Hs1 : exists stored', stored' `sublist_of` sent ++ [u]
    /\ sy_server s1 = fold_left (fun st u => store_text u st) stored' (sy_server s0)
    /\ sy_resolutions s1 = sy_resolutions s0 /\ sy_differences s1 = sy_differences s0).
  { unfold s1. destruct (an_stored a).
    - exists (stored ++ [u]). split; [by apply sublist_app|]. rewrite fold_left_app. cbn [fold_left]. rewrite <-Hsv.
      by destruct s.
    - exists stored. split; [|done]. by apply sublist_inserts_r. }
  destruct Hs1 as (stored' & Hsub' & Hsv' & Hr' & Hd'). clearbody s1.
  destruct (an_resolved a); cbn [negb].
  - destruct rest as [|u' rest].
    + apply ev_now. split; [by destruct s1, c|]. exists ups, stored'. rewrite Hu in *.
      split_and!; [done|done| |left; split; [done|by destruct s1, c]]. rewrite <-Hsv'. by destruct s1, c.
    + apply (IH (sent ++ [u]) stored'); [by rewrite <-app_assoc|done| |done|..]; by destruct s1.
  - apply ev_now. split; [by destruct s1|]. exists (sent ++ [u]), stored'. split_and!; [|done| |].
    + rewrite Hu. exists rest. by rewrite <-app_assoc.
    + rewrite <-Hsv'. by destruct s1.
    + right. by destruct s1.
Qed.
End requests.
