(* ===== verification/UpstreamSyncFacts.v ===== *)
(** * Synchronising prices: theorems

    What the administrator's choices can be, when a confirmation is asked for,
    that a started synchronisation ends, and what the rows of the price editor
    show afterwards. *)
From stdpp Require Import gmap sorting.
From S2P Require Import Prelude JsString JsNumber JsValue JsValueFacts JsJson JsJsonFacts JsJsonRoundtrip JsStorable BillingExpr ModelPricing ModelPricingFacts UpstreamSync UpstreamPage UpstreamChoices UpstreamMerge UpstreamPageFacts.
Open Scope N_scope.

Section theorems.
Context (t : jstr -> jstr) (official : jstr).
Notation run := (run t official).

Lemma open_ok st : page_ok (open_page st).
Proof. split; [by split; constructor|by apply choices_nil|done]. Qed.

Lemma run_app s a b : run s (a ++ b) = run (run s a) b.
Proof. apply fold_left_app. Qed.

Lemma run_ok s es : page_ok s -> Forall typed_event es -> page_ok (run s es).
Proof.
  revert s. induction es as [|e es IH]; intros s Hs He; [done|]. apply list.Forall_cons in He as [He Hes].
  cbn. apply IH; [by apply handle_ok|done].
Qed.

(** C21.  Whatever is selected, unselected, fetched and synchronised, in any
    order: what is chosen for a model is never empty, never a fixed price next
    to a ratio, an expression always comes with a billing mode, and every chosen
    value is one that an upstream reported for that field of the model (or the
    mode [tiered_expr] that goes with an expression). *)
Theorem choices_sound (st : store) (es : list Event) (model : jstr) (v : jsval) :
  Forall typed_event es ->
  let s := run (open_page st) es in
  olookup model (sy_resolutions s) = Some v ->
  exists r, v = VObj r /\ r <> [] /\ ~ (priced r /\ rated r)
    /\ (js "billing_expr" ∈ okeys r -> js "billing_mode" ∈ okeys r)
    /\ Forall (fun fv => fv.1 ∈ SYNC_FIELD_ORDER /\ picked (sy_differences s) model fv) r.
Proof.
  intros He s Hm. destruct (run_ok _ _ (open_ok st) He) as [_ Hc _]. fold s in Hc.
  destruct (choice_lookup _ _ _ _ Hc Hm) as (r & -> & [H1 H2 H3 H4 H5]). exists r. split_and!; [done|done| |done|done].
  intros [Hp Hr]. by apply H3.
Qed.

(** ** Starting *)

Record ready (s : Sync) (m : maps) : Prop := {
  rd_ok : page_ok s;
  rd_idle : isLoading s = false;
  rd_some : sy_resolutions s <> [];
  rd_names : Forall (fun n => n ∉ object_prototype_names) (okeys (sy_resolutions s));
  rd_read : tables_read (sy_modelRatios s) m;
  rd_plain : plain_tables m }.

(** The requests of a synchronisation. *)
Definition requests (final : maps) : list Update := map (fun k => (k, stringify2 (VObj (final k)))) sync_tables.

Lemma names_proto (l : list jstr) : Forall (fun n => n ∉ object_prototype_names) l -> js "__proto__" ∉ l.
Proof. rewrite list.Forall_forall. intros H Hin. apply (H _ Hin). decide_now. Qed.

Lemma updates_ok s m : ready s m ->
  exists final, sync_updates (sy_resolutions s) (parsedRatios (sy_modelRatios s)) = Ok (requests final)
    /\ nodup_maps final /\ forall k n, olookup n (final k) = merged_table (sy_resolutions s) k n (olookup n (m k)).
Proof.
  intros [[_ Hc _] _ _ Hn Hr _].
  destruct (finalRatios_ok (sy_differences s) (sy_resolutions s) (sy_modelRatios s) m Hc (names_proto _ Hn) Hr) as (final & E & H).
  exists final. split; [unfold sync_updates; by rewrite E|]. split; [by apply (nodup_final _ _ _ _ Hr E)|done].
Qed.

Definition conflicting_models (m : maps) (s : Sync) : list jstr :=
  List.filter (conflicting m (sy_resolutions s)) (okeys (sy_resolutions s)).

(** [s'] differs from [s] at most in the dialog, the toasts and the requests. *)
Definition same_work (s s' : Sync) : Prop :=
  sy_resolutions s' = sy_resolutions s /\ sy_differences s' = sy_differences s /\ sy_server s' = sy_server s
  /\ sy_modelRatios s' = sy_modelRatios s /\ sy_fetch s' = sy_fetch s.

Lemma apply_cases s m : ready s m ->
  exists final, nodup_maps final
  /\ (forall k n, olookup n (final k) = merged_table (sy_resolutions s) k n (olookup n (m k)))
  /\ let s' := handle t official s ApplySync in
     same_work s s'
     /\ match conflicting_models m s with
        | [] => sy_sync s' = Some (requests final, false) /\ sy_conflictDialog s' = sy_conflictDialog s
        | ms => sy_conflictDialog s' = true /\ map ci_model (sy_conflicts s') = ms /\ sy_sync s' = None
                /\ sy_sync (handle t official s' ConfirmConflict) = Some (requests final, true)
                /\ same_work s (handle t official s' ConfirmConflict)
        end.
Proof.
  intros H. destruct (updates_ok s m H) as (final & Eu & Hnd & Hf). exists final. split; [done|]. split; [done|].
  destruct H as [[_ Hc _] Hi Hs Hn Hr Hp].
  destruct (conflicts_of_ok t (sy_differences s) (sy_modelRatios s) m Hr Hp (sy_resolutions s) Hc Hn) as (cs & Ec & Em).
  cbn [handle]. assert (hasSelections s && negb (isLoading s) = true) as ->
    by (rewrite Hi; unfold hasSelections; by destruct (sy_resolutions s)).
  cbn [when]. unfold handleApplySync. rewrite Ec. fold (conflicting_models m s) in Em. rewrite <-Em.
  assert (Hl : forall p, sy_sync s = p -> p = None).
  { intros p <-. unfold isLoading in Hi. apply orb_false_iff in Hi as [_ Hi]. apply bool_decide_eq_false in Hi.
    destruct (sy_sync s); [|done]. destruct Hi. by eexists. }
  assert (Hq : sy_fetch s = None).
  { unfold isLoading in Hi. apply orb_false_iff in Hi as [Hi _]. apply bool_decide_eq_false in Hi.
    destruct (sy_fetch s); [|done]. destruct Hi. by eexists. }
  specialize (Hl _ eq_refl).
  destruct cs as [|c cs]; cbv zeta.
  - unfold performSync. replace (sync_updates _ _) with (Ok (requests final)) by (rewrite <-Eu; by destruct s).
    split; [|split]; by destruct s.
  - cbn [map]. split; [by destruct s|]. split_and!; [by destruct s|by destruct s|by destruct s|..].
    all: assert (Hopen : sy_conflictDialog (set_conflictDialog true (set_conflicts (c :: cs) s))
      && negb (isLoading (set_conflictDialog true (set_conflicts (c :: cs) s))) = true)
      by (unfold isLoading; destruct s; cbn in Hl, Hq |- *; by rewrite Hl, Hq).
    all: rewrite Hopen; cbn [when]; unfold performSync;
      replace (sync_updates _ _) with (Ok (requests final)) by (rewrite <-Eu; by destruct s); by destruct s.
Qed.

(** Applying the choices asks for a confirmation exactly when some model
    has a stored price and gets a ratio, or has stored ratios and gets a price;
    the dialog lists exactly these models, and nothing is sent before it is
    confirmed.  Otherwise the requests are sent at once. *)
Theorem confirmation_asked_iff (s : Sync) (m : maps) :
  ready s m ->
  let s' := handle t official s ApplySync in
  (sy_sync s' = None <-> conflicting_models m s <> [])
  /\ (conflicting_models m s <> [] ->
      sy_conflictDialog s' = true /\ map ci_model (sy_conflicts s') = conflicting_models m s)
  /\ same_work s s'.
Proof.
  intros H s'. destruct (apply_cases s m H) as (final & _ & _ & Hw & Hc). fold s' in Hw, Hc.
  destruct (conflicting_models m s) as [|x ms].
  - destruct Hc as [-> _]. split_and!; [|done|done]. by split.
  - destruct Hc as (H1 & H2 & H3 & _). split_and!; [by split|done|done].
Qed.

(** What the administrator does to start: apply, and confirm when asked. *)
Definition start_events (m : maps) (s : Sync) : list Event :=
  match conflicting_models m s with [] => [ApplySync] | _ => [ApplySync; ConfirmConflict] end.

Lemma started_ok s m : ready s m ->
  exists final c, nodup_maps final
    /\ (forall k n, olookup n (final k) = merged_table (sy_resolutions s) k n (olookup n (m k)))
    /\ sy_sync (run s (start_events m s)) = Some (requests final, c) /\ same_work s (run s (start_events m s)).
Proof.
  intros H. destruct (apply_cases s m H) as (final & Hn & Hf & Hw & Hc). exists final. unfold start_events.
  destruct (conflicting_models m s) as [|x ms].
  - destruct Hc as [Hc _]. by exists false.
  - destruct Hc as (_ & _ & _ & Hc & Hw'). by exists true.
Qed.

(** C26.  A synchronisation that is applied (and confirmed when asked) sends the
    ten merged tables and ends whatever the server answers: after at most ten
    answers nothing is pending, the tables were sent in order up to one, the
    server stored some of the sent ones and nothing else, and either all were
    sent and the choices are used up, or the choices and their differences are
    kept. *)
Theorem sync_settles (s : Sync) (m : maps) :
  ready s m ->
  exists final c,
    (forall k n, olookup n (final k) = merged_table (sy_resolutions s) k n (olookup n (m k)))
    /\ sy_sync (run s (start_events m s)) = Some (requests final, c)
    /\ eventually t official (settled s (requests final)) (run s (start_events m s)).
Proof.
  intros H. destruct (started_ok s m H) as (final & c & _ & Hf & Hs & Hr & Hd & Hsv & _). exists final, c.
  split_and!; [done|done|].
  by apply (settles_from t official s (requests final) c [] [] (requests final)).
Qed.

(** ** What the price editor shows afterwards *)

Definition text_of_entry (o : option jsval) : jstr :=
  match o with Some (VNum x) => num_to_str x | Some (VStr s) => s | _ => [] end.
Definition row_texts (m : maps) (n : jstr) : prices := prices_of (fun f => text_of_entry (olookup n (m (Num f)))).

(** The row of a model whose mode is not the tiered one. *)
Lemma snapshot_plain m n :
  n ∉ object_prototype_names -> (forall k v, olookup n (m k) = Some v -> plain_value v) ->
  olookup n (m BillingMode) <> Some (VStr (js "tiered_expr")) ->
  snapshot_at m n = Ok (MkSnapshot n (row_texts m n)
    (if str_truthy (get (row_texts m n) Price) then js "per-request" else js "per-token") None None
    (str_truthy (get (row_texts m n) Price) && existsb (fun f => str_truthy (get (row_texts m n) f)) ratio_fields)).
Proof.
  intros Hn Hp Hm. assert (Ht : forall f, value_text (oget n (m (Num f))) = Ok (text_of_entry (olookup n (m (Num f))))).
  { intros f. unfold oget. destruct (olookup n (m (Num f))) as [v|] eqn:E; cbn [default from_option id].
    - specialize (Hp _ _ E). by destruct v.
    - unfold inherited. by rewrite bool_decide_eq_false_2. }
  unfold snapshot_at. rewrite field_texts_ok by (intros f; by eexists).
  rewrite (prices_of_ext (field_text m n) (fun f => text_of_entry (olookup n (m (Num f)))))
    by (intros f; unfold field_text; by rewrite Ht).
  cbn [res_bind]. fold (row_texts m n).
  assert (str_is (js "tiered_expr") (oget n (m BillingMode)) = false) as ->.
  { unfold oget. destruct (olookup n (m BillingMode)) as [v|] eqn:E; cbn [default from_option id].
    - destruct v; try done. apply bool_decide_eq_false. by intros ->.
    - unfold inherited. by rewrite bool_decide_eq_false_2. }
  done.
Qed.

(** What is chosen can be printed: the names and texts are texts, the numbers
    numbers that JSON can write. *)
Definition printable_choices (res : jsobj) : Prop :=
  forall n v k w, olookup n res = Some v -> olookup (field_of k) (entries v) = Some w ->
  forallb is_unit n = true /\ printable (written k w).

Lemma final_storable res m final :
  nodup_maps final -> storable_maps m -> printable_choices res ->
  (forall k n, olookup n (final k) = merged_table res k n (olookup n (m k))) -> storable_maps final.
Proof.
  intros Hnd Hm Hp Hf k. split; [by apply Hnd|]. apply Forall_olookup; [by apply Hnd|]. intros n v. rewrite Hf. cbn [fst snd].
  assert (Hold : olookup n (m k) = Some v -> forallb is_unit n = true /\ printable v).
  { intros E%olookup_elem. destruct (Hm k) as [_ H]. rewrite list.Forall_forall in H. apply (H _ E). }
  unfold merged_table, merged. destruct (olookup n res) as [c|] eqn:Ec; [|done].
  destruct (olookup (field_of k) (entries c)) as [w|] eqn:Ew.
  - intros E. apply (inj Some) in E as <-. by apply (Hp n c k w).
  - destruct (dropped k _); [done|apply Hold].
Qed.

Lemma has_price_iff r : has_price r = true <-> priced r.
Proof. unfold has_price, priced. apply bool_decide_eq_true. Qed.
Lemma has_ratio_iff r : has_ratio r = true <-> rated r.
Proof.
  unfold has_ratio, rated. rewrite existsb_exists. setoid_rewrite bool_decide_eq_true.
  setoid_rewrite <-list_elem_of_In. naive_solver.
Qed.

Lemma number_text_truthy x : printable (VNum x) -> str_truthy (num_to_str x) = true.
Proof.
  intros [H _]. destruct (json_num_text [] [] x H) as (_ & Hn & _).
  by destruct (json_number_head _ _ _ Hn) as (c & u & -> & _).
Qed.

Lemma ratio_table_field f : f ∈ RATIO_SYNC_FIELDS -> exists p, p ∈ ratio_fields /\ f = field_of (Num p).
Proof.
  assert (H : forall f, f ∈ RATIO_SYNC_FIELDS -> f ∈ map (fun p => field_of (Num p)) ratio_fields).
  { intros g Hg. replace (map _ _) with RATIO_SYNC_FIELDS by (vm_compute; reflexivity). done. }
  intros Hf%H%list_elem_of_fmap. destruct Hf as (p & -> & Hp). by exists p.
Qed.
Lemma ratio_field_listed p : p ∈ ratio_fields -> field_of (Num p) ∈ RATIO_SYNC_FIELDS.
Proof. destruct p; intros H; first [decide_now|exfalso; revert H; decide_now]. Qed.

(** The row of a model with a chosen price, or with chosen ratios. *)
Lemma merged_row res m m' n r d :
  n ∉ object_prototype_names -> plain_tables m -> model_choice d n r -> olookup n res = Some (VObj r) ->
  printable_choices res ->
  (forall k x, olookup x (m' k) = merged_table res k x (olookup x (m k))) ->
  olookup n (m' BillingMode) <> Some (VStr (js "tiered_expr")) ->
  exists row, snapshot_at m' n = Ok row /\ s_value row = row_texts m' n
    /\ (priced r -> s_mode row = js "per-request" /\ forall f, f ∈ ratio_fields -> get (s_value row) f = [])
    /\ (rated r -> s_mode row = js "per-token" /\ get (s_value row) Price = [])
    /\ (priced r \/ rated r -> hasConflict row = false).
Proof.
  intros Hn Hpl Hr En Hpr Hm' Hmode. destruct (choice_plain d n r Hr) as [Hnr Hfr].
  assert (Hl : forall k, olookup n (m' k) = merged k r (olookup n (m k)))
    by (intros k; rewrite Hm'; unfold merged_table; by rewrite En).
  assert (Hplain : forall k v, olookup n (m' k) = Some v -> plain_value v).
  { intros k v. rewrite Hl. unfold merged. destruct (olookup (field_of k) r) as [w|] eqn:Ew.
    - intros E. apply (inj Some) in E as <-. apply olookup_elem in Ew. unfold plain_fields in Hfr. rewrite list.Forall_forall in Hfr.
      destruct (Hfr _ Ew) as [_ Hw]. by destruct k.
    - destruct (dropped k r); [done|]. intros E%olookup_elem. specialize (Hpl k). rewrite list.Forall_forall in Hpl. by apply (Hpl _ E). }
  eexists. split; [by apply snapshot_plain|]. split; [done|]. cbn [s_mode s_value hasConflict].
  assert (Hg : forall f, get (row_texts m' n) f = text_of_entry (merged (Num f) r (olookup n (m (Num f)))))
    by (intros f; unfold row_texts; by rewrite get_prices_of, Hl).
  assert (Hgone : forall k, olookup (field_of k) r = None -> dropped k r = true -> merged k r (olookup n (m k)) = None)
    by (intros k H1 H2; unfold merged; by rewrite H1, H2).
  assert (Hratios : priced r -> forall f, f ∈ ratio_fields -> get (row_texts m' n) f = []).
  { intros Hp f Hf. rewrite Hg, Hgone; [done| |].
    - apply olookup_None. intros Hin. apply (mc_pure _ _ _ Hr Hp). exists (field_of (Num f)). split; [by apply ratio_field_listed|done].
    - apply has_price_iff in Hp. revert Hf. destruct f; cbn [dropped]; try done. intros Hf. exfalso. revert Hf. decide_now. }
  assert (Hprice : priced r -> str_truthy (get (row_texts m' n) Price) = true).
  { intros Hp. rewrite Hg. unfold merged. apply in_keys in Hp. cbn [field_of].
    destruct (olookup (js "model_price") r) as [w|] eqn:Ew; [|done]. cbn [written text_of_entry]. apply number_text_truthy.
    by destruct (Hpr n (VObj r) (Num Price) w En Ew). }
  assert (Hnoprice : rated r -> get (row_texts m' n) Price = []).
  { intros Hq. rewrite Hg, Hgone; [done| |by apply has_ratio_iff in Hq].
    apply olookup_None. intros Hp. by apply (mc_pure _ _ _ Hr Hp). }
  split_and!.
  - intros Hp. rewrite Hprice by done. split; [done|by apply Hratios].
  - intros Hq. rewrite Hnoprice by done. done.
  - intros [Hp|Hq]; [|by rewrite Hnoprice]. rewrite Hprice by done. cbn [andb]. apply not_true_is_false.
    intros (f & Hf & Hx)%existsb_exists. rewrite Hratios in Hx; [done|done|by apply list_elem_of_In].
Qed.

(** ** What is stored *)

Lemma served_all (g : table -> jstr) ks st k :
  served (zip (map (fun k => (k, g k)) ks) (replicate (length ks) accepted)) st k
  = if bool_decide (k ∈ ks) then g k else st k.
Proof.
  unfold served. revert st. induction ks as [|j ks IH]; intros st.
  { by rewrite bool_decide_eq_false_2 by apply not_elem_of_nil. }
  cbn [map length replicate zip zip_with fold_left fst snd accepted an_stored]. rewrite IH. unfold store_text. cbn [fst snd].
  rewrite (bool_decide_ext (k ∈ j :: ks) (k = j \/ k ∈ ks)) by apply elem_of_cons.
  destruct (decide (k ∈ ks)) as [Hin|Hin].
  - by rewrite !bool_decide_eq_true_2 by auto.
  - rewrite (bool_decide_eq_false_2 (k ∈ ks)) by done. destruct (decide (k = j)) as [->|Hne].
    + by rewrite !bool_decide_eq_true_2 by auto.
    + by rewrite !bool_decide_eq_false_2 by tauto.
Qed.

Lemma all_synced k : k ∈ sync_tables.
Proof. destruct k as [f| |]; [destruct f|..]; decide_now. Qed.

Lemma parse_store_pointwise st st' m :
  (forall k, st' k = st k) -> parse_store st = Some m -> exists m', parse_store st' = Some m' /\ forall k, m' k = m k.
Proof.
  intros H. unfold parse_store.
  assert (forallb (fun k => bool_decide (is_Some (parse_table (st' k)))) tables
          = forallb (fun k => bool_decide (is_Some (parse_table (st k)))) tables) as ->.
  { induction tables as [|k ks IH]; [done|]. cbn [forallb]. by rewrite H, IH. }
  destruct (forallb _ _); [|done]. intros [= <-]. eexists. split; [reflexivity|]. intros k. cbn. by rewrite H.
Qed.

Definition full_sync (m : maps) (s : Sync) : list Event := start_events m s ++ answers (replicate 10 accepted).

Lemma full_sync_ok s m : ready s m ->
  exists final, nodup_maps final
    /\ (forall k n, olookup n (final k) = merged_table (sy_resolutions s) k n (olookup n (m k)))
    /\ (forall k, sy_server (run s (full_sync m s)) k = write_store final k)
    /\ sy_sync (run s (full_sync m s)) = None /\ sy_resolutions (run s (full_sync m s)) = []
    /\ sy_differences (run s (full_sync m s)) = drop_resolved (sy_resolutions s) (sy_differences s).
Proof.
  intros H. destruct (started_ok s m H) as (final & c & Hn & Hf & Hs & Hr & Hd & Hsv & _). exists final.
  split; [done|]. split; [done|]. unfold full_sync. rewrite run_app.
  revert Hs Hr Hd Hsv. generalize (run s (start_events m s)). intros s1 Hs Hr Hd Hsv.
  rewrite (answered_all t official _ (requests final) c); [|done|done|by apply list.Forall_replicate|done].
  destruct (onSynced_fields t c (set_server (served (zip (requests final) (replicate 10 accepted)) (sy_server s1)) s1))
    as (-> & -> & -> & -> & _).
  destruct (set_server_fields (served (zip (requests final) (replicate 10 accepted)) (sy_server s1)) s1) as (-> & -> & ->).
  rewrite <-Hr, <-Hd. split_and!; [|done..]. intros k.
  change 10%nat with (length sync_tables). unfold requests.
  rewrite (served_all (fun k => stringify2 (VObj (final k)))). by rewrite bool_decide_eq_true_2 by apply all_synced.
Qed.

(** A row of a model whose stored mode is that of expressions. *)
Lemma tiered_row m n row :
  olookup n (m BillingMode) = Some (VStr (js "tiered_expr")) -> snapshot_at m n = Ok row -> s_mode row = js "tiered_expr".
Proof.
  intros E. unfold snapshot_at. destruct (field_texts m n); [|done]. cbn [res_bind].
  unfold oget at 1. rewrite E. cbn [default from_option id]. unfold id. cbn [str_is]. rewrite bool_decide_eq_true_2 by done.
  destruct (vor _ _); try done. destruct (splitBillingExprAndRequestRules s); [|done]. cbn [res_bind]. by intros <-%Ok_inj.
Qed.

(** C15.  When the server accepts the ten tables (those of a page that is ready
    and holds numbers and texts, with choices that can be printed), they are
    the old ones with every choice written into the table of its field,
    without the ratios of the models that got a price and the prices of those
    that got ratios, and with everything else as it was.  In the price editor,
    which reads these tables, the row of every other model is unchanged.  The
    row of a chosen model depends on its billing mode, which only a choice of
    the billing mode itself changes: a model that is or becomes billed by an
    expression is shown with that mode, whatever price or ratios were chosen;
    any other shows the chosen price without ratios, or the chosen ratios and
    no price, and never a conflict. *)
Theorem synced_rows (s : Sync) (m : maps) :
  ready s m -> storable_maps m -> printable_choices (sy_resolutions s) ->
  let s' := run s (full_sync m s) in
  sy_sync s' = None /\ sy_resolutions s' = []
  /\ exists m', parse_store (sy_server s') = Some m'
    /\ (forall k n, olookup n (m' k) = merged_table (sy_resolutions s) k n (olookup n (m k)))
    /\ (forall n, n ∉ okeys (sy_resolutions s) -> snapshot_at m' n = snapshot_at m n)
    /\ (forall n r, olookup n (sy_resolutions s) = Some (VObj r) -> js "billing_mode" ∉ okeys r ->
        olookup n (m' BillingMode) = olookup n (m BillingMode))
    /\ (forall n row, olookup n (m' BillingMode) = Some (VStr (js "tiered_expr")) -> snapshot_at m' n = Ok row ->
        s_mode row = js "tiered_expr")
    /\ (forall n r, olookup n (sy_resolutions s) = Some (VObj r) ->
        olookup n (m' BillingMode) <> Some (VStr (js "tiered_expr")) ->
        exists row, snapshot_at m' n = Ok row /\ s_value row = row_texts m' n
          /\ (priced r -> s_mode row = js "per-request" /\ forall f, f ∈ ratio_fields -> get (s_value row) f = [])
          /\ (rated r -> s_mode row = js "per-token" /\ get (s_value row) Price = [])
          /\ (priced r \/ rated r -> hasConflict row = false)).
Proof.
  intros H Hst Hp s'. destruct (full_sync_ok s m H) as (final & Hn & Hf & Hsv & Hs & Hr & _). fold s' in Hsv, Hs, Hr.
  split; [done|]. split; [done|]. destruct (parse_write final) as (m1 & Hm1 & E1); [by apply (final_storable (sy_resolutions s) m)|].
  destruct (parse_store_pointwise (write_store final) (sy_server s') m1 Hsv Hm1) as (m' & Hm' & E').
  assert (Hl : forall k n, olookup n (m' k) = merged_table (sy_resolutions s) k n (olookup n (m k)))
    by (intros k n; by rewrite E', E1, olookup_obj_of, Hf).
  exists m'. split_and!; [done|done| | | |].
  - intros n Hnin. apply snapshot_ext. intros k. rewrite Hl. unfold merged_table. apply olookup_None in Hnin. by rewrite Hnin.
  - intros n r En Hb. rewrite Hl. unfold merged_table. rewrite En. unfold merged. cbn [entries field_of dropped].
    apply olookup_None in Hb. by rewrite Hb.
  - intros n row. apply tiered_row.
  - intros n r En. destruct H as [[_ Hc _] _ _ Hnm _ Hpl]. destruct (choice_lookup _ _ _ _ Hc En) as (r' & E & Hrc).
    injection E as <-. rewrite list.Forall_forall in Hnm.
    apply (merged_row (sy_resolutions s) m m' n r (sy_differences s)); [|done..].
    apply Hnm, list_elem_of_fmap. exists (n, VObj r). split; [done|by apply olookup_elem].
Qed.

(** A model that is billed by an expression stays so when a price or ratios are
    chosen for it: no choice but a billing mode touches the stored mode, and
    no confirmation is asked for. *)
Lemma tiered_stays s m n r :
  ready s m -> storable_maps m -> printable_choices (sy_resolutions s) ->
  olookup n (sy_resolutions s) = Some (VObj r) -> js "billing_mode" ∉ okeys r ->
  olookup n (m BillingMode) = Some (VStr (js "tiered_expr")) ->
  exists m', parse_store (sy_server (run s (full_sync m s))) = Some m'
    /\ olookup n (m' BillingMode) = Some (VStr (js "tiered_expr"))
    /\ forall row, snapshot_at m' n = Ok row -> s_mode row = js "tiered_expr".
Proof.
  intros H Hst Hp En Hb Ht. destruct (full_sync_ok s m H) as (final & Hn & Hf & Hsv & _).
  destruct (parse_write final) as (m1 & Hm1 & E1); [by apply (final_storable (sy_resolutions s) m)|].
  destruct (parse_store_pointwise (write_store final) _ m1 Hsv Hm1) as (m' & Hm' & E'). exists m'. split; [done|].
  assert (E : olookup n (m' BillingMode) = Some (VStr (js "tiered_expr"))).
  { rewrite E', E1, olookup_obj_of, Hf by done. unfold merged_table. rewrite En. unfold merged. cbn [entries field_of dropped].
    apply olookup_None in Hb. by rewrite Hb. }
  split; [done|]. intros row. by apply tiered_row.
Qed.

(** A refusal that the server reports in the body of its answer counts as
    success: nothing was stored, yet the choices and their differences are
    dropped and the page says that the prices were synchronised. *)
Lemma refusals_pass s m :
  ready s m ->
  let s' := run s (start_events m s ++ answers (replicate 10 (MkAnswer false true []))) in
  sy_server s' = sy_server s /\ sy_resolutions s' = []
  /\ sy_differences s' = drop_resolved (sy_resolutions s) (sy_differences s)
  /\ last (sy_toasts s') = Some (TSuccess (t (js "Prices synced successfully"))).
Proof.
  intros H s'. destruct (started_ok s m H) as (final & c & Hn & Hf & Hs & Hr & Hd & Hsv & _).
  unfold s'. rewrite run_app. clear s'.
  revert Hs Hr Hd Hsv. generalize (run s (start_events m s)). intros s1 Hs Hr Hd Hsv.
  rewrite (answered_all t official _ (requests final) c); [|done|done|by apply list.Forall_replicate|done].
  match goal with |- context [set_server ?st s1] =>
    destruct (onSynced_fields t c (set_server st s1)) as (-> & _ & -> & -> & ->); destruct (set_server_fields st s1) as (-> & -> & ->)
  end.
  rewrite <-Hsv, <-Hr, <-Hd. split_and!; [|done|done|by rewrite last_snoc].
  generalize (requests final). intros ups. generalize (sy_server s1). clear. unfold served.
  generalize 10%nat. intros k. revert ups. induction k as [|k IH]; intros [|u ups] st; try done. apply IH.
Qed.
End theorems.

(** ** An example *)

Definition sample_upstream : UpstreamChannel :=
  MkUpstream 1 (js "up") (js "https://up.example") None 1 (Some 1%Z).
Definition sample_field (current value : jsval) : jsval :=
  VObj [(js "current", current); (js "upstreams", VObj [(js "up(1)", value)]);
        (js "confidence", VObj [(js "up(1)", VBool true)])].
Definition sample_differences : jsobj :=
  [ (js "gpt-4", VObj [(js "model_ratio", sample_field (VNum (num_of_Z 15)) (VNum (num_of_Z 20)));
                       (js "model_price", sample_field (VNum (num_of_Z 1)) (VNum (num_of_Z 2)))]);
    (js "new", VObj [(js "completion_ratio", sample_field VNull (VNum (num_of_Z 4)));
                     (js "model_ratio", sample_field VNull (VStr (js "3")))]) ].
Definition sample_fetch : list Event :=
  [OpenChannels; ChannelsLoaded [sample_upstream]; ConfirmChannels [1%Z];
   FetchDone (MkReply true [] sample_differences [])].
Definition sample_events : list Event :=
  sample_fetch ++ [SelectCell (js "gpt-4") (js "model_price") (js "up(1)"); BulkSelect (js "up(1)");
                   UnselectCell (js "gpt-4") (js "model_price") (js "up(1)");
                   SelectCell (js "gpt-4") (js "model_ratio") (js "up(1)")].
Definition sample_t : jstr -> jstr := fun s => s.
Definition sample_page : Sync := UpstreamPage.run sample_t [] (open_page sample_store) sample_events.

Lemma sample_typed : Forall typed_event sample_events.
Proof.
  assert (Hf : forall f c v, f ∈ SYNC_FIELD_ORDER -> reported v -> typed_field (f, sample_field c v)).
  { intros f c v Hf Hv. split; [done|]. eexists _, _. split_and!; [reflexivity|reflexivity|].
    apply list.Forall_cons. split; [|constructor]. split; [split; [done|decide_now]|done]. }
  assert (Hd : typed_differences sample_differences).
  { split; [unfold okeys_nodup; decide_now|].
    repeat apply list.Forall_cons_2; [| |constructor]; (eexists; split_and!; [reflexivity|unfold okeys_nodup; decide_now|]);
      (repeat apply list.Forall_cons_2; [| |constructor]); apply Hf; first [decide_now|vm_compute; reflexivity|exact I]. }
  unfold sample_events, sample_fetch. cbn [app]. repeat (apply list.Forall_cons_2; [first [exact I|exact Hd]|]). constructor.
Qed.

Example sample_choices :
  sy_resolutions sample_page
  = [(js "new", VObj [(js "model_ratio", VStr (js "3")); (js "completion_ratio", VNum (num_of_Z 4))]);
     (js "gpt-4", VObj [(js "model_ratio", VNum (num_of_Z 20))])].
Proof. vm_compute. reflexivity. Qed.

Lemma choices_sound_witness :
  exists r, VObj [(js "model_ratio", VStr (js "3")); (js "completion_ratio", VNum (num_of_Z 4))] = VObj r
    /\ r <> [] /\ ~ (priced r /\ rated r) /\ (js "billing_expr" ∈ okeys r -> js "billing_mode" ∈ okeys r)
    /\ Forall (fun fv => fv.1 ∈ SYNC_FIELD_ORDER /\ picked (sy_differences sample_page) (js "new") fv) r.
Proof.
  apply (choices_sound sample_t [] sample_store sample_events (js "new")); [exact sample_typed|].
  vm_compute. reflexivity.
Defined.

Lemma sample_read : tables_read sample_store sample_maps.
Proof. intros [f| |]; [destruct f|..]; (split; [vm_compute; reflexivity|unfold okeys_nodup; decide_now]). Qed.

Lemma sample_plain : plain_tables sample_maps.
Proof.
  intros [f| |]; [destruct f|..]; match goal with |- Forall _ ?o => let l := eval vm_compute in o in change o with l end;
    repeat (apply list.Forall_cons_2; [exact I|]); apply list.Forall_nil_2.
Qed.

Lemma sample_ready : ready sample_page sample_maps.
Proof.
  split.
  - apply run_ok; [apply open_ok|exact sample_typed].
  - vm_compute. reflexivity.
  - rewrite sample_choices. done.
  - rewrite sample_choices. repeat (apply list.Forall_cons_2; [decide_now|]). apply list.Forall_nil_2.
  - replace (sy_modelRatios sample_page) with sample_store by reflexivity. exact sample_read.
  - exact sample_plain.
Qed.

Lemma confirmation_asked_iff_witness :
  conflicting_models sample_maps sample_page = [js "gpt-4"]
  /\ sy_conflictDialog (UpstreamPage.handle sample_t [] sample_page ApplySync) = true.
Proof.
  assert (E : conflicting_models sample_maps sample_page = [js "gpt-4"]) by (vm_compute; reflexivity).
  split; [exact E|]. destruct (confirmation_asked_iff sample_t [] sample_page sample_maps sample_ready) as (_ & H & _).
  apply H. rewrite E. done.
Defined.

Lemma sync_settles_witness :
  exists final c, sy_sync (UpstreamPage.run sample_t [] sample_page [ApplySync; ConfirmConflict]) = Some (requests final, c)
    /\ eventually sample_t [] (settled sample_page (requests final))
         (UpstreamPage.run sample_t [] sample_page [ApplySync; ConfirmConflict]).
Proof.
  destruct (sync_settles sample_t [] sample_page sample_maps sample_ready) as (final & c & _ & H1 & H2).
  assert (E : start_events sample_maps sample_page = [ApplySync; ConfirmConflict]) by (vm_compute; reflexivity).
  rewrite E in H1, H2. exists final, c. split; [exact H1|exact H2].
Defined.

Lemma sample_choices_printable : printable_choices (sy_resolutions sample_page).
Proof.
  rewrite sample_choices. intros n v k w Hn Hw. cbn [olookup] in Hn.
  destruct (decide (n = js "new")) as [->|N1]; [rewrite bool_decide_eq_true_2 in Hn by done|rewrite bool_decide_eq_false_2 in Hn by done;
    destruct (decide (n = js "gpt-4")) as [->|N2]; [rewrite bool_decide_eq_true_2 in Hn by done|by rewrite bool_decide_eq_false_2 in Hn by done]];
    injection Hn as <-; (split; [vm_compute; reflexivity|]); revert Hw;
    (destruct k as [f| |]; [destruct f|..]); intros Hw; vm_compute in Hw; try discriminate Hw; injection Hw as <-;
    (split; [vm_compute; reflexivity|exact I]).
Qed.

Lemma synced_rows_witness :
  exists m', parse_store (sy_server (UpstreamPage.run sample_t [] sample_page (full_sync sample_maps sample_page))) = Some m'
    /\ snapshot_at m' (js "old") = snapshot_at sample_maps (js "old")
    /\ exists row, snapshot_at m' (js "gpt-4") = Ok row /\ s_mode row = js "per-token" /\ hasConflict row = false.
Proof.
  destruct (synced_rows sample_t [] sample_page sample_maps sample_ready sample_maps_storable sample_choices_printable)
    as (_ & _ & m' & Hm' & _ & Hframe & Hmode & _ & Hrow).
  exists m'. split; [exact Hm'|]. split.
  - apply Hframe. rewrite sample_choices. decide_now.
  - destruct (Hrow (js "gpt-4") [(js "model_ratio", VNum (num_of_Z 20))]) as (row & E & _ & _ & H1 & H2).
    + rewrite sample_choices. vm_compute. reflexivity.
    + rewrite (Hmode _ [(js "model_ratio", VNum (num_of_Z 20))]); [vm_compute; discriminate| |decide_now].
      rewrite sample_choices. vm_compute. reflexivity.
    + assert (Hr : rated [(js "model_ratio", VNum (num_of_Z 20))]) by (exists (js "model_ratio"); split; decide_now).
      exists row. split; [exact E|]. split; [apply H1, Hr|apply H2; right; exact Hr].
Defined.

(** The check box of a column cannot select everything: of an upstream that
    offers ratios and a fixed price for a model, only the price stays chosen. *)
Example bulk_keeps_price :
  let s := UpstreamPage.run sample_t [] (open_page sample_store) (sample_fetch ++ [BulkSelect (js "up(1)")]) in
  olookup (js "gpt-4") (sy_resolutions s) = Some (VObj [(js "model_price", VNum (num_of_Z 2))])
  /\ allSelected (sy_resolutions s) (rows s) (sy_filter s) (js "up(1)") = false.
Proof. vm_compute. split; reflexivity. Qed.
