(* ===== verification/UpstreamEndpoints.v ===== *)
(** * Synchronising prices: the endpoints of the channels

    In the dialog of channels the option for a custom endpoint clears the
    endpoint, which then counts as the default one. *)
From stdpp Require Import gmap.
From S2P Require Import Prelude JsString JsNumber JsValue ModelPricing UpstreamSync UpstreamPage.
Open Scope N_scope.

Definition standard_endpoints : list jstr := [js "/api/pricing"; js "/api/ratio_config"; js "openrouter"].

Lemma endpoint_type_custom x : getEndpointType x = js "custom" <-> x ∉ standard_endpoints.
Proof.
  unfold getEndpointType. cbn [ENDPOINT_OPTIONS existsb snd]. unfold standard_endpoints.
  rewrite !not_elem_of_cons. unfold OPENROUTER_ENDPOINT.
  repeat match goal with |- context [bool_decide (?a = x)] => destruct (decide (a = x)) as [<-|];
    [rewrite (bool_decide_eq_true_2 (a = a)) by done|rewrite (bool_decide_eq_false_2 (a = x)) by done] end; cbn [orb].
  1-3: split; [done|naive_solver].
  all: split; [intros _; split_and!; try done; by apply not_elem_of_nil|done].
Qed.

Section endpoints.
Context (t : jstr -> jstr) (official : jstr) (cid : Z).
Notation handle := (handle t official).

Definition standard_default (e : Event) : Prop :=
  match e with
  | ChannelsLoaded chs => Forall (fun c => uc_id c = cid -> getDefaultEndpointForChannel official c ∈ standard_endpoints) chs
  | _ => True
  end.

Definition standard (s : Sync) : Prop :=
  currentEndpoint (sy_endpoints s) cid ∈ standard_endpoints
  /\ forall ups, sy_fetch s = Some ups -> Forall (fun c => cf_id c = cid -> cf_endpoint c ∈ standard_endpoints) ups.

Lemma standard_truthy x : x ∈ standard_endpoints -> str_truthy x = true.
Proof.
  assert (forallb str_truthy standard_endpoints = true) as H by (vm_compute; reflexivity).
  rewrite forallb_Forall, list.Forall_forall in H. apply H.
Qed.

Lemma standard_update ep x : x = [] \/ x ∈ standard_endpoints -> currentEndpoint (<[cid:=x]> ep) cid ∈ standard_endpoints.
Proof.
  intros H. unfold currentEndpoint, endpoint_or. rewrite lookup_insert_eq. cbn [default from_option id]. unfold id.
  destruct H as [->|H]; [by left|]. pose proof (standard_truthy x H). by destruct x.
Qed.

Lemma current_other ep i x : i <> cid -> currentEndpoint (<[i:=x]> ep) cid = currentEndpoint ep cid.
Proof. intros H. unfold currentEndpoint, endpoint_or. by rewrite lookup_insert_ne. Qed.

Lemma standard_fill chs ep :
  Forall (fun c => uc_id c = cid -> getDefaultEndpointForChannel official c ∈ standard_endpoints) chs ->
  currentEndpoint ep cid ∈ standard_endpoints -> currentEndpoint (fill_endpoints official chs ep) cid ∈ standard_endpoints.
Proof.
  unfold fill_endpoints. revert ep. induction chs as [|c chs IH]; intros ep Hc Hep; [done|].
  apply list.Forall_cons in Hc as [Hc Hcs]. cbn [fold_left]. apply IH; [done|]. destruct (str_truthy _); [done|].
  destruct (decide (uc_id c = cid)) as [E|E]; [|by rewrite current_other]. rewrite E. apply standard_update. right. by apply Hc.
Qed.

Lemma standard_change s ep : standard s -> currentEndpoint ep cid ∈ standard_endpoints -> standard (set_endpoints ep s).
Proof. destruct s. intros [_ H] Hep. by split. Qed.

Lemma standard_same s s' :
  sy_endpoints s' = sy_endpoints s -> sy_fetch s' = sy_fetch s \/ sy_fetch s' = None -> standard s -> standard s'.
Proof. intros He Hf [H1 H2]. split; [by rewrite He|]. destruct Hf as [-> | ->]; [done|by intros]. Qed.

Lemma confirm_standard ids s : standard s -> standard (handleConfirmChannelSelection t ids s).
Proof.
  intros [H1 H2]. unfold handleConfirmChannelSelection. destruct (selectedChannels _ _) as [|c cs]; [by destruct s|].
  assert (Forall (fun c => cf_id c = cid -> cf_endpoint c ∈ standard_endpoints) (upstreams_of (sy_endpoints s) (c :: cs))) as H.
  { unfold upstreams_of. apply list.Forall_forall. intros x Hx. apply list_elem_of_fmap in Hx as (ch & -> & _).
    cbn [cf_id cf_endpoint]. by intros ->. }
  destruct s. split; [done|]. by intros ups [= <-].
Qed.

Lemma answer_frame a s : sy_endpoints (onAnswer t a s) = sy_endpoints s /\ sy_fetch (onAnswer t a s) = sy_fetch s.
Proof.
  unfold onAnswer. destruct (sy_sync s) as [[[|u [|u' us]] [|]]|]; try done;
    destruct (an_stored a), (an_resolved a), s; done.
Qed.

Lemma perform_frame c s : sy_endpoints (performSync c s) = sy_endpoints s /\ sy_fetch (performSync c s) = sy_fetch s.
Proof. unfold performSync. destruct (sync_updates _ _); by destruct s. Qed.

Lemma apply_frame s : sy_endpoints (handleApplySync t s) = sy_endpoints s /\ sy_fetch (handleApplySync t s) = sy_fetch s.
Proof.
  unfold handleApplySync. destruct (conflicts_of _ _ _ _) as [[|c cs]|]; [|by destruct s|done].
  destruct (perform_frame false (toast (TInfo (t (js "Syncing prices, please wait..."))) s)) as [-> ->]. by destruct s.
Qed.

Lemma fetched_frame r s : sy_endpoints (onFetched t r s) = sy_endpoints s /\ sy_fetch (onFetched t r s) = sy_fetch s.
Proof.
  unfold onFetched. destruct (fr_success r); cbn [negb]; [|by destruct s]. cbv zeta.
  destruct (failed_tests _), (fr_differences r); by destruct s.
Qed.

Lemma handle_standard s e : standard s -> standard_default e -> standard (handle s e).
Proof.
  intros Hs He. pose proof Hs as [Hep _].
  assert (Hcustom : customField (sy_endpoints s) cid = false).
  { apply bool_decide_eq_false. intros H%endpoint_type_custom. done. }
  destruct e; cbn [UpstreamPage.handle];
    try (match goal with |- standard (when ?b _ _) => destruct b eqn:Hb; cbn [when]; [|done] end);
    try (apply (standard_same s); [by destruct s|left; by destruct s|done]).
  - apply standard_change; [|by apply standard_fill]. apply (standard_same s); [by destruct s|left; by destruct s|done].
  - apply standard_change; [done|]. unfold handleTypeChange, updateEndpoint.
    apply andb_true_iff in Hb as [_ Hb]. apply bool_decide_eq_true in Hb.
    destruct (decide (channelId = cid)) as [->|Hne].
    + destruct (decide (value = js "custom")) as [->|Hc].
      * rewrite bool_decide_eq_true_2 by done. apply standard_update. by left.
      * rewrite bool_decide_eq_false_2 by done. apply standard_update. right.
        cbn [ENDPOINT_OPTIONS map snd] in Hb. rewrite !elem_of_cons in Hb.
        destruct Hb as [->|[->|[->|[->|Hb]]]]; [decide_now|decide_now|decide_now|done|by apply not_elem_of_nil in Hb].
    + destruct (bool_decide _); by rewrite current_other.
  - apply andb_true_iff in Hb as [_ Hb]. destruct (decide (channelId = cid)) as [->|Hne]; [congruence|].
    apply standard_change; [done|]. unfold updateEndpoint. by rewrite current_other.
  - apply confirm_standard. apply (standard_same s); [by destruct s|left; by destruct s|done].
  - destruct (fetched_frame reply (set_fetch None s)) as [E1 E2].
    apply (standard_same s); [rewrite E1; by destruct s|right; rewrite E2; by destruct s|done].
  - apply (standard_same s); [by destruct s|right; by destruct s|done].
  - destruct (apply_frame s) as [E1 E2]. apply (standard_same s); [done|by left|done].
  - destruct (perform_frame true s) as [E1 E2]. apply (standard_same s); [done|by left|done].
  - destruct (answer_frame a s) as [E1 E2]. apply (standard_same s); [done|by left|done].
Qed.
End endpoints.

(** A custom endpoint cannot be entered for an ordinary channel: whatever
    is done in the dialog, a channel whose default endpoint is one of the
    offered ones never gets the text field of the option custom, and every
    request asks it for one of the three fixed endpoints. *)
Theorem custom_endpoint_unreachable (t : jstr -> jstr) (official : jstr) (st : store) (es : list Event) (id : Z) :
  Forall (standard_default official id) es ->
  let s := run t official (open_page st) es in
  customField (sy_endpoints s) id = false
  /\ forall ups, sy_fetch s = Some ups -> Forall (fun c => cf_id c = id -> cf_endpoint c ∈ standard_endpoints) ups.
Proof.
  intros He s. enough (standard id s) as [H1 H2].
  { split; [|done]. apply bool_decide_eq_false. by intros H%endpoint_type_custom. }
  assert (H0 : standard id (open_page st)) by (split; [by left|done]).
  unfold s, run. clear s. revert H0. generalize (open_page st). induction es as [|e es IH]; intros s Hs; [done|].
  apply list.Forall_cons in He as [He Hes]. cbn [fold_left]. apply IH; [done|by apply handle_standard].
Qed.

(** A click on the option custom, then a text. *)
Definition sample_channel : UpstreamChannel := MkUpstream 7 (js "seven") (js "https://seven.example") None 1 (Some 1%Z).
Definition sample_clicks : list Event :=
  [OpenChannels; ChannelsLoaded [sample_channel]; EndpointType 7 (js "custom"); EndpointText 7 (js "/my/prices");
   ConfirmChannels [7%Z]].

Lemma custom_endpoint_unreachable_witness :
  customField (sy_endpoints (run (fun s => s) [] (open_page (fun _ => [])) sample_clicks)) 7 = false
  /\ sy_fetch (run (fun s => s) [] (open_page (fun _ => [])) sample_clicks)
     = Some [MkConfig 7 (js "seven") (js "https://seven.example") (js "/api/pricing")].
Proof.
  destruct (custom_endpoint_unreachable (fun s => s) [] (fun _ => []) sample_clicks 7) as [H _].
  - repeat (apply list.Forall_cons_2;
      [first [exact I|apply list.Forall_cons_2; [intros _; decide_now|apply list.Forall_nil_2]]|]); apply list.Forall_nil_2.
  - split; [exact H|]. vm_compute. reflexivity.
Defined.
