(* ===== verification/ParamModes.v ===== *)
(** * Parameter overrides: the rules, their tables and templates
      (features/channels/components/dialogs/param-override-editor-dialog.tsx)

    The rules that rewrite a request before it is relayed, as the dialog
    edits them, and the JSON text that the channel stores. *)
From Stdlib Require Import String.
From S2P Require Import Prelude JsString JsNumber JsValue JsJson.
Open Scope N_scope.

(** ** Data *)

Record ParamOverrideCondition := MkCondition {
  co_id : jstr; co_path : jstr; co_mode : jstr; co_value_text : jstr;
  co_invert : bool; co_pass_missing_key : bool }.

Record ParamOverrideOperation := MkOperation {
  op_id : jstr; op_description : jstr; op_path : jstr; op_mode : jstr;
  op_from : jstr; op_to : jstr; op_value_text : jstr; op_keep_origin : bool;
  op_logic : jstr; op_conditions : list ParamOverrideCondition }.

(** ** Tables *)

(** [(value, label)] *)
Definition OPERATION_MODE_OPTIONS : list (jstr * jstr) :=
  [ (js "set", js "Set Field"); (js "delete", js "Delete Field"); (js "append", js "Append to End");
    (js "prepend", js "Prepend to Start"); (js "copy", js "Copy Field"); (js "move", js "Move Field");
    (js "replace", js "String Replace"); (js "regex_replace", js "Regex Replace");
    (js "trim_prefix", js "Trim Prefix"); (js "trim_suffix", js "Trim Suffix");
    (js "ensure_prefix", js "Ensure Prefix"); (js "ensure_suffix", js "Ensure Suffix");
    (js "trim_space", js "Trim Space"); (js "to_lower", js "To Lowercase");
    (js "to_upper", js "To Uppercase"); (js "return_error", js "Return Custom Error");
    (js "prune_objects", js "Prune Object Items"); (js "pass_headers", js "Pass Through Headers");
    (js "sync_fields", js "Sync Fields"); (js "set_header", js "Set Request Header");
    (js "delete_header", js "Delete Request Header"); (js "copy_header", js "Copy Request Header");
    (js "move_header", js "Move Request Header") ].

Definition OPERATION_MODE_VALUES : list jstr := map fst OPERATION_MODE_OPTIONS.

Definition OPERATION_MODE_LABEL_MAP : list (jstr * jstr) := OPERATION_MODE_OPTIONS.

Definition CONDITION_MODE_OPTIONS : list (jstr * jstr) :=
  [ (js "full", js "Exact Match"); (js "prefix", js "Prefix"); (js "suffix", js "Suffix");
    (js "contains", js "Contains"); (js "gt", js "Greater Than"); (js "gte", js "Greater Than or Equal");
    (js "lt", js "Less Than"); (js "lte", js "Less Than or Equal") ].

Definition CONDITION_MODE_VALUES : list jstr := map fst CONDITION_MODE_OPTIONS.

(** The flags of a mode.  An absent flag is [false], except that [to] may be
    absent, [false] or [true]. *)
Record Meta := MkMeta {
  m_path : bool; m_pathOptional : bool; m_value : bool; m_from : bool;
  m_to : option bool; m_keepOrigin : bool; m_pathAlias : bool }.

Definition no_flags : Meta := MkMeta false false false false None false false.
Definition target : Meta := MkMeta true false false false None false false.
Definition target_value : Meta := MkMeta true false true false None false false.
Definition target_value_keep : Meta := MkMeta true false true false None true false.
Definition from_to : Meta := MkMeta false false false true (Some true) false false.
Definition target_from : Meta := MkMeta true false false true (Some false) false false.
Definition from_to_keep_alias : Meta := MkMeta false false false true (Some true) true true.

Definition MODE_META : list (jstr * Meta) :=
  [ (js "delete", target); (js "set", target_value_keep); (js "append", target_value_keep);
    (js "prepend", target_value_keep); (js "copy", from_to); (js "move", from_to);
    (js "replace", target_from); (js "regex_replace", target_from);
    (js "trim_prefix", target_value); (js "trim_suffix", target_value);
    (js "ensure_prefix", target_value); (js "ensure_suffix", target_value);
    (js "trim_space", target); (js "to_lower", target); (js "to_upper", target);
    (js "return_error", MkMeta false false true false None false false);
    (js "prune_objects", MkMeta false true true false None false false);
    (js "pass_headers", MkMeta false false true false None true false);
    (js "sync_fields", from_to); (js "set_header", target_value_keep);
    (js "delete_header", target); (js "copy_header", from_to_keep_alias);
    (js "move_header", from_to_keep_alias) ].

(** [MODE_META[mode] || MODE_META.set]: a name of [Object.prototype] finds a
    value that has none of the flags. *)
Definition meta_of (mode : jstr) : Meta :=
  match assoc mode MODE_META with
  | Some m => m
  | None => if bool_decide (mode ∈ object_prototype_names) then no_flags else target_value_keep
  end.

Definition VALUE_REQUIRED_MODES : list jstr :=
  [js "trim_prefix"; js "trim_suffix"; js "ensure_prefix"; js "ensure_suffix"; js "set_header";
   js "return_error"; js "prune_objects"; js "pass_headers"].

Definition FROM_REQUIRED_MODES : list jstr :=
  [js "copy"; js "move"; js "replace"; js "regex_replace"; js "copy_header"; js "move_header";
   js "sync_fields"].

Definition TO_REQUIRED_MODES : list jstr :=
  [js "copy"; js "move"; js "copy_header"; js "move_header"; js "sync_fields"].

Definition MODE_DESCRIPTIONS : list (jstr * jstr) :=
  [ (js "set", js "Write value to the target field"); (js "delete", js "Remove the target field");
    (js "append", js "Append value to array / string / object end");
    (js "prepend", js "Prepend value to array / string / object start");
    (js "copy", js "Copy source field to target field"); (js "move", js "Move source field to target field");
    (js "replace", js "Do string replacement in the target field");
    (js "regex_replace", js "Do regex replacement in the target field");
    (js "trim_prefix", js "Remove string prefix"); (js "trim_suffix", js "Remove string suffix");
    (js "ensure_prefix", js "Ensure the string has a specified prefix");
    (js "ensure_suffix", js "Ensure the string has a specified suffix");
    (js "trim_space", js "Trim leading/trailing whitespace");
    (js "to_lower", js "Convert string to lowercase"); (js "to_upper", js "Convert string to uppercase");
    (js "return_error", js "Return a custom error immediately");
    (js "prune_objects", js "Prune object items by conditions");
    (js "pass_headers", js "Pass specified request headers to upstream");
    (js "sync_fields", js "Auto-fill when one field exists and another is missing");
    (js "set_header",
     js "Set runtime request header: override entire value, or manipulate comma-separated tokens");
    (js "delete_header", js "Delete a runtime request header");
    (js "copy_header", js "Copy a request header"); (js "move_header", js "Move a request header") ].

Definition SYNC_TARGET_TYPE_OPTIONS : list (jstr * jstr) :=
  [ (js "json", js "Request Body Field"); (js "header", js "Request Header Field") ].

(** ** Templates *)

Definition str (s : string) : jsval := VStr (js s).
Arguments str s%_string.
Definition int (z : Z) : jsval := VNum (num_of_Z z).

Definition LEGACY_TEMPLATE : jsobj := [ (js "temperature", int 0); (js "max_tokens", int 1000) ].

Definition condition_literal (path mode value : string) : jsval :=
  VObj [ (js "path", str path); (js "mode", str mode); (js "value", str value) ].

Arguments condition_literal (path mode value)%_string.

Definition OPERATION_TEMPLATE : jsobj :=
  [ (js "operations", VArr [VObj
      [ (js "description", str "Set default temperature for openai/* models.");
        (js "path", str "temperature"); (js "mode", str "set");
        (js "value", VNum (num_of_str (js "0.7")));
        (js "conditions", VArr [condition_literal "model" "prefix" "openai/"]);
        (js "logic", str "AND") ]]) ].

Definition HEADER_PASSTHROUGH_TEMPLATE : jsobj :=
  [ (js "operations", VArr [VObj
      [ (js "description", str "Pass through X-Request-Id header to upstream.");
        (js "mode", str "pass_headers"); (js "value", VArr [str "X-Request-Id"]);
        (js "keep_origin", VBool true) ]]) ].

Definition GEMINI_IMAGE_4K_TEMPLATE : jsobj :=
  [ (js "operations", VArr [VObj
      [ (js "description", str "Set imageSize to 4K when model contains gemini/image and ends with 4k.");
        (js "mode", str "set"); (js "path", str "generationConfig.imageConfig.imageSize");
        (js "value", str "4K");
        (js "conditions", VArr
           [condition_literal "original_model" "contains" "gemini";
            condition_literal "original_model" "contains" "image";
            condition_literal "original_model" "suffix" "4k"]);
        (js "logic", str "AND") ]]) ].

Definition CODEX_CLI_HEADER_PASSTHROUGH_HEADERS : list jsval :=
  map str ["Originator"; "Session_id"; "User-Agent"; "X-Codex-Beta-Features"; "X-Codex-Turn-Metadata"]%string.

Definition CLAUDE_CLI_HEADER_PASSTHROUGH_HEADERS : list jsval :=
  map str ["X-Stainless-Arch"; "X-Stainless-Lang"; "X-Stainless-Os"; "X-Stainless-Package-Version";
           "X-Stainless-Retry-Count"; "X-Stainless-Runtime"; "X-Stainless-Runtime-Version";
           "X-Stainless-Timeout"; "User-Agent"; "X-App"; "Anthropic-Beta";
           "Anthropic-Dangerous-Direct-Browser-Access"; "Anthropic-Version"]%string.

Definition buildPassHeadersTemplate (headers : list jsval) : jsobj :=
  [ (js "operations", VArr [VObj
      [ (js "mode", str "pass_headers"); (js "value", VArr headers); (js "keep_origin", VBool true) ]]) ].

Definition CODEX_CLI_HEADER_PASSTHROUGH_TEMPLATE : jsobj :=
  buildPassHeadersTemplate CODEX_CLI_HEADER_PASSTHROUGH_HEADERS.
Definition CLAUDE_CLI_HEADER_PASSTHROUGH_TEMPLATE : jsobj :=
  buildPassHeadersTemplate CLAUDE_CLI_HEADER_PASSTHROUGH_HEADERS.

Definition aws_anthropic_beta_tokens : jsobj :=
  [ (js "advanced-tool-use-2025-11-20", str "tool-search-tool-2025-10-19");
    (js "bash_20241022", VNull); (js "bash_20250124", VNull);
    (js "code-execution-2025-08-25", VNull);
    (js "compact-2026-01-12", str "compact-2026-01-12");
    (js "computer-use-2025-01-24", str "computer-use-2025-01-24");
    (js "computer-use-2025-11-24", str "computer-use-2025-11-24");
    (js "context-1m-2025-08-07", str "context-1m-2025-08-07");
    (js "context-management-2025-06-27", str "context-management-2025-06-27");
    (js "effort-2025-11-24", VNull); (js "fast-mode-2026-02-01", VNull);
    (js "files-api-2025-04-14", VNull); (js "fine-grained-tool-streaming-2025-05-14", VNull);
    (js "interleaved-thinking-2025-05-14", str "interleaved-thinking-2025-05-14");
    (js "mcp-client-2025-11-20", VNull); (js "mcp-client-2025-04-04", VNull);
    (js "mcp-servers-2025-12-04", VNull); (js "output-128k-2025-02-19", VNull);
    (js "structured-output-2024-03-01", VNull); (js "prompt-caching-scope-2026-01-05", VNull);
    (js "skills-2025-10-02", VNull); (js "structured-outputs-2025-11-13", VNull);
    (js "text_editor_20241022", VNull); (js "text_editor_20250124", VNull);
    (js "token-efficient-tools-2025-02-19", VNull);
    (js "tool-search-tool-2025-10-19", str "tool-search-tool-2025-10-19");
    (js "web-fetch-2025-09-10", VNull); (js "web-search-2025-03-05", VNull);
    (js "oauth-2025-04-20", VNull) ].

Definition AWS_BEDROCK_ANTHROPIC_COMPAT_TEMPLATE : jsobj :=
  [ (js "operations", VArr
      [VObj [ (js "description", str "Normalize anthropic-beta header tokens for Bedrock compatibility.");
              (js "mode", str "set_header"); (js "path", str "anthropic-beta");
              (js "value", VObj aws_anthropic_beta_tokens) ];
       VObj [ (js "description", str "Remove all tools[*].custom.input_examples before upstream relay.");
              (js "mode", str "delete"); (js "path", str "tools.*.custom.input_examples") ]]) ].

Inductive TemplateKind := TKoperations | TKlegacy.

Record TemplatePresetConfig := MkPreset { tp_label : jstr; tp_kind : TemplateKind; tp_payload : jsobj }.

Definition operations_default : TemplatePresetConfig :=
  MkPreset (js "New Format Template") TKoperations OPERATION_TEMPLATE.

Definition TEMPLATE_PRESET_CONFIG : list (jstr * TemplatePresetConfig) :=
  [ (js "operations_default", operations_default);
    (js "legacy_default", MkPreset (js "Legacy Format Template") TKlegacy LEGACY_TEMPLATE);
    (js "pass_headers_auth",
     MkPreset (js "Header Passthrough (X-Request-Id)") TKoperations HEADER_PASSTHROUGH_TEMPLATE);
    (js "gemini_image_4k", MkPreset (js "Gemini Image 4K") TKoperations GEMINI_IMAGE_4K_TEMPLATE);
    (js "claude_cli_headers_passthrough",
     MkPreset (js "Claude CLI Header Passthrough") TKoperations CLAUDE_CLI_HEADER_PASSTHROUGH_TEMPLATE);
    (js "codex_cli_headers_passthrough",
     MkPreset (js "Codex CLI Header Passthrough") TKoperations CODEX_CLI_HEADER_PASSTHROUGH_TEMPLATE);
    (js "aws_bedrock_anthropic_beta_override",
     MkPreset (js "AWS Bedrock Claude Compat") TKoperations AWS_BEDROCK_ANTHROPIC_COMPAT_TEMPLATE) ].

(** ** Values and their texts *)

Definition toValueText (value : jsval) : jstr :=
  match value with
  | VUndef => []
  | VStr s => s
  | _ => stringify value
  end.

Definition parseLooseValue (valueText : jstr) : jsval :=
  let raw := trim valueText in
  match raw with
  | [] => VStr []
  | _ => catch (json_parse raw) (VStr raw)
  end.

Definition verifyJSON (text : jstr) : bool := catch (res_map (fun _ => true) (json_parse text)) false.

(** [typeof v === 'string' ? v : ''] *)
Definition string_or_empty (v : jsval) : jstr := match v with VStr s => s | _ => [] end.

(** [VALUES.has(v) ? v : fallback] *)
Definition mode_or (values : list jstr) (fallback : jstr) (v : jsval) : jstr :=
  match v with
  | VStr s => if bool_decide (s ∈ values) then s else fallback
  | _ => fallback
  end.

(** [s.toUpperCase() === w] for a word [w] of ASCII capitals that are the
    upper case of no other unit than the small letters. *)
Definition upper_is (w s : jstr) : bool := bool_decide (map upper_unit s = w).
