(* ===== verification/ParamOverride.v ===== *)
(** * Parameter overrides: reading, checking and writing the rules
      (features/channels/components/dialogs/param-override-editor-dialog.tsx)

    Rules are read from the stored JSON text, checked, and written back.
    Reading gives every rule and condition an identifier from a counter; the
    computations that do so pass the counter on, also when they throw. *)
From S2P Require Import Prelude JsString JsNumber JsValue JsJson ParamModes.
Open Scope N_scope.

(** ** Computations with the identifier counter [localIdSeed] *)

Definition M (A : Type) : Type := N -> res A * N.

Definition ret {A} (a : A) : M A := fun n => (Ok a, n).
Definition lift {A} (c : res A) : M A := fun n => (c, n).
Definition bind {A B} (c : M A) (k : A -> M B) : M B := fun n =>
  match c n with
  | (Ok a, n') => k a n'
  | (Throw e, n') => (Throw e, n')
  end.
(** [try { c } catch { h }] *)
Definition try {A} (c : M A) (h : A) : M A := fun n => let '(r, n') := c n in (Ok (catch r h), n').

Notation "'let!' x ':=' c 'in' k" := (bind c (fun x => k))
  (at level 10, x pattern, k at level 200) : js_scope.

Fixpoint mapM {A B} (f : A -> M B) (l : list A) : M (list B) :=
  match l with
  | [] => ret []
  | x :: l' => let! y := f x in let! ys := mapM f l' in ret (y :: ys)
  end.

Section editor.
(** [Date.now()] when the [n]-th identifier is made, and the translation
    function with its [line] option. *)
Context (now : N -> N) (t : jstr -> option nat -> jstr).

Definition local_id (n : N) : jstr := js "po_" ++ show_N (now n) ++ js "_" ++ show_N n.
Definition nextLocalId : M jstr := fun n => (Ok (local_id n), n + 1).

(** ** Reading *)

(** A missing argument is the empty object. *)
Definition or_empty_object (v : jsval) : jsval := match v with VUndef => VObj [] | _ => v end.

Definition normalizeCondition (condition : jsval) : M ParamOverrideCondition :=
  let c := or_empty_object condition in
  let! id := nextLocalId in
  let! path := lift (vget (js "path") c) in
  let! mode := lift (vget (js "mode") c) in
  let! value := lift (vget (js "value") c) in
  let! invert := lift (vget (js "invert") c) in
  let! pass := lift (vget (js "pass_missing_key") c) in
  ret (MkCondition id (string_or_empty path) (mode_or CONDITION_MODE_VALUES (js "full") mode)
         (toValueText value) (is_true invert) (is_true pass)).

Definition createDefaultCondition : M ParamOverrideCondition := normalizeCondition (VObj []).

Definition normalizeOperation (operation : jsval) : M ParamOverrideOperation :=
  let o := or_empty_object operation in
  let! id := nextLocalId in
  let! description := lift (vget (js "description") o) in
  let! path := lift (vget (js "path") o) in
  let! mode := lift (vget (js "mode") o) in
  let! value := lift (vget (js "value") o) in
  let! keep := lift (vget (js "keep_origin") o) in
  let! from := lift (vget (js "from") o) in
  let! to := lift (vget (js "to") o) in
  let! logic := lift (vget (js "logic") o) in
  let! logic_text := lift (to_str (vor logic (VStr (js "OR")))) in
  let! conditions := lift (vget (js "conditions") o) in
  let! cs := match conditions with VArr l => mapM normalizeCondition l | _ => ret [] end in
  ret (MkOperation id (string_or_empty description) (string_or_empty path)
         (mode_or OPERATION_MODE_VALUES (js "set") mode) (string_or_empty from) (string_or_empty to)
         (toValueText value) (is_true keep)
         (if upper_is (js "AND") logic_text then js "AND" else js "OR") cs).

Definition createDefaultOperation : M ParamOverrideOperation :=
  normalizeOperation (VObj [(js "mode", str "set")]).

(** ** Order *)

Definition findIndex (id : jstr) (ops : list ParamOverrideOperation) : option nat :=
  fst <$> list_find (fun o => op_id o = id) ops.

Inductive Position := Before | After.

(** [next.splice(i, 0, x)] *)
Definition splice_in {A} (i : nat) (x : A) (l : list A) : list A := take i l ++ x :: drop i l.

Definition reorderOperations (ops : list ParamOverrideOperation) (sourceId targetId : jstr)
    (position : Position) : list ParamOverrideOperation :=
  if negb (str_truthy sourceId) || negb (str_truthy targetId) || bool_decide (sourceId = targetId)
  then ops
  else match findIndex sourceId ops with
       | None => ops
       | Some srcIdx =>
           match ops !! srcIdx with
           | None => ops
           | Some moved =>
               let next := delete srcIdx ops in
               match findIndex targetId next with
               | None => ops
               | Some i =>
                   let insertIdx := match position with After => S i | Before => i end in
                   splice_in insertIdx moved next
               end
           end
       end.

(** ** Blank rules *)

Definition condition_set (c : ParamOverrideCondition) : bool :=
  str_truthy (trim (co_path c)) || str_truthy (trim (co_value_text c))
  || negb (bool_decide (co_mode c = js "full")) || co_invert c || co_pass_missing_key c.

Definition isOperationBlank (operation : ParamOverrideOperation) : bool :=
  let hasCondition := existsb condition_set (op_conditions operation) in
  bool_decide (op_mode operation = js "set") && negb (str_truthy (trim (op_path operation)))
  && negb (str_truthy (trim (op_from operation))) && negb (str_truthy (trim (op_to operation)))
  && negb (str_truthy (trim (op_value_text operation))) && negb (op_keep_origin operation)
  && negb hasCondition.

(** ** Labels *)

(** [OPERATION_MODE_LABEL_MAP[mode] || mode] for the modes of rules. *)
Definition mode_label (mode : jstr) : jstr := default mode (assoc mode OPERATION_MODE_LABEL_MAP).

Definition getOperationSummary (operation : ParamOverrideOperation) (index : nat) : jstr :=
  let mode := str_or (op_mode operation) (js "set") in
  let modeLabel := mode_label mode in
  let from := trim (op_from operation) in
  let to := trim (op_to operation) in
  let head := show_nat (index + 1) ++ js ". " ++ modeLabel ++ js " · " in
  if bool_decide (mode = js "sync_fields") then head ++ str_or from (str_or to (js "-"))
  else let path := trim (op_path operation) in
       head ++ str_or path (str_or from (str_or to (js "-"))).

Definition mode_in (ws : list jstr) (mode : jstr) : bool :=
  existsb (fun w => bool_decide (mode = w)) ws.
Definition mode_includes (ws : list jstr) (mode : jstr) : bool :=
  existsb (fun w => includes w mode) ws.

Definition getModeTagTailwind (mode : jstr) : jstr :=
  if mode_includes [js "header"] mode
  then js "bg-cyan-500/15 text-cyan-700 dark:text-cyan-300 border-cyan-500/20"
  else if mode_includes [js "replace"; js "trim"] mode
  then js "bg-violet-500/15 text-violet-700 dark:text-violet-300 border-violet-500/20"
  else if mode_includes [js "copy"; js "move"] mode
  then js "bg-blue-500/15 text-blue-700 dark:text-blue-300 border-blue-500/20"
  else if mode_includes [js "error"; js "prune"] mode
  then js "bg-red-500/15 text-red-700 dark:text-red-300 border-red-500/20"
  else if mode_includes [js "sync"] mode
  then js "bg-green-500/15 text-green-700 dark:text-green-300 border-green-500/20"
  else js "bg-muted text-muted-foreground".

Definition getModePathLabel (mode : jstr) : jstr :=
  if mode_in [js "set_header"; js "delete_header"] mode then js "Header Name"
  else if mode_in [js "prune_objects"] mode then js "Target Path (optional)"
  else js "Target Field Path".

Definition getModePathPlaceholder (mode : jstr) : jstr :=
  if mode_in [js "set_header"] mode then js "Authorization"
  else if mode_in [js "delete_header"] mode then js "X-Debug-Mode"
  else if mode_in [js "prune_objects"] mode then js "messages"
  else js "temperature".

Definition getModeFromLabel (mode : jstr) : jstr :=
  if mode_in [js "replace"] mode then js "Match Text"
  else if mode_in [js "regex_replace"] mode then js "Regex Pattern"
  else if mode_in [js "copy_header"; js "move_header"] mode then js "Source Header"
  else js "Source Field".

Definition getModeFromPlaceholder (mode : jstr) : jstr :=
  if mode_in [js "replace"] mode then js "openai/"
  else if mode_in [js "regex_replace"] mode then js "^gpt-"
  else if mode_in [js "copy_header"; js "move_header"] mode then js "Authorization"
  else js "model".

Definition getModeToLabel (mode : jstr) : jstr :=
  if mode_in [js "replace"; js "regex_replace"] mode then js "Replace With"
  else if mode_in [js "copy_header"; js "move_header"] mode then js "Target Header"
  else js "Target Field".

Definition getModeToPlaceholder (mode : jstr) : jstr :=
  if mode_in [js "replace"] mode then js "(leave empty to delete)"
  else if mode_in [js "regex_replace"] mode then js "openai/gpt-"
  else if mode_in [js "copy_header"; js "move_header"] mode then js "X-Upstream-Auth"
  else js "original_model".

Definition getModeValueLabel (mode : jstr) : jstr :=
  if mode_in [js "set_header"] mode then js "Header Value (supports string or JSON mapping)"
  else if mode_in [js "pass_headers"] mode
  then js "Pass-through Headers (comma-separated or JSON array)"
  else if mode_in [js "trim_prefix"; js "trim_suffix"; js "ensure_prefix"; js "ensure_suffix"] mode
  then js "Prefix/Suffix Text"
  else if mode_in [js "prune_objects"] mode then js "Prune Rule (string or JSON object)"
  else js "Value (supports JSON or plain text)".

Definition getModeValuePlaceholder (mode : jstr) : jstr :=
  if mode_in [js "set_header"] mode then js "Bearer sk-xxx"
  else if mode_in [js "pass_headers"] mode then js "Authorization, X-Request-Id"
  else if mode_in [js "trim_prefix"; js "trim_suffix"; js "ensure_prefix"; js "ensure_suffix"] mode
  then js "openai/"
  else if mode_in [js "prune_objects"] mode then jsq "{`type`:`redacted_thinking`}"
  else js "0.7".

(** ** The endpoints of [sync_fields] *)

Record SyncTarget := MkSyncTarget { st_type : jstr; st_key : jstr }.

Definition parseSyncTargetSpec (spec : jstr) : SyncTarget :=
  let raw := trim spec in
  if negb (str_truthy raw) then MkSyncTarget (js "json") []
  else match index_of (js ":") raw with
       | None => MkSyncTarget (js "json") raw
       | Some idx =>
           let prefix := to_lower (trim (substring 0 idx raw)) in
           let key := trim (drop (S idx) raw) in
           if bool_decide (prefix = js "header") then MkSyncTarget (js "header") key
           else MkSyncTarget (js "json") key
       end.

Definition buildSyncTargetSpec (type key : jstr) : jstr :=
  let normalizedType := if bool_decide (type = js "header") then js "header" else js "json" in
  let normalizedKey := trim key in
  if negb (str_truthy normalizedKey) then []
  else normalizedType ++ js ":" ++ normalizedKey.

(** ** Header names *)

(** [l.map((i) => String(i ?? "").trim()).filter(Boolean)] *)
Definition header_names (l : list jsval) : res (list jstr) :=
  res_map (List.filter str_truthy)
    (res_mapM (fun i => res_map trim (to_str (vcoalesce i (VStr [])))) l).

Definition parsePassHeaderNames (rawValue : jsval) : res (list jstr) :=
  match rawValue with
  | VArr l => header_names l
  | VObj obj =>
      match oget (js "headers") obj with
      | VArr l => header_names l
      | _ =>
          match oget (js "header") obj with
          | VUndef => Ok []
          | h => let* single := res_map trim (to_str (vcoalesce h (VStr []))) in
                 Ok (if str_truthy single then [single] else [])
          end
      end
  | VStr s => Ok (split_trim_filter s)
  | _ => Ok []
  end.

(** ** Checking *)

(** What [try { ... }] of the check of [return_error] finds: the text is an
    object without a message. *)
Definition message_missing (raw : jstr) : bool :=
  catch
    (let* parsed := json_parse raw in
     match parsed with
     | VObj o => let* m := to_str (vor (oget (js "message") o) (VStr [])) in
                 Ok (negb (str_truthy (trim m)))
     | _ => Ok false
     end) false.

(** One turn of the loop: the message it returns, if it does. *)
Definition check_operation (i : nat) (op : ParamOverrideOperation) : res (option jstr) :=
  let mode := str_or (op_mode op) (js "set") in
  let meta := meta_of mode in
  let complain key := Ok (Some (t key (Some (i + 1)%nat))) in
  let pathValue := trim (op_path op) in
  let fromValue := trim (op_from op) in
  let toValue := trim (op_to op) in
  let raw := trim (op_value_text op) in
  let aliased := m_pathAlias meta && str_truthy pathValue in
  if m_path meta && negb (str_truthy pathValue) then complain (js "Rule {{line}} is missing target path")
  else if bool_decide (mode ∈ FROM_REQUIRED_MODES) && negb (str_truthy fromValue) && negb aliased
  then complain (js "Rule {{line}} is missing source field")
  else if bool_decide (mode ∈ TO_REQUIRED_MODES) && negb (str_truthy toValue) && negb aliased
  then complain (js "Rule {{line}} is missing target field")
  else if bool_decide (mode ∈ VALUE_REQUIRED_MODES) && negb (str_truthy raw)
  then complain (js "Rule {{line}} is missing value")
  else if bool_decide (mode = js "return_error") && negb (str_truthy raw)
  then complain (js "Rule {{line}} is missing value")
  else if bool_decide (mode = js "return_error") && message_missing raw
  then complain (js "Rule {{line}} return_error requires a message field")
  else if bool_decide (mode = js "prune_objects") && negb (str_truthy raw)
  then complain (js "Rule {{line}} prune_objects is missing conditions")
  else if bool_decide (mode = js "pass_headers") then
    if negb (str_truthy raw) then complain (js "Rule {{line}} pass_headers is missing header names")
    else let* headers := parsePassHeaderNames (parseLooseValue raw) in
         match headers with
         | [] => complain (js "Rule {{line}} pass_headers format is invalid")
         | _ => Ok None
         end
  else Ok None.

Fixpoint validate_from (i : nat) (operations : list ParamOverrideOperation) : res jstr :=
  match operations with
  | [] => Ok []
  | op :: rest =>
      let* returned := check_operation i op in
      match returned with
      | Some message => Ok message
      | None => validate_from (S i) rest
      end
  end.

Definition validateOperations (operations : list ParamOverrideOperation) : res jstr :=
  validate_from 0 operations.

(** ** Writing *)

(** [if (b) o[k] = v] *)
Definition oset_if (b : bool) (k : jstr) (v : jsval) (o : jsobj) : jsobj :=
  if b then oset k v o else o.

Definition buildConditionPayload (condition : ParamOverrideCondition) : option jsval :=
  let path := trim (co_path condition) in
  if negb (str_truthy path) then None
  else
    let payload := [ (js "path", VStr path); (js "mode", VStr (str_or (co_mode condition) (js "full")));
                     (js "value", parseLooseValue (co_value_text condition)) ] in
    let payload := oset_if (co_invert condition) (js "invert") (VBool true) payload in
    let payload := oset_if (co_pass_missing_key condition) (js "pass_missing_key") (VBool true) payload in
    Some (VObj payload).

Definition operation_payload (operation : ParamOverrideOperation) : jsobj :=
  let mode := str_or (op_mode operation) (js "set") in
  let meta := meta_of mode in
  let descriptionValue := trim (op_description operation) in
  let pathValue := trim (op_path operation) in
  let fromValue := trim (op_from operation) in
  let toValue := trim (op_to operation) in
  let payload := [(js "mode", VStr mode)] in
  let payload := oset_if (str_truthy descriptionValue) (js "description") (VStr descriptionValue) payload in
  let payload := oset_if (m_path meta) (js "path") (VStr pathValue) payload in
  let payload := oset_if (m_pathOptional meta && str_truthy pathValue) (js "path") (VStr pathValue) payload in
  let payload := oset_if (m_value meta) (js "value") (parseLooseValue (op_value_text operation)) payload in
  let payload := oset_if (m_keepOrigin meta && op_keep_origin operation) (js "keep_origin") (VBool true) payload in
  let payload := oset_if (m_from meta) (js "from") (VStr fromValue) payload in
  let to_set := default false (m_to meta) in
  let payload := oset_if (negb to_set && str_truthy (trim (op_to operation))) (js "to") (VStr toValue) payload in
  let payload := oset_if to_set (js "to") (VStr toValue) payload in
  let alias k payload :=
    oset_if (m_pathAlias meta && negb (truthy (oget k payload)) && str_truthy pathValue)
      k (VStr pathValue) payload in
  let payload := alias (js "from") payload in
  let payload := alias (js "to") payload in
  let conditions := omap buildConditionPayload (op_conditions operation) in
  match conditions with
  | [] => payload
  | _ => let payload := oset (js "conditions") (VArr conditions) payload in
         oset (js "logic") (VStr (if bool_decide (op_logic operation = js "AND") then js "AND" else js "OR"))
           payload
  end.

(** What is thrown: an engine's own error, or [new Error(message)]. *)
Inductive thrown :=
  | EngineError (e : jserror)
  | UserError (message : jstr).

Definition of_res {A} (c : res A) : thrown + A :=
  match c with Ok a => inr a | Throw e => inl (EngineError e) end.

Definition sum_bind {A B} (c : thrown + A) (k : A -> thrown + B) : thrown + B :=
  match c with inl e => inl e | inr a => k a end.

Definition operations_text (ops : list ParamOverrideOperation) : jstr :=
  stringify2 (VObj [(js "operations", VArr (map (fun o => VObj (operation_payload o)) ops))]).

Definition buildOperationsJson (sourceOperations : list ParamOverrideOperation) (validate : bool) : thrown + jstr :=
  let filteredOps := List.filter (fun o => negb (isOperationBlank o)) sourceOperations in
  match filteredOps with
  | [] => inr []
  | _ =>
      if validate then
        sum_bind (of_res (validateOperations filteredOps)) (fun message =>
          if str_truthy message then inl (UserError message) else inr (operations_text filteredOps))
      else inr (operations_text filteredOps)
  end.

(** ** Opening *)

Inductive EditMode := EMvisual | EMjson.
Inductive VisualMode := VMoperations | VMlegacy.

Record EditorState := MkEditor {
  es_editMode : EditMode; es_visualMode : VisualMode; es_legacyValue : jstr;
  es_operations : list ParamOverrideOperation; es_jsonText : jstr; es_jsonError : jstr }.

Definition operations_of (l : list jsval) : M (list ParamOverrideOperation) :=
  match l with
  | [] => let! d := createDefaultOperation in ret [d]
  | _ => mapM normalizeOperation l
  end.

Definition parseInitialState (rawValue : jstr) : M EditorState :=
  let text := rawValue in
  let trimmed := trim text in
  if negb (str_truthy trimmed) then
    let! d := createDefaultOperation in
    ret (MkEditor EMvisual VMoperations [] [d] [] [])
  else if negb (verifyJSON trimmed) then
    let! d := createDefaultOperation in
    ret (MkEditor EMjson VMoperations [] [d] text (js "Invalid JSON format"))
  else
    let! parsed := lift (json_parse trimmed) in
    let pretty := stringify2 parsed in
    match parsed with
    | VObj o =>
        match oget (js "operations") o with
        | VArr l =>
            let! ops := operations_of l in
            ret (MkEditor EMvisual VMoperations [] ops pretty [])
        | _ =>
            let! d := createDefaultOperation in
            ret (MkEditor EMvisual VMlegacy pretty [d] pretty [])
        end
    | _ =>
        let! d := createDefaultOperation in
        ret (MkEditor EMjson VMoperations [] [d] pretty [])
    end.

End editor.
