(* ===== verification/ParamDrafts.v ===== *)
(** * Parameter overrides: the editors of two structured values
      (features/channels/components/dialogs/param-override-editor-dialog.tsx)

    The value of a [return_error] rule and of a [prune_objects] rule is a text
    that the dialog edits through a draft: the draft is read from the text at
    every rendering, and every edit reads it again, changes it, and writes the
    text back. *)
From S2P Require Import Prelude JsString JsNumber JsValue JsJson ParamModes ParamOverride.
Open Scope N_scope.

(** ** [return_error] *)

Record ReturnErrorDraft := MkReturnError {
  re_message : jstr; re_statusCode : num; re_code : jstr; re_type : jstr;
  re_skipRetry : bool; re_simpleMode : bool }.

Definition return_error_defaults : ReturnErrorDraft :=
  MkReturnError [] (num_of_Z 400) [] [] true true.

(** [Number.isInteger(v) && v >= 100 && v <= 599 ? v : 400] *)
Definition status_or_400 (v : num) : num :=
  if is_integer v && nleb (num_of_Z 100) v && nleb v (num_of_Z 599) then v else num_of_Z 400.

(** [String(v || "").trim()] *)
Definition trimmed_text (v : jsval) : res jstr := res_map trim (to_str (vor v (VStr []))).

Definition parseReturnErrorDraft (valueText : jstr) : ReturnErrorDraft :=
  let raw := trim valueText in
  let plain := MkReturnError raw (num_of_Z 400) [] [] true true in
  if negb (str_truthy raw) then return_error_defaults
  else
    catch
      (let* parsed := json_parse raw in
       match parsed with
       | VObj o =>
           let statusRaw := match oget (js "status_code") o with
                            | VUndef => oget (js "status") o
                            | v => v
                            end in
           let* statusValue := to_num statusRaw in
           let* message := trimmed_text (vor (oget (js "message") o) (oget (js "msg") o)) in
           let* code := trimmed_text (oget (js "code") o) in
           let* type := trimmed_text (oget (js "type") o) in
           Ok (MkReturnError message (status_or_400 statusValue) code type
                 (negb (is_false (oget (js "skip_retry") o))) false)
       | _ => Ok plain
       end) plain.

Definition return_error_payload (draft : ReturnErrorDraft) : jsobj :=
  let code := trim (re_code draft) in
  let type := trim (re_type draft) in
  let payload := [ (js "message", VStr (trim (re_message draft)));
                   (js "status_code", VNum (status_or_400 (re_statusCode draft))) ] in
  let payload := oset_if (str_truthy code) (js "code") (VStr code) payload in
  let payload := oset_if (str_truthy type) (js "type") (VStr type) payload in
  oset_if (negb (re_skipRetry draft)) (js "skip_retry") (VBool false) payload.

Definition buildReturnErrorValueText (draft : ReturnErrorDraft) : jstr :=
  if re_simpleMode draft then trim (re_message draft)
  else stringify (VObj (return_error_payload draft)).

(** The patches that the editor of [return_error] applies. *)
Inductive ReturnErrorPatch :=
  | SetSimple (b : bool)
  | SetMessage (m : jstr)
  | SetStatus (input : jstr)
  | SetCode (c : jstr)
  | SetType (ty : jstr)
  | SetSkipRetry (b : bool)
  | SetPreset (status : Z) (code type : jstr).

(** [parseInt(input, 10) || 400] *)
Definition status_input (input : jstr) : num :=
  let n := parse_int input in if num_truthy n then n else num_of_Z 400.

Definition patch_return_error (p : ReturnErrorPatch) (d : ReturnErrorDraft) : ReturnErrorDraft :=
  let '(MkReturnError m s c ty r b) := d in
  match p with
  | SetSimple b' => MkReturnError m s c ty r b'
  | SetMessage m' => MkReturnError m' s c ty r b
  | SetStatus input => MkReturnError m (status_input input) c ty r b
  | SetCode c' => MkReturnError m s c' ty r b
  | SetType ty' => MkReturnError m s c ty' r b
  | SetSkipRetry r' => MkReturnError m s c ty r' b
  | SetPreset s' c' ty' => MkReturnError m (num_of_Z s') c' ty' r b
  end.

(** One edit: the text is read, changed and written. *)
Definition edit_return_error (p : ReturnErrorPatch) (value_text : jstr) : jstr :=
  buildReturnErrorValueText (patch_return_error p (parseReturnErrorDraft value_text)).

(** ** [prune_objects] *)

(** A [PruneRule] has the fields of a condition. *)
Definition PruneRule : Type := ParamOverrideCondition.

Record PruneObjectsDraft := MkPrune {
  pd_simpleMode : bool; pd_typeText : jstr; pd_logic : jstr; pd_recursive : bool;
  pd_rules : list PruneRule }.

Definition prune_defaults : PruneObjectsDraft := MkPrune true [] (js "AND") true [].

Section drafts.
Context (now : N -> N).

(** The function has the body of [normalizeCondition]. *)
Definition normalizePruneRule (rule : jsval) : M PruneRule :=
  let r := or_empty_object rule in
  let! id := nextLocalId now in
  let! path := lift (vget (js "path") r) in
  let! mode := lift (vget (js "mode") r) in
  let! value := lift (vget (js "value") r) in
  let! invert := lift (vget (js "invert") r) in
  let! pass := lift (vget (js "pass_missing_key") r) in
  ret (MkCondition id (string_or_empty path) (mode_or CONDITION_MODE_VALUES (js "full") mode)
         (toValueText value) (is_true invert) (is_true pass)).

(** [normalizePruneRule({ path, mode: "full", value })] *)
Definition rule_of_entry (kv : jstr * jsval) : M PruneRule :=
  normalizePruneRule
    (VObj [(js "path", VStr kv.1); (js "mode", str "full"); (js "value", kv.2)]).

Definition rules_of_where (where_ : jsval) : M (list PruneRule) :=
  match where_ with VObj w => mapM rule_of_entry w | _ => ret [] end.

Definition rules_of_conditions (conditions : jsval) : M (list PruneRule) :=
  match conditions with
  | VArr l => mapM normalizePruneRule (List.filter is_object l)
  | VObj w => mapM rule_of_entry w
  | _ => ret []
  end.

(** [v !== undefined] *)
Definition defined (v : jsval) : bool := match v with VUndef => false | _ => true end.

Definition prune_draft_of_object (parsed : jsobj) : M PruneObjectsDraft :=
  let! where_rules := rules_of_where (oget (js "where") parsed) in
  let! condition_rules := rules_of_conditions (oget (js "conditions") parsed) in
  let! typeText := match oget (js "type") parsed with
                   | VUndef => ret []
                   | ty => lift (res_map trim (to_str ty))
                   end in
  let! logic_text := lift (to_str (vor (oget (js "logic") parsed) (VStr (js "AND")))) in
  let logic := if upper_is (js "OR") logic_text then js "OR" else js "AND" in
  let recursive := negb (is_false (oget (js "recursive") parsed)) in
  let hasAdvancedFields :=
    defined (oget (js "logic") parsed) || defined (oget (js "recursive") parsed)
    || defined (oget (js "where") parsed) || defined (oget (js "conditions") parsed) in
  ret (MkPrune (negb hasAdvancedFields) typeText logic recursive (where_rules ++ condition_rules)).

(** The defaults with a type. *)
Definition prune_simple (typeText : jstr) : PruneObjectsDraft := MkPrune true typeText (js "AND") true [].

Definition parsePruneObjectsDraft (valueText : jstr) : M PruneObjectsDraft :=
  let raw := trim valueText in
  if negb (str_truthy raw) then ret prune_defaults
  else
    try
      (let! parsed := lift (json_parse raw) in
       match parsed with
       | VStr s => ret (prune_simple (trim s))
       | VObj o => prune_draft_of_object o
       | _ => let! s := lift (to_str (vcoalesce parsed (VStr []))) in ret (prune_simple (trim s))
       end) (prune_simple raw).

Definition prune_condition_payload (rule : PruneRule) : jsval :=
  let payload := [ (js "path", VStr (trim (co_path rule)));
                   (js "mode", VStr (mode_or CONDITION_MODE_VALUES (js "full") (VStr (co_mode rule)))) ] in
  let valueRaw := trim (co_value_text rule) in
  let payload := oset_if (str_truthy valueRaw) (js "value") (parseLooseValue valueRaw) payload in
  let payload := oset_if (co_invert rule) (js "invert") (VBool true) payload in
  VObj (oset_if (co_pass_missing_key rule) (js "pass_missing_key") (VBool true) payload).

Definition buildPruneObjectsValueText (draft : PruneObjectsDraft) : jstr :=
  let typeText := trim (pd_typeText draft) in
  if pd_simpleMode draft then typeText
  else
    let payload := oset_if (str_truthy typeText) (js "type") (VStr typeText) [] in
    let payload := oset_if (upper_is (js "OR") (str_or (pd_logic draft) (js "AND"))) (js "logic") (str "OR") payload in
    let payload := oset_if (negb (pd_recursive draft)) (js "recursive") (VBool false) payload in
    let conditions := map prune_condition_payload
      (List.filter (fun rule => str_truthy (trim (co_path rule))) (pd_rules draft)) in
    let payload := oset_if (negb (bool_decide (conditions = []))) (js "conditions") (VArr conditions) payload in
    if negb (truthy (oget (js "type") payload)) && negb (truthy (oget (js "conditions") payload))
    then stringify (VObj [(js "logic", str "AND")])
    else stringify (VObj payload).

(** The changes that the editor of [prune_objects] makes. *)
Inductive RulePatch :=
  | RulePath (s : jstr) | RuleMode (s : jstr) | RuleValue (s : jstr)
  | RuleInvert (b : bool) | RulePassMissing (b : bool).

Definition patch_rule (p : RulePatch) (r : PruneRule) : PruneRule :=
  let '(MkCondition id path mode value invert pass) := r in
  match p with
  | RulePath s => MkCondition id s mode value invert pass
  | RuleMode s => MkCondition id path s value invert pass
  | RuleValue s => MkCondition id path mode s invert pass
  | RuleInvert b => MkCondition id path mode value b pass
  | RulePassMissing b => MkCondition id path mode value invert b
  end.

Inductive PruneEdit :=
  | PruneSimple (b : bool)
  | PruneType (s : jstr)
  | PruneLogic (s : jstr)
  | PruneRecursive (b : bool)
  | AddPruneRule
  | UpdatePruneRule (ruleId : jstr) (p : RulePatch)
  | RemovePruneRule (ruleId : jstr).

Definition patch_prune (e : PruneEdit) (d : PruneObjectsDraft) : M PruneObjectsDraft :=
  let '(MkPrune b ty l r rules) := d in
  match e with
  | PruneSimple b' => ret (MkPrune b' ty l r rules)
  | PruneType s => ret (MkPrune b s l r rules)
  | PruneLogic s => ret (MkPrune b ty (str_or s (js "AND")) r rules)
  | PruneRecursive r' => ret (MkPrune b ty l r' rules)
  | AddPruneRule =>
      let! created := normalizePruneRule (VObj []) in
      ret (MkPrune false ty l r (rules ++ [created]))
  | UpdatePruneRule ruleId p =>
      ret (MkPrune b ty l r (map (fun x => if bool_decide (co_id x = ruleId) then patch_rule p x else x) rules))
  | RemovePruneRule ruleId =>
      ret (MkPrune b ty l r (List.filter (fun x => negb (bool_decide (co_id x = ruleId))) rules))
  end.

(** One edit: the text is read, changed and written. *)
Definition edit_prune (e : PruneEdit) (value_text : jstr) : M jstr :=
  let! draft := parsePruneObjectsDraft value_text in
  let! nextDraft := patch_prune e draft in
  ret (buildPruneObjectsValueText nextDraft).

End drafts.
