(* ===== verification/ParamDialog.v ===== *)
(** * Parameter overrides: the dialog
      (features/channels/components/dialogs/param-override-editor-dialog.tsx)

    The dialog is a machine whose events are the handlers of the component.
    A handler computes with the identifier counter and may throw; an uncaught
    exception leaves the state as it was.  After every event the effect that
    keeps the selection valid has run. *)
From stdpp Require Import gmap.
From S2P Require Import Prelude JsString JsNumber JsValue JsJson ParamModes ParamOverride ParamDrafts.
Open Scope N_scope.

(** ** State *)

Record Ui := MkUi {
  ui_operationSearch : jstr; ui_selectedOperationId : jstr; ui_expandedConditions : gmap jstr bool;
  ui_draggedOperationId : jstr; ui_dragOverOperationId : jstr; ui_dragOverPosition : Position;
  ui_templatePresetKey : jstr }.

(** The first six state variables are those of [EditorState]. *)
Record Dialog := MkDialog { dl_content : EditorState; dl_ui : Ui }.

Abbreviation dl_operations d := (es_operations (dl_content d)).
Abbreviation dl_selected d := (ui_selectedOperationId (dl_ui d)).

Definition set_content (c : EditorState) (d : Dialog) : Dialog := MkDialog c (dl_ui d).
Definition set_operations (ops : list ParamOverrideOperation) (d : Dialog) : Dialog :=
  let '(MkEditor em vm lv _ jt je) := dl_content d in set_content (MkEditor em vm lv ops jt je) d.
Definition set_legacyValue (lv : jstr) (d : Dialog) : Dialog :=
  let '(MkEditor em vm _ ops jt je) := dl_content d in set_content (MkEditor em vm lv ops jt je) d.
Definition set_json (em : EditMode) (jt je : jstr) (d : Dialog) : Dialog :=
  let '(MkEditor _ vm lv ops _ _) := dl_content d in set_content (MkEditor em vm lv ops jt je) d.

Definition set_ui (u : Ui) (d : Dialog) : Dialog := MkDialog (dl_content d) u.
Definition set_operationSearch (s : jstr) (d : Dialog) : Dialog :=
  let '(MkUi _ sel ex dr ov po tk) := dl_ui d in set_ui (MkUi s sel ex dr ov po tk) d.
Definition set_selected (id : jstr) (d : Dialog) : Dialog :=
  let '(MkUi se _ ex dr ov po tk) := dl_ui d in set_ui (MkUi se id ex dr ov po tk) d.
Definition set_expanded (f : gmap jstr bool -> gmap jstr bool) (d : Dialog) : Dialog :=
  let '(MkUi se sel ex dr ov po tk) := dl_ui d in set_ui (MkUi se sel (f ex) dr ov po tk) d.
Definition set_dragged (id : jstr) (d : Dialog) : Dialog :=
  let '(MkUi se sel ex _ ov po tk) := dl_ui d in set_ui (MkUi se sel ex id ov po tk) d.
Definition set_dragOver (id : jstr) (p : Position) (d : Dialog) : Dialog :=
  let '(MkUi se sel ex dr _ _ tk) := dl_ui d in set_ui (MkUi se sel ex dr id p tk) d.
Definition set_templatePresetKey (k : jstr) (d : Dialog) : Dialog :=
  let '(MkUi se sel ex dr ov po _) := dl_ui d in set_ui (MkUi se sel ex dr ov po k) d.

Inductive OperationPatch :=
  | POdescription (s : jstr) | POpath (s : jstr) | POmode (s : jstr) | POvalue (s : jstr)
  | POkeep (b : bool) | POfrom (s : jstr) | POto (s : jstr) | POlogic (s : jstr)
  | POends (from to : jstr).

Definition patch_operation (p : OperationPatch) (o : ParamOverrideOperation) : ParamOverrideOperation :=
  let '(MkOperation id de pa mo fr to va ke lo co) := o in
  match p with
  | POdescription s => MkOperation id s pa mo fr to va ke lo co
  | POpath s => MkOperation id de s mo fr to va ke lo co
  | POmode s => MkOperation id de pa s fr to va ke lo co
  | POvalue s => MkOperation id de pa mo fr to s ke lo co
  | POkeep b => MkOperation id de pa mo fr to va b lo co
  | POfrom s => MkOperation id de pa mo s to va ke lo co
  | POto s => MkOperation id de pa mo fr s va ke lo co
  | POlogic s => MkOperation id de pa mo fr to va ke s co
  | POends f s => MkOperation id de pa mo f s va ke lo co
  end.

Definition set_conditions (cs : list ParamOverrideCondition) (o : ParamOverrideOperation) : ParamOverrideOperation :=
  let '(MkOperation id de pa mo fr to va ke lo _) := o in MkOperation id de pa mo fr to va ke lo cs.

Inductive FillMode := Fill | Append.

Inductive Event :=
  | Open (value : jstr)
  | Rendered
  | UpdateOperation (operationId : jstr) (p : OperationPatch)
  | FormatValue (operationId : jstr)
  | AddOperation
  (** [eager]: the state library has run the updater before the handler ends *)
  | DuplicateOperation (operationId : jstr) (eager : bool)
  | RemoveOperation (operationId : jstr)
  | AddCondition (operationId : jstr)
  | UpdateCondition (operationId conditionId : jstr) (p : RulePatch)
  | RemoveCondition (operationId conditionId : jstr)
  | UpdateReturnError (operationId : jstr) (p : ReturnErrorPatch)
  | UpdatePrune (operationId : jstr) (e : PruneEdit)
  | ResetDrag
  | DragStart (operationId : jstr)
  | DragOver (operationId : jstr) (position : Position)
  | Drop (operationId : jstr) (transferred : jstr)
  | SwitchToJson
  | SwitchToVisual
  | FillTemplate (mode : FillMode)
  | ResetEditor
  | JsonChange (nextValue : jstr)
  | FormatJson
  | Save
  | ExpandAll (value : bool)
  | ExpandCondition (conditionId : jstr) (expanded : bool)
  | Select (operationId : jstr)
  | Search (keyword : jstr)
  | LegacyChange (text : jstr)
  | TemplateKey (key : jstr).

Inductive Output :=
  | Toast (message : jstr)
  | OnSave (value : jstr)
  | OnClose
  | ShowPruneDraft (draft : PruneObjectsDraft)
  | Uncaught (e : jserror).

Section dialog.
(** [Date.now], the translation function and the messages of the engine's
    own errors. *)
Context (now : N -> N) (t : jstr -> option nat -> jstr) (engine_message : jserror -> jstr).

(** ** What is shown *)

Definition templatePresetOptions : list (jstr * jstr) :=
  map (fun kc => (kc.1, tp_label kc.2)) TEMPLATE_PRESET_CONFIG.

Definition operationCount (d : Dialog) : nat :=
  length (List.filter (fun o => negb (isOperationBlank o)) (dl_operations d)).

Definition searchableText (op : ParamOverrideOperation) : jstr :=
  to_lower (join (js " ") (List.filter str_truthy
    [op_description op; op_mode op; op_path op; op_from op; op_to op; op_value_text op])).

Definition filteredOperations (d : Dialog) : list ParamOverrideOperation :=
  let keyword := to_lower (trim (ui_operationSearch (dl_ui d))) in
  if negb (str_truthy keyword) then dl_operations d
  else List.filter (fun op => includes keyword (searchableText op)) (dl_operations d).

Definition selectedOperation (d : Dialog) : option ParamOverrideOperation :=
  snd <$> list_find (fun o => op_id o = dl_selected d) (dl_operations d).

Definition selectedOperationIndex (d : Dialog) : option nat := findIndex (dl_selected d) (dl_operations d).

Definition returnErrorDraft (d : Dialog) : option ReturnErrorDraft :=
  match selectedOperation d with
  | Some op => if bool_decide (op_mode op = js "return_error")
               then Some (parseReturnErrorDraft (op_value_text op)) else None
  | None => None
  end.

Definition pruneObjectsDraft (d : Dialog) : M (option PruneObjectsDraft) :=
  match selectedOperation d with
  | Some op => if bool_decide (op_mode op = js "prune_objects")
               then let! draft := parsePruneObjectsDraft now (op_value_text op) in ret (Some draft)
               else ret None
  | None => ret None
  end.

(** [counts[mode] = (counts[mode] || 0) + 1], the modes in the order of
    their first rule. *)
Fixpoint count_mode (mode : jstr) (counts : list (jstr * nat)) : list (jstr * nat) :=
  match counts with
  | [] => [(mode, 1%nat)]
  | (m, c) :: rest => if bool_decide (m = mode) then (m, S c) :: rest else (m, c) :: count_mode mode rest
  end.

(** The stable [sort((a, b) => b[1] - a[1])]. *)
Fixpoint insert_count (x : jstr * nat) (l : list (jstr * nat)) : list (jstr * nat) :=
  match l with
  | [] => [x]
  | y :: l' => if (x.2 <? y.2)%nat then y :: insert_count x l' else x :: l
  end.

Definition topOperationModes (d : Dialog) : list (jstr * nat) :=
  let counts := fold_left (fun acc op => count_mode (str_or (op_mode op) (js "set")) acc)
                  (dl_operations d) [] in
  take 4 (fold_right insert_count [] counts).

(** ** Handlers on the rules *)

(** [prev.map((o) => o.id === id ? f(o) : o)] *)
Definition on_operation (id : jstr) (f : ParamOverrideOperation -> ParamOverrideOperation)
    (ops : list ParamOverrideOperation) : list ParamOverrideOperation :=
  map (fun o => if bool_decide (op_id o = id) then f o else o) ops.

Definition on_operations (f : list ParamOverrideOperation -> list ParamOverrideOperation) (d : Dialog) : Dialog :=
  set_operations (f (dl_operations d)) d.

Definition updateOperation (id : jstr) (p : OperationPatch) (d : Dialog) : Dialog :=
  on_operations (on_operation id (patch_operation p)) d.

(** The button that formats the value. *)
Definition formatValue (id : jstr) (d : Dialog) : Dialog :=
  match list_find (fun o => op_id o = id) (dl_operations d) with
  | Some (_, op) =>
      match json_parse (op_value_text op) with
      | Ok parsed => updateOperation id (POvalue (stringify2 parsed)) d
      | Throw _ => d
      end
  | None => d
  end.

Definition addOperation (d : Dialog) : M Dialog :=
  let! created := createDefaultOperation now in
  ret (set_selected (op_id created) (on_operations (fun prev => prev ++ [created]) d)).

Definition clone_source (source : ParamOverrideOperation) : jsval :=
  VObj [ (js "description", VStr (op_description source)); (js "path", VStr (op_path source));
         (js "mode", VStr (op_mode source)); (js "value", parseLooseValue (op_value_text source));
         (js "keep_origin", VBool (op_keep_origin source)); (js "from", VStr (op_from source));
         (js "to", VStr (op_to source)); (js "logic", VStr (op_logic source));
         (js "conditions", VArr (map (fun c => VObj
            [ (js "path", VStr (co_path c)); (js "mode", VStr (co_mode c));
              (js "value", parseLooseValue (co_value_text c)); (js "invert", VBool (co_invert c));
              (js "pass_missing_key", VBool (co_pass_missing_key c)) ]) (op_conditions source))) ].

Definition duplicateOperation (operationId : jstr) (eager : bool) (d : Dialog) : M Dialog :=
  let prev := dl_operations d in
  match list_find (fun o => op_id o = operationId) prev with
  | None => ret d
  | Some (idx, source) =>
      let! cloned := normalizeOperation now (clone_source source) in
      let d' := set_operations (splice_in (S idx) cloned prev) d in
      ret (if eager && str_truthy (op_id cloned) then set_selected (op_id cloned) d' else d')
  end.

Definition removeOperation (operationId : jstr) (d : Dialog) : M Dialog :=
  let prev := dl_operations d in
  if (length prev <=? 1)%nat then
    let! fallback := createDefaultOperation now in ret (set_operations [fallback] d)
  else ret (set_operations (List.filter (fun o => negb (bool_decide (op_id o = operationId))) prev) d).

Definition addCondition (operationId : jstr) (d : Dialog) : M Dialog :=
  let! created := createDefaultCondition now in
  ret (set_expanded (fun prev => <[co_id created := true]> prev)
         (on_operations (on_operation operationId
            (fun op => set_conditions (op_conditions op ++ [created]) op)) d)).

Definition updateCondition (operationId conditionId : jstr) (p : RulePatch) (d : Dialog) : Dialog :=
  on_operations (on_operation operationId (fun op =>
    set_conditions (map (fun c => if bool_decide (co_id c = conditionId) then patch_rule p c else c)
                      (op_conditions op)) op)) d.

Definition removeCondition (operationId conditionId : jstr) (d : Dialog) : Dialog :=
  on_operations (on_operation operationId (fun op =>
    set_conditions (List.filter (fun c => negb (bool_decide (co_id c = conditionId))) (op_conditions op)) op)) d.

Definition updateReturnErrorDraft (operationId : jstr) (p : ReturnErrorPatch) (d : Dialog) : Dialog :=
  on_operations (on_operation operationId (fun op =>
    patch_operation (POvalue (edit_return_error p (op_value_text op))) op)) d.

Definition updatePruneObjectsDraft (operationId : jstr) (e : PruneEdit) (d : Dialog) : M Dialog :=
  let! ops := mapM (fun op =>
    if bool_decide (op_id op = operationId) then
      let! text := edit_prune now e (op_value_text op) in ret (patch_operation (POvalue text) op)
    else ret op) (dl_operations d) in
  ret (set_operations ops d).

(** ** Drag and drop *)

Definition resetDragState (d : Dialog) : Dialog := set_dragOver [] Before (set_dragged [] d).

Definition handleDragStart (operationId : jstr) (d : Dialog) : Dialog :=
  set_selected operationId (set_dragged operationId d).

(** [position] is the half of the target that the pointer is over. *)
Definition handleDragOver (operationId : jstr) (position : Position) (d : Dialog) : Dialog :=
  let dragged := ui_draggedOperationId (dl_ui d) in
  if negb (str_truthy dragged) || bool_decide (dragged = operationId) then d
  else set_dragOver operationId position d.

(** [transferred] is the text that the drag carries. *)
Definition handleDrop (operationId transferred : jstr) (d : Dialog) : Dialog :=
  let sourceId := str_or (ui_draggedOperationId (dl_ui d)) transferred in
  let position := if bool_decide (ui_dragOverOperationId (dl_ui d) = operationId)
                  then ui_dragOverPosition (dl_ui d) else Before in
  resetDragState
    (if str_truthy sourceId && str_truthy operationId && negb (bool_decide (sourceId = operationId))
     then set_selected sourceId
            (on_operations (fun prev => reorderOperations prev sourceId operationId position) d)
     else d).

(** ** Modes and templates *)

Definition error_message (e : thrown) : jstr :=
  match e with UserError m => m | EngineError e => engine_message e end.

Definition buildVisualJson (d : Dialog) : thrown + jstr :=
  match es_visualMode (dl_content d) with
  | VMlegacy =>
      let trimmed := trim (es_legacyValue (dl_content d)) in
      if negb (str_truthy trimmed) then inr []
      else match json_parse trimmed with
           | Throw _ => inl (UserError (t (js "Parameter override must be valid JSON format") None))
           | Ok (VObj o) => inr (stringify2 (VObj o))
           | Ok _ => inl (UserError (t (js "Legacy format must be a JSON object") None))
           end
  | VMoperations => buildOperationsJson t (dl_operations d) true
  end.

Definition switchToJsonMode (d : Dialog) : Dialog * list Output :=
  match es_editMode (dl_content d) with
  | EMjson => (d, [])
  | EMvisual =>
      match buildVisualJson d with
      | inr text => (set_json EMjson text [] d, [])
      | inl e =>
          let text := match es_visualMode (dl_content d) with
                      | VMlegacy => es_legacyValue (dl_content d)
                      | VMoperations => match buildOperationsJson t (dl_operations d) false with
                                        | inr text => text
                                        | inl _ => []
                                        end
                      end in
          (set_json EMjson text
             (str_or (error_message e) (t (js "Parameter configuration error") None)) d,
           [Toast (error_message e)])
      end
  end.

Definition first_id (ops : list ParamOverrideOperation) : jstr :=
  match ops with o :: _ => op_id o | [] => [] end.

Definition switchToVisualMode (d : Dialog) : M (Dialog * list Output) :=
  let c := dl_content d in
  match es_editMode c with
  | EMvisual => ret (d, [])
  | EMjson =>
      let trimmed := trim (es_jsonText c) in
      if negb (str_truthy trimmed) then
        let! fallback := createDefaultOperation now in
        ret (set_selected (op_id fallback)
               (set_content (MkEditor EMvisual VMoperations [] [fallback] (es_jsonText c) []) d), [])
      else match json_parse trimmed with
      | Throw _ => ret (d, [Toast (t (js "Parameter override must be valid JSON format") None)])
      | Ok (VObj o) =>
          match oget (js "operations") o with
          | VArr l =>
              let! nextOps := operations_of now l in
              ret (set_templatePresetKey (js "operations_default") (set_selected (first_id nextOps)
                     (set_content (MkEditor EMvisual VMoperations [] nextOps (es_jsonText c) []) d)), [])
          | _ =>
              let! fallback := createDefaultOperation now in
              ret (set_templatePresetKey (js "legacy_default") (set_selected (op_id fallback)
                     (set_content (MkEditor EMvisual VMlegacy (stringify2 (VObj o)) [fallback]
                                     (es_jsonText c) []) d)), [])
          end
      | Ok _ => ret (d, [Toast (t (js "Parameter override must be a valid JSON object") None)])
      end
  end.

(** The rules of a template. *)
Definition template_operations (payload : jsobj) : list jsval :=
  match vor (oget (js "operations") payload) (VArr []) with VArr l => l | _ => [] end.

Definition fillLegacy (payload : jsobj) (mode : FillMode) (d : Dialog) : M (Dialog * list Output) :=
  let c := dl_content d in
  let filled text :=
    let! fallback := createDefaultOperation now in
    ret (set_content (MkEditor EMvisual VMlegacy text [fallback] text []) d, []) in
  match mode, es_visualMode c with
  | Append, VMlegacy =>
      let trimmed := trim (es_legacyValue c) in
      match (if str_truthy trimmed then json_parse trimmed else Ok (VObj [])) with
      | Throw _ => ret (d, [Toast (t (js "Current legacy JSON is invalid, cannot append") None)])
      | Ok parsedCurrent => filled (stringify2 (VObj (ospread (obj_of payload) (entries parsedCurrent))))
      end
  | _, _ => filled (stringify2 (VObj payload))
  end.

Definition fillOperations (payload : jsobj) (mode : FillMode) (d : Dialog) : M Dialog :=
  let c := dl_content d in
  let operationsPayload := template_operations payload in
  match mode with
  | Append =>
      let! appended := mapM (normalizeOperation now) operationsPayload in
      let existing := match es_visualMode c with
                      | VMoperations => List.filter (fun o => negb (isOperationBlank o)) (es_operations c)
                      | VMlegacy => []
                      end in
      let nextOps := existing ++ appended in
      ret (set_selected (str_or (first_id nextOps) (first_id appended))
             (set_content (MkEditor EMvisual VMoperations []
                             (match nextOps with [] => appended | _ => nextOps end) [] []) d))
  | Fill =>
      let! finalOps := operations_of now operationsPayload in
      ret (set_selected (first_id finalOps)
             (set_content (MkEditor EMvisual VMoperations (es_legacyValue c) finalOps
                (stringify2 (VObj [(js "operations", VArr operationsPayload)])) []) d))
  end.

Definition fillTemplate (mode : FillMode) (d : Dialog) : M (Dialog * list Output) :=
  let preset := default operations_default (assoc (ui_templatePresetKey (dl_ui d)) TEMPLATE_PRESET_CONFIG) in
  match tp_kind preset with
  | TKlegacy => fillLegacy (tp_payload preset) mode d
  | TKoperations => let! d' := fillOperations (tp_payload preset) mode d in ret (d', [])
  end.

Definition resetEditorState (d : Dialog) : M Dialog :=
  let! fallback := createDefaultOperation now in
  ret (set_templatePresetKey (js "operations_default") (set_selected (op_id fallback)
         (set_content (MkEditor EMvisual VMoperations [] [fallback] [] []) d))).

Definition handleJsonChange (nextValue : jstr) (d : Dialog) : Dialog :=
  let trimmed := trim nextValue in
  let error := if negb (str_truthy trimmed) then []
               else if verifyJSON trimmed then [] else t (js "JSON format error") None in
  set_json (es_editMode (dl_content d)) nextValue error d.

Definition formatJson (d : Dialog) : Dialog * list Output :=
  let trimmed := trim (es_jsonText (dl_content d)) in
  if negb (str_truthy trimmed) then (d, [])
  else match json_parse trimmed with
       | Throw _ => (d, [Toast (t (js "Parameter override must be valid JSON format") None)])
       | Ok v => (set_json (es_editMode (dl_content d)) (stringify2 v) [] d, [])
       end.

Definition visualValidationError (d : Dialog) : jstr :=
  match es_editMode (dl_content d) with
  | EMjson => []
  | EMvisual =>
      match buildVisualJson d with
      | inr _ => []
      | inl e => str_or (error_message e) (t (js "Parameter configuration error") None)
      end
  end.

(** What [handleSave] hands to [onSave]. *)
Definition save_result (d : Dialog) : thrown + jstr :=
  match es_editMode (dl_content d) with
  | EMjson =>
      let trimmed := trim (es_jsonText (dl_content d)) in
      if negb (str_truthy trimmed) then inr []
      else match json_parse trimmed with
           | Throw _ => inl (UserError (t (js "Parameter override must be valid JSON format") None))
           | Ok v => inr (stringify2 v)
           end
  | EMvisual => buildVisualJson d
  end.

Definition handleSave (d : Dialog) : list Output :=
  match save_result d with
  | inr result => [OnSave result; OnClose]
  | inl e => [Toast (error_message e)]
  end.

Definition setAllConditions (value : bool) (d : Dialog) : Dialog :=
  match selectedOperation d with
  | None => d
  | Some op => set_expanded (fun prev =>
                 fold_left (fun acc c => <[co_id c := value]> acc) (op_conditions op) prev) d
  end.

(** ** The effects *)

Definition openDialog (value : jstr) (d : Dialog) : M Dialog :=
  let! state := parseInitialState now value in
  ret (MkDialog state
         (MkUi [] (first_id (es_operations state)) ∅ [] [] Before
            (match es_visualMode state with
             | VMlegacy => js "legacy_default"
             | VMoperations => js "operations_default"
             end))).

Definition keepSelection (d : Dialog) : Dialog :=
  match dl_operations d with
  | [] => set_selected [] d
  | o :: _ => if existsb (fun x => bool_decide (op_id x = dl_selected d)) (dl_operations d) then d
              else set_selected (op_id o) d
  end.

(** ** Events *)

Definition pure (d : Dialog) : M (Dialog * list Output) := ret (d, []).
Definition quiet (c : M Dialog) : M (Dialog * list Output) := let! d := c in ret (d, []).

Definition handle (e : Event) (d : Dialog) : M (Dialog * list Output) :=
  match e with
  | Open value => quiet (openDialog value d)
  | Rendered => let! draft := pruneObjectsDraft d in
                ret (d, match draft with Some x => [ShowPruneDraft x] | None => [] end)
  | UpdateOperation id p => pure (updateOperation id p d)
  | FormatValue id => pure (formatValue id d)
  | AddOperation => quiet (addOperation d)
  | DuplicateOperation id eager => quiet (duplicateOperation id eager d)
  | RemoveOperation id => quiet (removeOperation id d)
  | AddCondition id => quiet (addCondition id d)
  | UpdateCondition id cid p => pure (updateCondition id cid p d)
  | RemoveCondition id cid => pure (removeCondition id cid d)
  | UpdateReturnError id p => pure (updateReturnErrorDraft id p d)
  | UpdatePrune id e => quiet (updatePruneObjectsDraft id e d)
  | ResetDrag => pure (resetDragState d)
  | DragStart id => pure (handleDragStart id d)
  | DragOver id position => pure (handleDragOver id position d)
  | Drop id transferred => pure (handleDrop id transferred d)
  | SwitchToJson => ret (switchToJsonMode d)
  | SwitchToVisual => switchToVisualMode d
  | FillTemplate mode => fillTemplate mode d
  | ResetEditor => quiet (resetEditorState d)
  | JsonChange nextValue => pure (handleJsonChange nextValue d)
  | FormatJson => ret (formatJson d)
  | Save => ret (d, handleSave d)
  | ExpandAll value => pure (setAllConditions value d)
  | ExpandCondition cid expanded => pure (set_expanded (fun prev => <[cid := expanded]> prev) d)
  | Select id => pure (set_selected id d)
  | Search keyword => pure (set_operationSearch keyword d)
  | LegacyChange text => pure (set_legacyValue text d)
  | TemplateKey key => pure (set_templatePresetKey (str_or key (js "operations_default")) d)
  end.

(** A state of the machine: the dialog and the counter. *)
Definition step (e : Event) (s : Dialog * N) : (Dialog * N) * list Output :=
  match handle e s.1 s.2 with
  | (Ok (d, out), n) => ((keepSelection d, n), out)
  | (Throw err, n) => ((s.1, n), [Uncaught err])
  end.

(** The state of the component when it is created. *)
Definition initial : M Dialog :=
  let! d := createDefaultOperation now in
  ret (MkDialog (MkEditor EMvisual VMoperations [] [d] [] [])
         (MkUi [] [] ∅ [] [] Before (js "operations_default"))).

Definition start (n : N) : Dialog * N :=
  match initial n with
  | (Ok d, n') => (keepSelection d, n')
  | (Throw _, n') => (MkDialog (MkEditor EMvisual VMoperations [] [] [] [])
                        (MkUi [] [] ∅ [] [] Before (js "operations_default")), n')
  end.
End dialog.
