(* ===== verification/ParamIds.v ===== *)
(** * Parameter overrides: identifiers

    Identifiers made from different values of the counter differ, whatever
    the clock says; a computation with the counter is described by a range of
    the counter ([wp]). *)
From S2P Require Import Prelude JsString JsNumber JsNumberFacts JsValue ParamModes ParamOverride.
Open Scope N_scope.

Lemma app_cons_inj {A} (x : A) a b a' b' :
  x ∉ b -> x ∉ b' -> a ++ x :: b = a' ++ x :: b' -> a = a' /\ b = b'.
Proof.
  intros Hb Hb'. revert a'. induction a as [|y a IH]; intros [|y' a']; cbn [app]; intros H; simplify_eq.
  - done.
  - contradict Hb. apply elem_of_app. right. by left.
  - contradict Hb'. apply elem_of_app. right. by left.
  - match goal with H : a ++ _ = _ |- _ => apply IH in H as [-> ->] end. done.
Qed.

Lemma NoDup_sub {A} (a b : list A) : a ⊆+ b -> NoDup b -> NoDup a.
Proof. intros [k Hk]%submseteq_Permutation. rewrite Hk. by intros [? _]%NoDup_app. Qed.

Section ids.
Context (now : N -> N).

Lemma local_id_inj n m : local_id now n = local_id now m -> n = m.
Proof.
  unfold local_id. rewrite !app_assoc. change (js "_") with [95]. rewrite <-!app_assoc.
  rewrite (app_assoc _ (show_N (now n))), (app_assoc _ (show_N (now m))). cbn [app].
  intros [_ H]%app_cons_inj; [by apply show_N_inj|by apply show_N_missing..].
Qed.

Lemma local_id_truthy n : str_truthy (local_id now n) = true.
Proof. done. Qed.

(** An identifier made while the counter went from [lo] to [hi]. *)
Definition made (lo hi : N) (id : jstr) : Prop := exists k, lo <= k < hi /\ id = local_id now k.

Lemma made_mono lo hi lo' hi' id : lo' <= lo -> hi <= hi' -> made lo hi id -> made lo' hi' id.
Proof. intros ?? (k & ? & ->). exists k. split; [lia|done]. Qed.

Lemma made_disjoint a b b' c id : b <= b' -> made a b id -> made b' c id -> False.
Proof. intros ? (k & ? & ->) (k' & ? & E%local_id_inj). lia. Qed.

Lemma made_truthy lo hi id : made lo hi id -> str_truthy id = true.
Proof. intros (k & _ & ->). apply local_id_truthy. Qed.

(** Distinct identifiers made in a range. *)
Definition fresh (lo hi : N) (ids : list jstr) : Prop := NoDup ids /\ Forall (made lo hi) ids.

Lemma fresh_nil lo hi : fresh lo hi [].
Proof. split; constructor. Qed.

Lemma fresh_one n : fresh n (n + 1) [local_id now n].
Proof. split; [apply NoDup_singleton|]. constructor; [|constructor]. exists n. split; [lia|done]. Qed.

Lemma fresh_app lo mid hi a b :
  lo <= mid -> mid <= hi -> fresh lo mid a -> fresh mid hi b -> fresh lo hi (a ++ b).
Proof.
  intros H1 H2 [Ha Ma] [Hb Mb]. rewrite list.Forall_forall in Ma. rewrite list.Forall_forall in Mb. split.
  - apply NoDup_app. split; [done|]. split; [|done]. intros x ??.
    by eapply (made_disjoint lo mid mid hi); eauto.
  - rewrite list.Forall_forall. intros x [?|?]%elem_of_app; (eapply made_mono; [| |eauto]); lia.
Qed.

Lemma fresh_sub lo hi a b : a ⊆+ b -> fresh lo hi b -> fresh lo hi a.
Proof.
  intros Hs [Hn Hm]. split; [by eapply NoDup_sub|].
  rewrite list.Forall_forall in Hm |- *. intros x Hx. apply Hm. by eapply elem_of_submseteq.
Qed.

Lemma fresh_mono lo hi lo' hi' a : lo' <= lo -> hi <= hi' -> fresh lo hi a -> fresh lo' hi' a.
Proof. intros ?? [Hn Hm]. split; [done|]. eapply Forall_impl; [done|]. intros. by eapply made_mono. Qed.

(** The computation from the counter [n]: the counter does not decrease, and
    a result satisfies [Q] with the counter it leaves. *)
Definition wp {A} (n : N) (c : M A) (Q : N -> A -> Prop) : Prop :=
  match c n with
  | (Ok a, n') => n <= n' /\ Q n' a
  | (Throw _, n') => n <= n'
  end.

Lemma wp_ret {A} n (a : A) (Q : N -> A -> Prop) : Q n a -> wp n (ret a) Q.
Proof. by split. Qed.

Lemma wp_lift {A} n (c : res A) (Q : N -> A -> Prop) : (forall a, c = Ok a -> Q n a) -> wp n (lift c) Q.
Proof. intros H. unfold wp, lift. destruct c; [|done]. split; [done|by apply H]. Qed.

Lemma wp_id n Q : Q (n + 1) (local_id now n) -> wp n (nextLocalId now) Q.
Proof. intros H. split; [lia|done]. Qed.

Lemma wp_bind {A B} n (c : M A) (k : A -> M B) Q :
  wp n c (fun mid a => n <= mid -> wp mid (k a) Q) -> wp n (bind c k) Q.
Proof.
  unfold wp, bind. destruct (c n) as [[a|e] mid]; [|done]. intros [H1 H]. specialize (H H1).
  destruct (k a mid) as [[b|e] hi]; [|lia]. destruct H as [H2 HQ]. split; [lia|done].
Qed.

Lemma wp_mono {A} n (c : M A) (P Q : N -> A -> Prop) :
  wp n c P -> (forall n' a, n <= n' -> P n' a -> Q n' a) -> wp n c Q.
Proof. unfold wp. destruct (c n) as [[a|e] n1]; [|done]. intros [Hn HP] HQ. split; [done|by apply HQ]. Qed.

Lemma wp_try {A} n (c : M A) h (Q : N -> A -> Prop) :
  wp n c Q -> (forall n', n <= n' -> Q n' h) -> wp n (try c h) Q.
Proof.
  unfold wp, try. destruct (c n) as [[a|e] n']; cbn [catch].
  - intros [Hn HQ] _. by split.
  - intros Hn Hh. split; [done|by apply Hh].
Qed.

(** A loop: what its turns give, with a range each. *)
Inductive turns {A} (P : N -> N -> A -> Prop) : N -> N -> list A -> Prop :=
  | turns_nil n : turns P n n []
  | turns_cons lo mid hi a l : lo <= mid -> P lo mid a -> turns P mid hi l -> turns P lo hi (a :: l).

Lemma wp_mapM {A B} (f : A -> M B) (P : N -> N -> B -> Prop) l n :
  (forall n x, x ∈ l -> wp n (f x) (P n)) -> wp n (mapM f l) (fun n' ys => turns P n n' ys /\ length ys = length l).
Proof.
  revert n. induction l as [|x l IH]; intros n Hf; cbn [mapM]; [by apply wp_ret; split; [constructor|]|].
  apply wp_bind. eapply wp_mono; [apply Hf; by left|]. intros mid y H1 Hy _.
  apply wp_bind. eapply wp_mono; [apply IH; intros; apply Hf; by right|]. intros hi ys H2 [Hys Hl] _.
  apply wp_ret. cbn [length]. rewrite Hl. split; [by econstructor|done].
Qed.

Lemma turns_fresh {A} (P : N -> N -> A -> Prop) (ids : A -> list jstr) lo hi l :
  (forall lo hi a, P lo hi a -> fresh lo hi (ids a)) -> turns P lo hi l ->
  lo <= hi /\ fresh lo hi (flat_map ids l).
Proof.
  intros HP. induction 1 as [n|lo mid hi a l Hle Ha _ [Hle' IH]]; cbn [flat_map].
  - split; [done|apply fresh_nil].
  - split; [lia|]. eapply fresh_app; eauto.
Qed.

Lemma turns_Forall {A} (P : N -> N -> A -> Prop) (R : A -> Prop) lo hi l :
  (forall lo hi a, P lo hi a -> R a) -> turns P lo hi l -> Forall R l.
Proof. intros HP. induction 1; constructor; eauto. Qed.
End ids.
