(* ===== verification/ParamOrder.v ===== *)
(** * Parameter overrides: the order of the rules *)
From S2P Require Import Prelude JsString JsValue ParamModes ParamOverride.
Open Scope N_scope.

Abbreviation ids_of ops := (map op_id ops).

(** The rules other than the one with an identifier, in order. *)
Definition others (id : jstr) (ops : list ParamOverrideOperation) : list ParamOverrideOperation :=
  List.filter (fun o => negb (bool_decide (op_id o = id))) ops.

Lemma others_all id ops : id ∉ ids_of ops -> others id ops = ops.
Proof.
  induction ops as [|o ops IH]; [done|]. cbn [map]. rewrite not_elem_of_cons. intros [Ho Hi].
  unfold others. cbn [List.filter]. rewrite bool_decide_eq_false_2 by congruence. cbn [negb].
  f_equal. by apply IH.
Qed.

Lemma findIndex_Some id ops i :
  findIndex id ops = Some i ->
  exists l1 o l2, ops = l1 ++ o :: l2 /\ op_id o = id /\ i = length l1 /\ id ∉ ids_of l1.
Proof.
  unfold findIndex. intros ([i' o] & H & ->)%fmap_Some. cbn [fst] in *.
  apply list_find_Some in H as (Hl & Ho & Hb). exists (take i' ops), o, (drop (S i') ops).
  split; [by rewrite take_drop_middle|]. split; [done|].
  split; [symmetry; apply length_take_le; apply lookup_lt_Some in Hl; lia|].
  intros (x & -> & (j & Hj)%list_elem_of_lookup)%list_elem_of_fmap.
  rewrite lookup_take_Some in Hj. destruct Hj as [Hj ?]. by apply (Hb j x).
Qed.

Lemma findIndex_None id ops : findIndex id ops = None <-> id ∉ ids_of ops.
Proof.
  unfold findIndex. rewrite fmap_None, list_find_None, list.Forall_forall. split.
  - intros H (x & E & Hx)%list_elem_of_fmap. by apply (H x).
  - intros H x Hx E. apply H. apply list_elem_of_fmap. by exists x.
Qed.

Definition insert_index (l1 : list ParamOverrideOperation) (pos : Position) : nat :=
  match pos with After => S (length l1) | Before => length l1 end.

Lemma splice_beside l1 m (tgt : ParamOverrideOperation) l2 pos :
  splice_in (insert_index l1 pos) m (l1 ++ tgt :: l2)
  = match pos with Before => l1 ++ m :: tgt :: l2 | After => l1 ++ tgt :: m :: l2 end.
Proof.
  unfold splice_in. destruct pos; cbn [insert_index].
  - by rewrite take_app_length, drop_app_length.
  - change (tgt :: l2) with ([tgt] ++ l2). rewrite app_assoc.
    replace (S (length l1)) with (length (l1 ++ [tgt])) by (rewrite length_app; cbn; lia).
    rewrite take_app_length, drop_app_length. by rewrite <-app_assoc.
Qed.

(** [reorderOperations] is the identity, or moves one rule next to another. *)
Lemma reorder_cases ops s t pos :
  reorderOperations ops s t pos = ops
  \/ exists a m b l1 tgt l2,
       ops = a ++ m :: b /\ op_id m = s /\ s ∉ ids_of a
       /\ a ++ b = l1 ++ tgt :: l2 /\ op_id tgt = t /\ t ∉ ids_of l1
       /\ reorderOperations ops s t pos
          = match pos with Before => l1 ++ m :: tgt :: l2 | After => l1 ++ tgt :: m :: l2 end.
Proof.
  unfold reorderOperations. destruct (_ || _ || _); [by left|].
  destruct (findIndex s ops) as [i|] eqn:Hs; [|by left].
  apply findIndex_Some in Hs as (a & m & b & -> & Hm & -> & Ha). rewrite list_lookup_middle by done.
  rewrite delete_middle.
  destruct (findIndex t (a ++ b)) as [j|] eqn:Ht; [|by left]. right.
  apply findIndex_Some in Ht as (l1 & tgt & l2 & E & Htgt & -> & Hl). exists a, m, b, l1, tgt, l2.
  refine (conj eq_refl (conj Hm (conj Ha (conj E (conj Htgt (conj Hl _)))))).
  rewrite E. apply splice_beside.
Qed.

Lemma reorder_Permutation ops s t pos : reorderOperations ops s t pos ≡ₚ ops.
Proof.
  destruct (reorder_cases ops s t pos) as [->|(a & m & b & l1 & tgt & l2 & E & _ & _ & E' & _ & _ & ->)]; [done|].
  subst ops. rewrite <-(Permutation_middle a b m), E'.
  destruct pos; [by rewrite <-Permutation_middle|].
  rewrite (Permutation_cons_append (l1 ++ tgt :: l2)). rewrite <-app_assoc. cbn [app].
  by rewrite (Permutation_cons_append l2 m).
Qed.

(** Dropping a rule on another one moves it directly before or after
    that one and leaves the order of all the other rules as it was. *)
Theorem reorder_places ops s t pos :
  NoDup (ids_of ops) -> s ∈ ids_of ops -> t ∈ ids_of ops -> s <> t ->
  str_truthy s = true -> str_truthy t = true ->
  exists l1 m tgt l2,
    m ∈ ops /\ op_id m = s /\ op_id tgt = t /\ others s ops = l1 ++ tgt :: l2
    /\ reorderOperations ops s t pos
       = match pos with Before => l1 ++ m :: tgt :: l2 | After => l1 ++ tgt :: m :: l2 end.
Proof.
  intros Hn Hs Ht Hne Ts Tt.
  destruct (findIndex s ops) as [i|] eqn:Fs; [|by apply findIndex_None in Fs].
  pose proof Fs as (a & m & b & -> & Hm & -> & Ha)%findIndex_Some.
  rewrite map_app in Hn. cbn [map] in Hn. rewrite Hm in Hn.
  assert (Hb : s ∉ ids_of b).
  { apply NoDup_app in Hn as (_ & _ & Hn). by apply NoDup_cons in Hn as [? _]. }
  assert (Ho : others s (a ++ m :: b) = a ++ b).
  { unfold others. rewrite List.filter_app. cbn [List.filter].
    rewrite (bool_decide_eq_true_2 (op_id m = s)) by done. cbn [negb].
    f_equal; by apply others_all. }
  assert (Htn : t ∈ ids_of (a ++ b)).
  { rewrite map_app, elem_of_app in Ht. cbn [map] in Ht. rewrite elem_of_cons in Ht.
    rewrite map_app, elem_of_app. destruct Ht as [?|[E|?]]; [by left| |by right]. congruence. }
  destruct (findIndex t (a ++ b)) as [j|] eqn:Ft; [|by apply findIndex_None in Ft].
  unfold reorderOperations. rewrite Ts, Tt, bool_decide_eq_false_2 by done. cbn [negb orb].
  rewrite Fs, list_lookup_middle by done. rewrite delete_middle, Ft.
  apply findIndex_Some in Ft as (l1 & tgt & l2 & E & Htgt & -> & _). exists l1, m, tgt, l2.
  refine (conj _ (conj Hm (conj Htgt (conj (eq_trans Ho E) _)))); [apply elem_of_app; right; by left|].
  rewrite E. apply splice_beside.
Qed.

(** A rule named by its identifier. *)
Definition named_rule (id : jstr) : ParamOverrideOperation :=
  MkOperation id [] [] (js "set") [] [] [] false (js "OR") [].

Lemma reorder_places_witness :
  exists l1 m tgt l2,
    m ∈ map named_rule [js "a"; js "b"; js "c"] /\ op_id m = js "a" /\ op_id tgt = js "c"
    /\ others (js "a") (map named_rule [js "a"; js "b"; js "c"]) = l1 ++ tgt :: l2
    /\ reorderOperations (map named_rule [js "a"; js "b"; js "c"]) (js "a") (js "c") After = l1 ++ tgt :: m :: l2.
Proof.
  apply (reorder_places (map named_rule [js "a"; js "b"; js "c"]) (js "a") (js "c") After);
    [decide_now|decide_now|decide_now|decide_now|reflexivity|reflexivity].
Defined.
