(* ===== verification/ParamDialogFacts.v ===== *)
(** * Parameter overrides: the invariant of the dialog

    Whatever the user does, there is a rule to edit, the selected rule is one
    of the rules, no two rules or conditions share an identifier, and every
    mode and logic is one of the listed ones. *)
From stdpp Require Import gmap.
From S2P Require Import Prelude JsString JsNumber JsValue JsJson ParamModes ParamOverride ParamDrafts ParamDialog ParamIds ParamOrder.
Open Scope N_scope.

Definition op_ids (o : ParamOverrideOperation) : list jstr := op_id o :: map co_id (op_conditions o).
Definition all_ids (ops : list ParamOverrideOperation) : list jstr := flat_map op_ids ops.

Definition wf_condition (c : ParamOverrideCondition) : Prop := co_mode c ∈ CONDITION_MODE_VALUES.
Definition wf_operation (o : ParamOverrideOperation) : Prop :=
  op_mode o ∈ OPERATION_MODE_VALUES /\ op_logic o ∈ [js "AND"; js "OR"]
  /\ Forall wf_condition (op_conditions o).

Lemma mode_or_in values fallback v : fallback ∈ values -> mode_or values fallback v ∈ values.
Proof. intros H. unfold mode_or. destruct v; try done. by case_bool_decide. Qed.

Lemma full_listed : js "full" ∈ CONDITION_MODE_VALUES.
Proof. decide_now. Qed.
Lemma set_listed : js "set" ∈ OPERATION_MODE_VALUES.
Proof. decide_now. Qed.

(** ** Reading *)

(** Runs the lookups of a normalisation. *)
Ltac wp_lifts := repeat (apply wp_bind; apply wp_lift; intros ? _ _).

Section reading.
Context (now : N -> N).
Notation fresh := (fresh now).

Lemma wp_normalizeCondition n v :
  wp n (normalizeCondition now v) (fun n' c => fresh n n' [co_id c] /\ wf_condition c).
Proof.
  unfold normalizeCondition. apply wp_bind, wp_id. intros _. wp_lifts.
  apply wp_ret. cbn [co_id]. split; [apply fresh_one|]. apply mode_or_in, full_listed.
Qed.

Lemma wp_normalizePruneRule n v : wp n (normalizePruneRule now v) (fun _ _ => True).
Proof. unfold normalizePruneRule. apply wp_bind, wp_id. intros _. wp_lifts. by apply wp_ret. Qed.

Lemma logic_listed (b : bool) : (if b then js "AND" else js "OR") ∈ [js "AND"; js "OR"].
Proof. destruct b; [by left|right; by left]. Qed.

Lemma flat_map_single {A B} (f : A -> B) l : flat_map (fun x => [f x]) l = map f l.
Proof. induction l as [|x l IH]; [done|]. cbn. by rewrite IH. Qed.

Lemma wp_normalizeOperation n v :
  wp n (normalizeOperation now v) (fun n' o => fresh n n' (op_ids o) /\ wf_operation o).
Proof.
  unfold normalizeOperation. apply wp_bind, wp_id. intros H. wp_lifts. apply wp_bind.
  apply (wp_mono _ _ (fun n' cs => n + 1 <= n' /\ fresh (n + 1) n' (map co_id cs) /\ Forall wf_condition cs)).
  - assert (Hnil : forall m, wp m (ret (@nil ParamOverrideCondition))
      (fun n' cs => m <= n' /\ fresh m n' (map co_id cs) /\ Forall wf_condition cs)).
    { intros m. apply wp_ret. split; [done|]. split; [apply fresh_nil|constructor]. }
    match goal with |- wp _ (match ?x with _ => _ end) _ => destruct x; try apply Hnil end.
    eapply wp_mono; [apply (wp_mapM _ (fun a b c => fresh a b [co_id c] /\ wf_condition c)); intros; apply wp_normalizeCondition|].
    intros n' cs _ [Ht _]. split.
    + by eapply (turns_fresh now _ (fun c => [co_id c])) in Ht as [? _]; [|by intros ??? [? _]].
    + rewrite <-flat_map_single. split.
      * by eapply (turns_fresh now _ (fun c => [co_id c])) in Ht as [_ ?]; [|by intros ??? [? _]].
      * eapply turns_Forall; [|done]. by intros ??? [_ ?].
  - intros n' cs Hn (_ & Hf & Hw) _. apply wp_ret. unfold op_ids. cbn [op_id op_conditions]. split.
    + apply (fresh_app now n (n + 1) n' [_]); [lia|done|apply fresh_one|done].
    + split; [apply mode_or_in, set_listed|]. split; [apply logic_listed|done].
Qed.

Lemma wp_operations l n :
  wp n (mapM (normalizeOperation now) l)
     (fun n' ops => fresh n n' (all_ids ops) /\ Forall wf_operation ops /\ length ops = length l).
Proof.
  eapply wp_mono; [apply (wp_mapM _ (fun a b o => fresh a b (op_ids o) /\ wf_operation o)); intros; apply wp_normalizeOperation|].
  intros n' ops _ [Ht Hl]. split; [|split; [|done]].
  - by eapply (turns_fresh now _ op_ids) in Ht as [_ ?]; [|by intros ??? [? _]].
  - eapply turns_Forall; [|done]. by intros ??? [_ ?].
Qed.

Lemma default_operation n :
  exists o, createDefaultOperation now n = (Ok o, n + 1) /\ op_ids o = [local_id now n] /\ wf_operation o.
Proof.
  eexists. split; [reflexivity|]. split; [done|]. split; [apply set_listed|].
  split; [right; by left|constructor].
Qed.

Lemma wp_default n Q : (forall o, fresh n (n + 1) (op_ids o) -> wf_operation o -> op_id o = local_id now n -> Q (n + 1) o) ->
  wp n (createDefaultOperation now) Q.
Proof.
  intros HQ. destruct (default_operation n) as (o & E & Ho & Hw). unfold wp. rewrite E. split; [lia|].
  apply HQ; [rewrite Ho; apply fresh_one|done|]. by injection Ho.
Qed.

(** ** Invariant *)

Definition op_inv (n : N) (ops : list ParamOverrideOperation) : Prop :=
  ops <> [] /\ fresh 0 n (all_ids ops) /\ Forall wf_operation ops.

Lemma op_inv_one n o : fresh n (n + 1) (op_ids o) -> wf_operation o -> op_inv (n + 1) [o].
Proof.
  intros Hf Hw. split; [done|]. unfold all_ids. cbn [flat_map]. rewrite app_nil_r. split.
  - eapply fresh_mono; [| |done]; lia.
  - by constructor.
Qed.

Lemma wp_operations_of l n : wp n (operations_of now l) op_inv.
Proof.
  destruct l as [|v l].
  - cbn [operations_of]. apply wp_bind, wp_default. intros o Hf Hw _ _. apply wp_ret. by apply op_inv_one.
  - cbn [operations_of]. eapply wp_mono; [apply wp_operations|]. intros n' ops Hn (Hf & Hw & Hl).
    split; [intros ->; discriminate Hl|]. split; [|exact Hw]. eapply fresh_mono; [| |done]; lia.
Qed.

Lemma wp_parseInitialState text n : wp n (parseInitialState now text) (fun n' s => op_inv n' (es_operations s)).
Proof.
  assert (Hd : forall em vm lv jt je, wp n (let! d := createDefaultOperation now in ret (MkEditor em vm lv [d] jt je))
    (fun n' s => op_inv n' (es_operations s))).
  { intros. apply wp_bind, wp_default. intros o Hf Hw _ _. apply wp_ret. by apply op_inv_one. }
  unfold parseInitialState. case_match; [apply Hd|]. case_match; [apply Hd|].
  apply wp_bind, wp_lift. intros v _ _. cbv zeta. destruct v as [| | | | | |o|]; [apply Hd..| |apply Hd].
  destruct (oget _ o) as [| | | | |l| |]; [apply Hd..| |apply Hd|apply Hd].
  apply wp_bind. eapply wp_mono; [apply wp_operations_of|]. intros n' ops _ Hi _. by apply wp_ret.
Qed.

(** What a handler may do to the rules. *)
Lemma op_inv_extend n n' ops ops' new :
  op_inv n ops -> n <= n' -> fresh n n' new -> ops' <> [] -> all_ids ops' ⊆+ all_ids ops ++ new ->
  Forall wf_operation ops' -> op_inv n' ops'.
Proof.
  intros (_ & Hf & _) Hn Hnew Hne Hsub Hw. split; [done|]. split; [|done].
  eapply fresh_sub; [done|]. eapply fresh_app; [|done|done|done]. lia.
Qed.

Lemma op_inv_ids n ops : op_inv n ops -> NoDup (map op_id ops).
Proof.
  intros (_ & [Hn _] & _). eapply NoDup_sub; [|exact Hn]. clear.
  induction ops as [|o ops IH]; [done|]. cbn. apply submseteq_skip.
  etrans; [exact IH|]. apply submseteq_inserts_l. done.
Qed.

Lemma op_inv_mono n n' ops : op_inv n ops -> n <= n' -> op_inv n' ops.
Proof. intros (H1 & H2 & H3) ?. split; [done|]. split; [|done]. eapply fresh_mono; [| |done]; lia. Qed.

(** ** Changes to one rule *)

Lemma all_ids_sub (f : ParamOverrideOperation -> ParamOverrideOperation) ops :
  (forall o, op_ids (f o) ⊆+ op_ids o) -> all_ids (map f ops) ⊆+ all_ids ops.
Proof.
  intros Hf. induction ops as [|o ops IH]; [done|]. unfold all_ids. cbn [map flat_map]. by apply submseteq_app.
Qed.

Lemma all_ids_sublist ops ops' : ops' ⊆+ ops -> all_ids ops' ⊆+ all_ids ops.
Proof.
  intros [k Hk]%submseteq_Permutation. assert (E : all_ids ops ≡ₚ all_ids ops' ++ all_ids k).
  { unfold all_ids. rewrite <-flat_map_app. by apply Permutation_flat_map. }
  rewrite E. by apply submseteq_inserts_r.
Qed.

Lemma op_inv_map n f ops :
  (forall o, op_ids (f o) ⊆+ op_ids o) -> (forall o, wf_operation o -> wf_operation (f o)) ->
  op_inv n ops -> op_inv n (map f ops).
Proof.
  intros Hf Hw (Hne & Hfr & Hwf). split; [by destruct ops|]. split.
  - eapply fresh_sub; [|done]. by apply all_ids_sub.
  - rewrite Forall_fmap. by eapply Forall_impl.
Qed.

Lemma op_inv_on n id f ops :
  (forall o, op_ids (f o) ⊆+ op_ids o) -> (forall o, wf_operation o -> wf_operation (f o)) ->
  op_inv n ops -> op_inv n (on_operation id f ops).
Proof.
  intros Hf Hw. apply op_inv_map.
  - intros o. case_bool_decide; [apply Hf|done].
  - intros o. case_bool_decide; [apply Hw|done].
Qed.

Lemma op_inv_sub n ops ops' : ops' <> [] -> ops' ⊆+ ops -> op_inv n ops -> op_inv n ops'.
Proof.
  intros Hne Hs (_ & Hf & Hw). split; [done|]. split.
  - eapply fresh_sub; [|done]. by apply all_ids_sublist.
  - rewrite list.Forall_forall in Hw |- *. intros o Ho. apply Hw. by eapply elem_of_submseteq.
Qed.

Lemma filter_sublist {A} (f : A -> bool) l : List.filter f l ⊆+ l.
Proof.
  induction l as [|x l IH]; cbn [List.filter]; [done|].
  destruct (f x); [by apply submseteq_skip|by apply submseteq_cons].
Qed.

(** Rules are added at one place. *)
Lemma op_inv_add n n' ops new ops' :
  op_inv n ops -> n <= n' -> fresh n n' (all_ids new) -> Forall wf_operation new -> ops' ≡ₚ ops ++ new ->
  op_inv n' ops'.
Proof.
  intros Hi Hn Hf Hw E. eapply (op_inv_extend n n' ops ops' (all_ids new)); try done.
  - intros ->. apply Permutation_nil_l in E. symmetry in E. apply app_eq_nil in E as [-> _]. by destruct Hi.
  - unfold all_ids. rewrite E, flat_map_app. done.
  - rewrite E. apply Forall_app. by destruct Hi as (_ & _ & ?).
Qed.

(** ** Patches *)

Definition patch_ok (p : OperationPatch) : Prop :=
  match p with
  | POmode s => s ∈ OPERATION_MODE_VALUES
  | POlogic s => s ∈ [js "AND"; js "OR"]
  | _ => True
  end.

Definition rule_patch_ok (p : RulePatch) : Prop :=
  match p with RuleMode s => s ∈ CONDITION_MODE_VALUES | _ => True end.

Lemma patch_op_ids p o : op_ids (patch_operation p o) = op_ids o.
Proof. by destruct p, o. Qed.

Lemma patch_op_wf p o : patch_ok p -> wf_operation o -> wf_operation (patch_operation p o).
Proof. unfold wf_operation. destruct p, o; simpl; naive_solver. Qed.

Lemma patch_rule_id p c : co_id (patch_rule p c) = co_id c.
Proof. by destruct p, c. Qed.

Lemma patch_rule_wf p c : rule_patch_ok p -> wf_condition c -> wf_condition (patch_rule p c).
Proof. unfold wf_condition. by destruct p, c. Qed.

Lemma set_conditions_ids cs o : op_ids (set_conditions cs o) = op_id o :: map co_id cs.
Proof. by destruct o. Qed.

Lemma set_conditions_wf cs o : Forall wf_condition cs -> wf_operation o -> wf_operation (set_conditions cs o).
Proof. intros H (Hm & Hl & _). destruct o. exact (conj Hm (conj Hl H)). Qed.

Lemma wf_conditions o : wf_operation o -> Forall wf_condition (op_conditions o).
Proof. by intros (_ & _ & ?). Qed.

Lemma op_inv_patch n id p ops : patch_ok p -> op_inv n ops -> op_inv n (on_operation id (patch_operation p) ops).
Proof. intros Hp. apply op_inv_on; intros o; [by rewrite patch_op_ids|by apply patch_op_wf]. Qed.

Lemma op_inv_update_condition n id cid p ops :
  rule_patch_ok p -> op_inv n ops ->
  op_inv n (on_operation id (fun op =>
    set_conditions (map (fun c => if bool_decide (co_id c = cid) then patch_rule p c else c)
                      (op_conditions op)) op) ops).
Proof.
  intros Hp. apply op_inv_on; intros o.
  - rewrite set_conditions_ids. unfold op_ids. rewrite map_map.
    rewrite (map_ext _ co_id); [done|]. intros c. case_bool_decide; [apply patch_rule_id|done].
  - intros Hw. apply set_conditions_wf; [|done]. rewrite Forall_fmap.
    eapply Forall_impl; [by apply wf_conditions|]. intros c Hc. cbn. case_bool_decide; [by apply patch_rule_wf|done].
Qed.

Lemma op_inv_remove_condition n id cid ops :
  op_inv n ops ->
  op_inv n (on_operation id (fun op =>
    set_conditions (List.filter (fun c => negb (bool_decide (co_id c = cid))) (op_conditions op)) op) ops).
Proof.
  apply op_inv_on; intros o.
  - rewrite set_conditions_ids. unfold op_ids. apply submseteq_skip.
    apply fmap_submseteq, filter_sublist.
  - intros Hw. apply set_conditions_wf; [|done].
    pose proof (wf_conditions o Hw) as Hc. rewrite list.Forall_forall in Hc |- *. intros c Hin. apply Hc.
    eapply elem_of_submseteq; [done|]. apply filter_sublist.
Qed.

(** Identifiers of rules are distinct, so at most one rule is changed. *)
Lemma all_ids_add id c ops :
  NoDup (ids_of ops) ->
  all_ids (on_operation id (fun op => set_conditions (op_conditions op ++ [c]) op) ops) ⊆+ all_ids ops ++ [co_id c].
Proof.
  set (f := fun op => _). induction ops as [|o ops IH]; intros Hn; [apply submseteq_nil_l|].
  cbn [map] in Hn. apply NoDup_cons in Hn as [Ho Hn]. unfold on_operation, all_ids. cbn [map flat_map].
  case_bool_decide as E.
  - assert (E' : map (fun x => if bool_decide (op_id x = id) then f x else x) ops = ops).
    { rewrite <-(map_id ops) at 2. apply map_ext_in. intros x Hx. rewrite bool_decide_eq_false_2; [done|].
      intros Ex. apply Ho. apply list_elem_of_fmap. exists x. split; [congruence|by apply list_elem_of_In]. }
    rewrite E'. unfold f at 1. rewrite set_conditions_ids, map_app. unfold op_ids. cbn [map app].
    apply submseteq_skip. rewrite <-!app_assoc. apply submseteq_app; [done|].
    by rewrite (Permutation_app_comm [co_id c]).
  - rewrite <-app_assoc. apply submseteq_app; [done|]. by apply IH.
Qed.

Lemma op_inv_add_condition n n' id c ops :
  op_inv n ops -> n <= n' -> fresh n n' [co_id c] -> wf_condition c ->
  op_inv n' (on_operation id (fun op => set_conditions (op_conditions op ++ [c]) op) ops).
Proof.
  intros Hi Hn Hf Hc. eapply op_inv_extend; [exact Hi|exact Hn|exact Hf| | |].
  - destruct Hi as [Hne _]. by destruct ops.
  - apply all_ids_add. by eapply op_inv_ids.
  - destruct Hi as (_ & _ & Hw). unfold on_operation. rewrite Forall_fmap. eapply Forall_impl; [done|].
    intros o Ho. cbn. case_bool_decide; [|done]. apply set_conditions_wf; [|done].
    apply Forall_app. split; [by apply wf_conditions|by constructor].
Qed.
End reading.

(** ** Handlers *)

Section handlers.
Context (now : N -> N) (t : jstr -> option nat -> jstr) (engine_message : jserror -> jstr).
Notation op_inv := (op_inv now).
Notation fresh := (fresh now).

(** The text of a structured value may be anything: only the counter moves. *)
Lemma wp_any_mapM {A B} (f : A -> M B) l n :
  (forall n x, wp n (f x) (fun _ _ => True)) -> wp n (mapM f l) (fun _ _ => True).
Proof. intros H. eapply wp_mono; [apply (wp_mapM _ (fun _ _ _ => True)); intros; apply H|done]. Qed.

Lemma wp_rules_of_where n v : wp n (rules_of_where now v) (fun _ _ => True).
Proof. unfold rules_of_where. destruct v; try by apply wp_ret. apply wp_any_mapM. intros. apply wp_normalizePruneRule. Qed.

Lemma wp_rules_of_conditions n v : wp n (rules_of_conditions now v) (fun _ _ => True).
Proof.
  unfold rules_of_conditions. destruct v; try by apply wp_ret.
  all: apply wp_any_mapM; intros; apply wp_normalizePruneRule.
Qed.

Lemma wp_prune_object n o : wp n (prune_draft_of_object now o) (fun _ _ => True).
Proof.
  unfold prune_draft_of_object. apply wp_bind. eapply wp_mono; [apply wp_rules_of_where|]. intros n1 ws _ _ _.
  apply wp_bind. eapply wp_mono; [apply wp_rules_of_conditions|]. intros n2 cs _ _ _.
  apply wp_bind. apply (wp_mono _ _ (fun _ _ => True)); [|intros n3 ty _ _ _].
  - destruct (oget _ o); try (by apply wp_ret); by apply wp_lift.
  - apply wp_bind, wp_lift. intros lg _ _. by apply wp_ret.
Qed.

Lemma wp_parsePrune n text : wp n (parsePruneObjectsDraft now text) (fun _ _ => True).
Proof.
  unfold parsePruneObjectsDraft. destruct (negb _); [by apply wp_ret|]. apply wp_try; [|done].
  apply wp_bind, wp_lift. intros v _ _.
  destruct v; try (apply wp_bind, wp_lift; intros ? _ _); try by apply wp_ret. apply wp_prune_object.
Qed.

Lemma wp_patch_prune n e d : wp n (patch_prune now e d) (fun _ _ => True).
Proof.
  unfold patch_prune. destruct d, e; try by apply wp_ret.
  apply wp_bind. eapply wp_mono; [apply wp_normalizePruneRule|]. intros. by apply wp_ret.
Qed.

Lemma wp_edit_prune n e text : wp n (edit_prune now e text) (fun _ _ => True).
Proof.
  unfold edit_prune. apply wp_bind. eapply wp_mono; [apply wp_parsePrune|]. intros n1 d _ _ _.
  apply wp_bind. eapply wp_mono; [apply wp_patch_prune|]. intros n2 d' _ _ _. by apply wp_ret.
Qed.

(** A loop that leaves identifiers, modes and conditions alone. *)
Lemma wp_map_values (f : ParamOverrideOperation -> M ParamOverrideOperation) ops n :
  (forall n o, wp n (f o) (fun _ o' => exists v, o' = patch_operation (POvalue v) o)) ->
  wp n (mapM f ops) (fun _ ops' => all_ids ops' = all_ids ops /\ length ops' = length ops
                                   /\ (Forall wf_operation ops -> Forall wf_operation ops')).
Proof.
  intros Hf. revert n. induction ops as [|o ops IH]; intros n; cbn [mapM].
  - apply wp_ret. done.
  - apply wp_bind. eapply wp_mono; [apply Hf|]. intros n1 o' _ [v ->] _.
    apply wp_bind. eapply wp_mono; [apply IH|]. intros n2 ops' _ (E & El & Ew) _. apply wp_ret.
    unfold all_ids in *. cbn [flat_map length]. rewrite patch_op_ids, E, El.
    refine (conj eq_refl (conj eq_refl _)). intros Hw. apply Forall_cons in Hw as [Ho Hw].
    constructor; [by apply patch_op_wf|by apply Ew].
Qed.

Lemma patch_same_value o : patch_operation (POvalue (op_value_text o)) o = o.
Proof. by destruct o. Qed.

Lemma ops_set_operations ops d : dl_operations (set_operations ops d) = ops.
Proof. by destruct d as [[] ui]. Qed.
Lemma ops_on_operations f d : dl_operations (on_operations f d) = f (dl_operations d).
Proof. apply ops_set_operations. Qed.
Lemma ops_set_ui u d : dl_operations (set_ui u d) = dl_operations d.
Proof. done. Qed.
Lemma ops_set_json em jt je d : dl_operations (set_json em jt je d) = dl_operations d.
Proof. by destruct d as [[] ui]. Qed.
Lemma ops_set_selected id d : dl_operations (set_selected id d) = dl_operations d.
Proof. by destruct d as [c []]. Qed.
Lemma ops_set_expanded f d : dl_operations (set_expanded f d) = dl_operations d.
Proof. by destruct d as [c []]. Qed.
Lemma ops_set_dragged id d : dl_operations (set_dragged id d) = dl_operations d.
Proof. by destruct d as [c []]. Qed.
Lemma ops_set_dragOver id p d : dl_operations (set_dragOver id p d) = dl_operations d.
Proof. by destruct d as [c []]. Qed.
Lemma ops_set_templatePresetKey k d : dl_operations (set_templatePresetKey k d) = dl_operations d.
Proof. by destruct d as [c []]. Qed.
Lemma ops_set_content c d : dl_operations (set_content c d) = es_operations c.
Proof. done. Qed.
Lemma ops_set_legacyValue s d : dl_operations (set_legacyValue s d) = dl_operations d.
Proof. by destruct d as [[] ui]. Qed.
Lemma ops_set_operationSearch s d : dl_operations (set_operationSearch s d) = dl_operations d.
Proof. by destruct d as [c []]. Qed.

Lemma wp_updatePrune n id e d :
  op_inv n (dl_operations d) ->
  wp n (updatePruneObjectsDraft now id e d) (fun n' d' => op_inv n' (dl_operations d')).
Proof.
  intros Hi. unfold updatePruneObjectsDraft. apply wp_bind. eapply wp_mono; [apply wp_map_values|].
  - intros m o. cbv beta. destruct (bool_decide _).
    + apply wp_bind. eapply wp_mono; [apply wp_edit_prune|]. intros m' text _ _ _. apply wp_ret. by exists text.
    + apply wp_ret. exists (op_value_text o). by rewrite patch_same_value.
  - intros n' ops Hn (E & El & Ew) _. apply wp_ret. rewrite ops_set_operations. destruct Hi as (Hne & Hf & Hw).
    split; [|split; [rewrite E; eapply fresh_mono; [| |done]; lia|by apply Ew]].
    intros ->. by apply Hne, length_zero_iff_nil.
Qed.

End handlers.

#[export] Hint Rewrite ops_set_operations ops_on_operations ops_set_ui ops_set_json ops_set_selected
  ops_set_expanded ops_set_dragged ops_set_dragOver ops_set_templatePresetKey ops_set_content
  ops_set_legacyValue ops_set_operationSearch : dialog_ops.

(** ** The machine *)

Lemma assoc_elem {A} k (l : list (jstr * A)) v : assoc k l = Some v -> v ∈ map snd l.
Proof.
  unfold assoc. intros ([k' v'] & E & ->)%fmap_Some. apply List.find_some in E as [E _].
  apply list_elem_of_fmap. exists (k', v'). split; [done|by apply list_elem_of_In].
Qed.

Lemma presets_have_rules p :
  p ∈ map snd TEMPLATE_PRESET_CONFIG -> tp_kind p = TKoperations -> template_operations (tp_payload p) <> [].
Proof.
  unfold TEMPLATE_PRESET_CONFIG. cbn [map snd]. rewrite !elem_of_cons.
  intros [->|[->|[->|[->|[->|[->|[->|[]%not_elem_of_nil]]]]]]]; intros Hk.
  all: first [discriminate Hk | vm_compute; discriminate].
Qed.

Section machine.
Context (now : N -> N) (t : jstr -> option nat -> jstr) (engine_message : jserror -> jstr).
Notation op_inv := (op_inv now).
Notation step := (step now t engine_message).

(** The selectors of the component offer the listed modes and logics only. *)
Definition event_ok (e : Event) : Prop :=
  match e with
  | UpdateOperation _ p => patch_ok p
  | UpdateCondition _ _ p => rule_patch_ok p
  | _ => True
  end.

Definition keeps (n : N) (c : M (Dialog * list Output)) : Prop :=
  wp n c (fun n' r => op_inv n' (dl_operations r.1)).

Lemma keeps_ret n d out : op_inv n (dl_operations d) -> keeps n (ret (d, out)).
Proof. intros H. by apply wp_ret. Qed.

Lemma keeps_default n (f : ParamOverrideOperation -> Dialog * list Output) :
  (forall o, dl_operations (f o).1 = [o]) ->
  keeps n (let! d := createDefaultOperation now in ret (f d)).
Proof.
  intros Hf. apply wp_bind, wp_default. intros o Ho Hw _ _. apply wp_ret. rewrite Hf. by apply op_inv_one.
Qed.

Lemma keeps_quiet n (c : M Dialog) :
  wp n c (fun n' d => op_inv n' (dl_operations d)) -> keeps n (quiet c).
Proof. intros H. apply wp_bind. eapply wp_mono; [exact H|]. intros n' d _ Hd _. by apply wp_ret. Qed.

Section one_event.
Context (n : N) (d : Dialog) (Hi : op_inv n (dl_operations d)).

Lemma keeps_open value : keeps n (quiet (openDialog now value d)).
Proof.
  apply keeps_quiet, wp_bind. eapply wp_mono; [apply wp_parseInitialState|].
  intros n' s _ Hs _. by apply wp_ret.
Qed.

Lemma keeps_add : keeps n (quiet (addOperation now d)).
Proof.
  apply keeps_quiet, wp_bind, wp_default. intros o Ho Hw _ Hn. apply wp_ret. autorewrite with dialog_ops.
  eapply op_inv_add; [exact Hi|exact Hn| |by constructor|done]. unfold all_ids. cbn [flat_map]. by rewrite app_nil_r.
Qed.

Lemma keeps_duplicate id eager : keeps n (quiet (duplicateOperation now id eager d)).
Proof.
  apply keeps_quiet. unfold duplicateOperation. destruct (list_find _ _) as [[i src]|]; [|by apply wp_ret].
  apply wp_bind. eapply wp_mono; [apply wp_normalizeOperation|]. intros n' o Hn [Ho Hw] _. apply wp_ret.
  assert (E : forall x, dl_operations (if eager && x then set_selected (op_id o) (set_operations (splice_in (S i) o (dl_operations d)) d)
    else set_operations (splice_in (S i) o (dl_operations d)) d) = splice_in (S i) o (dl_operations d)).
  { intros x. destruct (eager && x); by autorewrite with dialog_ops. }
  rewrite E. eapply (op_inv_add _ _ _ _ [o]); [exact Hi|exact Hn| |by constructor|].
  - unfold all_ids. cbn [flat_map]. by rewrite app_nil_r.
  - unfold splice_in. rewrite <-Permutation_middle, take_drop. by rewrite Permutation_cons_append.
Qed.

Lemma remove_not_empty id ops :
  NoDup (ids_of ops) -> (length ops <=? 1)%nat = false -> others id ops <> [].
Proof.
  destruct ops as [|a [|b l]]; [done..|]. intros Hn _. cbn [map] in Hn. apply NoDup_cons in Hn as [Ha _].
  unfold others. cbn [List.filter]. case_bool_decide as E1; cbn [negb]; [|done].
  rewrite bool_decide_eq_false_2; [done|]. intros E2. apply Ha. rewrite E1, <-E2. by left.
Qed.

Lemma keeps_remove id : keeps n (quiet (removeOperation now id d)).
Proof.
  apply keeps_quiet. unfold removeOperation. destruct (_ <=? 1)%nat eqn:E.
  - apply wp_bind, wp_default. intros o Ho Hw _ _. apply wp_ret. autorewrite with dialog_ops. by apply op_inv_one.
  - apply wp_ret. autorewrite with dialog_ops. eapply op_inv_sub; [|apply filter_sublist|exact Hi].
    apply remove_not_empty; [by eapply op_inv_ids|done].
Qed.

Lemma keeps_add_condition id : keeps n (quiet (addCondition now id d)).
Proof.
  apply keeps_quiet, wp_bind. eapply wp_mono; [apply wp_normalizeCondition|]. intros n' c Hn [Hc Hw] _.
  apply wp_ret. autorewrite with dialog_ops. by eapply op_inv_add_condition.
Qed.

Lemma keeps_format id : op_inv n (dl_operations (formatValue id d)).
Proof.
  unfold formatValue, updateOperation. destruct (list_find _ _) as [[i o]|]; [|done].
  destruct (json_parse _); [|done]. autorewrite with dialog_ops. by apply op_inv_patch.
Qed.

Lemma keeps_return_error id p : op_inv n (dl_operations (updateReturnErrorDraft id p d)).
Proof.
  unfold updateReturnErrorDraft. autorewrite with dialog_ops.
  apply op_inv_on; [intros o; by rewrite patch_op_ids|intros o; by apply patch_op_wf|done].
Qed.

Lemma op_inv_reorder s tg pos : op_inv n (reorderOperations (dl_operations d) s tg pos).
Proof.
  eapply op_inv_sub; [|by rewrite (reorder_Permutation (dl_operations d) s tg pos)|exact Hi].
  intros E. pose proof (reorder_Permutation (dl_operations d) s tg pos) as P. rewrite E in P.
  apply Permutation_nil_l in P. destruct Hi as [Hne _]. by apply Hne.
Qed.

Lemma keeps_drop id text : op_inv n (dl_operations (handleDrop id text d)).
Proof.
  unfold handleDrop, resetDragState. autorewrite with dialog_ops. destruct (_ && _ && _); [|done].
  autorewrite with dialog_ops. apply op_inv_reorder.
Qed.

Lemma keeps_drag_over id pos : op_inv n (dl_operations (handleDragOver id pos d)).
Proof. unfold handleDragOver. destruct (_ || _); by autorewrite with dialog_ops. Qed.

Lemma keeps_to_json : op_inv n (dl_operations (switchToJsonMode t engine_message d).1).
Proof.
  unfold switchToJsonMode. destruct (es_editMode _); [|done].
  destruct (buildVisualJson t d); cbn [fst]; by rewrite ops_set_json.
Qed.

Lemma keeps_to_visual : keeps n (switchToVisualMode now t d).
Proof.
  unfold switchToVisualMode. destruct (es_editMode _); [by apply keeps_ret|].
  cbv zeta. destruct (negb _).
  { apply keeps_default. intros o. cbn [fst]. by rewrite ops_set_selected. }
  destruct (json_parse _) as [v|]; [|by apply keeps_ret].
  destruct v as [| | | | | |o|]; try by apply keeps_ret.
  assert (Hd : forall text, keeps n (let! fallback := createDefaultOperation now in
    ret (set_templatePresetKey (js "legacy_default") (set_selected (op_id fallback)
      (set_content (MkEditor EMvisual VMlegacy text [fallback] (es_jsonText (dl_content d)) []) d)), []))).
  { intros text. apply keeps_default. intros o'. cbn [fst]. by rewrite ops_set_templatePresetKey, ops_set_selected. }
  destruct (oget _ o) as [| | | | |l| |]; [apply Hd..| |apply Hd|apply Hd].
  apply wp_bind. eapply wp_mono; [apply wp_operations_of|]. intros n' ops _ Ho _. apply wp_ret.
  cbn [fst]. by rewrite ops_set_templatePresetKey, ops_set_selected.
Qed.

Lemma keeps_fill_legacy payload mode : keeps n (fillLegacy now t payload mode d).
Proof.
  unfold fillLegacy.
  assert (Hf : forall text, keeps n (let! fallback := createDefaultOperation now in
    ret (set_content (MkEditor EMvisual VMlegacy text [fallback] text []) d, []))).
  { intros text. by apply keeps_default. }
  destruct mode; [apply Hf|]. destruct (es_visualMode _); [apply Hf|].
  destruct (if str_truthy _ then _ else _); [apply Hf|by apply keeps_ret].
Qed.

Lemma keeps_fill_operations payload mode :
  template_operations payload <> [] ->
  wp n (fillOperations now payload mode d) (fun n' d' => op_inv n' (dl_operations d')).
Proof.
  intros Hp. unfold fillOperations. destruct mode; apply wp_bind.
  - eapply wp_mono; [apply wp_operations_of|]. intros n' ops _ Ho _. apply wp_ret.
    by rewrite ops_set_selected.
  - eapply wp_mono; [apply wp_operations|]. intros n' new Hn (Hf & Hw & Hl) _. apply wp_ret.
    rewrite ops_set_selected, ops_set_content. cbn [es_operations].
    set (existing := match es_visualMode (dl_content d) with VMoperations => _ | VMlegacy => [] end).
    assert (Hs : existing ⊆+ dl_operations d).
    { unfold existing. destruct (es_visualMode _); [apply filter_sublist|apply submseteq_nil_l]. }
    assert (Hne : existing ++ new <> []).
    { intros [_ E]%app_eq_nil. apply Hp, length_zero_iff_nil. by rewrite <-Hl, E. }
    destruct (existing ++ new) as [|x l] eqn:E; [done|]. rewrite <-E.
    eapply (op_inv_extend now n n' (dl_operations d) _ (all_ids new)); [exact Hi|exact Hn|exact Hf|by rewrite E| |].
    + unfold all_ids. rewrite flat_map_app. apply submseteq_app; [|done]. by apply all_ids_sublist.
    + apply Forall_app. split; [|done]. destruct Hi as (_ & _ & Ho). rewrite list.Forall_forall in Ho |- *.
      intros o Hin. apply Ho. by eapply elem_of_submseteq.
Qed.

Lemma keeps_fill mode : keeps n (fillTemplate now t mode d).
Proof.
  unfold fillTemplate. cbv zeta. set (preset := default _ _).
  assert (Hp : preset ∈ map snd TEMPLATE_PRESET_CONFIG).
  { unfold preset. destruct (assoc _ _) as [p|] eqn:E; [by eapply assoc_elem|by left]. }
  destruct (tp_kind preset) eqn:Hk; [|apply keeps_fill_legacy].
  apply keeps_quiet, keeps_fill_operations. by apply presets_have_rules.
Qed.
End one_event.

Lemma handle_keeps e n d : event_ok e -> op_inv n (dl_operations d) -> keeps n (handle now t engine_message e d).
Proof.
  intros He Hi. destruct e; cbn [handle]; try by (apply keeps_ret; autorewrite with dialog_ops).
  - by apply keeps_open.
  - apply wp_bind. unfold pruneObjectsDraft. apply (wp_mono _ _ (fun _ _ => True)).
    + destruct (selectedOperation d); [|by apply wp_ret]. destruct (bool_decide _); [|by apply wp_ret].
      apply wp_bind. eapply wp_mono; [apply wp_parsePrune|]. intros. by apply wp_ret.
    + intros n' o Hn _ _. apply wp_ret. cbn [fst]. by eapply op_inv_mono.
  - apply keeps_ret. unfold updateOperation. autorewrite with dialog_ops. by apply op_inv_patch.
  - by apply keeps_ret, keeps_format.
  - by apply keeps_add.
  - by apply keeps_duplicate.
  - by apply keeps_remove.
  - by apply keeps_add_condition.
  - apply keeps_ret. unfold updateCondition. autorewrite with dialog_ops. by apply op_inv_update_condition.
  - apply keeps_ret. unfold removeCondition. autorewrite with dialog_ops. by apply op_inv_remove_condition.
  - by apply keeps_ret, keeps_return_error.
  - by apply keeps_quiet, wp_updatePrune.
  - apply keeps_ret. unfold resetDragState. by autorewrite with dialog_ops.
  - apply keeps_ret. unfold handleDragStart. by autorewrite with dialog_ops.
  - by apply keeps_ret, keeps_drag_over.
  - by apply keeps_ret, keeps_drop.
  - rewrite (surjective_pairing (switchToJsonMode t engine_message d)). by apply keeps_ret, keeps_to_json.
  - by apply keeps_to_visual.
  - by apply keeps_fill.
  - apply keeps_quiet, wp_bind, wp_default. intros o Ho Hw _ _. apply wp_ret.
    autorewrite with dialog_ops. by apply op_inv_one.
  - apply keeps_ret. unfold handleJsonChange. by rewrite ops_set_json.
  - rewrite (surjective_pairing (formatJson t d)). apply keeps_ret. unfold formatJson.
    destruct (negb _); [done|]. destruct (json_parse _) as [v|]; [|done].
    change (op_inv n (dl_operations (set_json (es_editMode (dl_content d)) (stringify2 v) [] d))).
    by rewrite ops_set_json.
  - apply keeps_ret. unfold setAllConditions. destruct (selectedOperation d); [|done]. by rewrite ops_set_expanded.
Qed.

(** The selection is one of the rules. *)
Definition selection_ok (d : Dialog) : Prop := dl_selected d ∈ ids_of (dl_operations d).

Lemma keepSelection_ops d : dl_operations (keepSelection d) = dl_operations d.
Proof.
  unfold keepSelection. destruct (dl_operations d) as [|o l] eqn:E; [by rewrite ops_set_selected|].
  destruct (existsb _ _); [done|by rewrite ops_set_selected].
Qed.

Lemma selected_set id d : dl_selected (set_selected id d) = id.
Proof. by destruct d as [c []]. Qed.

Lemma keepSelection_ok d : dl_operations d <> [] -> selection_ok (keepSelection d).
Proof.
  intros Hne. unfold selection_ok. rewrite keepSelection_ops. unfold keepSelection.
  destruct (dl_operations d) as [|o l] eqn:E; [done|]. destruct (existsb _ _) eqn:Ex.
  - apply existsb_exists in Ex as (x & Hx & Hid%bool_decide_eq_true).
    apply list_elem_of_fmap. exists x. split; [done|by apply list_elem_of_In].
  - rewrite selected_set. by left.
Qed.

(** What holds of a state of the machine. *)
Definition dialog_ok (s : Dialog * N) : Prop := op_inv s.2 (dl_operations s.1) /\ selection_ok s.1.

Lemma start_ok n : dialog_ok (start now n).
Proof.
  unfold start. destruct (default_operation now n) as (o & E & Ho & Hw). unfold initial, bind, ret. rewrite E.
  assert (Hi : op_inv (n + 1) [o]) by (apply op_inv_one; [rewrite Ho; apply fresh_one|done]).
  split; cbn [fst snd]; [by rewrite keepSelection_ops|by apply keepSelection_ok].
Qed.

Lemma step_ok e s : event_ok e -> dialog_ok s -> dialog_ok (step e s).1.
Proof.
  intros He [Hi Hs]. pose proof (handle_keeps e s.2 s.1 He Hi) as H. unfold keeps, wp in H.
  unfold ParamDialog.step. destruct (handle _ _ _ _ _ _) as [[[d out]|err] n'].
  - destruct H as [_ H]. cbn [fst snd] in *. split; cbn [fst snd]; [by rewrite keepSelection_ops|].
    apply keepSelection_ok. by destruct H.
  - split; cbn [fst snd]; [by eapply op_inv_mono|done].
Qed.

(** The states reached by events of the component. *)
Inductive reached : Dialog * N -> Prop :=
  | reached_start n : reached (start now n)
  | reached_step e s : event_ok e -> reached s -> reached (step e s).1.

(** C28.  Whatever the user does, an opened dialog has a rule, the selected rule
    is one of the rules, no two rules or conditions have the same identifier
    and none has one that a later rule could get, and every mode and logic is
    a listed one. *)
Theorem dialog_invariant s :
  reached s ->
  let ops := dl_operations s.1 in
  ops <> [] /\ dl_selected s.1 ∈ ids_of ops /\ NoDup (all_ids ops) /\ Forall (made now 0 s.2) (all_ids ops)
  /\ Forall wf_operation ops.
Proof.
  intros H. assert (Hok : dialog_ok s) by (induction H; [apply start_ok|by apply step_ok]).
  destruct Hok as [(Hne & [Hn Hm] & Hw) Hs]. cbv zeta.
  refine (conj Hne (conj Hs (conj Hn (conj Hm Hw)))).
Qed.
End machine.

(** A session: a stored text is opened, its rule duplicated, the copy moved to
    the front and removed. *)
Definition sample_clock (n : N) : N := 1700000000000 + n / 2.
Definition sample_t (key : jstr) (line : option nat) : jstr := 58 :: key.
Definition sample_engine (e : jserror) : jstr := js "Cannot read properties of null".

Definition session : Dialog * N :=
  fold_left (fun s e => (step sample_clock sample_t sample_engine e s).1)
    [Open (jsq "{`operations`:[{`mode`:`set`,`path`:`temperature`,`value`:0.7,`conditions`:[{`path`:`model`,`mode`:`prefix`,`value`:`openai/`}]}]}");
     DuplicateOperation (local_id sample_clock 1) true; DragStart (local_id sample_clock 3);
     DragOver (local_id sample_clock 1) Before; Drop (local_id sample_clock 1) [];
     AddCondition (local_id sample_clock 3); RemoveOperation (local_id sample_clock 1)]
    (start sample_clock 0).

Lemma dialog_invariant_witness :
  let ops := dl_operations session.1 in
  ops <> [] /\ dl_selected session.1 ∈ map op_id ops /\ NoDup (all_ids ops)
  /\ Forall (made sample_clock 0 session.2) (all_ids ops) /\ Forall wf_operation ops.
Proof.
  apply (dialog_invariant sample_clock sample_t sample_engine session).
  unfold session. cbn [fold_left]. do 7 (apply reached_step; [exact I|]). apply reached_start.
Defined.
