(* ===== verification/ParamCheck.v ===== *)
(** * Parameter overrides: what the check of the rules accepts *)
From S2P Require Import Prelude JsString JsNumber JsValue JsJson ParamModes ParamOverride.
Open Scope N_scope.

(** A rule that can be saved: the fields that its mode needs are filled, a
    structured error has a message, and header names are given. *)
Record rule_valid (op : ParamOverrideOperation) : Prop := {
  rv_path : m_path (meta_of (str_or (op_mode op) (js "set"))) = true -> trim (op_path op) <> [];
  rv_from : str_or (op_mode op) (js "set") ∈ FROM_REQUIRED_MODES ->
            trim (op_from op) <> []
            \/ m_pathAlias (meta_of (str_or (op_mode op) (js "set"))) = true /\ trim (op_path op) <> [];
  rv_to : str_or (op_mode op) (js "set") ∈ TO_REQUIRED_MODES ->
          trim (op_to op) <> []
          \/ m_pathAlias (meta_of (str_or (op_mode op) (js "set"))) = true /\ trim (op_path op) <> [];
  rv_value : str_or (op_mode op) (js "set") ∈ VALUE_REQUIRED_MODES -> trim (op_value_text op) <> [];
  rv_error : str_or (op_mode op) (js "set") = js "return_error" -> message_missing (trim (op_value_text op)) = false;
  rv_headers : str_or (op_mode op) (js "set") = js "pass_headers" ->
               exists h hs, parsePassHeaderNames (parseLooseValue (trim (op_value_text op))) = Ok (h :: hs) }.

Lemma truthy_iff s : str_truthy s = true <-> s <> [].
Proof. by destruct s. Qed.

Lemma truthy_nil s : str_truthy s = false <-> s = [].
Proof. by destruct s. Qed.

(** A required field, with its alias. *)
Lemma missing_field (P : Prop) `{Decision P} own (alias : bool) path :
  bool_decide P && negb (str_truthy own) && negb (alias && str_truthy path) = false
  <-> (P -> own <> [] \/ alias = true /\ path <> []).
Proof.
  rewrite <-(truthy_iff own), <-(truthy_iff path).
  case_bool_decide; destruct (str_truthy own), alias, (str_truthy path); cbn; naive_solver.
Qed.

Lemma missing_value (P : Prop) `{Decision P} raw :
  bool_decide P && negb (str_truthy raw) = false <-> (P -> raw <> []).
Proof. rewrite <-(truthy_iff raw). case_bool_decide; destruct (str_truthy raw); cbn; naive_solver. Qed.

Lemma special_modes :
  js "return_error" ∈ VALUE_REQUIRED_MODES /\ js "prune_objects" ∈ VALUE_REQUIRED_MODES
  /\ js "pass_headers" ∈ VALUE_REQUIRED_MODES /\ js "return_error" <> js "pass_headers".
Proof. refine (conj _ (conj _ (conj _ _))); decide_now. Qed.

Section check.
Context (t : jstr -> option nat -> jstr).

Lemma check_ok i op : check_operation t i op = Ok None <-> rule_valid op.
Proof.
  destruct special_modes as (Hre & Hpr & Hph & Hne).
  unfold check_operation. cbv zeta. set (mode := str_or (op_mode op) (js "set")).
  destruct (m_path (meta_of mode) && negb (str_truthy (trim (op_path op)))) eqn:E1.
  { split; [discriminate|]. intros [H _ _ _ _ _]. apply andb_true_iff in E1 as [Hm Hp%negb_true_iff%truthy_nil].
    by destruct (H Hm). }
  destruct (bool_decide (mode ∈ FROM_REQUIRED_MODES) && _ && _) eqn:E2.
  { split; [discriminate|]. intros [_ H _ _ _ _]. pose proof (proj2 (missing_field (mode ∈ FROM_REQUIRED_MODES) _ _ _) H) as H'. unfold mode in *. congruence. }
  destruct (bool_decide (mode ∈ TO_REQUIRED_MODES) && _ && _) eqn:E3.
  { split; [discriminate|]. intros [_ _ H _ _ _]. pose proof (proj2 (missing_field (mode ∈ TO_REQUIRED_MODES) _ _ _) H) as H'. unfold mode in *. congruence. }
  destruct (bool_decide (mode ∈ VALUE_REQUIRED_MODES) && _) eqn:E4.
  { split; [discriminate|]. intros [_ _ _ H _ _]. pose proof (proj2 (missing_value (mode ∈ VALUE_REQUIRED_MODES) _) H) as H'. unfold mode in *. congruence. }
  pose proof (proj1 (missing_field (mode ∈ FROM_REQUIRED_MODES) _ _ _) E2) as FE2.
  pose proof (proj1 (missing_field (mode ∈ TO_REQUIRED_MODES) _ _ _) E3) as FE3.
  pose proof (proj1 (missing_value (mode ∈ VALUE_REQUIRED_MODES) _) E4) as FE4.
  assert (E1' : m_path (meta_of mode) = true -> trim (op_path op) <> []).
  { intros Hm. apply truthy_iff. rewrite Hm in E1. by destruct (str_truthy _). }
  assert (Hv : forall m, m ∈ VALUE_REQUIRED_MODES -> bool_decide (mode = m) && negb (str_truthy (trim (op_value_text op))) = false).
  { intros m Hm. apply (proj2 (missing_value (mode = m) _)). intros E. apply FE4. by rewrite E. }
  rewrite (Hv _ Hre), (Hv _ Hpr).
  destruct (bool_decide (mode = js "return_error") && _) eqn:E5.
  { split; [discriminate|]. intros [_ _ _ _ H _]. apply andb_true_iff in E5 as [Em%bool_decide_eq_true E5].
    unfold mode in *. rewrite (H Em) in E5. discriminate. }
  assert (E5' : mode = js "return_error" -> message_missing (trim (op_value_text op)) = false).
  { intros Em. rewrite (bool_decide_eq_true_2 _ Em) in E5. exact E5. }
  clear E2 E3 E4 E5. case_bool_decide as E6.
  - pose proof (Hv _ Hph) as Hr. rewrite (bool_decide_eq_true_2 _ E6) in Hr. cbn [andb] in Hr. rewrite Hr.
    split.
    + destruct (parsePassHeaderNames _) as [[|h hs]|] eqn:E7; cbn [res_bind]; intros H; try discriminate H.
      constructor; try done. intros _. by exists h, hs.
    + intros [_ _ _ _ _ H]. destruct (H E6) as (h & hs & ->). done.
  - split; [|done]. intros _. by constructor.
Qed.

(** The loop returns the message of the first rule that has one. *)
Lemma validate_app i ops1 ops2 :
  Forall rule_valid ops1 -> validate_from t i (ops1 ++ ops2) = validate_from t (i + length ops1) ops2.
Proof.
  intros H. revert i. induction H as [|op ops Hop _ IH]; intros i; cbn [app length validate_from].
  - by rewrite Nat.add_0_r.
  - apply (check_ok i) in Hop. rewrite Hop. cbn [res_bind]. rewrite IH. f_equal. lia.
Qed.

Context (t_nonempty : forall key line, t key line <> []).

(** A turn that returns, returns a translation. *)
Lemma check_message i op m : check_operation t i op = Ok (Some m) -> m <> [].
Proof.
  unfold check_operation. cbv zeta.
  repeat match goal with
  | |- (if ?b then _ else _) = _ -> _ => destruct b; [try (intros [= <-]; apply t_nonempty)|]
  end; [|discriminate].
  destruct (parsePassHeaderNames _) as [[|h hs]|]; cbn [res_bind]; intros H; try discriminate H.
  injection H as <-. apply t_nonempty.
Qed.

Lemma validate_ok ops : validateOperations t ops = Ok [] <-> Forall rule_valid ops.
Proof.
  unfold validateOperations. split.
  - generalize 0%nat as i. induction ops as [|op ops IH]; intros i; cbn [validate_from]; [constructor|].
    destruct (check_operation t i op) as [[m|]|] eqn:E; cbn [res_bind]; intros H; [| |discriminate].
    + injection H as ->. by apply check_message in E.
    + constructor; [by apply check_ok in E|by eapply IH].
  - intros H. rewrite <-(app_nil_r ops), validate_app by done. done.
Qed.

Definition kept (ops : list ParamOverrideOperation) : list ParamOverrideOperation :=
  List.filter (fun o => negb (isOperationBlank o)) ops.

(** What a list of rules is saved as. *)
Definition saved_text (ops : list ParamOverrideOperation) : jstr :=
  match kept ops with [] => [] | _ => operations_text (kept ops) end.

Lemma rules_written ops : Forall rule_valid (kept ops) -> buildOperationsJson t ops true = inr (saved_text ops).
Proof.
  intros Hv. unfold buildOperationsJson, saved_text. fold (kept ops).
  destruct (kept ops) as [|op l] eqn:E; [done|]. rewrite <-E in *. apply validate_ok in Hv. rewrite Hv. cbn [of_res sum_bind str_truthy].
  by rewrite E.
Qed.

(** The error of a rule that is not valid: the message of its check, or the
    exception of reading its value. *)
Definition rule_error (i : nat) (op : ParamOverrideOperation) (error : thrown) : Prop :=
  match check_operation t i op with
  | Ok (Some message) => error = UserError message /\ message <> []
  | Ok None => False
  | Throw e => error = EngineError e
  end.

(** The first rule that is not valid decides. *)
Lemma first_invalid ops i :
  ~ Forall rule_valid ops ->
  exists before op after error, ops = before ++ op :: after /\ Forall rule_valid before /\ ~ rule_valid op
    /\ rule_error (i + length before) op error
    /\ sum_bind (of_res (validate_from t i ops)) (fun m => if str_truthy m then inl (UserError m) else inr (operations_text ops)) = inl error.
Proof.
  assert (Hgen : forall (k : jstr -> thrown + jstr) ops i, (forall m, m <> [] -> k m = inl (UserError m)) -> ~ Forall rule_valid ops ->
    exists before op after error, ops = before ++ op :: after /\ Forall rule_valid before /\ ~ rule_valid op
      /\ rule_error (i + length before) op error /\ sum_bind (of_res (validate_from t i ops)) k = inl error).
  { intros k ops'. induction ops' as [|op l IH]; intros j Hk Hn; [by destruct Hn|]. cbn [validate_from].
    destruct (check_operation t j op) as [[m|]|e] eqn:E; cbn [res_bind of_res sum_bind].
    - exists [], op, l, (UserError m). rewrite Nat.add_0_r. unfold rule_error. rewrite E. pose proof (check_message _ _ _ E) as Hm.
      split; [done|]. split; [constructor|]. split; [|split; [done|by apply Hk]].
      intros Hv. apply (check_ok j) in Hv. congruence.
    - apply check_ok in E as Hv. destruct (IH (S j) Hk) as (before & o & after & error & -> & H1 & H2 & H3 & H4).
      { intros Hl. apply Hn. by constructor. }
      exists (op :: before), o, after, error. split; [done|]. split; [by constructor|]. split; [done|]. split; [|done].
      cbn [length]. by rewrite Nat.add_succ_r, <-Nat.add_succ_l.
    - exists [], op, l, (EngineError e). rewrite Nat.add_0_r. unfold rule_error. rewrite E.
      split; [done|]. split; [constructor|]. split; [|done]. intros Hv. apply (check_ok j) in Hv. congruence. }
  apply Hgen. by intros [|x m] Hm.
Qed.

(** C29.  The rules are written exactly when every rule that is not blank has
    the fields that its mode needs, and then what is written are these rules,
    without the blank ones, and the empty text for none.  Otherwise nothing is
    written: an error is thrown, the message of the first rule that lacks a
    field (or the exception that reading its value throws); without the check
    the rules are always written. *)
Theorem rules_written_iff ops :
  match buildOperationsJson t ops true with
  | inr text => Forall rule_valid (kept ops) /\ text = saved_text ops
  | inl error =>
      exists before op after, kept ops = before ++ op :: after /\ Forall rule_valid before /\ ~ rule_valid op
        /\ rule_error (length before) op error
  end
  /\ buildOperationsJson t ops false = inr (saved_text ops).
Proof.
  split; [|unfold buildOperationsJson, saved_text; fold (kept ops); by destruct (kept ops)].
  destruct (validateOperations t (kept ops)) as [[|x m]|e] eqn:E.
  1: { apply validate_ok in E. by rewrite rules_written. }
  all: assert (Hn : ~ Forall rule_valid (kept ops)) by (intros Hv%validate_ok; congruence).
  all: destruct (first_invalid (kept ops) 0 Hn) as (before & op & after & error & H1 & H2 & H3 & H4 & H5).
  all: unfold buildOperationsJson; fold (kept ops); destruct (kept ops) as [|o l] eqn:Ek; [by destruct before|];
    fold (validateOperations t (o :: l)) in H5; rewrite H5; by exists before, op, after.
Qed.
End check.

Definition sample_translation (key : jstr) (line : option nat) : jstr :=
  match line with Some n => show_nat n ++ 32 :: key | None => 32 :: key end.

Lemma sample_nonempty key line : sample_translation key line <> [].
Proof. destruct line; [|done]. unfold sample_translation. by intros [_ ?]%app_eq_nil. Qed.

(** A rule that is written, and one that lacks the text to trim. *)
Lemma rules_written_iff_witness :
  let rule value := MkOperation (js "a") [] (js "model") (js "trim_prefix") [] [] value false (js "OR") [] in
  (exists text, buildOperationsJson sample_translation [rule (js "openai/")] true = inr text /\ text = saved_text [rule (js "openai/")])
  /\ exists error, buildOperationsJson sample_translation [rule []] true = inl error
       /\ exists before op after, kept [rule []] = before ++ op :: after /\ ~ rule_valid op.
Proof.
  intros rule. split.
  - destruct (rules_written_iff sample_translation sample_nonempty [rule (js "openai/")]) as [H _].
    remember (buildOperationsJson sample_translation [rule (js "openai/")] true) as r eqn:E in *. destruct r as [error|text].
    + exfalso. vm_compute in E. discriminate E.
    + exists text. split; [reflexivity|apply H].
  - destruct (rules_written_iff sample_translation sample_nonempty [rule []]) as [H _].
    remember (buildOperationsJson sample_translation [rule []] true) as r eqn:E in *. destruct r as [error|text].
    + exists error. split; [reflexivity|]. destruct H as (before & op & after & H1 & _ & H3 & _). by exists before, op, after.
    + exfalso. vm_compute in E. discriminate E.
Defined.
