(* ===== verification/ParamRoundtrip.v ===== *)
(** * Parameter overrides: what is saved is what is opened

    The payload of a rule as the list of its properties, what opening the
    payload reads, and the text that is written again. *)
From S2P Require Import Prelude JsString JsNumber JsValue JsValueFacts JsJson JsJsonFacts JsJsonRoundtrip JsStorable JsLiteral ParamModes ParamOverride ParamDrafts ParamDialog ParamIds ParamDialogFacts ParamCheck.
Open Scope N_scope.

(** ** The payload of a rule *)

Definition to_set (meta : Meta) : bool := default false (m_to meta).

(** Facts of the table of modes. *)
Definition meta_ok (meta : Meta) : bool :=
  negb (m_path meta && m_pathOptional meta) && (negb (m_pathAlias meta) || (m_from meta && to_set meta)).

Lemma known_meta mode : mode ∈ OPERATION_MODE_VALUES -> meta_ok (meta_of mode) = true.
Proof.
  assert (H : Forall (fun m => meta_ok (meta_of m) = true) OPERATION_MODE_VALUES).
  { apply forallb_Forall. vm_compute. reflexivity. }
  rewrite list.Forall_forall in H. apply H.
Qed.

Lemma known_mode_or mode : mode ∈ OPERATION_MODE_VALUES -> str_or mode (js "set") = mode.
Proof.
  assert (H : Forall (fun m => str_truthy m = true) OPERATION_MODE_VALUES).
  { apply forallb_Forall. vm_compute. reflexivity. }
  rewrite list.Forall_forall in H. intros Hm%H. by destruct mode.
Qed.

Definition alias_or (meta : Meta) (own path : jstr) : jstr :=
  if m_pathAlias meta && negb (str_truthy own) && str_truthy path then path else own.

Definition when (b : bool) (v : jsval) : option jsval := if b then Some v else None.

(** The properties before the conditions. *)
Definition rule_entries (op : ParamOverrideOperation) : jsobj :=
  let meta := meta_of (op_mode op) in
  let p := trim (op_path op) in
  (((((([(js "mode", VStr (op_mode op))]
  ++ entry (js "description") (when (str_truthy (trim (op_description op))) (VStr (trim (op_description op)))))
  ++ entry (js "path") (when (m_path meta || (m_pathOptional meta && str_truthy p)) (VStr p)))
  ++ entry (js "value") (when (m_value meta) (parseLooseValue (op_value_text op))))
  ++ entry (js "keep_origin") (when (m_keepOrigin meta && op_keep_origin op) (VBool true)))
  ++ entry (js "from") (when (m_from meta) (VStr (alias_or meta (trim (op_from op)) p))))
  ++ entry (js "to") (when (to_set meta || str_truthy (trim (op_to op))) (VStr (alias_or meta (trim (op_to op)) p)))).

Definition condition_values (op : ParamOverrideOperation) : list jsval := omap buildConditionPayload (op_conditions op).

Definition logic_of (op : ParamOverrideOperation) : jstr :=
  if bool_decide (op_logic op = js "AND") then js "AND" else js "OR".

Definition is_nil {A} (l : list A) : bool := match l with [] => true | _ => false end.

Definition rule_properties (op : ParamOverrideOperation) : jsobj :=
  (rule_entries op
  ++ entry (js "conditions") (when (negb (is_nil (condition_values op))) (VArr (condition_values op))))
  ++ entry (js "logic") (when (negb (is_nil (condition_values op))) (VStr (logic_of op))).

Lemma not_in_entry k k' v : k <> k' -> k ∉ okeys (entry k' v).
Proof. intros Hne Hin. apply okeys_entry, list_elem_of_singleton in Hin. done. Qed.

Lemma not_in_app k a b : k ∉ okeys a -> k ∉ okeys b -> k ∉ okeys (a ++ b).
Proof. rewrite okeys_app, not_elem_of_app. done. Qed.

Lemma not_in_single k k' (v : jsval) : k <> k' -> k ∉ okeys [(k', v)].
Proof. intros Hne ->%list_elem_of_singleton. done. Qed.

(** A literal key is not among the literal keys of a list of entries. *)
Ltac fresh_key :=
  repeat apply not_in_app; first [apply not_in_entry | apply not_in_single]; decide_now.

Lemma oset_if_fresh b k v o :
  k ∉ okeys o -> array_index k = None -> oset_if b k v o = o ++ entry k (when b v).
Proof. intros Hk Ha. destruct b; cbn [oset_if when entry]; [by apply oset_fresh|by rewrite app_nil_r]. Qed.

Lemma oset_if_last b k v w o :
  k ∉ okeys o -> oset_if b k v (o ++ [(k, w)]) = o ++ [(k, if b then v else w)].
Proof. intros Hk. destruct b; [by apply oset_replace|done]. Qed.

(** The steps of the construction, from any object without the keys. *)
Lemma set_path mp mo p o :
  negb (mp && mo) = true -> js "path" ∉ okeys o ->
  oset_if (mo && str_truthy p) (js "path") (VStr p) (oset_if mp (js "path") (VStr p) o)
  = o ++ entry (js "path") (when (mp || (mo && str_truthy p)) (VStr p)).
Proof.
  intros Hm Hk. destruct mp.
  - destruct mo; [done|]. cbn [andb oset_if orb]. by rewrite oset_fresh.
  - cbn [oset_if orb]. by rewrite oset_if_fresh.
Qed.

Lemma set_to (b : bool) s o :
  js "to" ∉ okeys o ->
  oset_if b (js "to") (VStr s) (oset_if (negb b && str_truthy s) (js "to") (VStr s) o)
  = o ++ entry (js "to") (when (b || str_truthy s) (VStr s)).
Proof.
  intros Hk. destruct b; cbn [negb andb orb oset_if].
  - by rewrite oset_fresh.
  - by rewrite oset_if_fresh.
Qed.

Lemma oget_app_last k v o : k ∉ okeys o -> oget k (o ++ [(k, v)]) = v.
Proof.
  intros Hk. unfold oget. apply olookup_None in Hk. rewrite olookup_app, Hk. cbn [olookup].
  by rewrite bool_decide_eq_true_2.
Qed.

Lemma set_aliases f tt p o :
  js "from" ∉ okeys o -> js "to" ∉ okeys o ->
  let a k obj := oset_if (negb (truthy (oget k obj)) && str_truthy p) k (VStr p) obj in
  let pick s := if negb (str_truthy s) && str_truthy p then p else s in
  a (js "to") (a (js "from") ((o ++ [(js "from", VStr f)]) ++ [(js "to", VStr tt)]))
  = (o ++ [(js "from", VStr (pick f))]) ++ [(js "to", VStr (pick tt))].
Proof.
  intros Hf Ht a pick. assert (Hto : forall w, js "to" ∉ okeys (o ++ [(js "from", VStr w)])).
  { intros w. apply not_in_app; [done|]. apply not_in_single. decide_now. }
  assert (E : a (js "from") ((o ++ [(js "from", VStr f)]) ++ [(js "to", VStr tt)])
              = (o ++ [(js "from", VStr (pick f))]) ++ [(js "to", VStr tt)]).
  { unfold a. unfold oget at 1. rewrite olookup_app, olookup_app.
    pose proof Hf as ->%olookup_None. cbn [olookup]. rewrite bool_decide_eq_true_2 by done.
    cbn [default from_option truthy]. rewrite <-!app_assoc. cbn [app]. unfold pick, id. cbn [truthy].
    destruct (negb (str_truthy f) && str_truthy p); cbn [oset_if]; [by apply oset_replace|reflexivity]. }
  rewrite E. unfold a. rewrite oget_app_last by apply Hto. cbn [truthy]. rewrite oset_if_last by apply Hto.
  unfold pick at 3. by destruct (negb (str_truthy tt) && str_truthy p).
Qed.

Lemma set_conditions_properties cs lg o :
  js "conditions" ∉ okeys o -> js "logic" ∉ okeys o ->
  match cs with [] => o | _ => oset (js "logic") (VStr lg) (oset (js "conditions") (VArr cs) o) end
  = (o ++ entry (js "conditions") (when (negb (is_nil cs)) (VArr cs)))
    ++ entry (js "logic") (when (negb (is_nil cs)) (VStr lg)).
Proof.
  intros Hc Hl. destruct cs as [|c cs]; cbn [is_nil negb when entry]; [by rewrite !app_nil_r|].
  rewrite (oset_fresh (js "conditions")) by done. rewrite oset_fresh; [done| |done].
  apply not_in_app; [done|]. apply not_in_single. decide_now.
Qed.

Lemma payload_properties op : op_mode op ∈ OPERATION_MODE_VALUES -> operation_payload op = rule_properties op.
Proof.
  intros Hm. unfold operation_payload. rewrite (known_mode_or _ Hm). cbv zeta.
  pose proof (known_meta _ Hm) as Hk. unfold rule_properties. fold (condition_values op). fold (logic_of op).
  rewrite <-set_conditions_properties by (unfold rule_entries; fresh_key).
  enough (E : rule_entries op = _) by (rewrite E; reflexivity). unfold rule_entries, alias_or.
  destruct (meta_of (op_mode op)) as [mp mo mv mf mt mk ma]. unfold meta_ok, to_set in *.
  cbn [m_path m_pathOptional m_value m_from m_to m_keepOrigin m_pathAlias] in *.
  apply andb_true_iff in Hk as [Hpo Hk].
  rewrite (oset_if_fresh _ (js "description")) by (fresh_key || done).
  rewrite set_path by (fresh_key || done).
  rewrite (oset_if_fresh _ (js "value")) by (fresh_key || done).
  rewrite (oset_if_fresh _ (js "keep_origin")) by (fresh_key || done).
  rewrite (oset_if_fresh mf (js "from")) by (fresh_key || done).
  rewrite set_to by fresh_key. destruct ma; cbn [andb negb orb] in *; [|reflexivity].
  apply andb_true_iff in Hk as [-> ->]. cbn [when entry orb].
  rewrite set_aliases by fresh_key. reflexivity.
Qed.

(** ** Values that keep their meaning *)

(** The value prints, the text that shows it means it again, and it is not
    the quoted empty text.  A quoted text such as ["123"] is not stable: it is
    shown without the quotes, and then read as a number. *)
Record stable_value (vt : jstr) : Prop := {
  sv_prints : printable (parseLooseValue vt);
  sv_shown : parseLooseValue (toValueText (parseLooseValue vt)) = parseLooseValue vt;
  sv_filled : trim vt <> [] -> parseLooseValue vt <> VStr [] }.

Lemma parseLoose_trim vt : parseLooseValue (trim vt) = parseLooseValue vt.
Proof. unfold parseLooseValue. by rewrite trim_idemp. Qed.

Lemma parseLoose_filled vt : trim vt <> [] -> parseLooseValue vt = catch (json_parse (trim vt)) (VStr (trim vt)).
Proof. unfold parseLooseValue. by destruct (trim vt). Qed.

(** Text that is not JSON is stable. *)
Lemma plain_text_stable vt e :
  json_parse (trim vt) = Throw e -> forallb is_unit vt = true -> stable_value vt.
Proof.
  intros He Hu. assert (Hv : parseLooseValue vt = VStr (trim vt)).
  { unfold parseLooseValue. destruct (trim vt); [done|]. by rewrite He. }
  split; rewrite Hv.
  - by apply printable_string, forallb_trim.
  - cbn [toValueText]. by rewrite parseLoose_trim.
  - congruence.
Qed.

(** The value is shown as a text that is not blank. *)
Lemma shown_filled vt : stable_value vt -> trim vt <> [] -> trim (toValueText (parseLooseValue vt)) <> [].
Proof.
  intros [_ Hs Hf] Hne E. specialize (Hf Hne). apply Hf. rewrite <-Hs.
  unfold parseLooseValue at 1. by rewrite E.
Qed.

(** The check of [return_error] reads the value only. *)
Definition object_message_missing (v : jsval) : bool :=
  match v with
  | VObj o => catch (let* m := to_str (vor (oget (js "message") o) (VStr [])) in Ok (negb (str_truthy (trim m)))) false
  | _ => false
  end.

Lemma message_missing_value vt : trim vt <> [] -> message_missing (trim vt) = object_message_missing (parseLooseValue vt).
Proof.
  intros Hne. rewrite parseLoose_filled by done. unfold message_missing.
  destruct (json_parse (trim vt)) as [v|e]; cbn [res_bind catch]; [|done]. by destruct v.
Qed.

(** ** Conditions *)

Definition writable_condition (c : ParamOverrideCondition) : Prop :=
  wf_condition c /\ forallb is_unit (co_path c) = true /\ stable_value (co_value_text c).

Lemma known_condition_mode mode : mode ∈ CONDITION_MODE_VALUES -> str_or mode (js "full") = mode.
Proof.
  assert (H : Forall (fun m => str_truthy m = true) CONDITION_MODE_VALUES).
  { apply forallb_Forall. vm_compute. reflexivity. }
  rewrite list.Forall_forall in H. intros Hm%H. by destruct mode.
Qed.

Definition condition_properties (c : ParamOverrideCondition) : jsobj :=
  ([ (js "path", VStr (trim (co_path c))); (js "mode", VStr (co_mode c));
     (js "value", parseLooseValue (co_value_text c)) ]
  ++ entry (js "invert") (when (co_invert c) (VBool true)))
  ++ entry (js "pass_missing_key") (when (co_pass_missing_key c) (VBool true)).

Lemma not_condition_key k c :
  k ∉ [js "path"; js "mode"; js "value"] ->
  k ∉ okeys [ (js "path", VStr (trim (co_path c))); (js "mode", VStr (co_mode c));
              (js "value", parseLooseValue (co_value_text c)) ].
Proof. done. Qed.

Lemma condition_payload_properties c :
  wf_condition c -> trim (co_path c) <> [] -> buildConditionPayload c = Some (VObj (condition_properties c)).
Proof.
  intros Hw Hp%truthy_iff. unfold buildConditionPayload. rewrite Hp. cbn [negb].
  rewrite known_condition_mode by done. unfold condition_properties.
  rewrite (oset_if_fresh _ (js "invert")), (oset_if_fresh _ (js "pass_missing_key")); try done.
  - apply not_in_app; [|apply not_in_entry; decide_now]. apply not_condition_key. decide_now.
  - apply not_condition_key. decide_now.
Qed.

Lemma no_condition_payload c : trim (co_path c) = [] -> buildConditionPayload c = None.
Proof. intros Hp. unfold buildConditionPayload. by rewrite Hp. Qed.

Lemma listed_units values : forallb (forallb is_unit) values = true -> forall m, m ∈ values -> forallb is_unit m = true.
Proof. intros H%forallb_Forall m Hm. rewrite list.Forall_forall in H. by apply H. Qed.

Lemma condition_mode_units m : m ∈ CONDITION_MODE_VALUES -> forallb is_unit m = true.
Proof. apply listed_units. vm_compute. reflexivity. Qed.

Lemma operation_mode_units m : m ∈ OPERATION_MODE_VALUES -> forallb is_unit m = true.
Proof. apply listed_units. vm_compute. reflexivity. Qed.

(** Entries under literal keys. *)
Lemma good_entry_app k v o :
  good_object o -> k ∉ okeys o -> array_index k = None -> forallb is_unit k = true ->
  (forall x, v = Some x -> printable x) -> good_object (o ++ entry k v).
Proof.
  intros Ho Hk Ha Hu Hv. destruct v as [x|]; cbn [entry]; [|by rewrite app_nil_r].
  rewrite <-oset_fresh by done. apply good_object_oset; auto.
Qed.

Lemma good_single k v : array_index k = None -> forallb is_unit k = true -> printable v -> good_object [(k, v)].
Proof. intros. by apply (good_object_oset k v []), good_object_nil. Qed.

Lemma when_printable b v : (b = true -> printable v) -> forall x, when b v = Some x -> printable x.
Proof. intros H x. destruct b; [intros [= <-]; auto|done]. Qed.

(** Peels the entries of an object whose keys are literals. *)
Ltac good_entries :=
  repeat (apply good_entry_app; [|fresh_key|reflexivity|reflexivity|apply when_printable; intros ?]).

(** Only that the value prints, not that it is stable. *)
Definition printable_condition (c : ParamOverrideCondition) : Prop :=
  wf_condition c /\ forallb is_unit (co_path c) = true /\ printable (parseLooseValue (co_value_text c)).

Lemma writable_condition_printable c : writable_condition c -> printable_condition c.
Proof. intros (H1 & H2 & H3). split_and!; [done|done|apply H3]. Qed.

Lemma condition_printable c : printable_condition c -> printable (VObj (condition_properties c)).
Proof.
  intros (Hw & Hu & Hs). apply printable_object. unfold condition_properties.
  change ([(js "path", VStr (trim (co_path c))); (js "mode", VStr (co_mode c)); (js "value", parseLooseValue (co_value_text c))])
    with (([(js "path", VStr (trim (co_path c)))] ++ entry (js "mode") (when true (VStr (co_mode c))))
          ++ entry (js "value") (when true (parseLooseValue (co_value_text c)))).
  good_entries; try done.
  - apply good_single; [done|done|]. by apply printable_string, forallb_trim.
  - by apply printable_string, condition_mode_units.
Qed.

(** ** Rules *)

Record writable_operation (o : ParamOverrideOperation) : Prop := {
  wo_wf : wf_operation o;
  wo_description : forallb is_unit (op_description o) = true;
  wo_path : forallb is_unit (op_path o) = true;
  wo_from : forallb is_unit (op_from o) = true;
  wo_to : forallb is_unit (op_to o) = true;
  wo_value : stable_value (op_value_text o);
  wo_conditions : Forall writable_condition (op_conditions o) }.

(** Texts of code units, and values that print. *)
Record printable_operation (o : ParamOverrideOperation) : Prop := {
  po_wf : wf_operation o;
  po_description : forallb is_unit (op_description o) = true;
  po_path : forallb is_unit (op_path o) = true;
  po_from : forallb is_unit (op_from o) = true;
  po_to : forallb is_unit (op_to o) = true;
  po_value : printable (parseLooseValue (op_value_text o));
  po_conditions : Forall printable_condition (op_conditions o) }.

Lemma writable_printable o : writable_operation o -> printable_operation o.
Proof.
  intros [H1 H2 H3 H4 H5 H6 H7]. constructor; [done..|apply H6|].
  eapply Forall_impl; [exact H7|]. apply writable_condition_printable.
Qed.

Lemma alias_or_units meta own path :
  forallb is_unit own = true -> forallb is_unit path = true -> forallb is_unit (alias_or meta own path) = true.
Proof. intros. unfold alias_or. by destruct (_ && _ && _). Qed.

Lemma condition_values_printable o : Forall printable_condition (op_conditions o) -> Forall printable (condition_values o).
Proof.
  unfold condition_values. intros H. induction H as [|c cs Hc _ IH]; [constructor|].
  change (omap buildConditionPayload (c :: cs)) with
    (match buildConditionPayload c with
     | Some y => y :: omap buildConditionPayload cs | None => omap buildConditionPayload cs end).
  destruct (decide (trim (co_path c) = [])) as [E|E].
  - by rewrite no_condition_payload.
  - rewrite condition_payload_properties by (done || by destruct Hc). constructor; [by apply condition_printable|done].
Qed.

Lemma rule_printable o : printable_operation o -> printable (VObj (rule_properties o)).
Proof.
  intros [[Hm [Hl _]] Hd Hp Hf Ht Hv Hc]. apply printable_object. unfold rule_properties, rule_entries.
  good_entries; try done.
  - apply good_single; [done|done|]. by apply printable_string, operation_mode_units.
  - by apply printable_string, forallb_trim.
  - by apply printable_string, forallb_trim.
  - by apply printable_string, alias_or_units; apply forallb_trim.
  - by apply printable_string, alias_or_units; apply forallb_trim.
  - by apply printable_list, condition_values_printable.
  - apply printable_string. unfold logic_of. by case_bool_decide.
Qed.

(** ** Opening a rule *)

Section reopen.
Context (now : N -> N).

Lemma bind_lift_ok {A B} (a : A) (k : A -> M B) n : bind (lift (Ok a)) k n = k a n.
Proof. done. Qed.

Lemma is_true_flag k b : is_true (default (inherited k) (when b (VBool true))) = b.
Proof. destruct b; [done|]. cbn [when default from_option]. unfold inherited. by case_bool_decide. Qed.

Lemma mode_or_listed values fallback m : m ∈ values -> mode_or values fallback (VStr m) = m.
Proof. intros H. unfold mode_or. by rewrite bool_decide_eq_true_2. Qed.

Definition reopened_condition (c : ParamOverrideCondition) (id : jstr) : ParamOverrideCondition :=
  MkCondition id (trim (co_path c)) (co_mode c) (toValueText (parseLooseValue (co_value_text c)))
    (co_invert c) (co_pass_missing_key c).

Lemma oget_condition c k :
  oget k (condition_properties c)
  = default (inherited k)
      (if bool_decide (k = js "path") then Some (VStr (trim (co_path c)))
       else if bool_decide (k = js "mode") then Some (VStr (co_mode c))
       else if bool_decide (k = js "value") then Some (parseLooseValue (co_value_text c))
       else match (if bool_decide (k = js "invert") then when (co_invert c) (VBool true) else None) with
            | Some v => Some v
            | None => if bool_decide (k = js "pass_missing_key") then when (co_pass_missing_key c) (VBool true) else None
            end).
Proof.
  unfold oget, condition_properties. rewrite !olookup_app, !olookup_entry. cbn [olookup].
  by destruct (bool_decide (k = js "path")), (bool_decide (k = js "mode")), (bool_decide (k = js "value")).
Qed.

Lemma first_some {A} (x : option A) : match x with Some v => Some v | None => None end = x.
Proof. by destruct x. Qed.

Lemma reread_condition c n :
  wf_condition c ->
  normalizeCondition now (VObj (condition_properties c)) n = (Ok (reopened_condition c (local_id now n)), n + 1).
Proof.
  intros Hw. unfold normalizeCondition. cbn [or_empty_object].
  unfold bind at 1. unfold nextLocalId at 1. cbn [vget]. rewrite !bind_lift_ok, !oget_condition. js_keys.
  rewrite !first_some, !is_true_flag. cbn [default from_option string_or_empty]. unfold id.
  by rewrite mode_or_listed.
Qed.

Lemma reopened_condition_payload c id :
  writable_condition c -> buildConditionPayload (reopened_condition c id) = buildConditionPayload c.
Proof.
  intros (_ & _ & Hs). unfold buildConditionPayload, reopened_condition.
  cbn [co_path co_mode co_value_text co_invert co_pass_missing_key].
  by rewrite trim_idemp, (sv_shown _ Hs).
Qed.

Lemma reread_conditions cs n :
  Forall writable_condition cs ->
  exists cs' n', mapM (normalizeCondition now) (omap buildConditionPayload cs) n = (Ok cs', n')
                 /\ omap buildConditionPayload cs' = omap buildConditionPayload cs.
Proof.
  intros H. revert n. induction H as [|c cs Hc _ IH]; intros n; [by exists [], n|].
  assert (E : forall c l, omap buildConditionPayload (c :: l) = match buildConditionPayload c with
    | Some y => y :: omap buildConditionPayload l | None => omap buildConditionPayload l end) by done.
  rewrite E. destruct (decide (trim (co_path c) = [])) as [Hp|Hp].
  - rewrite no_condition_payload by done. apply IH.
  - rewrite condition_payload_properties by (done || by destruct Hc). cbn [mapM]. unfold bind at 1.
    rewrite reread_condition by (by destruct Hc). unfold bind. destruct (IH (n + 1)) as (cs' & n' & -> & E').
    exists (reopened_condition c (local_id now n) :: cs'), n'. split; [done|].
    rewrite E, reopened_condition_payload, E', condition_payload_properties by (done || by destruct Hc). done.
Qed.

Definition reopened_rule (o : ParamOverrideOperation) (id : jstr) (cs : list ParamOverrideCondition) : ParamOverrideOperation :=
  let meta := meta_of (op_mode o) in
  let p := trim (op_path o) in
  MkOperation id (trim (op_description o)) (if m_path meta || m_pathOptional meta then p else []) (op_mode o)
    (if m_from meta then alias_or meta (trim (op_from o)) p else []) (alias_or meta (trim (op_to o)) p)
    (if m_value meta then toValueText (parseLooseValue (op_value_text o)) else [])
    (m_keepOrigin meta && op_keep_origin o)
    (if is_nil (condition_values o) then js "OR" else logic_of o) cs.

Lemma oget_rule o k :
  k ∈ [js "description"; js "path"; js "mode"; js "value"; js "keep_origin"; js "from"; js "to"; js "logic"; js "conditions"] ->
  let meta := meta_of (op_mode o) in
  let p := trim (op_path o) in
  let some_conditions := negb (is_nil (condition_values o)) in
  oget k (rule_properties o)
  = default VUndef
      (if bool_decide (k = js "mode") then Some (VStr (op_mode o))
       else if bool_decide (k = js "description") then when (str_truthy (trim (op_description o))) (VStr (trim (op_description o)))
       else if bool_decide (k = js "path") then when (m_path meta || (m_pathOptional meta && str_truthy p)) (VStr p)
       else if bool_decide (k = js "value") then when (m_value meta) (parseLooseValue (op_value_text o))
       else if bool_decide (k = js "keep_origin") then when (m_keepOrigin meta && op_keep_origin o) (VBool true)
       else if bool_decide (k = js "from") then when (m_from meta) (VStr (alias_or meta (trim (op_from o)) p))
       else if bool_decide (k = js "to") then when (to_set meta || str_truthy (trim (op_to o))) (VStr (alias_or meta (trim (op_to o)) p))
       else if bool_decide (k = js "conditions") then when some_conditions (VArr (condition_values o))
       else when some_conditions (VStr (logic_of o))).
Proof.
  cbv zeta. intros Hk. unfold oget. assert (Hi : inherited k = VUndef).
  { rewrite !elem_of_cons in Hk. destruct_or?; subst; try (vm_compute; reflexivity). by apply not_elem_of_nil in Hk. }
  rewrite Hi. f_equal. unfold rule_properties, rule_entries. rewrite !olookup_app, !olookup_entry. cbn [olookup].
  rewrite !elem_of_cons in Hk.
  destruct_or?; subst; js_keys; rewrite ?first_some; try reflexivity. by apply not_elem_of_nil in Hk.
Qed.

Lemma string_when b s : string_or_empty (default VUndef (when b (VStr s))) = if b then s else [].
Proof. by destruct b. Qed.

Lemma string_when_nonempty s : string_or_empty (default VUndef (when (str_truthy s) (VStr s))) = s.
Proof. by destruct s. Qed.

Lemma value_when b v : toValueText (default VUndef (when b v)) = if b then toValueText v else [].
Proof. by destruct b. Qed.

Lemma flag_when b : is_true (default VUndef (when b (VBool true))) = b.
Proof. by destruct b. Qed.

Lemma alias_or_plain meta own path : meta_ok meta = true -> to_set meta = false -> alias_or meta own path = own.
Proof.
  unfold meta_ok, alias_or. intros H Ht. rewrite Ht, andb_false_r, orb_false_r in H.
  apply andb_true_iff in H as [_ H%negb_true_iff]. by rewrite H.
Qed.

Lemma logic_reads o :
  (if upper_is (js "AND") (logic_of o) then js "AND" else js "OR") = logic_of o.
Proof. unfold logic_of. by case_bool_decide. Qed.

Lemma reread_rule o n :
  writable_operation o ->
  exists cs n', normalizeOperation now (VObj (rule_properties o)) n = (Ok (reopened_rule o (local_id now n) cs), n')
                /\ condition_values (reopened_rule o (local_id now n) cs) = condition_values o.
Proof.
  intros Hw. pose proof Hw as [[Hm _] _ _ _ _ _ Hc].
  destruct (reread_conditions (op_conditions o) (n + 1) Hc) as (cs & n' & Ecs & Ecv).
  fold (condition_values o) in Ecs, Ecv.
  pose proof (known_meta _ Hm) as Hk.
  assert (Hto : (if to_set (meta_of (op_mode o)) || str_truthy (trim (op_to o))
                 then alias_or (meta_of (op_mode o)) (trim (op_to o)) (trim (op_path o)) else [])
                = alias_or (meta_of (op_mode o)) (trim (op_to o)) (trim (op_path o))).
  { destruct (to_set _) eqn:Ht; cbn [orb]; [done|]. rewrite alias_or_plain by done. by destruct (trim (op_to o)). }
  assert (Hpath : (if m_path (meta_of (op_mode o)) || (m_pathOptional (meta_of (op_mode o)) && str_truthy (trim (op_path o)))
                   then trim (op_path o) else [])
                  = if m_path (meta_of (op_mode o)) || m_pathOptional (meta_of (op_mode o)) then trim (op_path o) else []).
  { destruct (m_path _), (m_pathOptional _); try done. by destruct (trim (op_path o)). }
  unfold normalizeOperation. cbn [or_empty_object]. unfold bind at 1. unfold nextLocalId at 1. cbn [vget].
  rewrite !bind_lift_ok.
  rewrite !oget_rule by decide_now. js_keys.
  rewrite string_when_nonempty, !string_when, value_when, flag_when, Hto, Hpath.
  cbn [default from_option]. unfold id. rewrite mode_or_listed by done.
  unfold reopened_rule. destruct (condition_values o) as [|v vs] eqn:Ev; cbn [is_nil negb when default from_option].
  - exists [], (n + 1). split; [|done]. unfold vor. cbn [truthy]. cbn [to_str]. reflexivity.
  - exists cs, n'. unfold id. split; [|unfold condition_values; cbn [op_conditions]; exact Ecv].
    assert (Hl : truthy (VStr (logic_of o)) = true) by (unfold logic_of; by case_bool_decide).
    unfold vor. rewrite Hl. cbn [to_str]. rewrite !bind_lift_ok. unfold bind. rewrite Ecs.
    unfold ret. rewrite logic_reads. reflexivity.
Qed.
End reopen.

(** ** Writing it again *)

Lemma alias_or_idemp meta own p p' :
  p' = p \/ p' = [] -> alias_or meta (alias_or meta own p) p' = alias_or meta own p.
Proof.
  unfold alias_or. intros Hp. destruct (m_pathAlias meta); cbn [andb]; [|done].
  destruct own as [|c own], p as [|c' p]; cbn; destruct Hp as [-> | ->]; done.
Qed.

Lemma trim_alias_or meta own p : trim (alias_or meta (trim own) (trim p)) = alias_or meta (trim own) (trim p).
Proof. unfold alias_or. destruct (_ && _ && _); apply trim_idemp. Qed.

Section again.
Context (o : ParamOverrideOperation) (Ho : writable_operation o) (id : jstr) (cs : list ParamOverrideCondition)
  (Hcs : condition_values (reopened_rule o id cs) = condition_values o).

Let meta := meta_of (op_mode o).
Let o' := reopened_rule o id cs.

Lemma reopened_path : trim (op_path o') = if m_path meta || m_pathOptional meta then trim (op_path o) else [].
Proof. unfold o', reopened_rule. cbn [op_path]. destruct (_ || _); [apply trim_idemp|done]. Qed.

Lemma reopened_path_cases : trim (op_path o') = trim (op_path o) \/ trim (op_path o') = [].
Proof. rewrite reopened_path. destruct (_ || _); auto. Qed.

Lemma reopened_from :
  m_from meta = true -> trim (op_from o') = alias_or meta (trim (op_from o)) (trim (op_path o)).
Proof. intros Hf. unfold o', reopened_rule. cbn [op_from]. fold meta. rewrite Hf. apply trim_alias_or. Qed.

Lemma reopened_to : trim (op_to o') = alias_or meta (trim (op_to o)) (trim (op_path o)).
Proof. unfold o', reopened_rule. cbn [op_to]. apply trim_alias_or. Qed.

Lemma reopened_value : m_value meta = true -> parseLooseValue (op_value_text o') = parseLooseValue (op_value_text o).
Proof.
  intros Hv. unfold o', reopened_rule. cbn [op_value_text]. fold meta. rewrite Hv.
  apply sv_shown, Ho.
Qed.

Lemma when_congr (b : bool) v w : (b = true -> v = w) -> when b v = when b w.
Proof. destruct b; [|done]. intros H. by rewrite H. Qed.

(** Opening a payload and writing it again gives the payload. *)
Lemma reopened_properties : rule_properties o' = rule_properties o.
Proof.
  assert (Hm : op_mode o' = op_mode o) by done.
  pose proof (known_meta _ (proj1 (wo_wf _ Ho))) as Hk. fold meta in Hk.
  unfold rule_properties, rule_entries. rewrite Hm. fold meta. change (condition_values o') with (condition_values (reopened_rule o id cs)).
  rewrite Hcs. repeat apply (f_equal2 app); try done; f_equal.
  - change (op_description o') with (trim (op_description o)). by rewrite trim_idemp.
  - rewrite reopened_path. destruct (m_path meta), (m_pathOptional meta); done.
  - apply when_congr, reopened_value.
  - change (op_keep_origin o') with (m_keepOrigin meta && op_keep_origin o). by destruct (m_keepOrigin meta).
  - apply when_congr. intros Hf. rewrite reopened_from by done. f_equal.
    apply alias_or_idemp, reopened_path_cases.
  - rewrite reopened_to. rewrite alias_or_idemp by apply reopened_path_cases.
    destruct (to_set meta) eqn:Ht; cbn [orb]; [done|]. by rewrite alias_or_plain.
  - apply when_congr. intros Hn. f_equal. unfold logic_of at 1.
    change (op_logic o') with (if is_nil (condition_values o) then js "OR" else logic_of o).
    rewrite (proj1 (negb_true_iff _) Hn). unfold logic_of. by destruct (bool_decide (op_logic o = js "AND")).
Qed.

(** Tables: the modes that need a field write it. *)
Lemma required_written mode :
  mode ∈ OPERATION_MODE_VALUES ->
  (mode ∈ FROM_REQUIRED_MODES -> m_from (meta_of mode) = true)
  /\ (mode ∈ VALUE_REQUIRED_MODES -> m_value (meta_of mode) = true)
  /\ (mode = js "set" -> m_path (meta_of mode) = true).
Proof.
  assert (H : Forall (fun m =>
    (negb (bool_decide (m ∈ FROM_REQUIRED_MODES)) || m_from (meta_of m))
    && (negb (bool_decide (m ∈ VALUE_REQUIRED_MODES)) || m_value (meta_of m))
    && (negb (bool_decide (m = js "set")) || m_path (meta_of m)) = true) OPERATION_MODE_VALUES).
  { apply forallb_Forall. vm_compute. reflexivity. }
  rewrite list.Forall_forall in H. intros Hm%H. clear H. apply andb_true_iff in Hm as [Hm H3].
  apply andb_true_iff in Hm as [H1 H2]. repeat split; intros Hin.
  - by rewrite bool_decide_eq_true_2 in H1.
  - by rewrite bool_decide_eq_true_2 in H2.
  - by rewrite bool_decide_eq_true_2 in H3.
Qed.

Lemma alias_or_filled own p :
  own <> [] \/ m_pathAlias meta = true /\ p <> [] -> alias_or meta own p <> [].
Proof.
  unfold alias_or. intros [H|[-> H]].
  - destruct own; [done|]. cbn [str_truthy negb]. by rewrite andb_false_r.
  - destruct own; cbn [str_truthy negb andb]; [|done]. by rewrite (proj2 (truthy_iff _) H).
Qed.

(** The reopened rule passes the check that the rule passed. *)
Lemma reopened_valid : rule_valid o -> rule_valid o'.
Proof.
  pose proof (proj1 (wo_wf _ Ho)) as Hm. destruct (required_written _ Hm) as (Rf & Rv & _).
  intros [Hp Hf Ht Hv He Hh].
  change (op_mode o) with (op_mode o') in Hp, Hf, Ht, Hv, He, Hh.
  rewrite (known_mode_or (op_mode o')) in Hp, Hf, Ht, Hv, He, Hh by done.
  change (meta_of (op_mode o')) with meta in Hp, Hf, Ht. fold meta in Rf, Rv.
  constructor; rewrite (known_mode_or (op_mode o')) by done; change (meta_of (op_mode o')) with meta.
  - intros H. rewrite reopened_path, H. cbn [orb]. by apply Hp.
  - intros H. left. rewrite reopened_from by (by apply Rf). by apply alias_or_filled, Hf.
  - intros H. left. rewrite reopened_to. by apply alias_or_filled, Ht.
  - intros H. unfold o', reopened_rule. cbn [op_value_text]. fold meta. rewrite Rv by done.
    apply shown_filled; [apply Ho|by apply Hv].
  - intros H. assert (Hr : op_mode o' ∈ VALUE_REQUIRED_MODES) by (rewrite H; apply special_modes).
    assert (Hn : trim (op_value_text o') <> []).
    { unfold o', reopened_rule. cbn [op_value_text]. fold meta. rewrite Rv by done.
      apply shown_filled; [apply Ho|by apply Hv]. }
    rewrite message_missing_value, reopened_value by auto. rewrite <-message_missing_value by auto. by apply He.
  - intros H. assert (Hr : op_mode o' ∈ VALUE_REQUIRED_MODES) by (rewrite H; apply special_modes).
    rewrite parseLoose_trim, reopened_value, <-(parseLoose_trim (op_value_text o)) by auto. by apply Hh.
Qed.

(** It is not blank: a rule that sets a field has a target. *)
Lemma reopened_not_blank : rule_valid o -> isOperationBlank o' = false.
Proof.
  intros Hv. unfold isOperationBlank. destruct (bool_decide (op_mode o' = js "set")) eqn:Es; [|done].
  apply bool_decide_eq_true in Es. assert (Hp : trim (op_path o') <> []).
  { apply (rv_path _ (reopened_valid Hv)). rewrite Es. reflexivity. }
  apply truthy_iff in Hp. by rewrite Hp.
Qed.
End again.

(** ** Whole texts *)

Section texts.
Context (now : N -> N) (t : jstr -> option nat -> jstr) (t_nonempty : forall key line, t key line <> []).

(** The rules that opening gives, one for each payload. *)
Lemma reread_rules ops n :
  Forall writable_operation ops -> Forall rule_valid ops ->
  exists ops' n', mapM (normalizeOperation now) (map (fun o => VObj (operation_payload o)) ops) n = (Ok ops', n')
    /\ map operation_payload ops' = map operation_payload ops
    /\ Forall rule_valid ops' /\ kept ops' = ops'.
Proof.
  intros Hw Hv. revert n. induction ops as [|o ops IH]; intros n; [by exists [], n|].
  apply Forall_cons in Hw as [Ho Hw]. apply Forall_cons in Hv as [Hvo Hv].
  destruct (reread_rule now o n Ho) as (cs & n1 & E & Ecs).
  destruct (IH Hw Hv n1) as (ops' & n2 & E' & Ep & Hv' & Hk).
  pose proof (proj1 (wo_wf _ Ho)) as Hm.
  exists (reopened_rule o (local_id now n) cs :: ops'), n2.
  cbn [map mapM]. rewrite payload_properties by done. unfold bind. rewrite E, E'.
  refine (conj eq_refl (conj _ (conj _ _))).
  - rewrite Ep, payload_properties by done. by rewrite reopened_properties.
  - constructor; [by apply reopened_valid|done].
  - unfold kept. cbn [List.filter]. rewrite reopened_not_blank by done. cbn [negb]. f_equal. exact Hk.
Qed.

Lemma operations_text_parses ops :
  Forall writable_operation ops ->
  json_parse (trim (operations_text ops))
  = Ok (VObj [(js "operations", VArr (map (fun o => VObj (operation_payload o)) ops))]).
Proof.
  intros Hw. unfold operations_text. rewrite trim_stringify2.
  destruct (printable_object [(js "operations", VArr (map (fun o => VObj (operation_payload o)) ops))]) as [Hj Ho];
    [|by apply json_parse_stringify2].
  apply good_single; [done|done|]. apply printable_list. apply Forall_fmap. eapply Forall_impl; [exact Hw|].
  intros o Hwo. cbn. rewrite payload_properties by apply Hwo. by apply rule_printable, writable_printable.
Qed.

Lemma written_inv ops text :
  buildOperationsJson t ops true = inr text -> Forall rule_valid (kept ops) /\ text = saved_text ops.
Proof.
  intros H. enough (Hv : Forall rule_valid (kept ops)).
  { split; [done|]. apply (rules_written t t_nonempty) in Hv. congruence. }
  unfold buildOperationsJson in H. fold (kept ops) in H. destruct (kept ops) as [|o l] eqn:E; [constructor|].
  rewrite <-E in *. apply (validate_ok t t_nonempty).
  destruct (validateOperations t (kept ops)) as [[|c m]|e]; cbn [of_res sum_bind] in H; [done|discriminate..].
Qed.

Definition in_rules (d : Dialog) : Prop :=
  es_editMode (dl_content d) = EMvisual /\ es_visualMode (dl_content d) = VMoperations.

Lemma save_rules d : in_rules d -> save_result t d = buildOperationsJson t (dl_operations d) true.
Proof. intros [He Hv]. unfold save_result, buildVisualJson. by rewrite He, Hv. Qed.

Lemma keepSelection_content d : dl_content (keepSelection d) = dl_content d.
Proof.
  unfold keepSelection. destruct (dl_operations d); [|destruct (existsb _ _)]; try done; by destruct d as [c []].
Qed.

(** Opening the text of saved rules. *)
Lemma open_saved ops n :
  Forall writable_operation (kept ops) -> Forall rule_valid (kept ops) ->
  exists st n', parseInitialState now (saved_text ops) n = (Ok st, n')
    /\ es_editMode st = EMvisual /\ es_visualMode st = VMoperations
    /\ map operation_payload (kept (es_operations st)) = map operation_payload (kept ops)
    /\ Forall rule_valid (kept (es_operations st)).
Proof.
  intros Hw Hv. unfold saved_text. destruct (kept ops) as [|o l] eqn:E.
  - eexists _, _. split; [reflexivity|]. refine (conj eq_refl (conj eq_refl (conj _ _))); [reflexivity|]. constructor.
  - rewrite <-E in *. destruct (reread_rules (kept ops) n Hw Hv) as (ops' & n' & Er & Ep & Hv' & Hk).
    pose proof (operations_text_parses (kept ops) Hw) as Hj.
    unfold parseInitialState. cbv zeta.
    assert (Ht : str_truthy (trim (operations_text (kept ops))) = true).
    { unfold operations_text. rewrite trim_stringify2. destruct (print_obj_ends [32; 32] [(js "operations", VArr (map (fun o => VObj (operation_payload o)) (kept ops)))]) as [u Hu].
      unfold stringify2. by rewrite Hu. }
    rewrite Ht. unfold verifyJSON. rewrite Hj. cbn [negb res_map res_bind catch]. rewrite bind_lift_ok.
    unfold oget. cbn [olookup]. rewrite bool_decide_eq_true_2 by done. cbn [default from_option].
    unfold id. assert (Eo : operations_of now (map (fun o => VObj (operation_payload o)) (kept ops)) n = (Ok ops', n')).
    { rewrite <-Er, E. reflexivity. }
    unfold bind. rewrite Eo. eexists _, _. split; [reflexivity|]. cbn [es_editMode es_visualMode es_operations].
    rewrite Hk. done.
Qed.

(** C27.  What the rules are saved as is opened as rules that are saved as the
    same text: opening and saving without an edit changes nothing, for rules
    whose values keep their meaning when they are shown. *)
Theorem save_reopen_stable d n text :
  in_rules d -> Forall writable_operation (kept (dl_operations d)) -> save_result t d = inr text ->
  exists d' n',
    openDialog now text d n = (Ok d', n') /\ in_rules (keepSelection d')
    /\ map operation_payload (kept (dl_operations d')) = map operation_payload (kept (dl_operations d))
    /\ save_result t (keepSelection d') = inr text.
Proof.
  intros Hr Hw Hs. rewrite save_rules in Hs by done. apply written_inv in Hs as [Hv ->].
  destruct (open_saved (dl_operations d) n Hw Hv) as (st & n' & E & He & Hm & Hp & Hv').
  unfold openDialog, bind. rewrite E. eexists _, n'. split; [reflexivity|].
  assert (Hr' : forall u, in_rules (keepSelection (MkDialog st u))).
  { intros u. unfold in_rules. by rewrite keepSelection_content. }
  split; [apply Hr'|]. split; [exact Hp|]. rewrite save_rules by apply Hr'.
  rewrite keepSelection_content. apply (rules_written t t_nonempty) in Hv'. cbn [dl_content].
  rewrite Hv'. f_equal. unfold saved_text, operations_text.
  assert (Hk : map (fun o => VObj (operation_payload o)) (kept (es_operations st))
               = map (fun o => VObj (operation_payload o)) (kept (dl_operations d))).
  { rewrite <-!(map_map operation_payload VObj). by rewrite Hp. }
  destruct (kept (es_operations st)), (kept (dl_operations d)); try done. by rewrite Hk.
Qed.
End texts.

(** ** A concrete rule *)

(** Evaluates the conditions on a literal value. *)
Ltac stable_by_computation :=
  split; [split; [vm_compute; reflexivity|exact I]|vm_compute; reflexivity|intros _; vm_compute; discriminate].

Definition sample_condition : ParamOverrideCondition :=
  MkCondition (js "c") (js " model ") (js "prefix") (js "openai/") true false.

Definition sample_rule : ParamOverrideOperation :=
  MkOperation (js "a") (js "default") (js "temperature") (js "set") [] [] (js " 0.7") true (js "AND") [sample_condition].

Lemma sample_writable : writable_operation sample_rule.
Proof.
  constructor; [|reflexivity..| |].
  - split; [decide_now|]. split; [decide_now|]. constructor; [decide_now|constructor].
  - stable_by_computation.
  - constructor; [|constructor]. split; [decide_now|]. split; [reflexivity|].
    stable_by_computation.
Qed.

Definition sample_dialog : Dialog :=
  MkDialog (MkEditor EMvisual VMoperations [] [sample_rule] [] [])
    (MkUi [] (js "a") gmap.gmap_empty [] [] Before (js "operations_default")).

Lemma save_reopen_stable_witness :
  exists d' n',
    openDialog (fun n => n) (operations_text [sample_rule]) sample_dialog 0 = (Ok d', n') /\ in_rules (keepSelection d')
    /\ map operation_payload (kept (dl_operations d')) = map operation_payload (kept (dl_operations sample_dialog))
    /\ save_result sample_translation (keepSelection d') = inr (operations_text [sample_rule]).
Proof.
  apply (save_reopen_stable (fun n => n) sample_translation sample_nonempty).
  - split; reflexivity.
  - constructor; [apply sample_writable|constructor].
  - vm_compute. reflexivity.
Defined.
