(* ===== verification/ParamDraftFacts.v ===== *)
(** * Parameter overrides: the editors of the structured values

    What an edit of a [return_error] or [prune_objects] value shows next, and
    what the editor of [prune_objects] cannot do. *)
From S2P Require Import Prelude JsString JsNumber JsValue JsValueFacts JsJson JsJsonFacts JsJsonRoundtrip JsStorable JsLiteral ParamModes ParamOverride ParamDrafts ParamDialog ParamIds ParamDialogFacts ParamCheck ParamRoundtrip.
Open Scope N_scope.

(** ** [return_error] *)

Definition return_error_entries (d : ReturnErrorDraft) : jsobj :=
  (([(js "message", VStr (trim (re_message d)))]
    ++ entry (js "status_code") (when true (VNum (status_or_400 (re_statusCode d)))))
   ++ entry (js "code") (when (str_truthy (trim (re_code d))) (VStr (trim (re_code d)))))
  ++ entry (js "type") (when (str_truthy (trim (re_type d))) (VStr (trim (re_type d)))).

Lemma return_error_properties d :
  return_error_payload d = return_error_entries d ++ entry (js "skip_retry") (when (negb (re_skipRetry d)) (VBool false)).
Proof.
  unfold return_error_payload. cbv zeta.
  change [(js "message", VStr (trim (re_message d))); (js "status_code", VNum (status_or_400 (re_statusCode d)))]
    with ([(js "message", VStr (trim (re_message d)))] ++ entry (js "status_code") (when true (VNum (status_or_400 (re_statusCode d))))).
  rewrite (oset_if_fresh _ (js "code")), (oset_if_fresh _ (js "type")), (oset_if_fresh _ (js "skip_retry"));
    try reflexivity; unfold return_error_entries; fresh_key.
Qed.

(** The draft as it is shown after it was written. *)
Definition shown_error (d : ReturnErrorDraft) : ReturnErrorDraft :=
  if re_simpleMode d then MkReturnError (trim (re_message d)) (num_of_Z 400) [] [] true true
  else MkReturnError (trim (re_message d)) (status_or_400 (re_statusCode d)) (trim (re_code d)) (trim (re_type d))
         (re_skipRetry d) false.

Definition draft_units (d : ReturnErrorDraft) : Prop :=
  forallb is_unit (re_message d) = true /\ forallb is_unit (re_code d) = true /\ forallb is_unit (re_type d) = true.

Lemma return_error_printable d :
  draft_units d -> json_num (status_or_400 (re_statusCode d)) = true -> printable (VObj (return_error_payload d)).
Proof.
  intros (Hm & Hc & Ht) Hs. apply printable_object. rewrite return_error_properties. unfold return_error_entries.
  good_entries; try done.
  - apply good_single; [done|done|]. by apply printable_string, forallb_trim.
  - by apply printable_string, forallb_trim.
  - by apply printable_string, forallb_trim.
Qed.

Lemma status_or_400_idemp v : status_or_400 (status_or_400 v) = status_or_400 v.
Proof.
  unfold status_or_400. destruct (is_integer v && nleb (num_of_Z 100) v && nleb v (num_of_Z 599)) eqn:E;
    [by rewrite E|by vm_compute].
Qed.

Lemma trimmed_text_str s : trimmed_text (VStr s) = Ok (trim s).
Proof. unfold trimmed_text, vor. by destruct s. Qed.

Lemma default_some {A} (d x : A) : default d (Some x) = x.
Proof. done. Qed.

Lemma trimmed_text_undef : trimmed_text VUndef = Ok [].
Proof. done. Qed.

Lemma oget_error d k :
  k ∈ [js "message"; js "status_code"; js "code"; js "type"; js "skip_retry"] ->
  oget k (return_error_payload d)
  = default VUndef
      (if bool_decide (k = js "message") then Some (VStr (trim (re_message d)))
       else if bool_decide (k = js "status_code") then Some (VNum (status_or_400 (re_statusCode d)))
       else if bool_decide (k = js "code") then when (str_truthy (trim (re_code d))) (VStr (trim (re_code d)))
       else if bool_decide (k = js "type") then when (str_truthy (trim (re_type d))) (VStr (trim (re_type d)))
       else when (negb (re_skipRetry d)) (VBool false)).
Proof.
  intros Hk. unfold oget. assert (Hi : inherited k = VUndef).
  { rewrite !elem_of_cons in Hk. destruct_or?; subst; try (vm_compute; reflexivity). by apply not_elem_of_nil in Hk. }
  rewrite Hi. f_equal. rewrite return_error_properties. unfold return_error_entries.
  rewrite !olookup_app, !olookup_entry. cbn [olookup]. rewrite !elem_of_cons in Hk.
  destruct_or?; subst; js_keys; rewrite ?first_some; try reflexivity. by apply not_elem_of_nil in Hk.
Qed.

Lemma trimmed_when s : trimmed_text (default VUndef (when (str_truthy (trim s)) (VStr (trim s)))) = Ok (trim s).
Proof.
  destruct (str_truthy (trim s)) eqn:E; cbn [when default from_option].
  - unfold id. by rewrite trimmed_text_str, trim_idemp.
  - rewrite trimmed_text_undef. apply truthy_nil in E. by rewrite E.
Qed.

(** An edited error is shown as it was written, with the texts trimmed
    and a status outside of 100 to 599 replaced by 400; the simple form keeps
    the message only. *)
Theorem return_error_shown d :
  draft_units d -> json_num (status_or_400 (re_statusCode d)) = true ->
  (re_simpleMode d = true -> forall o, json_parse (trim (re_message d)) <> Ok (VObj o)) ->
  parseReturnErrorDraft (buildReturnErrorValueText d) = shown_error d.
Proof.
  intros Hu Hs Hj. unfold buildReturnErrorValueText, shown_error. destruct (re_simpleMode d).
  - unfold parseReturnErrorDraft. rewrite trim_idemp. destruct (trim (re_message d)) as [|c s] eqn:E; [done|].
    cbn [str_truthy negb]. destruct (json_parse (c :: s)) as [v|]; [|done]. cbn [res_bind].
    destruct v as [| | | | | |o|]; try done. by destruct (Hj eq_refl o).
  - destruct (return_error_printable d Hu Hs) as [Hp Ho]. unfold parseReturnErrorDraft.
    rewrite trim_stringify, json_parse_stringify by done.
    assert (Ht : str_truthy (stringify (VObj (return_error_payload d))) = true)
      by apply (truthy_stringify (return_error_payload d)).
    rewrite Ht. cbn [negb res_bind]. 
    rewrite (oget_error d (js "message")), (oget_error d (js "status_code")), (oget_error d (js "code")),
      (oget_error d (js "type")), (oget_error d (js "skip_retry")) by decide_now.
    js_keys. rewrite !default_some. cbn [to_num res_bind]. rewrite !trimmed_when. cbn [res_bind catch].
    assert (Hm : trimmed_text (vor (VStr (trim (re_message d))) (oget (js "msg") (return_error_payload d))) = Ok (trim (re_message d))).
    { unfold vor. cbn [truthy]. destruct (str_truthy (trim (re_message d))) eqn:E.
      - by rewrite trimmed_text_str, trim_idemp.
      - assert (Hg : oget (js "msg") (return_error_payload d) = VUndef).
        { unfold oget. rewrite return_error_properties. unfold return_error_entries.
          rewrite !olookup_app, !olookup_entry. cbn [olookup]. js_keys. reflexivity. }
        rewrite Hg. apply truthy_nil in E. by rewrite E. }
    rewrite Hm. cbn [res_bind catch]. rewrite status_or_400_idemp. f_equal. by destruct (re_skipRetry d).
Qed.

(** ** [prune_objects]: the conditions *)

Section prune.
Context (now : N -> N).

(** The identifiers of a draft are made when it is read. *)
Definition rules_made (n n' : N) (rules : list PruneRule) : Prop := Forall (made now n n') (map co_id rules).

Lemma rules_made_turns n n' rules :
  turns (fun a b c => made now a b (co_id c)) n n' rules -> n <= n' /\ rules_made n n' rules.
Proof.
  unfold rules_made. induction 1 as [n|lo mid hi r l Hle Hr _ [Hle' IH]]; [split; [done|constructor]|].
  split; [lia|]. cbn [map]. constructor.
  - by eapply made_mono; [| |exact Hr]; lia.
  - eapply Forall_impl; [exact IH|]. intros id. by apply made_mono; lia.
Qed.

Lemma wp_prune_rule n v : wp n (normalizePruneRule now v) (fun n' c => made now n n' (co_id c)).
Proof.
  unfold normalizePruneRule. apply wp_bind, wp_id. intros _. wp_lifts. apply wp_ret. cbn [co_id].
  exists n. split; [lia|done].
Qed.

Lemma wp_prune_rules {A} (f : A -> M PruneRule) l n :
  (forall n x, wp n (f x) (fun n' c => made now n n' (co_id c))) -> wp n (mapM f l) (fun n' rs => rules_made n n' rs).
Proof.
  intros Hf. eapply wp_mono; [apply (wp_mapM _ (fun a b c => made now a b (co_id c))); intros; apply Hf|].
  intros n' rs _ [Ht _]. by apply rules_made_turns in Ht as [_ ?].
Qed.

Lemma rules_made_nil n n' : rules_made n n' [].
Proof. constructor. Qed.

Lemma wp_where n v : wp n (rules_of_where now v) (fun n' rs => rules_made n n' rs).
Proof.
  unfold rules_of_where. destruct v; try apply wp_ret, rules_made_nil.
  apply wp_prune_rules. intros. apply wp_prune_rule.
Qed.

Lemma wp_conditions n v : wp n (rules_of_conditions now v) (fun n' rs => rules_made n n' rs).
Proof.
  unfold rules_of_conditions. destruct v; try apply wp_ret, rules_made_nil.
  all: apply wp_prune_rules; intros; apply wp_prune_rule.
Qed.

Lemma rules_made_mono a b a' b' rs : a' <= a -> b <= b' -> rules_made a b rs -> rules_made a' b' rs.
Proof. intros ?? H. eapply Forall_impl; [exact H|]. intros id. by apply made_mono. Qed.

Lemma wp_draft_object n o : wp n (prune_draft_of_object now o) (fun n' d => rules_made n n' (pd_rules d)).
Proof.
  unfold prune_draft_of_object. apply wp_bind. eapply wp_mono; [apply wp_where|]. intros n1 ws H1 Hw _.
  apply wp_bind. eapply wp_mono; [apply wp_conditions|]. intros n2 cs H2 Hc _.
  assert (Hr : forall n3, n2 <= n3 -> rules_made n n3 (ws ++ cs)).
  { intros n3 H3. unfold rules_made. rewrite map_app. apply Forall_app.
    split; (eapply rules_made_mono; [| |eassumption]; lia). }
  apply wp_bind. apply (wp_mono _ _ (fun _ _ => True)).
  - destruct (oget _ o); try (by apply wp_ret); by apply wp_lift.
  - intros n3 ty H3 _ _. apply wp_bind, wp_lift. intros lg _ _. apply wp_ret. cbn [pd_rules]. by apply Hr.
Qed.

Lemma wp_draft n vt : wp n (parsePruneObjectsDraft now vt) (fun n' d => rules_made n n' (pd_rules d)).
Proof.
  unfold parsePruneObjectsDraft. destruct (negb _); [apply wp_ret, rules_made_nil|].
  apply wp_try; [|intros; apply rules_made_nil]. apply wp_bind, wp_lift. intros v _ _.
  destruct v; try (apply wp_bind, wp_lift; intros ? _ _); try apply wp_ret, rules_made_nil. apply wp_draft_object.
Qed.

(** The text read and written without a change. *)
Definition rewrite_prune (vt : jstr) : M jstr :=
  let! draft := parsePruneObjectsDraft now vt in ret (buildPruneObjectsValueText draft).

(** The edits of one condition. *)
Inductive edits_rule (id : jstr) : PruneEdit -> Prop :=
  | edits_update p : edits_rule id (UpdatePruneRule id p)
  | edits_remove : edits_rule id (RemovePruneRule id).

Lemma no_rule_matches n n' id rules :
  rules_made n n' rules -> (forall k, made now n n' (local_id now k) -> id <> local_id now k) ->
  Forall (fun r => co_id r <> id) rules.
Proof.
  intros H Hid. apply list.Forall_forall. intros r Hr E.
  assert (Hm : made now n n' (co_id r)).
  { eapply (proj1 (list.Forall_forall _ _) H). apply list_elem_of_fmap. by exists r. }
  pose proof Hm as (k & _ & Ek). apply (Hid k); congruence.
Qed.

Lemma patch_no_match e id d :
  edits_rule id e -> Forall (fun r => co_id r <> id) (pd_rules d) -> patch_prune now e d = ret d.
Proof.
  intros He Hr. destruct d as [b ty l r rules]. cbn [pd_rules] in Hr. destruct He; cbn [patch_prune]; do 2 f_equal.
  - rewrite <-(map_id rules) at 2. apply map_ext_in. intros x Hx. rewrite list.Forall_forall in Hr.
    rewrite bool_decide_eq_false_2; [done|]. apply Hr. by apply list_elem_of_In.
  - induction Hr as [|x rules Hx _ IH]; [done|]. cbn [List.filter].
    rewrite bool_decide_eq_false_2 by done. cbn [negb]. by rewrite IH.
Qed.

(** The conditions of a prune rule that are shown cannot be edited or
    removed: an edit reads the text again, which gives every condition a new
    identifier, and so changes nothing. *)
Theorem prune_conditions_fixed vt n shown n1 rule e vt' m :
  parsePruneObjectsDraft now vt n = (Ok shown, n1) -> rule ∈ pd_rules shown -> n1 <= m -> edits_rule (co_id rule) e ->
  edit_prune now e vt' m = rewrite_prune vt' m.
Proof.
  intros Hs Hr Hm He. pose proof (wp_draft n vt) as W. unfold wp in W. rewrite Hs in W. destruct W as [_ W].
  unfold rules_made in W. rewrite list.Forall_forall in W.
  assert (Hid : made now n n1 (co_id rule)) by (apply W; apply list_elem_of_fmap; by exists rule).
  unfold edit_prune, rewrite_prune, bind. pose proof (wp_draft m vt') as W'. unfold wp in W'.
  destruct (parsePruneObjectsDraft now vt' m) as [[d|] m']; [|done]. destruct W' as [_ W'].
  rewrite (patch_no_match e (co_id rule)); [done|exact He|].
  eapply no_rule_matches; [exact W'|]. intros k Hk E. eapply (made_disjoint now n n1 m m'); [exact Hm|exact Hid|].
  by rewrite E.
Qed.
End prune.

Lemma return_error_shown_witness :
  parseReturnErrorDraft (buildReturnErrorValueText
    (MkReturnError (js "no access ") (num_of_Z 40) (js "denied") [] false false))
  = MkReturnError (js "no access") (num_of_Z 400) (js "denied") [] false false.
Proof.
  exact (return_error_shown (MkReturnError (js "no access ") (num_of_Z 40) (js "denied") [] false false)
    (conj eq_refl (conj eq_refl eq_refl)) ltac:(vm_compute; reflexivity) ltac:(discriminate)).
Defined.

(** A stored condition on [type] that the user tries to remove. *)
Definition prune_text : jstr := jsq "{`type`:`thinking`,`conditions`:[{`path`:`type`,`mode`:`full`,`value`:`x`}]}".
Definition shown_rule : PruneRule := MkCondition (local_id (fun n => n) 5) (js "type") (js "full") (js "x") false false.

Lemma prune_conditions_fixed_witness :
  edit_prune (fun n => n) (RemovePruneRule (co_id shown_rule)) prune_text 6 = rewrite_prune (fun n => n) prune_text 6.
Proof.
  apply (prune_conditions_fixed (fun n => n) prune_text 5 (MkPrune false (js "thinking") (js "AND") true [shown_rule]) 6 shown_rule);
    [vm_compute; reflexivity|left|reflexivity|constructor].
Defined.
