(* ===== verification/ParamPrune.v ===== *)
(** * Parameter overrides: the advanced form of [prune_objects]

    From a new rule, no sequence of edits of the form sets the logic to OR,
    the recursion to the current level, or a condition: the text that is
    written between two edits does not keep the advanced form, or not what
    was set in it. *)
From S2P Require Import Prelude JsString JsNumber JsValue JsValueFacts JsJson JsJsonFacts JsJsonRoundtrip JsStorable JsLiteral ParamModes ParamOverride ParamDrafts ParamIds ParamDialogFacts ParamCheck ParamRoundtrip.
Open Scope N_scope.

(** A type as it is typed: blank, or text that is not JSON. *)
Definition plain_type (s : jstr) : Prop :=
  forallb is_unit s = true /\ (trim s <> [] -> exists e, json_parse (trim s) = Throw e).

(** The texts that the edits reach. *)
Inductive dull_text : jstr -> Prop :=
  | dull_plain s : plain_type s -> dull_text (trim s)
  | dull_logic : dull_text (stringify (VObj [(js "logic", str "AND")]))
  | dull_type s : plain_type s -> trim s <> [] -> dull_text (stringify (VObj [(js "type", VStr (trim s))])).

Record dull_draft (d : PruneObjectsDraft) : Prop := {
  dd_logic : pd_logic d = js "AND";
  dd_recursive : pd_recursive d = true;
  dd_rules : pd_rules d = [];
  dd_type : plain_type (pd_typeText d);
  dd_simple : trim (pd_typeText d) <> [] -> pd_simpleMode d = true }.

(** The edits that the form offers, with plain types. *)
Definition plain_edit (e : PruneEdit) : Prop :=
  match e with PruneType s => plain_type s | _ => True end.

Lemma plain_trim s : plain_type s -> plain_type (trim s).
Proof. intros [Hu Hp]. split; [by apply forallb_trim|]. by rewrite trim_idemp. Qed.

Lemma plain_nil : plain_type [].
Proof. by split. Qed.

Lemma type_object_parses s :
  plain_type s -> json_parse (stringify (VObj [(js "type", VStr (trim s))])) = Ok (VObj [(js "type", VStr (trim s))]).
Proof.
  intros [Hu _]. destruct (printable_object [(js "type", VStr (trim s))]) as [Hj Ho]; [|by apply json_parse_stringify].
  apply good_single; [done|done|]. by apply printable_string, forallb_trim.
Qed.

Section prune.
Context (now : N -> N).

Lemma read_dull vt n : dull_text vt -> exists d, parsePruneObjectsDraft now vt n = (Ok d, n) /\ dull_draft d.
Proof.
  intros H. unfold parsePruneObjectsDraft. destruct H as [s Hs| |s Hs Hne].
  - rewrite trim_idemp. destruct (str_truthy (trim s)) eqn:E; cbn [negb].
    + apply truthy_iff in E. destruct (proj2 Hs E) as [e He].
      exists (prune_simple (trim s)). split; [unfold try, bind, lift; by rewrite He|].
      constructor; try done. by apply plain_trim.
    + exists prune_defaults. split; [done|]. by constructor.
  - exists (MkPrune false [] (js "AND") true []). split; [vm_compute; reflexivity|].
    by constructor.
  - rewrite trim_stringify. assert (Ht : str_truthy (stringify (VObj [(js "type", VStr (trim s))])) = true)
      by apply (truthy_stringify [(js "type", VStr (trim s))]).
    rewrite Ht. cbn [negb]. rewrite type_object_parses by done.
    exists (MkPrune true (trim s) (js "AND") true []). split.
    + unfold try, bind at 1, lift at 1, prune_draft_of_object, oget. cbn [olookup]. js_keys.
      cbn [default from_option]. unfold id. cbn. by rewrite trim_idemp.
    + constructor; try done. by apply plain_trim.
Qed.

(** Writing a draft of which only one part was changed. *)
Lemma write_dull d :
  plain_type (pd_typeText d) -> Forall (fun r => trim (co_path r) = []) (pd_rules d) ->
  (trim (pd_typeText d) <> [] -> pd_simpleMode d = true \/ pd_logic d = js "AND" /\ pd_recursive d = true) ->
  dull_text (buildPruneObjectsValueText d).
Proof.
  intros Hp Hr Ha. unfold buildPruneObjectsValueText. destruct (pd_simpleMode d) eqn:Es; [by apply dull_plain|].
  assert (Ef : List.filter (fun rule => str_truthy (trim (co_path rule))) (pd_rules d) = []).
  { induction Hr as [|r rs Hr' _ IH]; [done|]. cbn [List.filter]. by rewrite Hr'. }
  rewrite Ef. cbn [map]. cbv zeta. rewrite (bool_decide_eq_true_2 ([] = [])) by done. cbn [negb oset_if].
  destruct (str_truthy (trim (pd_typeText d))) eqn:Et; cbn [oset_if].
  - pose proof Et as Hne. apply truthy_iff in Hne. destruct (Ha Hne) as [?|[-> ->]]; [done|].
    change (upper_is (js "OR") (str_or (js "AND") (js "AND"))) with false. cbn [negb oset_if].
    change (oset (js "type") (VStr (trim (pd_typeText d))) []) with [(js "type", VStr (trim (pd_typeText d)))].
    unfold oget at 1. cbn [olookup]. js_keys. cbn [default from_option]. unfold id. cbn [truthy]. rewrite Et. cbn [negb andb].
    by apply dull_type.
  - destruct (upper_is _ _), (pd_recursive d); exact dull_logic.
Qed.

Lemma edit_dull e d n :
  plain_edit e -> dull_draft d ->
  exists d' n', patch_prune now e d n = (Ok d', n') /\ dull_text (buildPruneObjectsValueText d').
Proof.
  intros He Hd. pose proof Hd as [Hl Hrec Hru Hty Hsi]. destruct d as [b ty l r rules].
  cbn [pd_logic pd_recursive pd_rules pd_typeText pd_simpleMode] in *. subst l r rules.
  assert (Hb : forall b' ty' l' r' rules', plain_type ty' -> Forall (fun x => trim (co_path x) = []) rules' ->
    (trim ty' <> [] -> b' = true \/ l' = js "AND" /\ r' = true) ->
    dull_text (buildPruneObjectsValueText (MkPrune b' ty' l' r' rules'))) by (intros; by apply write_dull).
  destruct e; cbn [patch_prune plain_edit] in *; eexists _, _; (split; [reflexivity|]); apply Hb;
    try done; try (by constructor); try (by right); try (by left; apply Hsi).
Qed.

(** The advanced form cannot be used: whatever is chosen in the form of a
    new rule, in any order, the logic stays AND, the recursion stays on and
    there is no condition. *)
Theorem prune_never_advanced edits n :
  Forall plain_edit edits ->
  let text := fold_left (fun acc e => let! vt := acc in edit_prune now e vt) edits (ret []) in
  exists vt n' d,
    text n = (Ok vt, n') /\ parsePruneObjectsDraft now vt n' = (Ok d, n')
    /\ pd_logic d = js "AND" /\ pd_recursive d = true /\ pd_rules d = [].
Proof.
  intros He. cbv zeta. enough (H : exists vt n', fold_left (fun acc e => let! vt := acc in edit_prune now e vt) edits (ret []) n
    = (Ok vt, n') /\ dull_text vt).
  { destruct H as (vt & n' & E & Hd). destruct (read_dull vt n' Hd) as (d & Ed & [Hl Hr Hru _ _]).
    exists vt, n', d. done. }
  induction edits as [|e edits IH] using rev_ind; [exists [], n; split; [done|apply (dull_plain []), plain_nil]|].
  apply Forall_app in He as [Hes He]. apply Forall_cons in He as [He _].
  destruct (IH Hes) as (vt & n1 & E & Hd). rewrite fold_left_app. cbn [fold_left].
  unfold bind at 1. rewrite E. destruct (read_dull vt n1 Hd) as (d & Ed & Hdd).
  unfold edit_prune, bind. rewrite Ed. destruct (edit_dull e d n1 He Hdd) as (d' & n2 & E' & Ht).
  rewrite E'. by exists (buildPruneObjectsValueText d'), n2.
Qed.
End prune.

Lemma prune_never_advanced_witness :
  exists vt n' d,
    fold_left (fun acc e => let! vt := acc in edit_prune (fun n => n) e vt)
      [PruneSimple false; PruneLogic (js "OR"); PruneType (js "thinking"); PruneRecursive false; AddPruneRule]
      (ret []) 0 = (Ok vt, n')
    /\ parsePruneObjectsDraft (fun n => n) vt n' = (Ok d, n')
    /\ pd_logic d = js "AND" /\ pd_recursive d = true /\ pd_rules d = [].
Proof.
  apply (prune_never_advanced (fun n => n)). constructor; [exact I|]. constructor; [exact I|].
  constructor; [|constructor; [exact I|constructor; [exact I|constructor]]].
  split; [reflexivity|]. intros _. exists SyntaxError. vm_compute. reflexivity.
Defined.
