(* ===== verification/ParamSave.v ===== *)
(** * Parameter overrides: what is handed to the channel form

    What the dialog saves passes the check of the channel form; the value of
    a rule that is a text is read again as the value that the text spells;
    a rule that is [null] closes the editor. *)
From S2P Require Import Prelude JsString JsNumber JsValue JsValueFacts JsJson JsJsonFacts JsJsonRoundtrip JsStorable JsLiteral AdvancedCustom ChannelForm ParamModes ParamOverride ParamDrafts ParamDialog ParamIds ParamDialogFacts ParamCheck ParamRoundtrip.
Open Scope N_scope.

(** ** The channel form *)

Lemma object_text_accepted o :
  printable (VObj o) -> isOptionalJsonObject (Some (stringify2 (VObj o))) = true.
Proof.
  intros [Hj Ho]. unfold isOptionalJsonObject, parseOptionalJson, blank. cbn [default from_option]. unfold id.
  rewrite trim_stringify2. destruct (print_obj_ends [32; 32] o) as [u Hu]. unfold stringify2 at 1. rewrite Hu.
  cbn [str_truthy negb]. by rewrite json_parse_stringify2.
Qed.

Section save.
Context (now : N -> N) (t : jstr -> option nat -> jstr) (t_nonempty : forall key line, t key line <> []).

(** The values of the dialog that print. *)
Definition printable_dialog (d : Dialog) : Prop :=
  match es_visualMode (dl_content d) with
  | VMoperations => Forall printable_operation (kept (dl_operations d))
  | VMlegacy => forall v, json_parse (trim (es_legacyValue (dl_content d))) = Ok v -> printable v
  end.

(** C30.  What the visual editor saves, as rules or as an object of the old
    format, is empty or a text that the channel form accepts.  This is for
    rules of the modes that the editor offers, whose texts are made of UTF-16
    units and whose values, read as the editor reads them (a JSON text as the
    value that it spells, any other text as itself), are values that JSON
    prints so that they are read back: no number that is infinite or prints
    as another, and object keys in the order of the language. *)
Theorem visual_save_accepted d text :
  es_editMode (dl_content d) = EMvisual -> printable_dialog d -> save_result t d = inr text ->
  isOptionalJsonObject (Some text) = true.
Proof.
  intros He Hw Hs. unfold save_result in Hs. rewrite He in Hs. unfold buildVisualJson in Hs.
  unfold printable_dialog in Hw. destruct (es_visualMode (dl_content d)).
  - apply (written_inv t t_nonempty) in Hs as [_ ->]. unfold saved_text.
    destruct (kept (dl_operations d)) as [|o l] eqn:E; [done|]. rewrite <-E in *.
    apply object_text_accepted, printable_object, good_single; [done|done|].
    apply printable_list, Forall_fmap. eapply Forall_impl; [exact Hw|]. intros x Hx. cbn.
    rewrite payload_properties by apply Hx. by apply rule_printable.
  - destruct (negb _); [by injection Hs as <-|]. destruct (json_parse _) as [v|]; [|done].
    destruct v; try discriminate Hs. injection Hs as <-. by apply object_text_accepted, Hw.
Qed.

(** ** Texts that spell another value *)

(** A value that is a text changes its type when the rule is opened and
    saved: the text is shown as it is, and read as the JSON value it spells. *)
Theorem text_value_retyped p s v n :
  trim s <> [] -> json_parse (trim s) = Ok v ->
  exists op n',
    normalizeOperation now (VObj [(js "mode", str "set"); (js "path", VStr p); (js "value", VStr s)]) n = (Ok op, n')
    /\ oget (js "value") (operation_payload op) = v.
Proof.
  intros Hne Hv. eexists _, _. split; [reflexivity|]. rewrite payload_properties by (apply mode_or_in, set_listed).
  rewrite oget_rule by decide_now. js_keys. cbn [op_mode op_value_text].
  assert (Hm : m_value (meta_of (mode_or OPERATION_MODE_VALUES (js "set") (VStr (js "set")))) = true) by reflexivity.
  change (oget (js "mode") _) with (VStr (js "set")).
  rewrite Hm. cbn [when default from_option]. unfold id. change (toValueText _) with s.
  rewrite parseLoose_filled by done. by rewrite Hv.
Qed.

(** ** Rules that are [null] *)

Lemma mapM_null l n : VNull ∈ l -> exists e n', mapM (normalizeOperation now) l n = (Throw e, n').
Proof.
  revert n. induction l as [|v l IH]; intros n; [by intros ?%not_elem_of_nil|]. rewrite elem_of_cons.
  intros [<-|Hin]; [by exists TypeError, (n + 1)|]. cbn [mapM]. unfold bind.
  destruct (normalizeOperation now v n) as [[o|e] n1]; [|by exists e, n1].
  destruct (IH n1 Hin) as (e & n2 & E). rewrite E. by exists e, n2.
Qed.

(** A stored list of rules with a [null] in it makes the dialog throw
    when it is opened: it can be edited neither as rules nor as text. *)
Theorem null_rule_throws text o l d n :
  json_parse (trim text) = Ok (VObj o) -> oget (js "operations") o = VArr l -> VNull ∈ l ->
  exists e n', openDialog now text d n = (Throw e, n').
Proof.
  intros Hj Ho Hl. unfold openDialog, parseInitialState. cbv zeta.
  assert (Ht : str_truthy (trim text) = true) by (destruct (trim text); [discriminate Hj|done]).
  rewrite Ht. unfold verifyJSON. rewrite Hj. cbn [negb res_map res_bind catch].
  assert (E : exists e n', operations_of now l n = (Throw e, n')).
  { destruct l as [|v l]; [by apply not_elem_of_nil in Hl|]. by apply mapM_null. }
  destruct E as (e & n' & E). exists e, n'. unfold bind at 1. unfold bind at 1. cbn [lift].
  unfold lift. rewrite Ho. unfold bind. by rewrite E.
Qed.
End save.

(** A rule whose value is the quoted text of a number: it is saved and accepted,
    although opening it again makes it a number. *)
Definition quoted_rule : ParamOverrideOperation :=
  MkOperation (js "q") [] (js "user") (js "set") [] [] (jsq "`123`") false (js "OR") [].
Definition quoted_dialog : Dialog :=
  MkDialog (MkEditor EMvisual VMoperations [] [sample_rule; quoted_rule] [] []) (dl_ui sample_dialog).

Lemma visual_save_accepted_witness :
  isOptionalJsonObject (Some (operations_text [sample_rule; quoted_rule])) = true.
Proof.
  apply (visual_save_accepted sample_translation sample_nonempty quoted_dialog).
  - reflexivity.
  - constructor; [apply writable_printable, sample_writable|]. constructor; [|constructor].
    constructor; [|reflexivity..| |constructor].
    + split; [decide_now|]. split; [decide_now|constructor].
    + split; [vm_compute; reflexivity|exact I].
  - vm_compute. reflexivity.
Defined.

(** The identifier [123] of a user, stored as a text, is saved as a number. *)
Lemma text_value_retyped_witness :
  exists op n',
    normalizeOperation (fun n => n)
      (VObj [(js "mode", str "set"); (js "path", str "user"); (js "value", str "123")]) 0 = (Ok op, n')
    /\ oget (js "value") (operation_payload op) = int 123.
Proof.
  apply (text_value_retyped (fun n => n) (js "user") (js "123") (int 123) 0);
    [discriminate|vm_compute; reflexivity].
Defined.

Lemma null_rule_throws_witness :
  exists e n', openDialog (fun n => n) (jsq "{`operations`:[null]}") sample_dialog 0 = (Throw e, n').
Proof.
  apply (null_rule_throws (fun n => n) (jsq "{`operations`:[null]}") [(js "operations", VArr [VNull])] [VNull]);
    [vm_compute; reflexivity|reflexivity|left].
Defined.
