(* ===== verification/SecureVerify.v ===== *)
(** * Secure verification
      (lib/secure-verification.ts; features/auth/secure-verification: api.ts,
      types.ts, hooks/use-secure-verification.ts; the request options and the
      assertion of lib/passkey.ts)

    A sensitive call that the server refuses is made again once the user has
    verified.  The hook keeps its state and the asynchronous functions that
    wait ([pendings]); an [input] is a call of one of its functions or the
    settling of what a waiting function awaits, in any order, and a step gives
    the requests, messages and results that follow ([action]s).  A page's call
    is a closure, by number; the texts of the exceptions that the platform
    raises are a parameter ([platform_message]). *)
From S2P Require Import Prelude JsString JsNumber JsValue Passkey.
Open Scope N_scope.

(** ** What a promise is rejected with *)

Inductive thrown :=
  | ThError (message : jstr)                         (* [new Error(message)] *)
  | ThNative (name : jstr)                           (* an exception of the platform *)
  | ThRequest (message : jstr) (response : jsval)    (* an [AxiosError] *)
  | ThValue (v : jsval).                             (* a value that is no [Error] *)

Abbreviation outcome A := (A + thrown)%type.

Definition native (e : jserror) : thrown :=
  ThNative (match e with TypeError => js "TypeError" | SyntaxError => js "SyntaxError" | RangeError => js "RangeError" end).

(** An exception of the language, as a rejection. *)
Definition lift {A} (c : res A) : outcome A := match c with Ok a => inl a | Throw e => inr (native e) end.

Definition try {A B} (c : outcome A) (k : A -> outcome B) : outcome B :=
  match c with inl a => k a | inr e => inr e end.

Notation "'try*' x ':=' c 'in' k" := (try c (fun x => k)) (at level 10, x pattern, k at level 200) : js_scope.

(** [v?.k]: it does not throw. *)
Definition opt_field (k : jstr) (v : jsval) : jsval := catch (vget_opt k v) VUndef.

(** [new Error(v || text)] *)
Definition error_or (v : jsval) (text : jstr) : thrown :=
  if truthy v then match to_str v with Ok s => ThError s | Throw e => native e end else ThError text.

(** ** lib/secure-verification.ts *)

Definition response_of (error : thrown) : jsval :=
  match error with
  | ThRequest _ response => response
  | ThValue v => opt_field (js "response") v
  | _ => VUndef
  end.

(** [error && typeof error === 'object'] *)
Definition object_like (error : thrown) : bool := match error with ThValue v => is_object v | _ => true end.

Definition verificationCodes : list jstr :=
  [js "VERIFICATION_REQUIRED"; js "VERIFICATION_EXPIRED"; js "VERIFICATION_INVALID"].

Definition isVerificationRequiredError (error : thrown) : bool :=
  if negb (object_like error) then false else
  let is_403 := match opt_field (js "status") (response_of error) with VNum x => neqb x (num_of_Z 403) | _ => false end in
  if negb is_403 then false else
  let code := opt_field (js "code") (opt_field (js "data") (response_of error)) in
  if negb (truthy code) then false else
  match code with VStr s => bool_decide (s ∈ verificationCodes) | _ => false end.

(** The message of the information; its code and [required: true] are not used. *)
Definition extractVerificationInfo (error : thrown) : jsval :=
  vcoalesce (opt_field (js "message") (opt_field (js "data") (response_of error)))
            (VStr (js "Secure verification is required")).

(** ** The methods *)

Inductive VerificationMethod := M2FA | MPasskey.

#[export] Instance VerificationMethod_eq_dec : EqDecision VerificationMethod.
Proof. solve_decision. Defined.

Record VerificationMethods := MkMethods { has2FA : bool; hasPasskey : bool; passkeySupported : bool }.

Definition defaultMethods : VerificationMethods := MkMethods false false false.

(** [Boolean(r?.success) && Boolean(r?.data?.enabled)] *)
Definition reported_enabled (r : jsval) : bool :=
  truthy (opt_field (js "success") r) && truthy (opt_field (js "enabled") (opt_field (js "data") r)).

(** The settled [Promise.all]: the two bodies and the support of the
    platform, or the first rejection. *)
Definition checkVerificationMethods (settled : outcome (jsval * jsval * bool)) : VerificationMethods :=
  match settled with
  | inl (twoFAResponse, passkeyResponse, passkeySupported) =>
      MkMethods (reported_enabled twoFAResponse) (reported_enabled passkeyResponse) passkeySupported
  | inr _ => MkMethods false false false
  end.

(** ** The credential (lib/passkey.ts) *)

(** What the page finds on the window: a function that does not exist
    ([None]), one that rejects ([Some None]), or what its promise gives. *)
Record Platform := MkPlatform {
  has_window : bool; has_PublicKeyCredential : bool;
  conditionalMediation : option (option jsval); platformAuthenticator : option (option bool)
}.

Definition isPasskeySupported (p : Platform) : bool :=
  if negb (has_window p) then false
  else if negb (has_PublicKeyCredential p) then false
  else if match conditionalMediation p with Some (Some available) => truthy available | _ => false end then true
  else match platformAuthenticator p with
       | Some (Some available) => available
       | Some None => false
       | None => true
       end.

(** [base64UrlToArrayBuffer] of any value: what is no string is converted by
    [value + padding], and only an array has a [length]; an exception is
    [InvalidCharacterError] of [atob], or that of the conversion. *)
Definition buffer_of (v : jsval) : outcome (list N) :=
  if negb (truthy v) then inl [] else
  let decoded (s : jstr) (len : nat) :=
    match atob (replace_char 95 [47] (replace_char 45 [43] (s ++ replicate ((4 - len mod 4) mod 4) 61))) with
    | Some b => inl b
    | None => inr (ThNative (js "InvalidCharacterError"))
    end in
  match v with
  | VStr s => match base64UrlToArrayBuffer (Some s) with
              | Some b => inl b
              | None => inr (ThNative (js "InvalidCharacterError"))
              end
  | VArr l => try* s := lift (to_str v) in decoded s (length l)
  | _ => try* s := lift (to_str v) in decoded s 0%nat
  end.

(** The options: the properties that are spread, and what replaces two of
    them, the challenge as a buffer and, where they are an array, the allowed
    credentials with the buffers that replace their [id]s. *)
Record RequestOptions := MkOptions {
  ro_spread : jsobj; ro_challenge : list N; ro_allow : option (list (jsobj * list N))
}.

Fixpoint allowed (items : list jsval) : outcome (list (jsobj * list N)) :=
  match items with
  | [] => inl []
  | item :: items =>
      try* raw := lift (vget (js "id") item) in
      try* b := buffer_of raw in
      try* rest := allowed items in
      inl ((obj_of (entries item), b) :: rest)
  end.

Definition prepareCredentialRequestOptions (payload : jsval) : outcome RequestOptions :=
  let options := vcoalesce (opt_field (js "publicKey") payload)
                   (vcoalesce (opt_field (js "PublicKey") payload)
                      (vcoalesce (opt_field (js "response") payload) (opt_field (js "Response") payload))) in
  if negb (truthy options) then inr (ThError (js "Unable to parse Passkey login options from response"))
  else
    try* challenge := buffer_of (opt_field (js "challenge") options) in
    match opt_field (js "allowCredentials") options with
    | VArr items => try* l := allowed items in inl (MkOptions (obj_of (entries options)) challenge (Some l))
    | _ => inl (MkOptions (obj_of (entries options)) challenge None)
    end.

(** What [navigator.credentials.get] gives. *)
Record Credential := MkCredential {
  cr_id : jstr; cr_rawId : list N; cr_type : jstr; cr_attachment : jsval;
  cr_authenticatorData : list N; cr_clientDataJSON : list N; cr_signature : list N;
  cr_userHandle : option (list N); cr_extensions : jsval
}.

(** [None]: [btoa] refuses, which it never does on bytes. *)
Definition encoded (b : list N) : option jsval := VStr <$> arrayBufferToBase64Url (Some b).

Definition buildAssertionResult (c : Credential) : option jsval :=
  rawId ← encoded (cr_rawId c);
  authenticatorData ← encoded (cr_authenticatorData c);
  clientDataJSON ← encoded (cr_clientDataJSON c);
  signature ← encoded (cr_signature c);
  userHandle ← match cr_userHandle c with Some h => encoded h | None => Some VNull end;
  Some (VObj [ (js "id", VStr (cr_id c)); (js "rawId", rawId); (js "type", VStr (cr_type c));
               (js "authenticatorAttachment", cr_attachment c);
               (js "response", VObj [ (js "authenticatorData", authenticatorData); (js "clientDataJSON", clientDataJSON);
                                      (js "signature", signature); (js "userHandle", userHandle) ]);
               (js "clientExtensionResults", vcoalesce (cr_extensions c) (VObj [])) ]).

(** The options for a new credential: what is spread, without an empty list
    of attestation formats, and what replaces three properties. *)
Record CreationOptions := MkCreation {
  co_spread : jsobj; co_challenge : list N; co_user : jsobj * list N; co_exclude : option (list (jsobj * list N))
}.

Definition prepareCredentialCreationOptions (payload : jsval) : outcome CreationOptions :=
  let options := vcoalesce (opt_field (js "publicKey") payload)
                   (vcoalesce (opt_field (js "PublicKey") payload)
                      (vcoalesce (opt_field (js "response") payload) (opt_field (js "Response") payload))) in
  if negb (truthy options) then inr (ThError (js "Unable to parse Passkey registration options from response"))
  else
    let user := opt_field (js "user") options in
    let spread := obj_of (entries options) in
    let spread := match opt_field (js "attestationFormats") options with
                  | VArr [] => odelete (js "attestationFormats") spread
                  | _ => spread
                  end in
    try* challenge := buffer_of (opt_field (js "challenge") options) in
    try* user_id := buffer_of (opt_field (js "id") user) in
    let made := MkCreation spread challenge (obj_of (entries user), user_id) in
    match opt_field (js "excludeCredentials") options with
    | VArr items => try* l := allowed items in inl (made (Some l))
    | _ => inl (made None)
    end.

(** What [navigator.credentials.create] gives; [nc_transports] is [None] when
    the platform has no [getTransports]. *)
Record NewCredential := MkNewCredential {
  nc_id : jstr; nc_rawId : list N; nc_type : jstr; nc_attachment : jsval;
  nc_attestationObject : list N; nc_clientDataJSON : list N; nc_transports : option (list jstr); nc_extensions : jsval
}.

Definition buildRegistrationResult (c : NewCredential) : option jsval :=
  rawId ← encoded (nc_rawId c);
  attestationObject ← encoded (nc_attestationObject c);
  clientDataJSON ← encoded (nc_clientDataJSON c);
  Some (VObj [ (js "id", VStr (nc_id c)); (js "rawId", rawId); (js "type", VStr (nc_type c));
               (js "authenticatorAttachment", nc_attachment c);
               (js "response", VObj [ (js "attestationObject", attestationObject); (js "clientDataJSON", clientDataJSON);
                                      (js "transports", match nc_transports c with Some l => VArr (map VStr l) | None => VUndef end) ]);
               (js "clientExtensionResults", vcoalesce (nc_extensions c) (VObj [])) ]).

(** ** The state of the hook *)

Record InternalState := MkState {
  method : option VerificationMethod; loading : bool; code : jstr;
  title : option jstr; description : option jstr; apiCall : option nat
}.

Definition initialState : InternalState := MkState None false [] None None None.

Definition set_loading (b : bool) (s : InternalState) : InternalState :=
  MkState (method s) b (code s) (title s) (description s) (apiCall s).

Record StartVerificationOptions := MkStart {
  preferredMethod : option VerificationMethod; o_title : option jstr; o_description : option jstr
}.

(** Where a verification waits: for the answer of a request, for the
    authenticator, or for the page's call. *)
Inductive stage := At2FA | AtBegin | AtCredential | AtFinish | AtPasskey | AtCall.

(** The asynchronous functions that wait. *)
Inductive pending :=
  | PFetch                                                                 (* fetchVerificationMethods *)
  | PStart (call : nat) (config : StartVerificationOptions) (from_with : bool)  (* startVerification *)
  | PWith (call : nat) (config : StartVerificationOptions)                 (* withVerification *)
  | PExec (call : nat) (m : VerificationMethod) (st : stage).              (* executeVerification *)

Record Hook := MkHook {
  methods : VerificationMethods; state : InternalState; open : bool;
  pendings : list (nat * pending); next : nat
}.

(** The effect on mounting calls fetchVerificationMethods. *)
Definition mounted : Hook := MkHook defaultMethods initialState false [(0%nat, PFetch)] 1.

(** What the component is given, and the platform. *)
Record Setup := MkSetup {
  successMessage : jstr; autoReset : bool; credentials_api : bool; platform_message : jstr -> jstr
}.

Inductive input :=
  | InFetch
  | InStart (call : nat) (config : StartVerificationOptions)
  | InWith (call : nat) (config : StartVerificationOptions)
  | InExecute (m : option VerificationMethod) (c : option jstr)
  | InCode (c : jstr) | InSwitch (m : VerificationMethod) | InCancel | InOpen (b : bool)
  | InMethods (id : nat) (settled : outcome (jsval * jsval * bool))
  | InBody (id : nat) (body : outcome jsval)              (* a response's [data] *)
  | InCredential (id : nat) (c : outcome (option Credential))
  | InCall (id : nat) (result : outcome jsval).           (* the page's call settles *)

(** What a step does outside of the hook, each with the function that does it. *)
Inductive action :=
  | ACheckMethods (id : nat)
  | ACall (id call : nat)                       (* withVerification calls [apiCall] *)
  | APost2FA (id : nat) (c : jstr)              (* POST /api/verify, method 2fa *)
  | APasskeyBegin (id : nat) | ACredential (id : nat) (o : RequestOptions)
  | APasskeyFinish (id : nat) (assertion : jsval)
  | APostPasskey (id : nat)                     (* POST /api/verify, method passkey *)
  | ARetry (id call : nat)                      (* executeVerification calls [state.apiCall] *)
  | AToastError (text : jstr) | AToastInfo (text : jsval) | AToastSuccess (text : jstr)
  | AOnSuccess (result : jsval) (m : VerificationMethod)    (* the page's callbacks; they do not throw *)
  | AOnError (error : thrown)
  | AMethods (id : nat) (m : VerificationMethods)           (* fetchVerificationMethods resolves *)
  | ASettle (id : nat) (result : outcome jsval).            (* the promise of another function settles *)

Definition set_state (s : InternalState) (h : Hook) : Hook := MkHook (methods h) s (open h) (pendings h) (next h).
Definition set_methods (m : VerificationMethods) (h : Hook) : Hook := MkHook m (state h) (open h) (pendings h) (next h).
Definition setOpen (b : bool) (h : Hook) : Hook := MkHook (methods h) (state h) b (pendings h) (next h).

Definition remove_pending (id : nat) (l : list (nat * pending)) : list (nat * pending) :=
  List.filter (fun p => negb (bool_decide (p.1 = id))) l.

Definition finish (id : nat) (h : Hook) : Hook :=
  MkHook (methods h) (state h) (open h) (remove_pending id (pendings h)) (next h).

(** The function [id] goes on to wait as [p]. *)
Definition wait (id : nat) (p : pending) (h : Hook) : Hook :=
  MkHook (methods h) (state h) (open h) ((id, p) :: remove_pending id (pendings h)) (next h).

(** A function is called: its number. *)
Definition called (h : Hook) : Hook := MkHook (methods h) (state h) (open h) (pendings h) (S (next h)).

Definition lookup_pending (id : nat) (h : Hook) : option pending :=
  snd <$> List.find (fun p => bool_decide (p.1 = id)) (pendings h).

(** ** The functions of the hook *)

Definition reset (h : Hook) : Hook := setOpen false (set_state initialState h).
Definition cancel : Hook -> Hook := reset.

Definition setCode (c : jstr) (h : Hook) : Hook :=
  let s := state h in set_state (MkState (method s) (loading s) c (title s) (description s) (apiCall s)) h.

Definition switchMethod (m : VerificationMethod) (h : Hook) : Hook :=
  let s := state h in set_state (MkState (Some m) (loading s) [] (title s) (description s) (apiCall s)) h.

Definition canUseMethod (h : Hook) (m : VerificationMethod) : bool :=
  match m with M2FA => has2FA (methods h) | MPasskey => hasPasskey (methods h) && passkeySupported (methods h) end.

(** The choice of startVerification, and [recommendedMethod]. *)
Definition recommended (m : VerificationMethods) : option VerificationMethod :=
  if hasPasskey m && passkeySupported m then Some MPasskey else if has2FA m then Some M2FA else None.

Definition NO_METHODS_TOAST : jstr := js "Please enable Two-factor Authentication or Passkey before proceeding".
Definition NO_METHODS_ERROR : jstr := js "No verification methods available. Enable 2FA or Passkey to continue.".

Definition prepared (call : nat) (config : StartVerificationOptions) (available : VerificationMethods) (s : InternalState) : InternalState :=
  MkState (match preferredMethod config with Some m => Some m | None => recommended available end)
    (loading s) (code s) (o_title config) (o_description config) (Some call).

(** startVerification, once the methods are known. *)
Definition start_with (call : nat) (config : StartVerificationOptions) (available : VerificationMethods) (h : Hook)
  : Hook * list action * bool :=
  if negb (has2FA available) && negb (hasPasskey available) then
    (h, [AToastError NO_METHODS_TOAST; AOnError (ThError NO_METHODS_ERROR)], false)
  else (setOpen true (set_state (prepared call config available (state h)) h), [], true).

(** *** Verifying (api.ts) *)

Section verifying.
Context (setup : Setup).

(** [error instanceof Error ? error.message : 'Verification failed'] *)
Definition error_text (error : thrown) : jstr :=
  match error with
  | ThError message | ThRequest message _ => message
  | ThNative name => platform_message setup name
  | ThValue _ => js "Verification failed"
  end.

(** The catch clause of verifyPasskey. *)
Definition passkey_error (error : thrown) : thrown :=
  match error with
  | ThNative name =>
      if bool_decide (name = js "NotAllowedError") then ThError (js "Passkey verification was cancelled or timed out")
      else if bool_decide (name = js "InvalidStateError") then
        ThError (js "Passkey verification is not available in the current state")
      else error
  | _ => error
  end.

(** A request, and where it is waited for. *)
Abbreviation request := (action * stage)%type.

(** [verify(method, code)] up to its first request. *)
Definition verify (id : nat) (m : VerificationMethod) (c : jstr) : outcome request :=
  match m with
  | M2FA =>
      match trim c with
      | [] => inr (ThError (js "Please enter the verification code or backup code"))
      | trimmed => inl (APost2FA id trimmed, At2FA)
      end
  | MPasskey =>
      if credentials_api setup then inl (APasskeyBegin id, AtBegin)
      else inr (ThError (js "Passkey verification is not supported in this environment"))
  end.

(** [!res.data?.success]: the request that follows, or the error. *)
Definition confirmed (body : jsval) (failure : jstr) (id call : nat) : outcome request :=
  if truthy (opt_field (js "success") body) then inl (ARetry id call, AtCall)
  else inr (error_or (opt_field (js "message") body) failure).

(** [!r.success]: the body of a step of the passkey exchange. *)
Definition step_body (body : jsval) (failure : jstr) : outcome jsval :=
  try* ok := lift (vget (js "success") body) in
  if truthy ok then inl body
  else try* message := lift (vget (js "message") body) in inr (error_or message failure).

Definition after_begin (body : jsval) (id : nat) : outcome request :=
  try* body := step_body body (js "Failed to start verification") in
  let data := opt_field (js "data") body in
  try* o := prepareCredentialRequestOptions (vcoalesce (opt_field (js "options") data) data) in
  inl (ACredential id o, AtCredential).

Definition after_credential (c : option Credential) (id : nat) : outcome request :=
  match c with
  | None => inr (ThError (js "Passkey verification was cancelled"))
  | Some c =>
      match buildAssertionResult c with
      | None => inr (ThError (js "Unable to build Passkey assertion"))
      | Some assertion => inl (APasskeyFinish id assertion, AtFinish)
      end
  end.

Definition after_finish (body : jsval) (id : nat) : outcome request :=
  try* _ := step_body body (js "Passkey verification failed") in inl (APostPasskey id, AtPasskey).

(** What is rejected inside verifyPasskey. *)
Definition in_passkey {A} (c : outcome A) : outcome A := match c with inl a => inl a | inr e => inr (passkey_error e) end.

(** *** executeVerification *)

(** The catch clause and the finally clause. *)
Definition exec_failed (id : nat) (error : thrown) (h : Hook) : Hook * list action :=
  (finish id (set_state (set_loading false (state h)) h),
   [AToastError (error_text error); AOnError error; ASettle id (inr error)]).

Definition exec_done (id : nat) (m : VerificationMethod) (result : jsval) (h : Hook) : Hook * list action :=
  let h := if autoReset setup then reset h else h in
  (finish id (set_state (set_loading false (state h)) h),
   (if str_truthy (successMessage setup) then [AToastSuccess (successMessage setup)] else [])
   ++ [AOnSuccess result m; ASettle id (inl result)]).

Definition exec_next (id call : nat) (m : VerificationMethod) (c : outcome request) (h : Hook) : Hook * list action :=
  match c with
  | inl (request, st) => (wait id (PExec call m st) h, [request])
  | inr error => exec_failed id error h
  end.

Definition executeVerification (m : option VerificationMethod) (c : option jstr) (h : Hook) : Hook * list action :=
  let id := next h in
  match apiCall (state h) with
  | None => (called h, [AToastError (js "Verification is not configured properly"); ASettle id (inl VUndef)])
  | Some call =>
      match (match m with Some m => Some m | None => method (state h) end) with
      | None => (called h, [AToastError (js "Select a verification method first"); ASettle id (inl VUndef)])
      | Some actualMethod =>
          exec_next id call actualMethod (verify id actualMethod (default (code (state h)) c))
            (called (set_state (set_loading true (state h)) h))
      end
  end.

(** A verification goes on. *)
Definition exec_body (id call : nat) (m : VerificationMethod) (st : stage) (body : outcome jsval) (h : Hook)
  : option (Hook * list action) :=
  match st with
  | At2FA => Some (exec_next id call m (try* b := body in confirmed b (js "Verification failed") id call) h)
  | AtBegin => Some (exec_next id call m (in_passkey (try* b := body in after_begin b id)) h)
  | AtFinish => Some (exec_next id call m (in_passkey (try* b := body in after_finish b id)) h)
  | AtPasskey =>
      Some (exec_next id call m (in_passkey (try* b := body in confirmed b (js "Failed to complete verification") id call)) h)
  | AtCredential | AtCall => None
  end.

(** *** The steps *)

(** The methods are known: [setMethods], then what waited for them goes on. *)
Definition on_methods (id : nat) (p : pending) (available : VerificationMethods) (h : Hook) : option (Hook * list action) :=
  let h := finish id (set_methods available h) in
  match p with
  | PFetch => Some (h, [AMethods id available])
  | PStart call config from_with =>
      let '(h, acts, started) := start_with call config available h in
      Some (h, acts ++ [ASettle id (inl (if from_with then VNull else VBool started))])
  | _ => None
  end.

(** withVerification, once the call has settled. *)
Definition with_settled (id call : nat) (config : StartVerificationOptions) (result : outcome jsval) (h : Hook) : Hook * list action :=
  match result with
  | inl v => (finish id h, [ASettle id (inl v)])
  | inr error =>
      if isVerificationRequiredError error then
        (wait id (PStart call config true) h, [AToastInfo (extractVerificationInfo error); ACheckMethods id])
      else (finish id h, [ASettle id (inr error)])
  end.

(** [None]: nothing waits for what settles. *)
Definition step (h : Hook) (i : input) : option (Hook * list action) :=
  let id := next h in
  match i with
  | InFetch => Some (wait id PFetch (called h), [ACheckMethods id])
  | InStart call config => Some (wait id (PStart call config false) (called h), [ACheckMethods id])
  | InWith call config => Some (wait id (PWith call config) (called h), [ACall id call])
  | InExecute m c => Some (executeVerification m c h)
  | InCode c => Some (setCode c h, [])
  | InSwitch m => Some (switchMethod m h, [])
  | InCancel => Some (cancel h, [])
  | InOpen b => Some (setOpen b h, [])
  | InMethods id settled => p ← lookup_pending id h; on_methods id p (checkVerificationMethods settled) h
  | InBody id body =>
      match lookup_pending id h with Some (PExec call m st) => exec_body id call m st body h | _ => None end
  | InCredential id c =>
      match lookup_pending id h with
      | Some (PExec call m AtCredential) => Some (exec_next id call m (in_passkey (try* c := c in after_credential c id)) h)
      | _ => None
      end
  | InCall id result =>
      match lookup_pending id h with
      | Some (PWith call config) => Some (with_settled id call config result h)
      | Some (PExec call m AtCall) =>
          Some (match result with inl v => exec_done id m v h | inr error => exec_failed id error h end)
      | _ => None
      end
  end.

End verifying.
