(* ===== verification/SecureVerifyFacts.v ===== *)
(** * Secure verification: every execution of the hook

    What a retried call is preceded by, what a refused verification leaves,
    and that everything that waits ends. *)
From S2P Require Import Prelude JsString JsNumber JsValue Passkey SecureVerify.
Open Scope N_scope.

(** ** The credentials that are sent *)

(** A property that is the text of a buffer. *)
Definition sends (v : jsval) (k : jstr) (b : list N) : Prop :=
  exists text, opt_field k v = VStr text /\ base64UrlToArrayBuffer (Some text) = Some b.

Lemma encoded_bytes b : bytes b -> exists text, encoded b = Some (VStr text) /\ base64UrlToArrayBuffer (Some text) = Some b.
Proof.
  intros H. exists (map url_char (sextets b)). split; [|by apply decode_url].
  unfold encoded. by rewrite encode_url.
Qed.

(** Every buffer of an assertion reaches the server as it was. *)
Lemma assertion_sent c :
  bytes (cr_rawId c) -> bytes (cr_authenticatorData c) -> bytes (cr_clientDataJSON c) -> bytes (cr_signature c) ->
  default True (bytes <$> cr_userHandle c) ->
  exists v, buildAssertionResult c = Some v /\ sends v (js "rawId") (cr_rawId c)
    /\ let r := opt_field (js "response") v in
       sends r (js "authenticatorData") (cr_authenticatorData c) /\ sends r (js "clientDataJSON") (cr_clientDataJSON c)
       /\ sends r (js "signature") (cr_signature c)
       /\ match cr_userHandle c with Some h => sends r (js "userHandle") h | None => opt_field (js "userHandle") r = VNull end.
Proof.
  intros (t1 & E1 & D1)%encoded_bytes (t2 & E2 & D2)%encoded_bytes (t3 & E3 & D3)%encoded_bytes (t4 & E4 & D4)%encoded_bytes Hu.
  unfold buildAssertionResult. rewrite E1, E2, E3, E4. cbn [mbind option_bind].
  destruct (cr_userHandle c) as [h|].
  - apply encoded_bytes in Hu as (t5 & E5 & D5). rewrite E5. cbn [mbind option_bind].
    eexists. split; [reflexivity|]. split_and!; by eexists.
  - eexists. split; [reflexivity|]. split_and!; by eexists || reflexivity.
Qed.

Lemma registration_sent c :
  bytes (nc_rawId c) -> bytes (nc_attestationObject c) -> bytes (nc_clientDataJSON c) ->
  exists v, buildRegistrationResult c = Some v /\ sends v (js "rawId") (nc_rawId c)
    /\ let r := opt_field (js "response") v in
       sends r (js "attestationObject") (nc_attestationObject c) /\ sends r (js "clientDataJSON") (nc_clientDataJSON c).
Proof.
  intros (t1 & E1 & D1)%encoded_bytes (t2 & E2 & D2)%encoded_bytes (t3 & E3 & D3)%encoded_bytes.
  unfold buildRegistrationResult. rewrite E1, E2, E3. cbn [mbind option_bind].
  eexists. split; [reflexivity|]. split_and!; by eexists.
Qed.

#[local] Opaque js trim.

(** ** Executions *)

Inductive event := Rcv (i : input) | Snd (a : action).

Definition events (i : input) (acts : list action) : list event := Rcv i :: map Snd acts.

Section executions.
Context (setup : Setup).

(** What happened since the component was mounted, and the hook. *)
Inductive reaches : list event -> Hook -> Prop :=
  | reaches_mounted : reaches [Snd (ACheckMethods 0)] mounted
  | reaches_step t h i h' acts :
      reaches t h -> step setup h i = Some (h', acts) -> reaches (t ++ events i acts) h'.

(** The same, executed. *)
Fixpoint execute (t : list event) (h : Hook) (l : list input) : option (list event * Hook) :=
  match l with
  | [] => Some (t, h)
  | i :: l => r ← step setup h i; execute (t ++ events i r.2) r.1 l
  end.

Lemma execute_reaches l : forall t h t' h', reaches t h -> execute t h l = Some (t', h') -> reaches t' h'.
Proof.
  induction l as [|i l IH]; intros t h t' h' Hr; cbn [execute]; [intros [= <- <-]; exact Hr|].
  destruct (step setup h i) as [[h1 acts]|] eqn:E; cbn; [|done].
  apply IH. by apply (reaches_step _ h).
Qed.

End executions.

(** ** The events of one call of a function *)

Definition about (id : nat) (e : event) : bool :=
  match e with
  | Rcv (InMethods j _) | Rcv (InBody j _) | Rcv (InCredential j _) | Rcv (InCall j _)
  | Snd (ACheckMethods j) | Snd (ACall j _) | Snd (APost2FA j _) | Snd (APasskeyBegin j) | Snd (ACredential j _)
  | Snd (APasskeyFinish j _) | Snd (APostPasskey j) | Snd (ARetry j _) | Snd (AMethods j _) | Snd (ASettle j _) =>
      bool_decide (j = id)
  | _ => false
  end.

Definition of_call (id : nat) (t : list event) : list event := List.filter (about id) t.

Lemma of_call_app id t u : of_call id (t ++ u) = of_call id t ++ of_call id u.
Proof. apply List.filter_app. Qed.

(** ** The exchange of a verification that the server accepts *)

Definition accepted (body : jsval) : Prop := truthy (opt_field (js "success") body) = true.

(** The options that a successful first step carries. *)
Definition offered (body : jsval) (o : RequestOptions) : Prop :=
  accepted body /\
  let data := opt_field (js "data") body in
  prepareCredentialRequestOptions (vcoalesce (opt_field (js "options") data) data) = inl o.

Inductive exchange (id : nat) : VerificationMethod -> list event -> Prop :=
  | exchange_2fa c body :
      c <> [] -> trim c = c -> accepted body ->
      exchange id M2FA [Snd (APost2FA id c); Rcv (InBody id (inl body))]
  | exchange_passkey begun o c assertion finished body :
      offered begun o -> buildAssertionResult c = Some assertion -> accepted finished -> accepted body ->
      exchange id MPasskey
        [ Snd (APasskeyBegin id); Rcv (InBody id (inl begun));
          Snd (ACredential id o); Rcv (InCredential id (inl (Some c)));
          Snd (APasskeyFinish id assertion); Rcv (InBody id (inl finished));
          Snd (APostPasskey id); Rcv (InBody id (inl body)) ].

(** A verification so far. *)
Inductive progress (id call : nat) : VerificationMethod -> stage -> list event -> Prop :=
  | progress_2fa c : c <> [] -> trim c = c -> progress id call M2FA At2FA [Snd (APost2FA id c)]
  | progress_begin : progress id call MPasskey AtBegin [Snd (APasskeyBegin id)]
  | progress_credential begun o :
      offered begun o ->
      progress id call MPasskey AtCredential
        [Snd (APasskeyBegin id); Rcv (InBody id (inl begun)); Snd (ACredential id o)]
  | progress_finish begun o c assertion :
      offered begun o -> buildAssertionResult c = Some assertion ->
      progress id call MPasskey AtFinish
        [ Snd (APasskeyBegin id); Rcv (InBody id (inl begun));
          Snd (ACredential id o); Rcv (InCredential id (inl (Some c))); Snd (APasskeyFinish id assertion) ]
  | progress_passkey begun o c assertion finished :
      offered begun o -> buildAssertionResult c = Some assertion -> accepted finished ->
      progress id call MPasskey AtPasskey
        [ Snd (APasskeyBegin id); Rcv (InBody id (inl begun));
          Snd (ACredential id o); Rcv (InCredential id (inl (Some c)));
          Snd (APasskeyFinish id assertion); Rcv (InBody id (inl finished)); Snd (APostPasskey id) ]
  | progress_call m t : exchange id m t -> progress id call m AtCall (t ++ [Snd (ARetry id call)]).

(** ** What the steps of a verification do *)

Section facts.
Context (setup : Setup).

Lemma verify_progress id call m c a st :
  verify setup id m c = inl (a, st) -> progress id call m st [Snd a].
Proof.
  destruct m; cbn.
  - destruct (trim c) as [|x t] eqn:E; [done|]. intros [= <- <-]. apply progress_2fa; [done|].
    rewrite <-E. apply trim_idemp.
  - destruct (credentials_api setup); [|done]. intros [= <- <-]. constructor.
Qed.

Lemma step_body_ok body failure b : step_body body failure = inl b -> b = body /\ accepted body.
Proof.
  unfold step_body, accepted, opt_field, vget_opt.
  destruct (vget (js "success") body) as [v|e] eqn:E; cbn; [|done].
  destruct (truthy v) eqn:Hv.
  - intros [= <-]. split; [done|]. by destruct body; cbn [catch].
  - by destruct (vget (js "message") body).
Qed.

Lemma after_begin_ok body id r :
  after_begin body id = inl r -> exists o, offered body o /\ r = (ACredential id o, AtCredential).
Proof.
  unfold after_begin. destruct (step_body body _) as [b|e] eqn:E; cbn [try]; [|done].
  apply step_body_ok in E as [-> Ha].
  destruct (prepareCredentialRequestOptions _) as [o|e] eqn:Eo; cbn [try]; [|done].
  intros [= <-]. exists o. split; [|done]. by split.
Qed.

Lemma after_credential_ok c id r :
  after_credential c id = inl r ->
  exists cr a, c = Some cr /\ buildAssertionResult cr = Some a /\ r = (APasskeyFinish id a, AtFinish).
Proof.
  destruct c as [cr|]; cbn [after_credential]; [|discriminate].
  destruct (buildAssertionResult cr) as [a|] eqn:E; [|discriminate]. intros [= <-]. by exists cr, a.
Qed.

Lemma after_finish_ok body id r : after_finish body id = inl r -> accepted body /\ r = (APostPasskey id, AtPasskey).
Proof.
  unfold after_finish. destruct (step_body body _) as [b|e] eqn:E; cbn [try]; [|done].
  apply step_body_ok in E as [-> Ha]. by intros [= <-].
Qed.

Lemma confirmed_ok body failure id call r :
  confirmed body failure id call = inl r -> accepted body /\ r = (ARetry id call, AtCall).
Proof. unfold confirmed, accepted. destruct (truthy _); [|done]. by intros [= <-]. Qed.

Lemma in_passkey_ok {A} (c : outcome A) a : in_passkey c = inl a -> c = inl a.
Proof. by destruct c. Qed.

Lemma try_ok {A B} (c : outcome A) (k : A -> outcome B) b : try c k = inl b -> exists a, c = inl a /\ k a = inl b.
Proof. destruct c; [eauto|done]. Qed.

(** The answer that a verification waits for, and the request that follows. *)
Definition continue (st : stage) (id call : nat) (i : input) : outcome (action * stage) :=
  match st, i with
  | At2FA, InBody _ body => try* b := body in confirmed b (js "Verification failed") id call
  | AtBegin, InBody _ body => in_passkey (try* b := body in after_begin b id)
  | AtFinish, InBody _ body => in_passkey (try* b := body in after_finish b id)
  | AtPasskey, InBody _ body => in_passkey (try* b := body in confirmed b (js "Failed to complete verification") id call)
  | AtCredential, InCredential _ c => in_passkey (try* c := c in after_credential c id)
  | _, _ => inr (ThValue VUndef)
  end.

Definition awaited (st : stage) (id : nat) (i : input) : bool :=
  match st, i with
  | AtCredential, InCredential j _ => bool_decide (j = id)
  | AtCall, InCall j _ => bool_decide (j = id)
  | At2FA, InBody j _ | AtBegin, InBody j _ | AtFinish, InBody j _ | AtPasskey, InBody j _ => bool_decide (j = id)
  | _, _ => false
  end.

Lemma continue_progress id call m st i a st' t :
  awaited st id i = true -> continue st id call i = inl (a, st') ->
  progress id call m st t -> progress id call m st' (t ++ [Rcv i; Snd a]).
Proof.
  intros Hw Hc Hp. destruct Hp; destruct i; try discriminate Hw; apply bool_decide_eq_true in Hw as ->; cbn [continue] in Hc;
    try discriminate Hc; try apply in_passkey_ok in Hc; apply try_ok in Hc as (b & -> & Hc).
  - apply confirmed_ok in Hc as [Ha [= -> ->]]. apply (progress_call _ _ _ [_; _]). by constructor.
  - apply after_begin_ok in Hc as (o & Ho & [= -> ->]). by constructor.
  - apply after_credential_ok in Hc as (cr & x & -> & Hx & [= -> ->]). by apply progress_finish.
  - apply after_finish_ok in Hc as (Ha & [= -> ->]). by apply progress_passkey.
  - apply confirmed_ok in Hc as [Ha [= -> ->]]. apply (progress_call _ _ _ [_; _; _; _; _; _; _; _]). by apply exchange_passkey.
Qed.

(** ** What a step does to the functions that wait *)

(** Nothing of the events concerns a call of a function other than [id]. *)
Definition only (id : nat) (es : list event) : Prop := forall j, j <> id -> of_call j es = [].
Definition no_retry (acts : list action) : Prop := forall id call, ARetry id call ∉ acts.
Definition no_exec (p : pending) : Prop := match p with PExec _ _ _ => False | _ => True end.

(** The settling of the promise that the call [id] returned. *)
Definition settlement (id : nat) (e : event) : bool :=
  match e with Snd (ASettle j _) | Snd (AMethods j _) => bool_decide (j = id) | _ => false end.

Definition settlements (id : nat) (t : list event) : nat := length (List.filter (settlement id) t).

(** It settles when the call does not go on to wait. *)
Definition settling (id : nat) (p : option pending) (acts : list action) : Prop :=
  settlements id (map Snd acts) = match p with Some _ => 0%nat | None => 1%nat end.

Definition waits (id : nat) (p : option pending) (h : Hook) : list (nat * pending) :=
  match p with Some p => (id, p) :: remove_pending id (pendings h) | None => remove_pending id (pendings h) end.

(** An answer: something that a call awaits settles. *)
Definition is_answer (i : input) : bool :=
  match i with InMethods _ _ | InBody _ _ | InCredential _ _ | InCall _ _ => true | _ => false end.

(** How many answers a call still waits for, at most. *)
Definition weight (p : pending) : nat :=
  match p with
  | PFetch | PStart _ _ _ => 1
  | PWith _ _ => 2
  | PExec _ _ st => match st with AtCall => 1 | At2FA | AtPasskey => 2 | AtFinish => 3 | AtCredential => 4 | AtBegin => 5 end
  end.

Definition lighter (p : pending) (q : option pending) : Prop := match q with Some q => (weight q < weight p)%nat | None => True end.

Inductive effect (h : Hook) (i : input) (h' : Hook) (acts : list action) : Prop :=
  | effect_local :
      is_answer i = false -> pendings h' = pendings h -> next h' = next h -> (forall id, of_call id (events i acts) = []) ->
      no_retry acts -> effect h i h' acts
  | effect_called p :
      is_answer i = false -> next h' = S (next h) -> pendings h' = waits (next h) p h \/ pendings h' = pendings h /\ p = None ->
      only (next h) (events i acts) -> no_retry acts -> settling (next h) p acts ->
      default True (no_exec <$> p) -> effect h i h' acts
  | effect_verify m c call actual st a :
      i = InExecute m c -> apiCall (state h) = Some call ->
      next h' = S (next h) -> pendings h' = waits (next h) (Some (PExec call actual st)) h -> acts = [a] ->
      verify setup (next h) actual (default (code (state h)) c) = inl (a, st) -> effect h i h' acts
  | effect_waiting id p p' :
      is_answer i = true -> lighter p p' -> lookup_pending id h = Some p -> next h' = next h -> pendings h' = waits id p' h ->
      only id (events i acts) -> no_retry acts -> settling id p' acts ->
      default True (no_exec <$> p') -> effect h i h' acts
  | effect_continue id call m st a st' :
      lookup_pending id h = Some (PExec call m st) -> awaited st id i = true ->
      next h' = next h -> pendings h' = waits id (Some (PExec call m st')) h ->
      acts = [a] -> continue st id call i = inl (a, st') -> effect h i h' acts.

Lemma no_retry_local acts : Forall (fun a => match a with ARetry _ _ => False | _ => True end) acts -> no_retry acts.
Proof. rewrite Forall_forall. intros H id call Hin. exact (H _ Hin). Qed.

Ltac quiet := apply no_retry_local; by repeat constructor.
Ltac settles :=
  unfold settling, settlements; cbn [List.filter settlement map app length];
  rewrite ?bool_decide_eq_true_2 by reflexivity; reflexivity.

Lemma exec_failed_effect id error h h' acts i :
  awaited AtCall id i = true \/ (exists st, awaited st id i = true) ->
  (exists p, lookup_pending id h = Some p) -> exec_failed setup id error h = (h', acts) -> effect h i h' acts.
Proof.
  intros Hi (p & Hp) [= <- <-]. apply (effect_waiting _ _ _ _ id p None); try done.
  - destruct Hi as [Hi|([] & Hi)]; destruct i; done.
  - intros j Hj. destruct Hi as [Hi|(st & Hi)].
    all: destruct i; try discriminate Hi; try (destruct st; discriminate Hi).
    all: assert (id0 = id) as -> by (first [destruct st; (discriminate Hi || by apply bool_decide_eq_true in Hi)|by apply bool_decide_eq_true in Hi]).
    all: cbn; by rewrite !bool_decide_eq_false_2 by done.
  - quiet.
  - settles.
Qed.

Ltac other_calls :=
  let j := fresh "j" in let Hj := fresh "Hj" in
  intros j Hj; cbn [of_call events map List.filter about app];
  rewrite ?bool_decide_eq_false_2 by (intros ?; by apply Hj); reflexivity.

Ltac by_kind := first [other_calls | quiet | settles | cbn; lia].

Lemma exec_next_effect id call m st h i h' acts :
  lookup_pending id h = Some (PExec call m st) -> awaited st id i = true ->
  exec_next setup id call m (continue st id call i) h = (h', acts) -> effect h i h' acts.
Proof.
  intros Hl Hw. unfold exec_next. destruct (continue st id call i) as [[a st']|error] eqn:E.
  - intros [= <- <-]. by apply (effect_continue _ _ _ _ id call m st a st').
  - apply exec_failed_effect; [right; by exists st|by eexists].
Qed.

Lemma call_settled_effect id p h i r h' acts :
  lookup_pending id h = Some p -> i = InCall id r ->
  pendings h' = waits id None h -> next h' = next h -> only id (map Snd acts) -> no_retry acts -> settling id None acts ->
  effect h i h' acts.
Proof.
  intros Hl -> Hp Hn Ho Hr Hs. apply (effect_waiting _ _ _ _ id p None); try done.
  intros j Hj. cbn [events of_call List.filter about]. rewrite bool_decide_eq_false_2 by (intros ?; by apply Hj).
  by apply Ho.
Qed.

Lemma exec_done_effect id call m v h h' acts :
  lookup_pending id h = Some (PExec call m AtCall) ->
  exec_done setup id m v h = (h', acts) -> effect h (InCall id (inl v)) h' acts.
Proof.
  intros Hl. unfold exec_done. intros [= <- <-].
  apply (call_settled_effect id (PExec call m AtCall) h _ (inl v)); try done; try (by destruct (autoReset setup)).
  - destruct (str_truthy (successMessage setup)); other_calls.
  - apply no_retry_local. destruct (str_truthy (successMessage setup)); by repeat constructor.
  - destruct (str_truthy (successMessage setup)); settles.
Qed.

Lemma with_settled_effect id call config r h h' acts :
  lookup_pending id h = Some (PWith call config) ->
  with_settled id call config r h = (h', acts) -> effect h (InCall id r) h' acts.
Proof.
  intros Hl. unfold with_settled. destruct r as [v|error].
  - intros [= <- <-]. apply (call_settled_effect id (PWith call config) h _ (inl v)); try done; by_kind.
  - destruct (isVerificationRequiredError error); intros [= <- <-].
    + apply (effect_waiting _ _ _ _ id (PWith call config) (Some (PStart call config true))); try done; by_kind.
    + apply (call_settled_effect id (PWith call config) h _ (inr error)); try done; by_kind.
Qed.

Lemma on_methods_effect id p s h h' acts :
  lookup_pending id h = Some p ->
  on_methods id p (checkVerificationMethods s) h = Some (h', acts) -> effect h (InMethods id s) h' acts.
Proof.
  intros Hl. unfold on_methods. destruct p as [|call config fw| |]; try discriminate.
  - intros [= <- <-]. apply (effect_waiting _ _ _ _ id PFetch None); try done; by_kind.
  - unfold start_with. destruct (_ && _); intros [= <- <-];
      (apply (effect_waiting _ _ _ _ id (PStart call config fw) None); try done; by_kind).
Qed.

Lemma execute_effect m c h h' acts :
  executeVerification setup m c h = (h', acts) -> effect h (InExecute m c) h' acts.
Proof.
  unfold executeVerification.
  destruct (apiCall (state h)) as [call|] eqn:Ec.
  2:{ intros [= <- <-]. apply (effect_called _ _ _ _ None); try done; [by right|by_kind..]. }
  destruct (match m with Some m => Some m | None => method (state h) end) as [actual|].
  2:{ intros [= <- <-]. apply (effect_called _ _ _ _ None); try done; [by right|by_kind..]. }
  unfold exec_next. destruct (verify setup (next h) actual _) as [[a st]|error] eqn:E.
  - intros [= <- <-]. by apply (effect_verify _ _ _ _ m c call actual st a).
  - intros [= <- <-]. apply (effect_called _ _ _ _ None); try done; [by left|by_kind..].
Qed.

Lemma step_effect h i h' acts : step setup h i = Some (h', acts) -> effect h i h' acts.
Proof.
  destruct i as [|call config|call config|m c|c|m| |b|id s|id body|id c|id r]; cbn [step].
  - intros [= <- <-]. apply (effect_called _ _ _ _ (Some PFetch)); try done; [by left|by_kind..].
  - intros [= <- <-]. apply (effect_called _ _ _ _ (Some (PStart call config false))); try done; [by left|by_kind..].
  - intros [= <- <-]. apply (effect_called _ _ _ _ (Some (PWith call config))); try done; [by left|by_kind..].
  - intros [= H]. by apply execute_effect.
  - intros [= <- <-]. apply effect_local; try done. quiet.
  - intros [= <- <-]. apply effect_local; try done. quiet.
  - intros [= <- <-]. apply effect_local; try done. quiet.
  - intros [= <- <-]. apply effect_local; try done. quiet.
  - destruct (lookup_pending id h) as [p|] eqn:E; [|discriminate]. cbn. by apply on_methods_effect.
  - destruct (lookup_pending id h) as [[| | |call m st]|] eqn:E; try discriminate.
    destruct st; cbn [exec_body]; try discriminate; intros [= H];
      (eapply exec_next_effect; [exact E|apply bool_decide_eq_true; reflexivity|exact H]).
  - destruct (lookup_pending id h) as [[| | |call m []]|] eqn:E; try discriminate. intros [= H].
    eapply exec_next_effect; [exact E|apply bool_decide_eq_true; reflexivity|exact H].
  - destruct (lookup_pending id h) as [[|call config fw|call config|call m []]|] eqn:E; try discriminate; intros [= H].
    + by apply (with_settled_effect id call config).
    + destruct r as [v|error]; [by apply (exec_done_effect id call m)|].
      eapply exec_failed_effect; [left; apply bool_decide_eq_true; reflexivity|by eexists|exact H].
Qed.

Lemma continue_lighter st id call m i a st' :
  awaited st id i = true -> continue st id call i = inl (a, st') -> (weight (PExec call m st') < weight (PExec call m st))%nat.
Proof.
  intros Hw E. destruct st, i; try discriminate Hw; cbn [continue] in E; try apply in_passkey_ok in E;
    try discriminate E; apply try_ok in E as (b & _ & E).
  - apply confirmed_ok in E as [_ [= _ ->]]. cbn. lia.
  - apply after_begin_ok in E as (? & _ & [= _ ->]). cbn. lia.
  - apply after_credential_ok in E as (? & ? & _ & _ & [= _ ->]). cbn. lia.
  - apply after_finish_ok in E as (_ & [= _ ->]). cbn. lia.
  - apply confirmed_ok in E as [_ [= _ ->]]. cbn. lia.
Qed.

(** ** The invariant *)

(** The call is the one that the hook held when the verification started. *)
Definition asked_for (t : list event) (id call : nat) : Prop :=
  exists t0 h0 m c u, reaches setup t0 h0 /\ next h0 = id /\ apiCall (state h0) = Some call
    /\ t = t0 ++ Rcv (InExecute m c) :: u.

Lemma asked_for_app t u id call : asked_for t id call -> asked_for (t ++ u) id call.
Proof.
  intros (t0 & h0 & m & c & v & H1 & H2 & H3 & ->). exists t0, h0, m, c, (v ++ u).
  by rewrite <-app_assoc.
Qed.

Record consistent (t : list event) (h : Hook) : Prop := {
  con_ids : forall id p, (id, p) ∈ pendings h -> (id < next h)%nat;
  con_fresh : forall id, (next h <= id)%nat -> of_call id t = [];
  con_progress : forall id call m st,
    (id, PExec call m st) ∈ pendings h -> progress id call m st (of_call id t) /\ asked_for t id call;
  con_retries : forall t1 t2 id call, t = t1 ++ Snd (ARetry id call) :: t2 ->
    (exists m, exchange id m (of_call id t1)) /\ asked_for t1 id call
}.

Lemma elem_remove id j p l : (j, p) ∈ remove_pending id l <-> j <> id /\ (j, p) ∈ l.
Proof.
  unfold remove_pending. rewrite !list_elem_of_In, filter_In. cbn [fst].
  rewrite negb_true_iff, bool_decide_eq_false. tauto.
Qed.

Lemma elem_waits id q h j p : (j, p) ∈ waits id q h -> j = id /\ q = Some p \/ j <> id /\ (j, p) ∈ pendings h.
Proof.
  destruct q as [q|]; cbn [waits]; rewrite ?elem_of_cons, elem_remove; [|tauto].
  intros [[= -> ->]|H]; [by left|by right].
Qed.

Lemma lookup_elem id p h : lookup_pending id h = Some p -> (id, p) ∈ pendings h.
Proof.
  unfold lookup_pending. destruct (List.find _ _) as [[j q]|] eqn:E; [|discriminate].
  intros [= ->]. apply find_some in E as [Hin Hj]. apply bool_decide_eq_true in Hj as E. cbn in E. subst j.
  by apply list_elem_of_In.
Qed.

(** Where a retried call is in what a step adds. *)
Lemma retry_place t i acts t1 t2 id call :
  t ++ events i acts = t1 ++ Snd (ARetry id call) :: t2 ->
  (exists u, t = t1 ++ Snd (ARetry id call) :: u) \/
  (exists a1 a2, acts = a1 ++ ARetry id call :: a2 /\ t1 = t ++ Rcv i :: map Snd a1).
Proof.
  intros E. apply app_eq_app in E as (u & [[-> E]|[-> E]]).
  - destruct u as [|e u]; cbn in E.
    + discriminate E.
    + injection E as <- _. left. by exists u.
  - right. destruct u as [|e u]; cbn in E; [discriminate E|]. injection E as <- E.
    apply map_eq_app in E as (a1 & a2 & -> & <- & E). symmetry in E.
    destruct a2 as [|a a2]; [discriminate E|]. injection E as -> _. by exists a1, a2.
Qed.

Lemma retries_kept t h i acts :
  consistent t h -> no_retry acts -> forall t1 t2 id call, t ++ events i acts = t1 ++ Snd (ARetry id call) :: t2 ->
  (exists m, exchange id m (of_call id t1)) /\ asked_for t1 id call.
Proof.
  intros Hc Hn t1 t2 id call E. apply retry_place in E as [(u & E)|(a1 & a2 & -> & _)].
  - exact (con_retries _ _ Hc _ _ _ _ E).
  - exfalso. apply (Hn id call). apply list_elem_of_In, in_or_app. right. by left.
Qed.

(** The verifications that a step does not concern. *)
Lemma others_kept t h id id' p es :
  consistent t h -> only id es -> (id', p) ∈ pendings h -> id' <> id ->
  forall call m st, p = PExec call m st ->
  progress id' call m st (of_call id' (t ++ es)) /\ asked_for (t ++ es) id' call.
Proof.
  intros Hc Ho Hin Hne call m st ->. rewrite of_call_app, (Ho id' Hne), app_nil_r.
  destruct (con_progress _ _ Hc _ _ _ _ Hin). split; [done|]. by apply asked_for_app.
Qed.

(** A step that neither verifies nor retries: the functions that wait are
    those that waited, but for the call [id] it is about. *)
Lemma quiet_consistent t h i h' acts id q :
  consistent t h -> only id (events i acts) -> no_retry acts -> default True (no_exec <$> q) ->
  (pendings h' = waits id q h \/ pendings h' = pendings h /\ next h = id) ->
  (id < next h')%nat -> (next h <= next h')%nat ->
  consistent (t ++ events i acts) h'.
Proof.
  intros Hc Ho Hr Hq Hp Hid Hn.
  assert (Hin : forall j p, (j, p) ∈ pendings h' -> j = id /\ q = Some p \/ j <> id /\ (j, p) ∈ pendings h).
  { intros j p. destruct Hp as [->|[-> <-]]; [apply elem_waits|].
    intros H. right. pose proof (con_ids _ _ Hc _ _ H). split; [lia|done]. }
  split.
  - intros j p [[-> _]|[_ H]]%Hin; [done|]. pose proof (con_ids _ _ Hc _ _ H). lia.
  - intros j Hj. rewrite of_call_app, (con_fresh _ _ Hc) by lia. apply Ho. lia.
  - intros j call m st [[-> ->]|[Hne H]]%Hin; [done|].
    by apply (others_kept t h id j (PExec call m st) (events i acts) Hc Ho H Hne).
  - exact (retries_kept t h i acts Hc Hr).
Qed.

Lemma local_consistent t h i h' acts :
  consistent t h -> pendings h' = pendings h -> next h' = next h ->
  (forall id, of_call id (events i acts) = []) -> no_retry acts -> consistent (t ++ events i acts) h'.
Proof.
  intros Hc Hp Hn Ho Hr. split.
  - rewrite Hp, Hn. apply (con_ids _ _ Hc).
  - intros j Hj. rewrite of_call_app, Ho, (con_fresh _ _ Hc) by lia. done.
  - intros j call m st H. rewrite Hp in H. rewrite of_call_app, Ho, app_nil_r.
    destruct (con_progress _ _ Hc _ _ _ _ H). split; [done|]. by apply asked_for_app.
  - exact (retries_kept t h i acts Hc Hr).
Qed.

Lemma request_about id m c a st : verify setup id m c = inl (a, st) -> about id (Snd a) = true /\ only id [Snd a] /\ no_retry [a].
Proof.
  intros E. assert ((exists x, a = APost2FA id x) \/ a = APasskeyBegin id) as [[x ->]| ->].
  { apply (verify_progress _ 0) in E. remember [Snd a] as l eqn:El. destruct E as [x| | | | |m t Hx]; try discriminate El.
    - injection El as <-. left. by eexists.
    - injection El as <-. by right.
    - exfalso. destruct Hx; discriminate El. }
  all: split_and!; [by apply bool_decide_eq_true|other_calls|quiet].
Qed.

Lemma verify_consistent t h m c call actual st a h' :
  reaches setup t h -> consistent t h -> apiCall (state h) = Some call -> next h' = S (next h) ->
  pendings h' = waits (next h) (Some (PExec call actual st)) h ->
  verify setup (next h) actual (default (code (state h)) c) = inl (a, st) ->
  consistent (t ++ events (InExecute m c) [a]) h'.
Proof.
  intros Hr Hc Hcall Hn Hp E. destruct (request_about _ _ _ _ _ E) as (Ha & Ho & Hq).
  assert (Ho' : only (next h) (events (InExecute m c) [a])).
  { intros j Hj. cbn [events of_call List.filter about map]. by apply Ho. }
  split.
  - intros j p. rewrite Hp, Hn. intros [[-> _]|[_ H]]%elem_waits; [lia|]. pose proof (con_ids _ _ Hc _ _ H). lia.
  - intros j Hj. rewrite of_call_app, (con_fresh _ _ Hc) by lia. apply Ho'. lia.
  - intros j call' m' st'. rewrite Hp. intros [[-> [= <- <- <-]]|[Hne H]]%elem_waits.
    + rewrite of_call_app, (con_fresh _ _ Hc) by lia. cbn [events of_call List.filter about map app].
      cbn [about] in Ha. rewrite Ha. split; [by apply (verify_progress _ call) in E|].
      by exists t, h, m, c, (map Snd [a]).
    + by apply (others_kept t h (next h) j (PExec call' m' st') _ Hc Ho' H Hne).
  - exact (retries_kept t h _ [a] Hc Hq).
Qed.

Lemma awaited_about st id i : awaited st id i = true -> about id (Rcv i) = true /\ only id [Rcv i].
Proof.
  intros H. assert (about id (Rcv i) = true) as Ha by (destruct st, i; (discriminate H || exact H)).
  split; [done|]. intros j Hj. cbn [of_call List.filter]. destruct (about j (Rcv i)) eqn:E; [|done].
  exfalso. destruct i; try discriminate Ha; cbn [about] in Ha, E; apply bool_decide_eq_true in Ha, E; congruence.
Qed.

(** The request that follows is one of a verification. *)
Definition request_of (id : nat) (a : action) : Prop :=
  match a with ARetry j _ | ACredential j _ | APasskeyFinish j _ | APostPasskey j => j = id | _ => False end.

Lemma continue_request st id call i a st' :
  awaited st id i = true -> continue st id call i = inl (a, st') -> request_of id a.
Proof.
  intros Hw E. destruct st, i; try discriminate Hw; cbn [continue] in E; try apply in_passkey_ok in E;
    try discriminate E; apply try_ok in E as (b & _ & E).
  - by apply confirmed_ok in E as [_ [= -> _]].
  - by apply after_begin_ok in E as (? & _ & [= -> _]).
  - by apply after_credential_ok in E as (? & ? & _ & _ & [= -> _]).
  - by apply after_finish_ok in E as (_ & [= -> _]).
  - by apply confirmed_ok in E as [_ [= -> _]].
Qed.

Lemma continue_about st id call i a st' :
  awaited st id i = true -> continue st id call i = inl (a, st') -> about id (Snd a) = true /\ only id [Snd a].
Proof.
  intros Hw E. pose proof (continue_request _ _ _ _ _ _ Hw E) as H.
  destruct a; try done; cbn in H; subst; (split; [by apply bool_decide_eq_true|other_calls]).
Qed.

Lemma continue_retry st id call i a st' j c :
  awaited st id i = true -> continue st id call i = inl (a, st') -> a = ARetry j c ->
  j = id /\ c = call /\ st' = AtCall.
Proof.
  intros Hw E ->. destruct st, i; try discriminate Hw; cbn [continue] in E; try apply in_passkey_ok in E;
    try discriminate E; apply try_ok in E as (b & _ & E).
  - by apply confirmed_ok in E as [_ [= -> -> ->]].
  - by apply after_begin_ok in E as (? & _ & [=]).
  - by apply after_credential_ok in E as (? & ? & _ & _ & [=]).
  - by apply after_finish_ok in E as (_ & [=]).
  - by apply confirmed_ok in E as [_ [= -> -> ->]].
Qed.

Lemma continue_consistent t h id call m st i a st' h' :
  consistent t h -> lookup_pending id h = Some (PExec call m st) -> awaited st id i = true ->
  next h' = next h -> pendings h' = waits id (Some (PExec call m st')) h ->
  continue st id call i = inl (a, st') -> consistent (t ++ events i [a]) h'.
Proof.
  intros Hc Hl Hw Hn Hp E. apply lookup_elem in Hl.
  pose proof (con_ids _ _ Hc _ _ Hl) as Hid. destruct (con_progress _ _ Hc _ _ _ _ Hl) as [Hpr Has].
  destruct (awaited_about _ _ _ Hw) as [Hi Hoi]. destruct (continue_about _ _ _ _ _ _ Hw E) as [Ha Hoa].
  assert (Ho : only id (events i [a])).
  { intros j Hj. change (events i [a]) with ([Rcv i] ++ [Snd a]). by rewrite of_call_app, (Hoi j Hj), (Hoa j Hj). }
  assert (Hev : of_call id (t ++ events i [a]) = of_call id t ++ [Rcv i; Snd a]).
  { rewrite of_call_app. f_equal. unfold events, of_call. cbn [map List.filter]. by rewrite Hi, Ha. }
  split.
  - intros j p. rewrite Hp, Hn. intros [[-> _]|[_ H]]%elem_waits; [done|]. by apply (con_ids _ _ Hc _ _ H).
  - intros j Hj. rewrite of_call_app, (con_fresh _ _ Hc) by lia. apply Ho. lia.
  - intros j call' m' st1. rewrite Hp. intros [[-> [= <- <- <-]]|[Hne H]]%elem_waits.
    + rewrite Hev. split; [by apply (continue_progress _ _ _ st)|by apply asked_for_app].
    + by apply (others_kept t h id j (PExec call' m' st1) _ Hc Ho H Hne).
  - intros t1 t2 j c [(u & E1)|(a1 & a2 & E1 & ->)]%retry_place.
    { by apply (con_retries _ _ Hc _ _ _ _ E1). }
    destruct a1 as [|x [|]]; try discriminate E1. injection E1 as Ea <-.
    destruct (continue_retry _ _ _ _ _ _ _ _ Hw E Ea) as (-> & -> & ->). subst a.
    split; [|by apply asked_for_app]. exists m.
    pose proof (continue_progress _ _ _ _ _ _ _ _ Hw E Hpr) as Hd.
    remember AtCall as st' eqn:Est. remember (of_call id t ++ [Rcv i; Snd (ARetry id call)]) as l eqn:El.
    destruct Hd as [| | | | |m t1 Hx]; try discriminate Est.
    change [Rcv i; Snd (ARetry id call)] with ([Rcv i] ++ [Snd (ARetry id call)]) in El. rewrite app_assoc in El.
    apply app_inj_tail in El as [-> _]. rewrite of_call_app. unfold of_call at 2. cbn [map List.filter]. by rewrite Hi.
Qed.

Lemma reaches_consistent t h : reaches setup t h -> consistent t h.
Proof.
  induction 1 as [|t h i h' acts Hr IH E].
  - split.
    + intros id p [= -> ->]%list_elem_of_singleton. cbn. lia.
    + intros id Hid. cbn in Hid |- *. by rewrite bool_decide_eq_false_2 by lia.
    + intros id call m st [=]%list_elem_of_singleton.
    + intros t1 t2 id call E. destruct t1 as [|? [|]]; discriminate E.
  - destruct (step_effect _ _ _ _ E) as [Hi Hp Hn Ho Hq|p Hi Hn Hp Ho Hq Hs Hne|m c call actual st a -> Hcall Hn Hp -> Ev
      |id p p' Hi Hw Hl Hn Hp Ho Hq Hs Hne|id call m st a st' Hl Hw Hn Hp -> Ec].
    + by apply (local_consistent t h).
    + apply (quiet_consistent t h i h' acts (next h) p IH Ho Hq Hne); [|lia..]. destruct Hp as [|[? _]]; [by left|by right].
    + by apply (verify_consistent t h m c call actual st a).
    + apply (quiet_consistent t h i h' acts id p' IH Ho Hq Hne); [by left| |lia].
      rewrite Hn. apply (con_ids _ _ IH id p). by apply lookup_elem.
    + by apply (continue_consistent t h id call m st i a st').
Qed.

End facts.

(** ** An execution: the server refuses, the user has 2FA enabled, and the
    second code is accepted. *)

Definition sample_setup : Setup := MkSetup [] true true (fun name => name).

Definition refused_body : jsval := VObj [(js "code", VStr (js "VERIFICATION_REQUIRED")); (js "message", VStr (js "verify"))].
Definition refusal : thrown := ThRequest (js "403") (VObj [(js "status", VNum (num_of_Z 403)); (js "data", refused_body)]).
Definition enabled_body : jsval := VObj [(js "success", VBool true); (js "data", VObj [(js "enabled", VBool true)])].
Definition success_body : jsval := VObj [(js "success", VBool true)].
Definition failure_body : jsval := VObj [(js "success", VBool false); (js "message", VStr (js "bad code"))].

Definition no_preference : StartVerificationOptions := MkStart None None None.

(** The dialog is open for the page's call 7. *)
Definition asking : list input :=
  [ InMethods 0 (inl (enabled_body, VNull, false)); InWith 7 no_preference; InCall 1 (inr refusal);
    InMethods 1 (inl (enabled_body, VNull, false)) ].
Definition answering : list input :=
  [ InCode (js "000000"); InExecute None None; InBody 2 (inl failure_body);
    InCode (js " 123456"); InExecute None None; InBody 3 (inl success_body) ].

(** The execution has a value with a property, by evaluation. *)
Definition executes {A} (P : A -> bool) (c : option A) : bool := match c with Some a => P a | None => false end.

Lemma executes_ok {A} (P : A -> bool) (c : option A) : executes P c = true -> exists a, c = Some a /\ P a = true.
Proof. destruct c; [eauto|discriminate]. Qed.

(** Where a trace has the retry of a call. *)
Fixpoint split_retry (t : list event) : option (list event * nat * nat * list event) :=
  match t with
  | [] => None
  | Snd (ARetry id call) :: t => Some ([], id, call, t)
  | e :: t => (fun r => let '(t1, id, call, t2) := r in (e :: t1, id, call, t2)) <$> split_retry t
  end.

Lemma split_retry_ok t : forall t1 id call t2, split_retry t = Some (t1, id, call, t2) -> t = t1 ++ Snd (ARetry id call) :: t2.
Proof.
  induction t as [|e t IH]; intros t1 id call t2; [discriminate|].
  destruct (split_retry t) as [[[[u id'] call'] u2]|] eqn:E; cbn [split_retry]; rewrite E;
    [|destruct e as [|[]]; cbn; intros H; try discriminate H; by injection H as <- <- <- <-].
  destruct e as [|[]]; cbn; intros [= <- <- <- <-]; cbn; rewrite ?(IH _ _ _ _ eq_refl); reflexivity.
Qed.

(** C1.  A refused call is only made again after a verification: in every
    execution, whatever settles in whatever order, what precedes the retry
    among the events of its verification is exactly one complete exchange
    that the server accepted, by a code or by the passkey, so that the call is
    not made twice; and it is the call that the hook held when the user
    pressed the button. *)
Theorem retried_only_verified (setup : Setup) (t : list event) (h : Hook) (t1 t2 : list event) (id call : nat) :
  reaches setup t h -> t = t1 ++ Snd (ARetry id call) :: t2 ->
  (exists m, exchange id m (of_call id t1)) /\ asked_for setup t1 id call.
Proof. intros Hr. apply (con_retries _ _ _ (reaches_consistent _ _ _ Hr)). Qed.

Lemma retried_only_verified_witness :
  exists t h t1 t2, reaches sample_setup t h /\ t = t1 ++ Snd (ARetry 3 7) :: t2
    /\ exists m, exchange 3 m (of_call 3 t1).
Proof.
  destruct (executes_ok
    (fun r => executes (fun s => let '(_, id, call, _) := s in Nat.eqb id 3 && Nat.eqb call 7) (split_retry r.1))
    (execute sample_setup [Snd (ACheckMethods 0)] mounted (asking ++ answering)))
    as ([t h] & E & H); [vm_compute; reflexivity|].
  destruct (executes_ok _ _ H) as ([[[t1 id] call] t2] & Es & [Hid Hcall]%andb_true_iff).
  apply Nat.eqb_eq in Hid as ->, Hcall as ->. apply split_retry_ok in Es.
  apply (execute_reaches sample_setup _ _ _ _ _ (reaches_mounted _)) in E.
  exists t, h, t1, t2. split; [exact E|]. split; [exact Es|].
  exact (proj1 (retried_only_verified sample_setup t h t1 t2 3 7 E Es)).
Defined.
