(* ===== verification/SecureOutcome.v ===== *)
(** * Secure verification: how the calls end

    A verification that is refused leaves the hook as it was, one that is
    accepted gives the page's result and closes the dialog; whatever waits can
    go on, and every call of a function of the hook settles once. *)
From S2P Require Import Prelude JsString JsNumber JsValue SecureVerify SecureVerifyFacts.
Open Scope N_scope.

#[local] Opaque js trim.

Section outcome.
Context (setup : Setup).

(** ** The functions that wait *)

Lemma remove_fresh id l : (forall j p, (j, p) ∈ l -> (j < id)%nat) -> remove_pending id l = l.
Proof.
  unfold remove_pending. induction l as [|[j p] l IH]; intros H; [reflexivity|]. cbn [List.filter fst].
  rewrite bool_decide_eq_false_2, IH.
  - reflexivity.
  - intros k q Hk. by apply (H k q), list_elem_of_further.
  - intros ->. pose proof (H id p (list_elem_of_here _ _)). lia.
Qed.

Lemma remove_twice id l : remove_pending id (remove_pending id l) = remove_pending id l.
Proof.
  unfold remove_pending. induction l as [|[j p] l IH]; [reflexivity|]. cbn [List.filter fst].
  destruct (bool_decide (j = id)) eqn:E; cbn [negb]; [exact IH|]. cbn [List.filter fst]. rewrite E. cbn [negb]. by rewrite IH.
Qed.

Lemma remove_cons id p l : remove_pending id ((id, p) :: l) = remove_pending id l.
Proof. unfold remove_pending. cbn [List.filter fst]. by rewrite bool_decide_eq_true_2. Qed.

Lemma lookup_wait id p h : lookup_pending id (wait id p h) = Some p.
Proof. unfold lookup_pending, wait. cbn [pendings find fst]. by rewrite bool_decide_eq_true_2. Qed.

Lemma wait_wait id p q h : wait id q (wait id p h) = wait id q h.
Proof. unfold wait. cbn [pendings methods state open next]. by rewrite remove_cons, remove_twice. Qed.

Lemma lookup_removed id h : List.find (fun p => bool_decide (p.1 = id)) (remove_pending id (pendings h)) = None.
Proof.
  destruct (List.find _ _) as [[j p]|] eqn:E; [|reflexivity]. apply find_some in E as [Hin Hj].
  apply list_elem_of_In, elem_remove in Hin as [Hne _]. apply bool_decide_eq_true in Hj. by apply Hne in Hj.
Qed.

Lemma hook_eta h : MkHook (methods h) (state h) (open h) (pendings h) (next h) = h.
Proof. by destruct h. Qed.

Lemma state_eta s : MkState (method s) (loading s) (code s) (title s) (description s) (apiCall s) = s.
Proof. by destruct s. Qed.

Lemma set_loading_same s : set_loading (loading s) s = s.
Proof. apply state_eta. Qed.

Lemma set_loading_twice a b s : set_loading a (set_loading b s) = set_loading a s.
Proof. done. Qed.

(** ** A verification, with what it awaits settling in turn *)

(** What settles is what the call [id] awaits. *)
Definition answers (id : nat) (i : input) : bool :=
  match i with InMethods j _ | InBody j _ | InCredential j _ | InCall j _ => bool_decide (j = id) | _ => false end.

(** The verification [id] has started from [h] and waits. *)
Definition under_way (id call : nat) (m : VerificationMethod) (st : stage) (h : Hook) : Hook :=
  wait id (PExec call m st) (called (set_state (set_loading true (state h)) h)).

Definition ended_wrong (h : Hook) : Hook := called h.
Definition ended_right (h : Hook) : Hook := called (if autoReset setup then reset h else h).

Lemma failed_back id call m st h error :
  loading (state h) = false -> (forall j p, (j, p) ∈ pendings h -> (j < id)%nat) ->
  (exec_failed setup id error (under_way id call m st h)).1 = ended_wrong h.
Proof.
  intros Hl Hf. unfold exec_failed, under_way, finish, wait, called, set_state, ended_wrong. cbn [fst methods state open pendings next].
  rewrite set_loading_twice, <-Hl, set_loading_same, remove_cons, remove_twice, remove_fresh by done. reflexivity.
Qed.

Lemma done_reset id call m st h v :
  loading (state h) = false -> (forall j p, (j, p) ∈ pendings h -> (j < id)%nat) ->
  (exec_done setup id m v (under_way id call m st h)).1 = ended_right h.
Proof.
  intros Hl Hf. unfold exec_done, under_way, finish, wait, called, reset, setOpen, set_state, ended_right. cbn [fst].
  destruct (autoReset setup); cbn [methods state open pendings next reset setOpen set_state];
    rewrite remove_cons, remove_twice, remove_fresh by done; [reflexivity|].
  by rewrite set_loading_twice, <-Hl, set_loading_same.
Qed.

Lemma lookup_under_way id call m st h : lookup_pending id (under_way id call m st h) = Some (PExec call m st).
Proof. apply lookup_wait. Qed.

(** Nothing waits for an answer to a call that has ended. *)
Lemma ended_silent id h h1 i r :
  (forall j p, (j, p) ∈ pendings h -> (j < id)%nat) -> answers id i = true -> pendings h1 = pendings h ->
  step setup h1 i = Some r -> False.
Proof.
  intros Hf Hi Hp E.
  assert (lookup_pending id h1 = None) as Hn.
  { unfold lookup_pending. pose proof (lookup_removed id h) as E0. rewrite remove_fresh in E0 by done. by rewrite Hp, E0. }
  destruct i; try discriminate Hi; apply bool_decide_eq_true in Hi as ->; cbn [step] in E; rewrite Hn in E; discriminate E.
Qed.

(** Where a verification stands after some answers. *)
Inductive standing (id call : nat) (m : VerificationMethod) (h : Hook) : list event -> Hook -> Prop :=
  | standing_waits t st : settlements id t = 0%nat -> standing id call m h t (under_way id call m st h)
  | standing_failed t error :
      Snd (AToastError (error_text setup error)) ∈ t -> List.filter (settlement id) t = [Snd (ASettle id (inr error))] ->
      standing id call m h t (ended_wrong h)
  | standing_done t v :
      Snd (AOnSuccess v m) ∈ t -> Rcv (InCall id (inl v)) ∈ t ->
      List.filter (settlement id) t = [Snd (ASettle id (inl v))] -> standing id call m h t (ended_right h).

Lemma not_settled_app id t i acts :
  settlements id t = 0%nat -> List.filter (settlement id) (t ++ events i acts) = List.filter (settlement id) (map Snd acts).
Proof. intros H. rewrite List.filter_app. by rewrite (nil_length_inv _ H). Qed.

Lemma request_settles_nothing id j a : request_of id a -> settlement j (Snd a) = false.
Proof. by destruct a. Qed.

Lemma exec_next_standing id call m st st1 h t i h' acts :
  loading (state h) = false -> (forall j p, (j, p) ∈ pendings h -> (j < id)%nat) ->
  settlements id t = 0%nat -> awaited st id i = true ->
  exec_next setup id call m (continue st id call i) (under_way id call m st1 h) = (h', acts) ->
  standing id call m h (t ++ events i acts) h'.
Proof.
  intros Hl Hf Ht Hw. unfold exec_next. destruct (continue st id call i) as [[a st']|error] eqn:E.
  - intros [= <- <-]. unfold under_way. rewrite wait_wait. apply standing_waits.
    unfold settlements. rewrite not_settled_app by done. cbn [map List.filter].
    by rewrite (request_settles_nothing id id a) by exact (continue_request _ _ _ _ _ _ Hw E).
  - intros H. pose proof (failed_back id call m st1 h error Hl Hf) as Hb. rewrite H in Hb. cbn [fst] in Hb. subst h'.
    apply (f_equal snd) in H. cbn [exec_failed snd] in H. subst acts. apply (standing_failed _ _ _ _ _ error).
    + apply elem_of_app. right. cbn. apply list_elem_of_further, list_elem_of_here.
    + rewrite not_settled_app by done. cbn [map List.filter settlement]. by rewrite bool_decide_eq_true_2.
Qed.

Lemma answer_standing id call m h t i h1 h' acts :
  loading (state h) = false -> (forall j p, (j, p) ∈ pendings h -> (j < id)%nat) -> answers id i = true ->
  standing id call m h t h1 -> step setup h1 i = Some (h', acts) -> standing id call m h (t ++ events i acts) h'.
Proof.
  intros Hl Hf Hi Hs E. destruct Hs as [t st Ht|t error _ _|t v _ _ _].
  - destruct i; try discriminate Hi; apply bool_decide_eq_true in Hi as ->; cbn [step] in E;
      rewrite lookup_under_way in E; cbn [mbind option_bind on_methods exec_body] in E.
    + discriminate E.
    + destruct st; try discriminate E; injection E as E;
        (match type of E with context [under_way _ _ _ ?st _] =>
           apply (exec_next_standing id call m st st h t (InBody id body) h' acts Hl Hf Ht); [by apply bool_decide_eq_true|exact E] end).
    + destruct st; try discriminate E. injection E as E.
      apply (exec_next_standing id call m AtCredential AtCredential h t (InCredential id c) h' acts Hl Hf Ht);
        [by apply bool_decide_eq_true|exact E].
    + destruct st; try discriminate E. apply (inj Some) in E. destruct result as [v|error].
      * pose proof (done_reset id call m AtCall h v Hl Hf) as Hb. rewrite E in Hb. cbn [fst] in Hb. subst h'.
        apply (f_equal snd) in E. cbn [exec_done snd] in E. subst acts. apply (standing_done _ _ _ _ _ v).
        -- apply elem_of_app. right. unfold events. rewrite map_app. apply list_elem_of_further, elem_of_app. right. cbn. apply list_elem_of_here.
        -- apply elem_of_app. right. apply list_elem_of_here.
        -- rewrite not_settled_app by done.
           destruct (str_truthy (successMessage setup)); cbn [map List.filter app settlement]; by rewrite bool_decide_eq_true_2.
      * pose proof (failed_back id call m AtCall h error Hl Hf) as Hb. rewrite E in Hb. cbn [fst] in Hb. subst h'.
        apply (f_equal snd) in E. cbn [exec_failed snd] in E. subst acts. apply (standing_failed _ _ _ _ _ error).
        -- apply elem_of_app. right. cbn. apply list_elem_of_further, list_elem_of_here.
        -- rewrite not_settled_app by done. cbn [map List.filter settlement]. by rewrite bool_decide_eq_true_2.
  - exfalso. revert E. apply (ended_silent id h); [done|done|reflexivity].
  - exfalso. revert E. apply (ended_silent id h); [done|done|]. unfold ended_right. by destruct (autoReset setup).
Qed.

Lemma execute_standing id call m h l : forall t h1 t' h',
  loading (state h) = false -> (forall j p, (j, p) ∈ pendings h -> (j < id)%nat) -> Forall (fun i => answers id i = true) l ->
  standing id call m h t h1 -> execute setup t h1 l = Some (t', h') -> standing id call m h t' h'.
Proof.
  induction l as [|i l IH]; intros t h1 t' h' Hl Hf Ha Hs; cbn [execute]; [intros [= <- <-]; exact Hs|].
  apply Forall_cons in Ha as [Hi Ha]. destruct (step setup h1 i) as [[h2 acts]|] eqn:E; [|discriminate]. cbn [mbind option_bind fst snd].
  intros He. exact (IH _ _ _ _ Hl Hf Ha (answer_standing _ _ _ _ _ _ _ _ _ Hl Hf Hi Hs E) He).
Qed.

Lemma started_standing h m c call actual h1 acts :
  loading (state h) = false -> (forall j p, (j, p) ∈ pendings h -> (j < next h)%nat) ->
  apiCall (state h) = Some call -> (match m with Some m => Some m | None => method (state h) end) = Some actual ->
  executeVerification setup m c h = (h1, acts) -> standing (next h) call actual h (events (InExecute m c) acts) h1.
Proof.
  intros Hl Hf Hc Hm. unfold executeVerification. rewrite Hc, Hm. unfold exec_next.
  destruct (verify setup (next h) actual _) as [[a st]|error] eqn:E.
  - intros [= <- <-]. apply standing_waits.
    assert (settlement (next h) (Snd a) = false) as Hq.
    { destruct actual; cbn [verify] in E; [destruct (trim _)|destruct (credentials_api setup)]; try discriminate E;
        by injection E as <- _. }
    change (settlements (next h) ([Rcv (InExecute m c)] ++ [Snd a]) = 0%nat).
    unfold settlements. rewrite List.filter_app. unfold List.filter at 2. by rewrite Hq.
  - intros H. assert (h1 = ended_wrong h) as ->.
    { apply (f_equal fst) in H. cbn [exec_failed fst] in H. subst h1. unfold finish, called, set_state, ended_wrong.
      cbn [methods state open pendings next]. by rewrite set_loading_twice, <-Hl, set_loading_same, remove_fresh. }
    apply (f_equal snd) in H. cbn [exec_failed snd] in H. subst acts. apply (standing_failed _ _ _ _ _ error).
    + apply list_elem_of_further, list_elem_of_here.
    + cbn [events map List.filter settlement]. by rewrite bool_decide_eq_true_2.
Qed.

(** ** Everything that waits ends *)

(** How many answers are still awaited, at most. *)
Definition total (h : Hook) : nat := sum_list_with (fun p => weight p.2) (pendings h).

Lemma total_remove id l :
  (sum_list_with (fun p => weight p.2) (remove_pending id l)
   + default 0 (weight <$> (snd <$> List.find (fun p => bool_decide (p.1 = id)) l)) <= sum_list_with (fun p => weight p.2) l)%nat.
Proof.
  unfold remove_pending. induction l as [|[j p] l IH]; [cbn; lia|]. cbn [List.filter List.find fst].
  destruct (bool_decide (j = id)); cbn [negb sum_list_with snd fmap option_fmap option_map default];
    cbn in IH |- *; lia.
Qed.

Lemma total_waits h h' id p q :
  lookup_pending id h = Some p -> lighter p q -> pendings h' = waits id q h -> (total h' < total h)%nat.
Proof.
  unfold total, lookup_pending. intros Hl Hq Hp. pose proof (total_remove id (pendings h)) as Ht. rewrite Hl in Ht. cbn in Ht.
  rewrite Hp. assert (0 < weight p)%nat by (destruct p as [| | |? ? []]; cbn; lia).
  destruct q as [q|]; cbn [waits sum_list_with snd]; cbn in Hq; lia.
Qed.

Lemma answer_lighter h i h' acts : is_answer i = true -> step setup h i = Some (h', acts) -> (total h' < total h)%nat.
Proof.
  intros Hi E. destruct (step_effect _ _ _ _ _ E) as [Hn|p Hn|m c call actual st a ->|id p p' _ Hw Hl _ Hp
    |id call m st a st' Hl Hw _ Hp _ Ec]; [congruence..|discriminate| |].
  - by apply (total_waits h h' id p p').
  - apply (total_waits h h' id (PExec call m st) (Some (PExec call m st'))); [done| |done].
    exact (continue_lighter _ _ _ _ _ _ _ Hw Ec).
Qed.

Lemma answers_bounded l : forall t h t' h',
  Forall (fun i => is_answer i = true) l -> execute setup t h l = Some (t', h') -> (length l + total h' <= total h)%nat.
Proof.
  induction l as [|i l IH]; intros t h t' h'; cbn [execute length]; [intros _ [= _ <-]; lia|].
  intros [Hi Hl]%Forall_cons. destruct (step setup h i) as [[h1 acts]|] eqn:E; [|discriminate]. cbn [mbind option_bind fst snd].
  intros He. pose proof (answer_lighter _ _ _ _ Hi E). pose proof (IH _ _ _ _ Hl He). lia.
Qed.

(** The answer that lets a call go on. *)
Definition some_answer (id : nat) (p : pending) : input :=
  match p with
  | PFetch | PStart _ _ _ => InMethods id (inr (ThValue VUndef))
  | PWith _ _ => InCall id (inl VUndef)
  | PExec _ _ st => match st with AtCredential => InCredential id (inl None) | AtCall => InCall id (inl VUndef) | _ => InBody id (inl VUndef) end
  end.

Lemma some_answer_taken id p h : lookup_pending id h = Some p -> is_answer (some_answer id p) = true /\ step setup h (some_answer id p) <> None.
Proof.
  intros Hl. destruct p as [|call config fw|call config|call m st]; [..|destruct st]; cbn [some_answer]; (split; [reflexivity|]);
    cbn [step]; rewrite Hl; cbn [mbind option_bind on_methods exec_body]; try discriminate.
Qed.

Lemma never_stuck h : pendings h <> [] -> exists i, is_answer i = true /\ step setup h i <> None.
Proof.
  intros Hn. destruct (pendings h) as [|[id p] l] eqn:E; [done|]. exists (some_answer id p).
  apply some_answer_taken. unfold lookup_pending. rewrite E. cbn [find fst]. by rewrite bool_decide_eq_true_2.
Qed.

(** *** Every call settles once *)

Lemma settlements_app id t u : settlements id (t ++ u) = (settlements id t + settlements id u)%nat.
Proof. unfold settlements. by rewrite List.filter_app, length_app. Qed.

Lemma settlement_about id e : settlement id e = true -> about id e = true.
Proof. destruct e as [|[]]; try discriminate; exact (fun H => H). Qed.

Lemma silent_settlements id t : of_call id t = [] -> settlements id t = 0%nat.
Proof.
  induction t as [|e t IH]; [done|]. unfold of_call, settlements. cbn [List.filter].
  destruct (about id e) eqn:Ea; [discriminate|]. destruct (settlement id e) eqn:Es; [|exact IH].
  apply settlement_about in Es. congruence.
Qed.

Lemma lookup_waits id q h h' : pendings h' = waits id q h -> lookup_pending id h' = q.
Proof.
  intros E. unfold lookup_pending. rewrite E. destruct q as [q|]; cbn [waits find fst].
  - by rewrite bool_decide_eq_true_2.
  - by rewrite lookup_removed.
Qed.

Lemma find_remove id j l : j <> id ->
  List.find (fun p : nat * pending => bool_decide (p.1 = j)) (remove_pending id l) = List.find (fun p => bool_decide (p.1 = j)) l.
Proof.
  intros Hj. unfold remove_pending. induction l as [|[k p] l IH]; [reflexivity|]. cbn [List.filter List.find fst].
  destruct (bool_decide (k = id)) eqn:E; cbn [negb].
  - apply bool_decide_eq_true in E as ->. rewrite IH, bool_decide_eq_false_2 by congruence. reflexivity.
  - cbn [List.find fst]. by rewrite IH.
Qed.

Lemma lookup_other id j q h h' : pendings h' = waits id q h -> j <> id -> lookup_pending j h' = lookup_pending j h.
Proof.
  intros E Hj. unfold lookup_pending. rewrite E. destruct q as [q|]; cbn [waits find fst].
  - rewrite bool_decide_eq_false_2 by congruence. by rewrite find_remove.
  - by rewrite find_remove.
Qed.

Definition one_settlement (t : list event) (h : Hook) : Prop :=
  forall id, (id < next h)%nat -> settlements id t = match lookup_pending id h with Some _ => 0%nat | None => 1%nat end.

Lemma moved_settlement t h i acts h' id q :
  one_settlement t h -> only id (events i acts) -> settlements id t = 0%nat -> settling id q acts ->
  lookup_pending id h' = q -> (forall j, j <> id -> lookup_pending j h' = lookup_pending j h) ->
  (forall j, (j < next h')%nat -> j <> id -> (j < next h)%nat) -> one_settlement (t ++ events i acts) h'.
Proof.
  intros Ht Ho H0 Hs Hl Hj Hn j Hlt. rewrite settlements_app. destruct (decide (j = id)) as [->|Hne].
  - rewrite H0, Hl. change (settlements id (events i acts)) with (settlements id (map Snd acts)). rewrite Hs. by destruct q.
  - rewrite (silent_settlements j (events i acts)) by (by apply Ho). rewrite (Ht j) by auto. rewrite Hj by done. lia.
Qed.

Lemma request_settling id m c a st p :
  verify setup id m c = inl (a, st) -> settling id (Some p) [a].
Proof.
  intros E. unfold settling, settlements. cbn [map]. assert (settlement id (Snd a) = false) as Hq.
  { destruct m; cbn [verify] in E; [destruct (trim _)|destruct (credentials_api setup)]; try discriminate E; by injection E as <- _. }
  unfold List.filter. by rewrite Hq.
Qed.

Lemma reaches_one_settlement t h : reaches setup t h -> one_settlement t h.
Proof.
  induction 1 as [|t h i h' acts Hr IH E].
  { intros id Hid. cbn in Hid. assert (id = 0%nat) as -> by lia. reflexivity. }
  pose proof (reaches_consistent _ _ _ Hr) as Hc.
  assert (Hfresh : settlements (next h) t = 0%nat) by (apply silent_settlements, (con_fresh _ _ _ Hc); lia).
  assert (Hnone : lookup_pending (next h) h = None).
  { destruct (lookup_pending (next h) h) as [p|] eqn:El; [|done]. apply lookup_elem, (con_ids _ _ _ Hc) in El. lia. }
  destruct (step_effect _ _ _ _ _ E) as [_ Hp Hn Ho _|p _ Hn Hp Ho _ Hs _|m c call actual st a -> _ Hn Hp -> Ev
      |id p p' _ _ Hl Hn Hp Ho _ Hs _|id call m st a st' Hl Hw Hn Hp -> Ec].
  - intros id Hid. rewrite settlements_app, (silent_settlements id (events i acts)), Nat.add_0_r by done.
    unfold lookup_pending. rewrite Hp. apply IH. by rewrite <-Hn.
  - apply (moved_settlement t h i acts h' (next h) p IH Ho Hfresh Hs); [| |intros j; lia].
    + destruct Hp as [Hp|[Hp ->]]; [exact (lookup_waits _ _ _ _ Hp)|]. unfold lookup_pending. by rewrite Hp.
    + intros j Hj. destruct Hp as [Hp|[Hp _]]; [exact (lookup_other _ _ _ _ _ Hp Hj)|]. unfold lookup_pending. by rewrite Hp.
  - apply (moved_settlement t h (InExecute m c) [a] h' (next h) (Some (PExec call actual st)) IH); [|done| | | |intros j; lia].
    + intros j Hj. exact (proj1 (proj2 (request_about _ _ _ _ _ _ Ev)) j Hj).
    + exact (request_settling _ _ _ _ _ _ Ev).
    + exact (lookup_waits _ _ _ _ Hp).
    + intros j Hj. exact (lookup_other _ _ _ _ _ Hp Hj).
  - apply (moved_settlement t h i acts h' id p' IH Ho); [|done| | |intros j; lia].
    + rewrite (IH id), Hl; [done|]. apply lookup_elem in Hl. exact (con_ids _ _ _ Hc _ _ Hl).
    + exact (lookup_waits _ _ _ _ Hp).
    + intros j Hj. exact (lookup_other _ _ _ _ _ Hp Hj).
  - apply (moved_settlement t h i [a] h' id (Some (PExec call m st')) IH); [| | | | |intros j; lia].
    + intros j Hj. change (events i [a]) with ([Rcv i] ++ [Snd a]).
      by rewrite of_call_app, (proj2 (awaited_about _ _ _ Hw) j Hj), (proj2 (continue_about _ _ _ _ _ _ Hw Ec) j Hj).
    + rewrite (IH id), Hl; [done|]. apply lookup_elem in Hl. exact (con_ids _ _ _ Hc _ _ Hl).
    + unfold settling, settlements. cbn [map]. pose proof (request_settles_nothing id id a (continue_request _ _ _ _ _ _ Hw Ec)) as Hq.
      unfold List.filter. by rewrite Hq.
    + exact (lookup_waits _ _ _ _ Hp).
    + intros j Hj. exact (lookup_other _ _ _ _ _ Hp Hj).
Qed.

End outcome.

(** ** The properties *)

(** C3.  A verification that is refused can be tried again, one that succeeds is
    over: when the user presses the button while none is under way, then after
    any answers to it either it still waits, or it has failed, with a message
    and a rejection, and the hook is what it was before, with the call, the
    chosen method and the dialog as they were; or the page's call has resolved,
    the page is told, and the dialog is closed and emptied (unless the
    component asks otherwise). *)
Theorem verification_ends (setup : Setup) (t0 : list event) (h : Hook) (m : option VerificationMethod) (c : option jstr)
    (call : nat) (actual : VerificationMethod) (l : list input) (t : list event) (h' : Hook) :
  reaches setup t0 h -> loading (state h) = false -> apiCall (state h) = Some call ->
  (match m with Some m => Some m | None => method (state h) end) = Some actual ->
  Forall (fun i => answers (next h) i = true) l ->
  execute setup [] h (InExecute m c :: l) = Some (t, h') ->
  standing setup (next h) call actual h t h'.
Proof.
  intros Hr Hl Hc Hm Ha. cbn [execute step mbind option_bind app].
  destruct (executeVerification setup m c h) as [h1 acts] eqn:E. cbn [fst snd].
  pose proof (con_ids _ _ _ (reaches_consistent _ _ _ Hr)) as Hf.
  intros He. exact (execute_standing setup _ _ _ _ l _ _ _ _ Hl Hf Ha (started_standing setup _ _ _ _ _ _ _ Hl Hf Hc Hm E) He).
Qed.

Lemma verification_ends_witness :
  exists t0 h t h', reaches sample_setup t0 h /\ apiCall (state h) = Some 7%nat
    /\ execute sample_setup [] h [InExecute None (Some (js "000000")); InBody 2 (inl failure_body)] = Some (t, h')
    /\ standing sample_setup 2 7 M2FA h t h'.
Proof.
  set (l := [InBody 2 (inl failure_body)]). set (i := InExecute None (Some (js "000000"))).
  destruct (executes_ok (fun r => negb (loading (state r.2)) && bool_decide (apiCall (state r.2) = Some 7%nat)
      && bool_decide (method (state r.2) = Some M2FA) && Nat.eqb (next r.2) 2
      && executes (fun _ => true) (execute sample_setup [] r.2 (i :: l)))
    (execute sample_setup [Snd (ACheckMethods 0)] mounted asking)) as ([t0 h] & E0 & H); [vm_compute; reflexivity|].
  apply andb_true_iff in H as [H He]. apply andb_true_iff in H as [H Hn]. apply andb_true_iff in H as [H Hm].
  apply andb_true_iff in H as [Hl Hc]. cbn [snd] in Hl, Hc, Hm, Hn, He.
  apply negb_true_iff in Hl. apply bool_decide_eq_true in Hc, Hm. apply Nat.eqb_eq in Hn.
  destruct (executes_ok _ _ He) as ([t h'] & E & _).
  pose proof (execute_reaches sample_setup _ _ _ _ _ (reaches_mounted _) E0) as Hr.
  exists t0, h, t, h'. split; [exact Hr|]. split; [exact Hc|]. split; [exact E|].
  assert (Ha : Forall (fun i => answers (next h) i = true) l) by (rewrite Hn; by repeat constructor).
  pose proof (verification_ends sample_setup t0 h None (Some (js "000000")) 7 M2FA l t h' Hr Hl Hc Hm Ha E) as Hs.
  rewrite Hn in Hs. exact Hs.
Defined.

(** C4.  Nothing that is called is lost: whatever has happened, each call of a
    function of the hook has settled exactly once or still waits; while
    something waits there is an answer it takes; and the answers that can
    follow are bounded, so that when they have come everything has settled. *)
Theorem every_call_settles (setup : Setup) (t : list event) (h : Hook) :
  reaches setup t h ->
  (forall id, (id < next h)%nat -> settlements id t = match lookup_pending id h with Some _ => 0%nat | None => 1%nat end)
  /\ (pendings h <> [] -> exists i, is_answer i = true /\ step setup h i <> None)
  /\ (forall l t' h', Forall (fun i => is_answer i = true) l -> execute setup t h l = Some (t', h') ->
        (length l + total h' <= total h)%nat).
Proof.
  intros Hr. split; [exact (reaches_one_settlement setup t h Hr)|].
  split; [apply never_stuck|]. intros l t' h'. apply answers_bounded.
Qed.

Lemma every_call_settles_witness :
  exists t h, reaches sample_setup t h /\ total h = 0%nat /\ settlements 3 t = 1%nat.
Proof.
  destruct (executes_ok (fun r => Nat.eqb (total r.2) 0 && Nat.eqb (next r.2) 4 && bool_decide (pendings r.2 = []))
    (execute sample_setup [Snd (ACheckMethods 0)] mounted (asking ++ answering ++ [InCall 3 (inl VNull)])))
    as ([t h] & E & H).
  { vm_compute. reflexivity. }
  apply andb_true_iff in H as [H Hp]. apply andb_true_iff in H as [Ht Hn]. cbn [snd] in Ht, Hn, Hp.
  apply Nat.eqb_eq in Ht, Hn. apply bool_decide_eq_true in Hp.
  pose proof (execute_reaches sample_setup _ _ _ _ _ (reaches_mounted _) E) as Hr.
  exists t, h. split; [exact Hr|]. split; [exact Ht|].
  rewrite (proj1 (every_call_settles sample_setup t h Hr) 3%nat) by lia. unfold lookup_pending. by rewrite Hp.
Defined.
