(* ===== verification/SecurePages.v ===== *)
(** * Secure verification: the dialog and the pages that use it
      (features/auth/secure-verification/components/secure-verification-dialog.tsx;
      the key of a channel in features/channels/components/drawers/channel-mutate-drawer.tsx;
      features/profile/components/passkey-card.tsx and the calls of
      features/auth/passkey/hooks/use-passkey-management.ts)

    A page is the hook with its own state; a user's event is one that the
    dialog or the page lets happen ([None] otherwise), and what the hook does
    is kept as its events. *)
From S2P Require Import Prelude JsString JsNumber JsValue SecureVerify SecureVerifyFacts.
Open Scope N_scope.

(** ** The dialog *)

Definition availableTabs (m : VerificationMethods) : list VerificationMethod :=
  (if has2FA m then [M2FA] else []) ++ (if hasPasskey m && passkeySupported m then [MPasskey] else []).

Definition activeMethod (m : VerificationMethods) (s : InternalState) : option VerificationMethod :=
  match method s with Some x => Some x | None => head (availableTabs m) end.

Definition verifyDisabled (m : VerificationMethods) (s : InternalState) : bool :=
  loading s || (bool_decide (activeMethod m s = Some M2FA) && (negb (str_truthy (trim (code s))) || (length (code s) <? 6)%nat)).

(** The Verify button can be pressed. *)
Definition can_verify (m : VerificationMethods) (s : InternalState) : bool :=
  negb (bool_decide (availableTabs m = [])) && negb (verifyDisabled m s).

Definition handleVerify (m : VerificationMethods) (s : InternalState) : option input :=
  match activeMethod m s with
  | None => None
  | Some x => Some (InExecute (Some x) (if bool_decide (x = M2FA) then Some (code s) else None))
  end.

(** The panel that is shown: that of the active method, if it has a tab. *)
Definition shown_panel (m : VerificationMethods) (s : InternalState) : option VerificationMethod :=
  match availableTabs m with
  | [] => None
  | tab :: _ => let value := default tab (activeMethod m s) in if bool_decide (value ∈ availableTabs m) then Some value else None
  end.

(** What the user does in the dialog.  [Dismiss] is what the dialog itself
    reports: Escape, a press outside, or its close button. *)
Inductive dialog_event := Press_verify | Type_code (c : jstr) | Choose_tab (m : VerificationMethod) | Press_cancel | Dismiss.

(** [cancelled] and [dismissed]: what the page does then. *)
Definition dialog_input (m : VerificationMethods) (h : Hook) (cancelled dismissed : input) (e : dialog_event) : option input :=
  if negb (open h) then None else
  match e with
  | Press_verify => if can_verify m (state h) then handleVerify m (state h) else None
  | Type_code c =>
      if bool_decide (shown_panel m (state h) = Some M2FA) && negb (loading (state h)) && (length c <=? 8)%nat
      then Some (InCode c) else None
  | Choose_tab x => if bool_decide (x ∈ availableTabs m) then Some (InSwitch x) else None
  | Press_cancel => if loading (state h) then None else Some cancelled
  | Dismiss => Some dismissed
  end.

(** What a promise of the hook's environment settles with. *)
Definition answer_of (i : input) : option input := if is_answer i then Some i else None.

(** ** The key of a channel *)

(** The channel's number; 0 is falsy.  The key is a string, whatever the server sent. *)
Record Drawer := MkDrawer {
  d_hook : Hook; d_open : bool; channelId : option nat; channelKey : option jsval; isChannelKeyLoading : bool
}.

Definition reveal_config : StartVerificationOptions :=
  MkStart (Some MPasskey) (Some (js "Verify to view channel key"))
    (Some (js "Use Passkey or 2FA to confirm your identity before revealing this channel key.")).

(** useSecureVerification() without options. *)
Definition plain_setup (credentials : bool) (text : jstr -> jstr) : Setup := MkSetup [] true credentials text.

(** fetchChannelKey, from what the request settles with: how it settles, and
    the key that it sets. *)
Definition fetched_key (response : outcome jsval) : outcome jsval * option jsval :=
  match response with
  | inr error => (inr error, None)
  | inl res =>
      match vget (js "success") res with
      | Throw e => (inr (native e), None)
      | Ok success =>
          if truthy success then
            (inl res, Some (vcoalesce (opt_field (js "key") (opt_field (js "data") res)) (VStr [])))
          else (inr (error_or (opt_field (js "message") res) (js "Failed to fetch channel key")), None)
      end
  end.

Inductive drawer_event :=
  | DShow (o : bool) (channel : option nat)            (* the props [open] and [currentRow] *)
  | DReveal
  | DDialog (e : dialog_event)
  | DAnswer (i : input)                                (* an answer to the hook but for the page's call *)
  | DKey (id : nat) (response : outcome jsval).        (* the request for the key settles *)

Definition with_hook (h : Hook) (d : Drawer) : Drawer := MkDrawer h (d_open d) (channelId d) (channelKey d) (isChannelKeyLoading d).

(** The page's call starts: a request of [fetchChannelKey]. *)
Definition calls_page (a : action) : bool := match a with ACall _ _ | ARetry _ _ => true | _ => false end.

(** The drawer after a step of the hook, and the hook's events. *)
Definition drawer_hook (setup : Setup) (i : input) (d : Drawer) : option (Drawer * list event) :=
  r ← step setup (d_hook d) i;
  Some (MkDrawer r.1 (d_open d) (channelId d) (channelKey d) (isChannelKeyLoading d || existsb calls_page r.2), events i r.2).

(** The effect on [open] and [channelId]. *)
Definition show (o : bool) (channel : option nat) (d : Drawer) : Drawer :=
  let same := bool_decide (o = d_open d) && bool_decide (channel = channelId d) in
  if same then d
  else if o then
    match channel with
    | Some (S _) => MkDrawer (d_hook d) o channel None (isChannelKeyLoading d)
    | _ => MkDrawer (d_hook d) o channel (channelKey d) (isChannelKeyLoading d)
    end
  else MkDrawer (d_hook d) o channel None false.

Definition can_reveal (d : Drawer) : bool :=
  d_open d && negb (bool_decide (channelId d = None)) && negb (isChannelKeyLoading d || loading (state (d_hook d))).

Definition handleRevealKey (setup : Setup) (d : Drawer) : option (Drawer * list event) :=
  match channelId d with
  | Some (S n) => drawer_hook setup (InWith (S n) reveal_config) d
  | _ => Some (d, [])
  end.

(** The page's call that waits as [id] settles. *)
Definition key_settles (setup : Setup) (id : nat) (response : outcome jsval) (d : Drawer) : option (Drawer * list event) :=
  let '(result, key) := fetched_key response in
  let d := MkDrawer (d_hook d) (d_open d) (channelId d) (match key with Some k => Some k | None => channelKey d end) false in
  drawer_hook setup (InCall id result) d.

Definition drawer_step (setup : Setup) (d : Drawer) (e : drawer_event) : option (Drawer * list event) :=
  match e with
  | DShow o channel => Some (show o channel d, [])
  | DReveal => if can_reveal d then handleRevealKey setup d else None
  | DDialog e => i ← dialog_input (methods (d_hook d)) (d_hook d) InCancel InCancel e; drawer_hook setup i d
  | DAnswer i => match i with InCall _ _ => None | _ => i ← answer_of i; drawer_hook setup i d end
  | DKey id response => key_settles setup id response d
  end.

Definition drawer_mounted : Drawer := MkDrawer mounted false None None false.

(** ** The passkey card *)

(** handleRegister and handleRemove wait for the methods. *)
Inductive card_task := Registering | Removing.

Record Card := MkCard {
  k_hook : Hook; restrictedMethod : option VerificationMethod; confirmOpen : bool; k_tasks : list (nat * card_task)
}.

Definition dialogMethods (k : Card) : VerificationMethods :=
  let m := methods (k_hook k) in
  match restrictedMethod k with
  | None => m
  | Some r => MkMethods (bool_decide (r = M2FA) && has2FA m) (bool_decide (r = MPasskey) && hasPasskey m) (passkeySupported m)
  end.

(** The closures [register] and [remove] of the page. *)
Definition register_call : nat := 0.
Definition remove_call : nat := 1.

Definition register_config : StartVerificationOptions :=
  MkStart (Some M2FA) (Some (js "Security verification"))
    (Some (js "Confirm your identity with Two-factor Authentication before registering a Passkey.")).
Definition remove_config (required : VerificationMethod) : StartVerificationOptions :=
  MkStart (Some required) (Some (js "Security verification"))
    (Some (js "Confirm your identity before removing this Passkey from your account.")).

(** What the card does besides the hook. *)
Inductive card_event := Hook_event (e : event) | Register_directly | Card_error (text : jstr) | Card_info (text : jstr).

Definition card_hook (setup : Setup) (i : input) (k : Card) : option (Card * list card_event) :=
  r ← step setup (k_hook k) i;
  let succeeded := existsb (fun a => match a with AOnSuccess _ _ => true | _ => false end) r.2 in
  Some (MkCard r.1 (if succeeded then None else restrictedMethod k) (confirmOpen k) (k_tasks k),
        map Hook_event (events i r.2)).

Definition restrict (m : option VerificationMethod) (k : Card) : Card := MkCard (k_hook k) m (confirmOpen k) (k_tasks k).
Definition setConfirmOpen (b : bool) (k : Card) : Card := MkCard (k_hook k) (restrictedMethod k) b (k_tasks k).

(** A handler calls fetchVerificationMethods and waits. *)
Definition start_task (setup : Setup) (task : card_task) (k : Card) : option (Card * list card_event) :=
  let id := next (k_hook k) in
  r ← card_hook setup InFetch k;
  Some (MkCard (k_hook r.1) (restrictedMethod r.1) (confirmOpen r.1) ((id, task) :: k_tasks r.1), r.2).

Definition handleRegister (setup : Setup) (supported : bool) (k : Card) : option (Card * list card_event) :=
  if negb supported then Some (k, [Card_info (js "This device does not support Passkey")]) else start_task setup Registering k.

Definition register_with (setup : Setup) (m : VerificationMethods) (k : Card) : option (Card * list card_event) :=
  if negb (has2FA m) then Some (k, [Register_directly])
  else card_hook setup (InStart register_call register_config) (restrict (Some M2FA) k).

Definition remove_with (setup : Setup) (m : VerificationMethods) (k : Card) : option (Card * list card_event) :=
  match (if has2FA m then Some M2FA else if hasPasskey m then Some MPasskey else None) with
  | None => Some (k, [Card_error NO_METHODS_TOAST])
  | Some required =>
      if bool_decide (required = MPasskey) && negb (passkeySupported m)
      then Some (k, [Card_info (js "This device does not support Passkey")])
      else card_hook setup (InStart remove_call (remove_config required)) (restrict (Some required) (setConfirmOpen false k))
  end.

Inductive card_input :=
  | KRegister (supported : bool) | KConfirm (o : bool) | KRemove
  | KDialog (e : dialog_event) | KAnswer (i : input).

Definition task_of (id : nat) (k : Card) : option card_task := snd <$> List.find (fun p => bool_decide (p.1 = id)) (k_tasks k).
Definition drop_task (id : nat) (k : Card) : Card :=
  MkCard (k_hook k) (restrictedMethod k) (confirmOpen k) (List.filter (fun p => negb (bool_decide (p.1 = id))) (k_tasks k)).

(** A handler goes on once the methods it asked for are there. *)
Definition card_answer (setup : Setup) (i : input) (k : Card) : option (Card * list card_event) :=
  r ← card_hook setup i k;
  match i with
  | InMethods id settled =>
      match task_of id k with
      | None => Some r
      | Some task =>
          let k := drop_task id r.1 in
          q ← (match task with Registering => register_with | Removing => remove_with end) setup (checkVerificationMethods settled) k;
          Some (q.1, r.2 ++ q.2)
      end
  | _ => Some r
  end.

(** handleVerificationCancel and handleVerificationOpenChange come before the hook's own. *)
Definition card_dialog (setup : Setup) (e : dialog_event) (k : Card) : option (Card * list card_event) :=
  i ← dialog_input (dialogMethods k) (k_hook k) InCancel (InOpen false) e;
  card_hook setup i (match e with Press_cancel | Dismiss => restrict None k | _ => k end).

Definition card_step (setup : Setup) (k : Card) (i : card_input) : option (Card * list card_event) :=
  match i with
  | KRegister supported => handleRegister setup supported k
  | KConfirm o => Some (setConfirmOpen o k, [])
  | KRemove => if confirmOpen k then start_task setup Removing k else None
  | KDialog e => card_dialog setup e k
  | KAnswer i => i ← answer_of i; card_answer setup i k
  end.

Definition card_mounted : Card := MkCard mounted None false [].

(** ** What the card's calls do (passkey/hooks/use-passkey-management.ts)

    Each is one call of an asynchronous function, given what it awaits in
    turn; two calls at the same time are not modelled. *)

Record PasskeyPage := MkPasskeyPage { status : jsval; p_loading : bool; registering : bool; p_removing : bool }.

(** [useState]'s initial values. *)
Definition passkey_mounted : PasskeyPage := MkPasskeyPage VNull true false false.

Inductive notice := Notice_error (text : jsval) | Notice_info (text : jstr) | Notice_success (text : jstr).

Definition set_registering (b : bool) (p : PasskeyPage) : PasskeyPage := MkPasskeyPage (status p) (p_loading p) b (p_removing p).
Definition set_removing (b : bool) (p : PasskeyPage) : PasskeyPage := MkPasskeyPage (status p) (p_loading p) (registering p) b.

(** [r.success], or what reading it throws. *)
Definition succeeded (body : outcome jsval) : outcome bool := try* r := body in try* v := lift (vget (js "success") r) in inl (truthy v).

(** [res.message || text] *)
Definition message_or (body : outcome jsval) (text : jstr) : jsval :=
  match body with inl r => vor (opt_field (js "message") r) (VStr text) | inr _ => VStr text end.

(** fetchStatus, which never rejects. *)
Definition fetchStatus (answer : outcome jsval) (p : PasskeyPage) : PasskeyPage * list notice :=
  let got (v : jsval) := MkPasskeyPage v false (registering p) (p_removing p) in
  match succeeded answer with
  | inl true => (got (match answer with inl r => vcoalesce (opt_field (js "data") r) VNull | inr _ => VNull end), [])
  | inl false => (got VNull, [Notice_error (message_or answer (js "Failed to load Passkey status"))])
  | inr _ => (got VNull, [Notice_error (VStr (js "Failed to load Passkey status"))])
  end.

Section ceremony.
(** The text of a rejection that is an [Error]. *)
Context (text_of : thrown -> option jstr).

(** register up to the last request: the end it comes to, or success. *)
Definition registration (started : outcome jsval) (created : outcome (option NewCredential)) (finished : outcome jsval)
  : outcome (list notice + unit) :=
  try* begun := succeeded started in
  if negb begun then inl (inl [Notice_error (message_or started (js "Failed to start Passkey registration"))])
  else
    try* body := started in
    let data := opt_field (js "data") body in
    try* _ := prepareCredentialCreationOptions (vcoalesce (opt_field (js "options") data) data) in
    try* credential := created in
    match credential with
    | None => inl (inl [Notice_error (VStr (js "Passkey registration was cancelled"))])
    | Some c =>
        match buildRegistrationResult c with
        | None => inl (inl [Notice_error (VStr (js "Invalid Passkey registration response"))])
        | Some _ =>
            try* ended := succeeded finished in
            if ended then inl (inr tt)
            else inl (inl [Notice_error (message_or finished (js "Failed to register Passkey"))])
        end
    end.

(** The catch clause of register. *)
Definition registration_error (error : thrown) : list notice :=
  match error with
  | ThNative name =>
      if bool_decide (name = js "NotAllowedError") then [Notice_info (js "Passkey registration was cancelled")]
      else [Notice_error (VStr (default (js "Failed to register Passkey") (text_of error)))]
  | _ => [Notice_error (VStr (default (js "Failed to register Passkey") (text_of error)))]
  end.

(** The page, what is said, and what the promise resolves to. *)
Definition register (supported credentials : bool) (started : outcome jsval) (created : outcome (option NewCredential))
    (finished answer : outcome jsval) (p : PasskeyPage) : PasskeyPage * list notice * bool :=
  if negb supported then (p, [Notice_error (VStr (js "This device does not support Passkey"))], false)
  else if negb credentials then (p, [Notice_error (VStr (js "Passkey is not supported in this environment"))], false)
  else
    let p := set_registering true p in
    match registration started created finished with
    | inr error => (set_registering false p, registration_error error, false)
    | inl (inl said) => (set_registering false p, said, false)
    | inl (inr tt) =>
        let '(p, said) := fetchStatus answer p in
        (set_registering false p, Notice_success (js "Passkey registered successfully") :: said, true)
    end.

Definition remove (deleted answer : outcome jsval) (p : PasskeyPage) : PasskeyPage * list notice * bool :=
  let p := set_removing true p in
  match succeeded deleted with
  | inr _ => (set_removing false p, [Notice_error (VStr (js "Failed to remove Passkey"))], false)
  | inl false => (set_removing false p, [Notice_error (message_or deleted (js "Failed to remove Passkey"))], false)
  | inl true =>
      let '(p, said) := fetchStatus answer p in
      (set_removing false p, Notice_success (js "Passkey removed successfully") :: said, true)
  end.
End ceremony.

Definition enabled (p : PasskeyPage) : bool := truthy (opt_field (js "enabled") (status p)).
Definition lastUsed (p : PasskeyPage) : jsval := vcoalesce (opt_field (js "last_used_at") (status p)) VNull.
