(* ===== verification/SecurePagesFacts.v ===== *)
(** * Secure verification: every execution of the pages

    Whose key the drawer shows, what the passkey card does without a
    verification, and what the dialog offers. *)
From S2P Require Import Prelude JsString JsNumber JsValue SecureVerify SecureVerifyFacts SecureOutcome SecurePages.
Open Scope N_scope.

#[local] Opaque js trim.

(** ** The calls that a hook holds *)

Definition pending_call (P : nat -> Prop) (p : pending) : Prop :=
  match p with PFetch => True | PStart call _ _ | PWith call _ | PExec call _ _ => P call end.

Record holds (P : nat -> Prop) (h : Hook) : Prop := {
  holds_state : forall call, apiCall (state h) = Some call -> P call;
  holds_pendings : forall id p, (id, p) ∈ pendings h -> pending_call P p
}.

Definition input_call (P : nat -> Prop) (i : input) : Prop :=
  match i with InStart call _ | InWith call _ => P call | _ => True end.

Section calls.
Context (P : nat -> Prop).

Lemma holds_finish id h : holds P h -> holds P (finish id h).
Proof. intros [H1 H2]. split; [exact H1|]. intros j p [_ Hin]%elem_remove. by apply (H2 j). Qed.

Lemma holds_wait id p h : holds P h -> pending_call P p -> holds P (wait id p h).
Proof.
  intros [H1 H2] Hp. split; [exact H1|]. intros j q [[= -> ->]|[_ Hin]%elem_remove]%elem_of_cons; [done|]. by apply (H2 j).
Qed.

Lemma holds_called h : holds P h -> holds P (called h).
Proof. intros [H1 H2]. by split. Qed.

Lemma holds_set_state s h : holds P h -> (forall call, apiCall s = Some call -> P call) -> holds P (set_state s h).
Proof. intros [_ H2] Hs. by split. Qed.

Lemma holds_setOpen b h : holds P h -> holds P (setOpen b h).
Proof. intros [H1 H2]. by split. Qed.

Lemma holds_set_methods m h : holds P h -> holds P (set_methods m h).
Proof. intros [H1 H2]. by split. Qed.

Lemma holds_reset h : holds P h -> holds P (reset h).
Proof. intros H. apply holds_setOpen, holds_set_state; [done|discriminate]. Qed.

Lemma holds_loading b h : holds P h -> holds P (set_state (set_loading b (state h)) h).
Proof. intros H. apply holds_set_state; [done|]. exact (holds_state _ _ H). Qed.

Lemma holds_lookup id p h : holds P h -> lookup_pending id h = Some p -> pending_call P p.
Proof. intros H Hl. by apply lookup_elem, (holds_pendings _ _ H) in Hl. Qed.

Hint Resolve holds_finish holds_wait holds_called holds_setOpen holds_set_methods holds_reset holds_loading : held.

Lemma holds_exec_next setup id call m c h h' acts :
  holds P h -> P call -> exec_next setup id call m c h = (h', acts) -> holds P h'.
Proof.
  intros H Hc. unfold exec_next, exec_failed. destruct c as [[a st]|error]; intros [= <- _]; [|eauto with held].
  by apply holds_wait.
Qed.

Lemma holds_execute setup m c h h' acts : holds P h -> executeVerification setup m c h = (h', acts) -> holds P h'.
Proof.
  intros H. unfold executeVerification. destruct (apiCall (state h)) as [call|] eqn:Ec.
  2:{ intros [= <- _]. eauto with held. }
  destruct (match m with Some m => Some m | None => method (state h) end) as [actual|].
  2:{ intros [= <- _]. eauto with held. }
  apply holds_exec_next; [eauto with held|]. exact (holds_state _ _ H _ Ec).
Qed.

Lemma holds_done setup id m v h h' acts : holds P h -> exec_done setup id m v h = (h', acts) -> holds P h'.
Proof. intros H. unfold exec_done. intros [= <- _]. apply holds_finish, holds_loading. destruct (autoReset setup); eauto with held. Qed.

Lemma holds_methods id p m h h' acts :
  holds P h -> pending_call P p -> on_methods id p m h = Some (h', acts) -> holds P h'.
Proof.
  intros H Hp. unfold on_methods. destruct p as [|call config fw| |]; try discriminate.
  - intros [= <- _]. eauto with held.
  - unfold start_with. destruct (_ && _); intros [= <- _]; [eauto with held|].
    apply holds_setOpen, holds_set_state; [eauto with held|]. by intros call' [= <-].
Qed.

Lemma holds_with id call config r h h' acts :
  holds P h -> P call -> with_settled id call config r h = (h', acts) -> holds P h'.
Proof.
  intros H Hc. unfold with_settled. destruct r as [v|error]; [|destruct (isVerificationRequiredError error)];
    intros [= <- _]; eauto with held.
Qed.

Lemma holds_step setup h i h' acts :
  holds P h -> input_call P i -> step setup h i = Some (h', acts) -> holds P h'.
Proof.
  intros H Hi. destruct i as [|call config|call config|m c|c|m| |b|id s|id body|id c|id r]; cbn [step].
  1-3: intros [= <- _]; apply holds_wait; eauto with held.
  - intros [= E]. by apply holds_execute in E.
  - intros [= <- _]. apply holds_set_state; [done|]. exact (holds_state _ _ H).
  - intros [= <- _]. apply holds_set_state; [done|]. exact (holds_state _ _ H).
  - intros [= <- _]. eauto with held.
  - intros [= <- _]. eauto with held.
  - destruct (lookup_pending id h) as [p|] eqn:E; [|discriminate]. cbn [mbind option_bind].
    apply holds_methods; [done|]. exact (holds_lookup _ _ _ H E).
  - destruct (lookup_pending id h) as [[| | |call m st]|] eqn:E; try discriminate.
    pose proof (holds_lookup _ _ _ H E) as Hc; cbn [pending_call] in Hc.
    destruct st; cbn [exec_body]; try discriminate; intros [= E1]; by apply holds_exec_next in E1.
  - destruct (lookup_pending id h) as [[| | |call m []]|] eqn:E; try discriminate.
    pose proof (holds_lookup _ _ _ H E) as Hc; cbn [pending_call] in Hc.
    intros [= E1]. by apply holds_exec_next in E1.
  - destruct (lookup_pending id h) as [[|call config fw|call config|call m []]|] eqn:E; try discriminate;
      pose proof (holds_lookup _ _ _ H E) as Hc; cbn [pending_call] in Hc; intros [= E1].
    + by apply holds_with in E1.
    + destruct r as [v|error]; [by apply holds_done in E1|]. unfold exec_failed in E1. injection E1 as <- _. eauto with held.
Qed.

End calls.

Lemma holds_impl (P Q : nat -> Prop) h : (forall call, P call -> Q call) -> holds P h -> holds Q h.
Proof.
  intros HPQ [H1 H2]. split; [eauto|]. intros id p Hin. pose proof (H2 id p Hin) as Hp. destruct p; cbn in *; eauto.
Qed.

(** ** The key that the drawer shows *)

(** The server: the key of a channel. *)
Section drawer.
Context (setup : Setup) (keys : nat -> jstr).

(** The call that waits as [id] is a page's call, [call]. *)
Definition awaits_call (h : Hook) (id call : nat) : Prop :=
  match lookup_pending id h with Some (PWith c _) | Some (PExec c _ AtCall) => c = call | _ => False end.

(** What the drawer is given: the answers for a channel carry that channel's
    key, and the channel is only changed while no call is held. *)
Definition orderly (d : Drawer) (e : drawer_event) : Prop :=
  match e with
  | DShow o channel => channel = channelId d \/ holds (fun _ => False) (d_hook d)
  | DKey id response =>
      forall call k, awaits_call (d_hook d) id call -> (fetched_key response).2 = Some k -> k = VStr (keys call)
  | _ => True
  end.

Inductive drawer_reaches (ok : Drawer -> drawer_event -> Prop) : list event -> Drawer -> Prop :=
  | drawer_start : drawer_reaches ok [Snd (ACheckMethods 0)] drawer_mounted
  | drawer_next t d e d' es :
      drawer_reaches ok t d -> ok d e -> drawer_step setup d e = Some (d', es) -> drawer_reaches ok (t ++ es) d'.

Definition own_key (d : Drawer) : Prop :=
  forall n v, channelId d = Some (S n) -> channelKey d = Some v -> v = VStr (keys (S n)).

Definition own_calls (d : Drawer) : Prop := holds (fun call => channelId d = Some call) (d_hook d).

Lemma drawer_hook_parts i d d' es :
  drawer_hook setup i d = Some (d', es) ->
  exists acts, step setup (d_hook d) i = Some (d_hook d', acts) /\ es = events i acts
    /\ channelId d' = channelId d /\ channelKey d' = channelKey d.
Proof.
  unfold drawer_hook. destruct (step setup (d_hook d) i) as [[h acts]|]; [|discriminate]. intros [= <- <-]. by exists acts.
Qed.

Lemma drawer_hook_own i d d' es :
  own_key d -> own_calls d -> input_call (fun call => channelId d = Some call) i ->
  drawer_hook setup i d = Some (d', es) -> own_key d' /\ own_calls d'.
Proof.
  intros Hk Hc Hi (acts & Es & _ & En & Ev)%drawer_hook_parts. unfold own_key, own_calls. rewrite En, Ev. split; [exact Hk|].
  exact (holds_step _ _ _ _ _ _ Hc Hi Es).
Qed.

(** What the dialog feeds to the hook holds no call. *)
Lemma dialog_input_call P m h c d e i :
  input_call P c -> input_call P d -> dialog_input m h c d e = Some i -> input_call P i.
Proof.
  intros Hc Hd. unfold dialog_input. destruct (open h); cbn [negb]; [|discriminate]. destruct e as [|x|x| |].
  - destruct (can_verify m (state h)); [|discriminate]. unfold handleVerify.
    destruct (activeMethod m (state h)); [|discriminate]. by intros [= <-].
  - destruct (_ && _); [|discriminate]. by intros [= <-].
  - destruct (bool_decide _); [|discriminate]. by intros [= <-].
  - destruct (loading (state h)); [discriminate|]. by intros [= <-].
  - by intros [= <-].
Qed.

Lemma answer_input_call P i j : answer_of i = Some j -> input_call P j.
Proof. unfold answer_of. destruct (is_answer i) eqn:E; [|discriminate]. intros [= <-]. by destruct i. Qed.

Lemma show_own o channel d :
  channel = channelId d \/ holds (fun _ => False) (d_hook d) -> own_key d -> own_calls d ->
  own_key (show o channel d) /\ own_calls (show o channel d).
Proof.
  intros Hs Hk Hc. assert (Hc' : holds (fun call => channel = Some call) (d_hook d)).
  { destruct Hs as [->|Hs]; [exact Hc|]. revert Hs. by apply holds_impl. }
  unfold show. destruct (bool_decide (o = d_open d) && bool_decide (channel = channelId d)); [done|].
  destruct o; [|by split]. destruct channel as [[|n]|]; (split; [|exact Hc']); done.
Qed.

(** The call that settles is the one that the drawer's channel made. *)
Lemma key_of_call id response d d' es :
  own_calls d -> key_settles setup id response d = Some (d', es) ->
  exists call, awaits_call (d_hook d) id call /\ channelId d = Some call.
Proof.
  intros Hc. unfold key_settles. destruct (fetched_key response) as [result key]. intros (acts & Es & _)%drawer_hook_parts.
  cbn [d_hook step] in Es. unfold awaits_call. destruct (lookup_pending id (d_hook d)) as [[|call config fw|call config|call m []]|] eqn:E;
    try discriminate Es; pose proof (holds_lookup _ _ _ _ Hc E) as Hp; by exists call.
Qed.

Lemma key_settles_own id response d d' es :
  own_key d -> own_calls d -> orderly d (DKey id response) ->
  key_settles setup id response d = Some (d', es) -> own_key d' /\ own_calls d'.
Proof.
  intros Hk Hc Ho E. destruct (key_of_call _ _ _ _ _ Hc E) as (call & Hw & Hn). specialize (Ho call).
  unfold key_settles in E. destruct (fetched_key response) as [result key]. cbn [snd] in Ho.
  apply drawer_hook_own in E; [exact E| |exact Hc|exact I].
  intros n v. cbn [channelId channelKey]. intros En. destruct key as [k|]; [|by apply Hk].
  intros [= <-]. rewrite En in Hn. injection Hn as <-. by apply Ho.
Qed.

Lemma drawer_step_own d e d' es :
  own_key d -> own_calls d -> orderly d e -> drawer_step setup d e = Some (d', es) -> own_key d' /\ own_calls d'.
Proof.
  intros Hk Hc Ho. destruct e as [o channel| |e|i|id response]; cbn [drawer_step].
  - intros [= <- _]. by apply show_own.
  - destruct (can_reveal d); [|discriminate]. unfold handleRevealKey. destruct (channelId d) as [[|n]|] eqn:En.
    1,3: by intros [= <- _].
    by apply drawer_hook_own.
  - destruct (dialog_input _ _ _ _ e) as [i|] eqn:Ei; [|discriminate]. cbn [mbind option_bind].
    apply drawer_hook_own; [done..|]. by eapply dialog_input_call; [| |exact Ei].
  - destruct (answer_of i) as [j|] eqn:Ei; cbn [mbind option_bind]; [|by destruct i].
    intros E. refine (drawer_hook_own _ _ _ _ Hk Hc (answer_input_call _ _ _ Ei) _). destruct i; (exact E || discriminate E).
  - by apply key_settles_own.
Qed.

Lemma drawer_reaches_own t d : drawer_reaches orderly t d -> own_key d /\ own_calls d.
Proof.
  induction 1 as [|t d e d' es _ [Hk Hc] Ho E].
  - split; [by intros n v|]. split; [by intros call|]. intros id p [= -> ->]%list_elem_of_singleton. done.
  - by apply (drawer_step_own d e d' es).
Qed.

(** An execution of the drawer is one of the hook. *)
Lemma drawer_reaches_hook ok t d : drawer_reaches ok t d -> reaches setup t (d_hook d).
Proof.
  assert (Hstep : forall t d i d' es, reaches setup t (d_hook d) -> drawer_hook setup i d = Some (d', es) -> reaches setup (t ++ es) (d_hook d')).
  { intros t0 d0 i d' es Hr (acts & Es & -> & _)%drawer_hook_parts. by apply (reaches_step _ _ _ _ _ _ Hr). }
  induction 1 as [|t d e d' es _ IH _ E]; [constructor|].
  destruct e as [o channel| |e|i|id response]; cbn [drawer_step] in E.
  - injection E as <- <-. rewrite app_nil_r. unfold show.
    destruct (_ && _); [done|]. destruct o; [|done]. by destruct channel as [[|n]|].
  - destruct (can_reveal d); [|discriminate]. unfold handleRevealKey in E. destruct (channelId d) as [[|n]|].
    1,3: injection E as <- <-; by rewrite app_nil_r.
    by apply (Hstep _ _ _ _ _ IH) in E.
  - destruct (dialog_input _ _ _ _ e) as [i|]; [|discriminate]. by apply (Hstep _ _ _ _ _ IH) in E.
  - destruct (answer_of i) as [j|]; cbn [mbind option_bind] in E; [|by destruct i].
    destruct i; (by apply (Hstep _ _ _ _ _ IH) in E) || discriminate E.
  - unfold key_settles in E. destruct (fetched_key response) as [result key]. eapply Hstep; [|exact E]. exact IH.
Qed.

End drawer.

(** ** The passkey card *)

(** An action that is no first try of a page's call. *)
Definition no_first_try (a : action) : Prop := match a with ACall _ _ => False | _ => True end.

Lemma exec_next_tries setup id call m st i h h' acts :
  awaited st id i = true -> exec_next setup id call m (continue st id call i) h = (h', acts) -> Forall no_first_try acts.
Proof.
  intros Hw. unfold exec_next, exec_failed. destruct (continue st id call i) as [[a st']|error] eqn:E; intros [= _ <-].
  - apply continue_request in E; [|done]. apply Forall_singleton. by destruct a.
  - by repeat constructor.
Qed.

Lemma execute_tries setup m c h h' acts : executeVerification setup m c h = (h', acts) -> Forall no_first_try acts.
Proof.
  unfold executeVerification. destruct (apiCall (state h)) as [call|]; [|intros [= _ <-]; by repeat constructor].
  destruct (match m with Some m => Some m | None => method (state h) end) as [actual|]; [|intros [= _ <-]; by repeat constructor].
  unfold exec_next, exec_failed. destruct (verify setup (next h) actual _) as [[a st]|error] eqn:E; intros [= _ <-]; [|by repeat constructor].
  apply Forall_singleton. destruct actual; cbn [verify] in E; [destruct (trim _)|destruct (credentials_api setup)]; try discriminate E;
    by injection E as <- _.
Qed.

Lemma step_tries setup h i h' acts :
  step setup h i = Some (h', acts) -> (forall call config, i <> InWith call config) -> Forall no_first_try acts.
Proof.
  destruct i as [|call config|call config|m c|c|m| |b|id s|id body|id c|id r]; cbn [step]; intros E Hi;
    try (injection E as _ <-; by repeat constructor).
  - by destruct (Hi call config).
  - apply (inj Some) in E. by apply execute_tries in E.
  - destruct (lookup_pending id h) as [[|call config fw| |]|]; try discriminate E; cbn [mbind option_bind on_methods] in E.
    + injection E as _ <-. by repeat constructor.
    + unfold start_with in E. destruct (_ && _); injection E as _ <-; by repeat constructor.
  - destruct (lookup_pending id h) as [[| | |call m st]|]; try discriminate E.
    assert (Hw : forall st, match st with AtCredential | AtCall => False | _ => True end -> awaited st id (InBody id body) = true)
      by (intros [] Hst; try done; by apply bool_decide_eq_true).
    destruct st; cbn [exec_body] in E; try discriminate E; apply (inj Some) in E.
    + exact (exec_next_tries _ _ _ _ At2FA (InBody id body) _ _ _ (Hw At2FA I) E).
    + exact (exec_next_tries _ _ _ _ AtBegin (InBody id body) _ _ _ (Hw AtBegin I) E).
    + exact (exec_next_tries _ _ _ _ AtFinish (InBody id body) _ _ _ (Hw AtFinish I) E).
    + exact (exec_next_tries _ _ _ _ AtPasskey (InBody id body) _ _ _ (Hw AtPasskey I) E).
  - destruct (lookup_pending id h) as [[| | |call m []]|]; try discriminate E. apply (inj Some) in E.
    apply (exec_next_tries _ _ _ _ AtCredential (InCredential id c)) in E; [done|by apply bool_decide_eq_true].
  - destruct (lookup_pending id h) as [[|call config fw|call config|call m []]|]; try discriminate E; apply (inj Some) in E.
    + unfold with_settled in E. destruct r as [v|error]; [|destruct (isVerificationRequiredError error)]; injection E as _ <-; by repeat constructor.
    + destruct r as [v|error]; [unfold exec_done in E; destruct (str_truthy (successMessage setup))|unfold exec_failed in E];
        injection E as _ <-; by repeat constructor.
Qed.

Section card.
Context (setup : Setup).

Inductive card_reaches : list card_event -> Card -> Prop :=
  | card_start : card_reaches [Hook_event (Snd (ACheckMethods 0))] card_mounted
  | card_next t k i k' es : card_reaches t k -> card_step setup k i = Some (k', es) -> card_reaches (t ++ es) k'.

Definition hook_events (t : list card_event) : list event :=
  omap (fun e => match e with Hook_event e => Some e | _ => None end) t.

(** An answer to the request for the methods that the card reads as: no code.
    The server says so, or does not succeed, or the request fails. *)
Definition read_as_no_2fa (settled : outcome (jsval * jsval * bool)) : Prop :=
  match settled with inl (twoFA, _, _) => reported_enabled twoFA = false | inr _ => True end.

(** What one step of the card adds. *)
Inductive added : list card_event -> Prop :=
  | added_hook l : Forall (fun e => match e with Snd a => no_first_try a | Rcv _ => True end) l -> added (map Hook_event l)
  | added_text e : match e with Card_error _ | Card_info _ => True | _ => False end -> added [e]
  | added_more a b : added a -> added b -> added (a ++ b)
  | added_direct a : added a -> added (a ++ [Register_directly]).

Lemma hook_events_map l : hook_events (map Hook_event l) = l.
Proof. unfold hook_events. induction l as [|e l IH]; [done|]. cbn. by rewrite IH. Qed.

Lemma hook_events_app t u : hook_events (t ++ u) = hook_events t ++ hook_events u.
Proof. apply omap_app. Qed.

(** The events of the hook in the card are an execution of it, and what is
    added is of the kinds above. *)
Definition good (t : list event) (c : Card * list card_event) : Prop :=
  reaches setup (t ++ hook_events c.2) (k_hook c.1) /\ added c.2.

Lemma card_hook_good t i k c :
  reaches setup t (k_hook k) -> (forall call config, i <> InWith call config) -> card_hook setup i k = Some c -> good t c.
Proof.
  intros Hr Hi. unfold card_hook. destruct (step setup (k_hook k) i) as [[h acts]|] eqn:E; [|discriminate].
  intros H. apply (inj Some) in H as <-. unfold good. cbn [fst snd k_hook]. rewrite hook_events_map. split; [by apply (reaches_step _ _ _ _ _ _ Hr)|].
  apply added_hook. apply step_tries in E; [|done]. constructor; [done|]. by apply Forall_map.
Qed.

Lemma good_silent t k l :
  reaches setup t (k_hook k) -> added l -> hook_events l = [] -> good t (k, l).
Proof. intros Hr Ha Hl. split; [|done]. cbn [fst snd]. by rewrite Hl, app_nil_r. Qed.

Lemma start_task_good t task k c : reaches setup t (k_hook k) -> start_task setup task k = Some c -> good t c.
Proof.
  intros Hr. unfold start_task. destruct (card_hook setup InFetch k) as [r|] eqn:E; [|discriminate]. intros [= <-].
  apply (card_hook_good t) in E; [exact E|done|done].
Qed.

(** The card goes on after the methods [m], which were just read. *)
Lemma task_good t r settled id task c :
  good t r ->
  (match task with Registering => register_with | Removing => remove_with end) setup (checkVerificationMethods settled) (drop_task id r.1) = Some c ->
  good t (c.1, r.2 ++ c.2).
Proof.
  intros [Hr Ha]. set (m := checkVerificationMethods settled). unfold good. cbn [fst snd].
  assert (Hstart : forall k, k_hook k = k_hook r.1 -> forall i, (forall call config, i <> InWith call config) ->
    card_hook setup i k = Some c -> reaches setup (t ++ hook_events (r.2 ++ c.2)) (k_hook c.1) /\ added (r.2 ++ c.2)).
  { intros k Hk i Hi E. apply (card_hook_good (t ++ hook_events r.2)) in E as [Hr1 Ha1]; [|by rewrite Hk|done].
    rewrite hook_events_app, app_assoc. split; [done|by apply added_more]. }
  assert (Htext : forall e, match e with Card_error _ | Card_info _ => True | _ => False end -> Some (drop_task id r.1, [e]) = Some c ->
    reaches setup (t ++ hook_events (r.2 ++ c.2)) (k_hook c.1) /\ added (r.2 ++ c.2)).
  { intros e He [= <-]. cbn [fst snd]. rewrite hook_events_app. destruct e; try done; cbn [hook_events omap list_omap]; rewrite app_nil_r;
      (split; [exact Hr|]); by apply added_more, added_text. }
  destruct task; [unfold register_with|unfold remove_with].
  - destruct (has2FA m) eqn:E2; cbn [negb].
    + by apply (Hstart (restrict (Some M2FA) (drop_task id r.1))).
    + intros [= <-]. cbn [fst snd]. rewrite hook_events_app. cbn [hook_events omap list_omap]. rewrite app_nil_r. split; [exact Hr|].
      by apply added_direct.
  - destruct (if has2FA m then Some M2FA else if hasPasskey m then Some MPasskey else None) as [required|]; [|by apply Htext].
    destruct (_ && _); [by apply Htext|].
    by apply (Hstart (restrict (Some required) (setConfirmOpen false (drop_task id r.1)))).
Qed.

Lemma card_hook_no_direct i k r : card_hook setup i k = Some r -> Register_directly ∉ r.2.
Proof.
  unfold card_hook. destruct (step setup (k_hook k) i) as [[h acts]|]; [|discriminate]. intros [= <-].
  change (Register_directly ∉ map Hook_event (Rcv i :: map Snd acts)). by intros (e & [=] & _)%list_elem_of_fmap.
Qed.

Lemma card_answer_good t i k c :
  reaches setup t (k_hook k) -> is_answer i = true -> card_answer setup i k = Some c -> good t c.
Proof.
  intros Hr Hi. unfold card_answer. destruct (card_hook setup i k) as [r|] eqn:E; [|discriminate]. cbn [mbind option_bind].
  apply (card_hook_good t) in E; [|done|by intros call config ->]. destruct i as [| | | | | | | |id settled| | |]; try (by intros [= <-]).
  destruct (task_of id k) as [task|]; [|by intros [= <-]].
  destruct (_ setup _ (drop_task id r.1)) as [c1|] eqn:E1; [|discriminate]. cbn [mbind option_bind]. intros [= <-].
  by apply (task_good t r settled id task c1).
Qed.

Lemma dialog_input_no_with m h e i :
  dialog_input m h InCancel (InOpen false) e = Some i -> forall call config, i <> InWith call config.
Proof.
  intros E call config ->. by apply (dialog_input_call (fun _ => False)) in E.
Qed.

Lemma card_step_good t k i c : reaches setup t (k_hook k) -> card_step setup k i = Some c -> good t c.
Proof.
  intros Hr. destruct i as [supported|o| |e|i]; cbn [card_step].
  - unfold handleRegister. destruct supported; cbn [negb]; [by apply start_task_good|]. intros [= <-].
    apply good_silent; [done|by apply added_text|done].
  - intros [= <-]. apply good_silent; [done|by apply (added_hook [])|done].
  - destruct (confirmOpen k); [|discriminate]. by apply start_task_good.
  - unfold card_dialog. destruct (dialog_input _ _ _ _ e) as [i|] eqn:Ei; [|discriminate]. cbn [mbind option_bind].
    apply card_hook_good; [by destruct e|]. exact (dialog_input_no_with _ _ _ _ Ei).
  - destruct (answer_of i) as [j|] eqn:Ei; [|discriminate]. unfold answer_of in Ei. destruct (is_answer i) eqn:Ea; [|discriminate].
    injection Ei as <-. by apply card_answer_good.
Qed.

Lemma card_reaches_hook t k : card_reaches t k -> reaches setup (hook_events t) (k_hook k).
Proof.
  induction 1 as [|t k i k' es _ IH E]; [constructor|]. rewrite hook_events_app. by apply (card_step_good _ _ _ _ IH) in E as [E _].
Qed.

(** No first try in what is added. *)
Lemma added_tries l a : added l -> Hook_event (Snd a) ∈ l -> no_first_try a.
Proof.
  induction 1 as [l Hl|e He|x y _ IHx _ IHy|x _ IHx].
  - intros (e & [= <-] & Hin)%list_elem_of_fmap. rewrite Forall_forall in Hl. exact (Hl _ Hin).
  - intros H%list_elem_of_singleton. by subst e.
  - intros [H|H]%elem_of_app; auto.
  - intros [H|[=]%list_elem_of_singleton]%elem_of_app; auto.
Qed.

Lemma start_task_no_direct task k r : start_task setup task k = Some r -> Register_directly ∉ r.2.
Proof.
  unfold start_task. destruct (card_hook setup InFetch k) as [q|] eqn:E; [|discriminate]. intros [= <-].
  exact (card_hook_no_direct _ _ _ E).
Qed.

Lemma remove_no_direct m k r : remove_with setup m k = Some r -> Register_directly ∉ r.2.
Proof.
  unfold remove_with. destruct (if has2FA m then _ else _) as [required|]; [|by intros [= <-] ?%list_elem_of_singleton].
  destruct (_ && _); [by intros [= <-] ?%list_elem_of_singleton|]. apply card_hook_no_direct.
Qed.

Lemma read_has_2fa settled : has2FA (checkVerificationMethods settled) = false <-> read_as_no_2fa settled.
Proof. by destruct settled as [[[twoFA passkey] supported]|]. Qed.

Lemma register_direct settled k r :
  register_with setup (checkVerificationMethods settled) k = Some r -> Register_directly ∈ r.2 <-> read_as_no_2fa settled.
Proof.
  rewrite <-read_has_2fa. unfold register_with. destruct (has2FA _); cbn [negb].
  - intros E%card_hook_no_direct. split; [done|discriminate].
  - intros [= <-]. split; [done|]. intros _. apply list_elem_of_here.
Qed.

(** The steps that register a passkey without a verification. *)
Lemma direct_step k i k' es :
  card_step setup k i = Some (k', es) ->
  Register_directly ∈ es
  <-> exists id settled, i = KAnswer (InMethods id settled) /\ task_of id k = Some Registering /\ read_as_no_2fa settled.
Proof.
  assert (Hno : forall r : Card * list card_event, Register_directly ∉ r.2 -> (forall id settled, i <> KAnswer (InMethods id settled)) ->
    Register_directly ∈ r.2 <-> exists id settled, i = KAnswer (InMethods id settled) /\ task_of id k = Some Registering /\ read_as_no_2fa settled).
  { intros r H Hi. split; [done|]. intros (id & settled & E & _). by destruct (Hi id settled). }
  intros E. change es with ((k', es).2). destruct i as [supported|o| |e|i]; cbn [card_step] in E.
  - apply Hno; [|done]. unfold handleRegister in E. destruct supported; cbn [negb] in E; [exact (start_task_no_direct _ _ _ E)|].
    injection E as <- <-. by intros ?%list_elem_of_singleton.
  - apply Hno; [|done]. injection E as <- <-. apply not_elem_of_nil.
  - apply Hno; [|done]. destruct (confirmOpen k); [|discriminate]. exact (start_task_no_direct _ _ _ E).
  - apply Hno; [|done]. unfold card_dialog in E. destruct (dialog_input _ _ _ _ e) as [j|]; [|discriminate].
    exact (card_hook_no_direct _ _ _ E).
  - unfold answer_of in E. destruct (is_answer i); [|discriminate]. cbn [mbind option_bind] in E. unfold card_answer in E.
    destruct (card_hook setup i k) as [r|] eqn:Eh; [|discriminate]. cbn [mbind option_bind] in E. apply card_hook_no_direct in Eh.
    destruct i as [| | | | | | | |id settled| | |]; try (apply (inj Some) in E as <-; by apply Hno).
    destruct (task_of id k) as [task|] eqn:Et.
    2:{ apply (inj Some) in E as <-. split; [done|]. intros (id' & settled' & [= <- <-] & H & _). congruence. }
    destruct (_ setup _ (drop_task id r.1)) as [q|] eqn:Eq; [|discriminate]. cbn [mbind option_bind] in E.
    injection E as <- <-. cbn [snd]. rewrite elem_of_app. destruct task.
    + apply register_direct in Eq. rewrite Eq. split; [intros [?|H]; [done|by exists id, settled]|].
      intros (id' & settled' & [= <- <-] & _ & H). by right.
    + apply remove_no_direct in Eq. split; [by intros [?|?]|]. intros (id' & settled' & [= <- <-] & H & _). congruence.
Qed.

Lemma card_reaches_parts t k : card_reaches t k -> added t.
Proof.
  induction 1 as [|t k i k' es Hr IH E]; [by apply (added_hook [Snd (ACheckMethods 0)]); repeat constructor|].
  apply added_more; [done|]. apply card_reaches_hook in Hr. by apply (card_step_good _ _ _ _ Hr) in E as [_ E].
Qed.

End card.

(** ** The properties *)

Definition sample_page : Setup := plain_setup true (fun name => name).
Definition key_body (k : jstr) : jsval := VObj [(js "success", VBool true); (js "data", VObj [(js "key", VStr k)])].

(** C2.  A revealed key is that of the channel on the screen: in every
    execution of the drawer in which the server answers for the channel it was
    asked about, and the channel is not changed while a request for a key, or
    a verification for one, is held. *)
Theorem revealed_key_is_own (setup : Setup) (keys : nat -> jstr) (t : list event) (d : Drawer) (n : nat) (v : jsval) :
  drawer_reaches setup (orderly keys) t d -> channelId d = Some (S n) -> channelKey d = Some v -> v = VStr (keys (S n)).
Proof. intros Hr. apply (proj1 (drawer_reaches_own setup keys t d Hr)). Qed.

Lemma revealed_key_is_own_witness :
  exists t d, drawer_reaches sample_page (orderly (fun n => js "sk-" ++ show_nat n)) t d
    /\ channelId d = Some 5%nat /\ channelKey d = Some (VStr (js "sk-5")).
Proof.
  set (keys := fun n => js "sk-" ++ show_nat n).
  assert (exists t d, drawer_reaches sample_page (orderly keys) t d /\ channelId d = Some 5%nat /\ exists v, channelKey d = Some v)
    as (t & d & Hr & Hn & v & Hv).
  { do 2 eexists. split.
    - eapply drawer_next with (e := DKey 1 (inl (key_body (js "sk-5")))).
      + eapply drawer_next with (e := DReveal).
        * eapply drawer_next with (e := DShow true (Some 5%nat)); [apply drawer_start| |reflexivity].
          right. split; [by intros call|]. intros id p [= -> ->]%list_elem_of_singleton. done.
        * exact I.
        * reflexivity.
      + intros call k Hw Hk. vm_compute in Hw. subst call. vm_compute in Hk. injection Hk as <-. vm_compute. reflexivity.
      + reflexivity.
    - split; [reflexivity|]. eexists. reflexivity. }
  exists t, d. split; [exact Hr|]. split; [exact Hn|]. rewrite Hv.
  rewrite (revealed_key_is_own sample_page keys t d 4 v Hr Hn Hv). vm_compute. reflexivity.
Defined.

(** C5.  The passkey card and the verification: in every execution of the card
    its guarded calls (registering for an account read as having 2FA, and
    removing) are only made as retries, each preceded by a complete exchange
    that the server accepted; and a step registers a passkey without a
    verification if and only if it is the answer to the request for the methods
    of a press on Register and this answer is read as no 2FA: because the
    server says so, or because it does not succeed, or because the request
    fails.  (The last two are a fault of the card: it does not tell an account
    without 2FA from one whose methods are not known.) *)
Theorem card_guarded (setup : Setup) (t : list card_event) (k : Card) :
  card_reaches setup t k ->
  (forall t1 t2 a, t = t1 ++ Hook_event (Snd a) :: t2 -> calls_page a = true ->
     exists id call m, a = ARetry id call /\ exchange id m (of_call id (hook_events t1)))
  /\ (forall i k' es, card_step setup k i = Some (k', es) ->
        Register_directly ∈ es
        <-> exists id settled, i = KAnswer (InMethods id settled) /\ task_of id k = Some Registering /\ read_as_no_2fa settled).
Proof.
  intros Hr. pose proof (card_reaches_parts _ _ _ Hr) as Hp. split; [|intros i k' es; apply direct_step].
  intros t1 t2 a -> Ha.
  assert (Hn : no_first_try a) by (apply (added_tries _ _ Hp), elem_of_app; right; apply list_elem_of_here).
  destruct a as [| | | | | | |id call| | | | | | |]; try discriminate Ha; [done|].
  apply card_reaches_hook in Hr. rewrite hook_events_app in Hr.
  destruct (con_retries _ _ _ (reaches_consistent _ _ _ Hr) (hook_events t1) (hook_events t2) id call eq_refl) as [(m & Hm) _].
  by exists id, call, m.
Qed.

Fixpoint card_execute (setup : Setup) (t : list card_event) (k : Card) (l : list card_input) : option (list card_event * Card) :=
  match l with
  | [] => Some (t, k)
  | i :: l => r ← card_step setup k i; card_execute setup (t ++ r.2) r.1 l
  end.

Lemma card_execute_reaches setup l : forall t k t' k',
  card_reaches setup t k -> card_execute setup t k l = Some (t', k') -> card_reaches setup t' k'.
Proof.
  induction l as [|i l IH]; intros t k t' k' Hr; cbn [card_execute]; [intros [= <- <-]; exact Hr|].
  destruct (card_step setup k i) as [[k1 es]|] eqn:E; cbn; [|done]. apply IH. by apply (card_next _ _ k i).
Qed.

(** The passkey is removed after the code. *)
Definition removing : list card_input :=
  [ KAnswer (InMethods 0 (inl (enabled_body, VNull, true))); KConfirm true; KRemove;
    KAnswer (InMethods 1 (inl (enabled_body, VNull, true))); KAnswer (InMethods 2 (inl (enabled_body, VNull, true)));
    KDialog (Type_code (js "123456")); KDialog Press_verify; KAnswer (InBody 3 (inl success_body)) ].

Fixpoint last_retry (t : list card_event) : option (list card_event * nat * nat * list card_event) :=
  match t with
  | [] => None
  | Hook_event (Snd (ARetry id call)) :: t => Some ([], id, call, t)
  | e :: t => (fun r => let '(t1, id, call, t2) := r in (e :: t1, id, call, t2)) <$> last_retry t
  end.

Lemma last_retry_ok t : forall t1 id call t2, last_retry t = Some (t1, id, call, t2) -> t = t1 ++ Hook_event (Snd (ARetry id call)) :: t2.
Proof.
  induction t as [|e t IH]; intros t1 id call t2; [discriminate|].
  destruct (last_retry t) as [[[[u id'] call'] u2]|] eqn:E; cbn [last_retry]; rewrite E;
    [|destruct e as [[|[]]| | |]; cbn; intros H; try discriminate H; by injection H as <- <- <- <-].
  destruct e as [[|[]]| | |]; cbn; intros [= <- <- <- <-]; cbn; rewrite ?(IH _ _ _ _ eq_refl); reflexivity.
Qed.

Lemma card_guarded_witness :
  exists t k t1 t2 m, card_reaches sample_page t k /\ t = t1 ++ Hook_event (Snd (ARetry 3 remove_call)) :: t2
    /\ exchange 3 m (of_call 3 (hook_events t1)).
Proof.
  destruct (executes_ok
    (fun r => executes (fun s => let '(_, id, call, _) := s in Nat.eqb id 3 && Nat.eqb call remove_call) (last_retry r.1))
    (card_execute sample_page [Hook_event (Snd (ACheckMethods 0))] card_mounted removing))
    as ([t k] & E & H); [vm_compute; reflexivity|].
  destruct (executes_ok _ _ H) as ([[[t1 id] call] t2] & Es & [Hid Hcall]%andb_true_iff).
  apply Nat.eqb_eq in Hid as ->, Hcall as ->. apply last_retry_ok in Es.
  apply (card_execute_reaches sample_page _ _ _ _ _ (card_start _)) in E.
  destruct (proj1 (card_guarded sample_page t k E) t1 t2 (ARetry 3 remove_call) Es eq_refl) as (id & call & m & [= <- <-] & Hm).
  by exists t, k, t1, t2, m.
Defined.

(** ** What the card's calls do *)

Lemma succeeded_true body : succeeded body = inl true -> exists r, body = inl r /\ accepted r.
Proof.
  unfold succeeded, accepted. destruct body as [r|]; [|discriminate]. cbn [try]. intros H. exists r. split; [done|]. revert H.
  unfold opt_field, vget_opt. destruct (vget (js "success") r) as [v|] eqn:E; [|discriminate].
  destruct r; try discriminate E; cbn [lift try catch]; by intros [= ->].
Qed.

(** A passkey counts as registered only when the server accepted both steps of
    the ceremony, for a credential that the authenticator made. *)
Lemma registration_accepted started created finished :
  registration started created finished = inl (inr tt) ->
  exists begun cred ended, started = inl begun /\ accepted begun /\ created = inl (Some cred) /\ finished = inl ended /\ accepted ended.
Proof.
  unfold registration. destruct (succeeded started) as [[]|] eqn:E1; cbn [try negb]; try discriminate.
  apply succeeded_true in E1 as (begun & -> & H1). cbn [try].
  destruct (prepareCredentialCreationOptions _) as [o|]; [|discriminate]. cbn [try].
  destruct created as [[cred|]|]; cbn [try]; try discriminate.
  destruct (buildRegistrationResult cred); [|discriminate].
  destruct (succeeded finished) as [[]|] eqn:E2; cbn [try]; try discriminate.
  apply succeeded_true in E2 as (ended & -> & H2). intros _. by exists begun, cred, ended.
Qed.

Lemma fetchStatus_flags answer p :
  registering (fetchStatus answer p).1 = registering p /\ p_removing (fetchStatus answer p).1 = p_removing p
  /\ p_loading (fetchStatus answer p).1 = false.
Proof. unfold fetchStatus. by destruct (succeeded answer) as [[]|]. Qed.

(** Registering and removing always resolve, with a notice: with [true] only
    when the server accepted, else with the status as it was; the flags are as
    before the call, so that the buttons can be used again. *)
Lemma register_resolves text_of supported credentials started created finished answer p p' said ok :
  registering p = false ->
  register text_of supported credentials started created finished answer p = (p', said, ok) ->
  registering p' = false /\ p_removing p' = p_removing p /\ said <> [] /\
  if ok then registration started created finished = inl (inr tt) else status p' = status p.
Proof.
  intros Hp. unfold register. destruct supported; cbn [negb]; [|by intros [= <- <- <-]].
  destruct credentials; cbn [negb]; [|by intros [= <- <- <-]].
  destruct (registration started created finished) as [[[|n l]|[]]|error] eqn:E.
  - exfalso. revert E. unfold registration. destruct (succeeded started) as [[]|]; cbn [try negb]; try discriminate.
    destruct started as [b|]; cbn [try]; [|discriminate]. destruct (prepareCredentialCreationOptions _); cbn [try]; [|discriminate].
    destruct created as [[cred|]|]; cbn [try]; try discriminate. destruct (buildRegistrationResult cred); [|discriminate].
    by destruct (succeeded finished) as [[]|].
  - by intros [= <- <- <-].
  - pose proof (fetchStatus_flags answer (set_registering true p)) as (_ & Hr & _).
    destruct (fetchStatus answer (set_registering true p)) as [q s]. by intros [= <- <- <-].
  - intros [= <- <- <-]. split_and!; [done|done| |done]. unfold registration_error. destruct error; try done. by case_bool_decide.
Qed.

Lemma remove_resolves deleted answer p p' said ok :
  p_removing p = false -> remove deleted answer p = (p', said, ok) ->
  p_removing p' = false /\ registering p' = registering p /\ said <> [] /\
  if ok then exists r, deleted = inl r /\ accepted r else status p' = status p.
Proof.
  intros Hp. unfold remove. destruct (succeeded deleted) as [[]|] eqn:E; [| |].
  - apply succeeded_true in E. pose proof (fetchStatus_flags answer (set_removing true p)) as (Hr & _ & _).
    destruct (fetchStatus answer (set_removing true p)) as [q s]. by intros [= <- <- <-].
  - by intros [= <- <- <-].
  - by intros [= <- <- <-].
Qed.

(** ** What goes wrong *)

Fixpoint drawer_execute (setup : Setup) (t : list event) (d : Drawer) (l : list drawer_event) : option (list event * Drawer) :=
  match l with
  | [] => Some (t, d)
  | e :: l => r ← drawer_step setup d e; drawer_execute setup (t ++ r.2) r.1 l
  end.

(** The key of channel 1 is shown for channel 2, when the drawer is closed and
    opened again before the answer is there. *)
Lemma other_channel_key :
  executes (fun r => bool_decide (channelId r.2 = Some 2%nat)
                     && match channelKey r.2 with Some (VStr k) => bool_decide (k = js "sk-1") | _ => false end)
    (drawer_execute sample_page [] drawer_mounted
       [DShow true (Some 1%nat); DReveal; DShow false None; DShow true (Some 2%nat); DKey 1 (inl (key_body (js "sk-1")))]) = true.
Proof. vm_compute. reflexivity. Qed.

(** A dialog that is dismissed while the code is being checked does not stop
    the verification: the page's call is made all the same. *)
Lemma dismissed_goes_on :
  executes (fun r => negb (open r.2) && executes (fun _ => true) (split_retry r.1))
    (execute sample_setup [] mounted
       (asking ++ [InCode (js "123456"); InExecute None None; InCancel; InBody 2 (inl success_body)])) = true.
Proof. vm_compute. reflexivity. Qed.

(** Revealing a key, a user who only has 2FA is shown no panel at all, and the
    button starts the passkey exchange. *)
Lemma no_panel call h s :
  let m := MkMethods true false s in
  shown_panel m (prepared call reveal_config m (state h)) = None
  /\ handleVerify m (prepared call reveal_config m (state h)) = Some (InExecute (Some MPasskey) None)
  /\ can_verify m (prepared call reveal_config m (state h)) = negb (loading (state h)).
Proof.
  split; [reflexivity|]. split; [reflexivity|]. unfold can_verify, verifyDisabled. cbn.
  destruct (loading (state h)); reflexivity.
Qed.

(** A request for the methods that fails reads as an account without any, and
    the card then registers the passkey without a verification. *)
Lemma failed_check_registers error :
  executes (fun r => match last r.1 with Some Register_directly => true | _ => false end)
    (card_execute sample_page [] card_mounted [KRegister true; KAnswer (InMethods 1 (inr error))]) = true.
Proof. reflexivity. Qed.
