(* ===== verification/Catalog.v ===== *)
(** * The catalogue of models
      (features/pricing: lib/filters.ts, lib/price.ts, lib/dynamic-price.ts,
      lib/model-helpers.ts, hooks/use-filters.ts, hooks/use-pricing-data.ts)

    The list of models with its filters and its order, and the prices up to
    the number that is formatted.  What the locale decides of the order of
    names is a parameter. *)
From S2P Require Import Prelude JsString JsNumber JsRegex JsValue JsSort BillingExpr.
Open Scope N_scope.

(** ** The models (types.ts) *)

Record PricingModel := MkModel {
  model_name : jstr; m_description : option jstr; vendor_name : option jstr; m_tags : option jstr;
  quota_type : num; model_ratio : num; completion_ratio : num; model_price : option num;
  cache_ratio : option num; create_cache_ratio : option num; image_ratio : option num;
  audio_ratio : option num; audio_completion_ratio : option num;
  enable_groups : option (list jstr); supported_endpoint_types : option (list jstr);
  group_ratio : option jsobj; m_billing_mode : option jstr; m_billing_expr : option jstr
}.

Definition FILTER_ALL : jstr := js "all".

Definition is_request (m : PricingModel) : bool := neqb (quota_type m) (num_of_Z 1).
Definition isTokenBasedModel (m : PricingModel) : bool := neqb (quota_type m) nzero.

(** ** Filters (lib/filters.ts) *)

(** [s?.toLowerCase().includes(lower)] *)
Definition has_text (lower : jstr) (s : option jstr) : bool :=
  match s with Some s => includes lower (to_lower s) | None => false end.

Definition found_by (query : jstr) (m : PricingModel) : bool :=
  let lower := to_lower query in
  has_text lower (Some (model_name m)) || has_text lower (m_description m) || has_text lower (m_tags m)
  || has_text lower (vendor_name m).

Definition filterBySearch (models : list PricingModel) (query : jstr) : list PricingModel :=
  match query with [] => models | _ => List.filter (found_by query) models end.

Definition filterByVendor (models : list PricingModel) (vendor : jstr) : list PricingModel :=
  if bool_decide (vendor = FILTER_ALL) then models
  else List.filter (fun m => bool_decide (vendor_name m = Some vendor)) models.

(** [l?.includes(x)] *)
Definition listed (x : jstr) (l : option (list jstr)) : bool :=
  match l with Some l => bool_decide (x ∈ l) | None => false end.

Definition filterByGroup (models : list PricingModel) (group : jstr) : list PricingModel :=
  if bool_decide (group = FILTER_ALL) then models else List.filter (fun m => listed group (enable_groups m)) models.

Definition filterByQuotaType (models : list PricingModel) (quotaType : jstr) : list PricingModel :=
  if bool_decide (quotaType = js "all") then models
  else
    let targetType := if bool_decide (quotaType = js "token") then nzero else num_of_Z 1 in
    List.filter (fun m => neqb (quota_type m) targetType) models.

Definition filterByEndpointType (models : list PricingModel) (endpointType : jstr) : list PricingModel :=
  if bool_decide (endpointType = js "all") then models
  else List.filter (fun m => listed endpointType (supported_endpoint_types m)) models.

Definition TAG_SPLIT_REGEX : regex := Eval vm_compute in re (js "[,;|\s]+").

Definition parseTags (tagsString : option jstr) : list jstr :=
  match tagsString with
  | None | Some [] => []
  | Some s => List.filter str_truthy (map trim (re_split TAG_SPLIT_REGEX s))
  end.

Definition has_tag (tag : jstr) (m : PricingModel) : bool :=
  match m_tags m with
  | None | Some [] => false
  | tags => bool_decide (to_lower tag ∈ map to_lower (parseTags tags))
  end.

Definition filterByTag (models : list PricingModel) (tag : jstr) : list PricingModel :=
  if bool_decide (tag = FILTER_ALL) then models else List.filter (has_tag tag) models.

(** [a || 0] *)
Definition or_zero (x : option num) : num := match x with Some x => if num_truthy x then x else nzero | None => nzero end.

Definition getModelPrice (m : PricingModel) : num := if isTokenBasedModel m then model_ratio m else or_zero (model_price m).

Section catalog.
(** [a.localeCompare(b) > 0], which the locale of the platform decides. *)
Context (locale_after : jstr -> jstr -> bool).

Definition sortModels (models : list PricingModel) (sortBy : jstr) : list PricingModel :=
  if bool_decide (sortBy = js "name") then sort_by (fun a b => locale_after (model_name a) (model_name b)) models
  else if bool_decide (sortBy = js "price-low") then
    sort_by (fun a b => positive_num (nsub (getModelPrice a) (getModelPrice b))) models
  else if bool_decide (sortBy = js "price-high") then
    sort_by (fun a b => positive_num (nsub (getModelPrice b) (getModelPrice a))) models
  else models.

Record Filters := MkFilters {
  f_search : jstr; f_vendor : jstr; f_group : jstr; f_quotaType : jstr; f_endpointType : jstr; f_tag : jstr; f_sortBy : jstr
}.

Definition filterAndSortModels (models : list PricingModel) (f : Filters) : list PricingModel :=
  let result := filterBySearch models (f_search f) in
  let result := filterByVendor result (f_vendor f) in
  let result := filterByGroup result (f_group f) in
  let result := filterByQuotaType result (f_quotaType f) in
  let result := filterByEndpointType result (f_endpointType f) in
  let result := filterByTag result (f_tag f) in
  sortModels result (f_sortBy f).

(** The tags of a set, in the order of the locale. *)
Definition extractAllTags (models : list PricingModel) : list jstr :=
  sort_by locale_after (dedup (flat_map (fun m => map to_lower (parseTags (m_tags m))) models)).

(** ** The state of the filters (hooks/use-filters.ts) *)

Inductive TokenUnit := UnitM | UnitK.
Inductive ViewMode := Cards | Rows.

#[export] Instance TokenUnit_eq_dec : EqDecision TokenUnit.
Proof. solve_decision. Defined.
#[export] Instance ViewMode_eq_dec : EqDecision ViewMode.
Proof. solve_decision. Defined.

(** [None]: no such key. *)
Record FilterState := MkFilterState {
  s_search : option jstr; s_sort : option jstr; s_vendor : option jstr; s_group : option jstr;
  s_quotaType : option jstr; s_endpointType : option jstr; s_tag : option jstr;
  s_tokenUnit : option TokenUnit; s_view : option ViewMode; s_rechargePrice : option bool
}.

(** [a || b] *)
Definition or_text (a : option jstr) (b : jstr) : jstr := match a with Some (c :: s) => c :: s | _ => b end.

(** [v === x ? undefined : v] *)
Definition unless (x v : jstr) : option jstr := if bool_decide (v = x) then None else Some v.

(** What the handlers of the page set. *)
Inductive filter_edit :=
  | SetSearch (v : jstr) | SetSort (v : jstr) | SetVendor (v : jstr) | SetGroup (v : jstr) | SetQuotaType (v : jstr)
  | SetEndpointType (v : jstr) | SetTag (v : jstr) | SetTokenUnit (v : TokenUnit) | SetView (v : ViewMode)
  | SetRecharge (v : bool) | ClearFilters | ClearSearch.

(** [updateFilters]: a key that is set to [undefined] is deleted. *)
Definition updateFilters (e : filter_edit) (s : FilterState) : FilterState :=
  let '(MkFilterState search sort vendor group quota endpoint tag unit view recharge) := s in
  match e with
  | SetSearch v => MkFilterState (match v with [] => None | _ => Some v end) sort vendor group quota endpoint tag unit view recharge
  | SetSort v => MkFilterState search (unless (js "name") v) vendor group quota endpoint tag unit view recharge
  | SetVendor v => MkFilterState search sort (unless FILTER_ALL v) group quota endpoint tag unit view recharge
  | SetGroup v => MkFilterState search sort vendor (unless FILTER_ALL v) quota endpoint tag unit view recharge
  | SetQuotaType v => MkFilterState search sort vendor group (unless (js "all") v) endpoint tag unit view recharge
  | SetEndpointType v => MkFilterState search sort vendor group quota (unless (js "all") v) tag unit view recharge
  | SetTag v => MkFilterState search sort vendor group quota endpoint (unless FILTER_ALL v) unit view recharge
  | SetTokenUnit v =>
      MkFilterState search sort vendor group quota endpoint tag (if bool_decide (v = UnitM) then None else Some v) view recharge
  | SetView v => MkFilterState search sort vendor group quota endpoint tag unit (if bool_decide (v = Cards) then None else Some v) recharge
  | SetRecharge v => MkFilterState search sort vendor group quota endpoint tag unit view (if v then Some v else None)
  | ClearFilters => MkFilterState search sort None None None None None unit view recharge
  | ClearSearch => MkFilterState None sort vendor group quota endpoint tag unit view recharge
  end.

(** What the hook gives to the page. *)
Record Shown := MkShown { sh_filters : Filters; sh_unit : TokenUnit; sh_view : ViewMode; sh_recharge : bool }.

Definition shown_filters (s : FilterState) : Shown :=
  MkShown
    (MkFilters (or_text (s_search s) []) (or_text (s_vendor s) FILTER_ALL) (or_text (s_group s) FILTER_ALL)
       (or_text (s_quotaType s) (js "all")) (or_text (s_endpointType s) (js "all")) (or_text (s_tag s) FILTER_ALL)
       (or_text (s_sort s) (js "name")))
    (match s_tokenUnit s with Some UnitK => UnitK | _ => UnitM end)
    (match s_view s with Some Rows => Rows | _ => Cards end)
    (match s_rechargePrice s with Some true => true | _ => false end).

Definition filteredModels (s : FilterState) (models : list PricingModel) : list PricingModel :=
  match models with [] => [] | _ => filterAndSortModels models (sh_filters (shown_filters s)) end.

Definition hasActiveFilters (s : FilterState) : bool :=
  let f := sh_filters (shown_filters s) in
  negb (bool_decide (f_vendor f = FILTER_ALL)) || negb (bool_decide (f_group f = FILTER_ALL))
  || negb (bool_decide (f_quotaType f = js "all")) || negb (bool_decide (f_endpointType f = js "all"))
  || negb (bool_decide (f_tag f = FILTER_ALL)).

Definition activeFilterCount (s : FilterState) : nat :=
  let f := sh_filters (shown_filters s) in
  ((if negb (bool_decide (f_vendor f = FILTER_ALL)) then 1 else 0)
   + (if negb (bool_decide (f_group f = FILTER_ALL)) then 1 else 0)
   + (if negb (bool_decide (f_quotaType f = js "all")) then 1 else 0)
   + (if negb (bool_decide (f_endpointType f = js "all")) then 1 else 0)
   + (if negb (bool_decide (f_tag f = FILTER_ALL)) then 1 else 0))%nat.

End catalog.

(** ** Prices (lib/price.ts), up to the number that is formatted *)

(** [groupRatio[group]]; a ratio is a number, what an object inherits is not. *)
Definition ratio_number (v : jsval) : num := catch (to_num v) nan.

Definition min_step (ratios : jsobj) (minRatio : option num) (group : jstr) : option num :=
  match oget group ratios with
  | VUndef => minRatio
  | v => match minRatio with
         | None => if nltb (ratio_number v) (S754_infinity false) then Some (ratio_number v) else None
         | Some r => if nltb (ratio_number v) r then Some (ratio_number v) else minRatio
         end
  end.

(** [None] is the initial infinity. *)
Definition getMinGroupRatio (enableGroups : list jstr) (ratios : jsobj) : num :=
  match enableGroups with
  | [] => num_of_Z 1
  | _ => default (num_of_Z 1) (fold_left (min_step ratios) enableGroups None)
  end.

Inductive PriceType := P_input | P_output | P_cache | P_create_cache | P_image | P_audio_input | P_audio_output.

Definition hasRatio (x : option num) : bool := match x with Some x => is_finite x | None => false end.

(** [NaN] when a ratio is missing. *)
Definition times (base : num) (x : option num) : num := if hasRatio x then nmul base (default nan x) else nan.

Definition calculateTokenPrice (m : PricingModel) (type : PriceType) (ratio : num) : num :=
  let base := nmul (nmul (model_ratio m) (num_of_Z 2)) ratio in
  match type with
  | P_input => base
  | P_output => nmul base (completion_ratio m)
  | P_cache => times base (cache_ratio m)
  | P_create_cache => times base (create_cache_ratio m)
  | P_image => times base (image_ratio m)
  | P_audio_input => times base (audio_ratio m)
  | P_audio_output => if hasRatio (audio_ratio m) && hasRatio (audio_completion_ratio m)
                      then nmul (nmul base (default nan (audio_ratio m))) (default nan (audio_completion_ratio m)) else nan
  end.

Record Rates := MkRates { showWithRecharge : bool; priceRate : num; usdExchangeRate : num }.

Definition applyRechargeRate (price : num) (r : Rates) : num :=
  if showWithRecharge r then ndiv (nmul price (priceRate r)) (usdExchangeRate r) else price.

Definition unit_divisor (u : TokenUnit) : num := match u with UnitM => num_of_Z 1 | UnitK => num_of_Z 1000 end.

(** The dash is [None]. *)
Definition formatPrice (m : PricingModel) (type : PriceType) (u : TokenUnit) (r : Rates) : option num :=
  if is_request m then None
  else
    let minRatio := getMinGroupRatio (default [] (enable_groups m)) (default [] (group_ratio m)) in
    Some (ndiv (applyRechargeRate (calculateTokenPrice m type minRatio) r) (unit_divisor u)).

(** [groupRatio[group] || 1] *)
Definition ratio_or_one (group : jstr) (ratios : jsobj) : num :=
  let v := oget group ratios in if truthy v then ratio_number v else num_of_Z 1.

Definition formatGroupPrice (m : PricingModel) (group : jstr) (type : PriceType) (u : TokenUnit) (r : Rates) (ratios : jsobj) : option num :=
  if is_request m then None
  else Some (ndiv (applyRechargeRate (calculateTokenPrice m type (ratio_or_one group ratios)) r) (unit_divisor u)).

Definition formatFixedPrice (m : PricingModel) (group : jstr) (r : Rates) (ratios : jsobj) : option num :=
  if negb (is_request m) then None
  else Some (applyRechargeRate (nmul (or_zero (model_price m)) (ratio_or_one group ratios)) r).

Definition formatRequestPrice (m : PricingModel) (r : Rates) : option num :=
  if negb (is_request m) then None
  else
    let minRatio := getMinGroupRatio (default [] (enable_groups m)) (default [] (group_ratio m)) in
    Some (applyRechargeRate (nmul (or_zero (model_price m)) minRatio) r).

(** The rates of the page (hooks/use-pricing-data.ts): 0.001 at least. *)
Definition SMALLEST_RATE : num := num_of_str (js "0.001").
Definition page_priceRate (price : option num) : num := nmax (default (num_of_Z 1) price) SMALLEST_RATE.
Definition page_usdExchangeRate (rate : option num) (price : num) : num := nmax (default price rate) SMALLEST_RATE.

(** ** Dynamic prices (lib/dynamic-price.ts) *)

Definition isDynamicPricingModel (m : PricingModel) : bool :=
  bool_decide (m_billing_mode m = Some (js "tiered_expr")) && match m_billing_expr m with Some (_ :: _) => true | _ => false end.

Definition getDynamicDisplayGroupRatio (m : PricingModel) : num :=
  getMinGroupRatio (default [] (enable_groups m)) (default [] (group_ratio m)).

Definition dynamicUnitPrice (value : num) (u : TokenUnit) (r : Rates) (groupRatio : option num) : num :=
  applyRechargeRate (ndiv (nmul value (default (num_of_Z 1) groupRatio)) (unit_divisor u)) r.

Definition expression (m : PricingModel) : jstr := default [] (m_billing_expr m).

Definition getDynamicPricingTiers (m : PricingModel) : res (list ParsedTier) :=
  if negb (isDynamicPricingModel m) then Ok []
  else let* s := splitBillingExprAndRequestRules (expression m) in Ok (parseTiersFromExpr s.1).

Definition hasDynamicRequestRules (m : PricingModel) : res bool :=
  if negb (isDynamicPricingModel m) then Ok false
  else
    let* s := splitBillingExprAndRequestRules (expression m) in
    let* rules := tryParseRequestRuleExpr s.2 in
    Ok (match rules with Some (_ :: _) => true | _ => false end).

Record DynamicPriceEntry := MkEntry { e_variable : BillingVar; e_field : jstr; e_value : num; e_price : num }.

Definition PRIMARY_DYNAMIC_FIELDS : list jstr := [js "inputPrice"; js "outputPrice"].
Definition is_primary (e : DynamicPriceEntry) : bool := bool_decide (e_field e ∈ PRIMARY_DYNAMIC_FIELDS).

(** The entry of a variable: its price in the tier, if it is above zero. *)
Definition price_entry (tier : ParsedTier) (u : TokenUnit) (r : Rates) (groupRatio : option num) (v : BillingVar) : list DynamicPriceEntry :=
  match bv_field v with
  | None | Some [] => []
  | Some field =>
      let value := default nan (assoc field (pt_fields tier)) in
      if negb (is_finite value) || nleb value nzero then []
      else [MkEntry v field value (dynamicUnitPrice value u r groupRatio)]
  end.

(** The comparison is 1 when only [b] is primary, -1 when only [a] is. *)
Definition getDynamicPriceEntries (tier : option ParsedTier) (u : TokenUnit) (r : Rates) (groupRatio : option num) : list DynamicPriceEntry :=
  match tier with
  | None => []
  | Some tier =>
      sort_by (fun a b => negb (is_primary a) && is_primary b) (flat_map (price_entry tier u r groupRatio) BILLING_PRICING_VARS)
  end.

Record DynamicPricingSummary := MkSummary {
  tiers : list ParsedTier; hasRequestRules : bool; isSpecialExpression : bool; rawExpression : jstr;
  y_entries : list DynamicPriceEntry; primaryEntries : list DynamicPriceEntry; secondaryEntries : list DynamicPriceEntry
}.

Definition getDynamicPricingSummary (m : PricingModel) (u : TokenUnit) (r : Rates) (groupRatio : option num) : res (option DynamicPricingSummary) :=
  if negb (isDynamicPricingModel m) then Ok None
  else
    let* ts := getDynamicPricingTiers m in
    let* rules := hasDynamicRequestRules m in
    let es := getDynamicPriceEntries (head ts) u r groupRatio in
    Ok (Some (MkSummary ts rules (str_truthy (trim (expression m)) && bool_decide (length ts = 0%nat)) (expression m)
                es (List.filter is_primary es) (List.filter (fun e => negb (is_primary e)) es))).

(** ** lib/model-helpers.ts *)

Definition EXCLUDED_GROUPS : list jstr := [[]; js "auto"].

Definition getAvailableGroups (m : PricingModel) (usableGroup : jsobj) : list jstr :=
  List.filter (fun g => bool_decide (g ∈ default [] (enable_groups m)))
    (List.filter (fun g => negb (bool_decide (g ∈ EXCLUDED_GROUPS))) (okeys usableGroup)).
