(* ===== verification/CatalogFacts.v ===== *)
(** * The catalogue of models: what is listed, and at which price *)
From Stdlib Require Import SpecFloat.
From S2P Require Import Prelude JsString JsNumber JsValue JsSort BillingExpr Catalog.
Open Scope N_scope.

(** ** The list *)

(** What the six filters ask of a model; an inactive filter asks nothing. *)
Definition matches (f : Filters) (m : PricingModel) : bool :=
  (bool_decide (f_search f = []) || found_by (f_search f) m)
  && (bool_decide (f_vendor f = FILTER_ALL) || bool_decide (vendor_name m = Some (f_vendor f)))
  && (bool_decide (f_group f = FILTER_ALL) || listed (f_group f) (enable_groups m))
  && (bool_decide (f_quotaType f = js "all")
      || neqb (quota_type m) (if bool_decide (f_quotaType f = js "token") then nzero else num_of_Z 1))
  && (bool_decide (f_endpointType f = js "all") || listed (f_endpointType f) (supported_endpoint_types m))
  && (bool_decide (f_tag f = FILTER_ALL) || has_tag (f_tag f) m).

Lemma filter_filter {A} (p q : A -> bool) l : List.filter q (List.filter p l) = List.filter (fun x => p x && q x) l.
Proof.
  induction l as [|x l IH]; [done|]. cbn [List.filter]. destruct (p x); cbn [andb List.filter]; [|done].
  destruct (q x); by rewrite IH.
Qed.

Lemma filter_true {A} (l : list A) : List.filter (fun _ => true) l = l.
Proof. induction l as [|x l IH]; [done|]. cbn. by rewrite IH. Qed.

(** A filter that is left out when it is inactive is the filter of the
    disjunction. *)
Lemma filter_unless {A} (off : bool) (p : A -> bool) l :
  (if off then l else List.filter p l) = List.filter (fun x => off || p x) l.
Proof. destruct off; [by rewrite filter_true|done]. Qed.

Lemma filterBySearch_filter models query :
  filterBySearch models query = List.filter (fun m => bool_decide (query = []) || found_by query m) models.
Proof. rewrite <-filter_unless. by destruct query. Qed.

Lemma filters_compose models f :
  filterByTag (filterByEndpointType (filterByQuotaType (filterByGroup (filterByVendor (filterBySearch models (f_search f))
    (f_vendor f)) (f_group f)) (f_quotaType f)) (f_endpointType f)) (f_tag f) = List.filter (matches f) models.
Proof.
  rewrite filterBySearch_filter. unfold filterByVendor, filterByGroup, filterByQuotaType, filterByEndpointType, filterByTag.
  rewrite !filter_unless, !filter_filter. apply List.filter_ext. intros m. unfold matches. by rewrite !andb_assoc.
Qed.

Section listing.
Context (locale_after : jstr -> jstr -> bool).

(** The comparison of the chosen order; none when there is no such order. *)
Definition order_of (sortBy : jstr) : option (PricingModel -> PricingModel -> bool) :=
  if bool_decide (sortBy = js "name") then Some (fun a b => locale_after (model_name a) (model_name b))
  else if bool_decide (sortBy = js "price-low") then Some (fun a b => positive_num (nsub (getModelPrice a) (getModelPrice b)))
  else if bool_decide (sortBy = js "price-high") then Some (fun a b => positive_num (nsub (getModelPrice b) (getModelPrice a)))
  else None.

Lemma sortModels_order models sortBy :
  sortModels locale_after models sortBy = match order_of sortBy with Some after => sort_by after models | None => models end.
Proof. unfold sortModels, order_of. by repeat case_bool_decide. Qed.

Lemma order_asymmetric sortBy after :
  (forall a b, locale_after a b = true -> locale_after b a = false) ->
  order_of sortBy = Some after -> forall a b, after a b = true -> after b a = false.
Proof.
  intros Hl. unfold order_of. repeat case_bool_decide; intros [= <-] a b; [apply Hl|apply nsub_sign|apply nsub_sign].
Qed.

End listing.

(** ** The state of the filters *)

(** The specification: what the page shows is set, an empty choice means the
    default. *)
Definition choose (e : filter_edit) (s : Shown) : Shown :=
  let '(MkShown (MkFilters search vendor group quota endpoint tag sort) unit view recharge) := s in
  match e with
  | SetSearch v => MkShown (MkFilters v vendor group quota endpoint tag sort) unit view recharge
  | SetSort v => MkShown (MkFilters search vendor group quota endpoint tag (str_or v (js "name"))) unit view recharge
  | SetVendor v => MkShown (MkFilters search (str_or v FILTER_ALL) group quota endpoint tag sort) unit view recharge
  | SetGroup v => MkShown (MkFilters search vendor (str_or v FILTER_ALL) quota endpoint tag sort) unit view recharge
  | SetQuotaType v => MkShown (MkFilters search vendor group (str_or v (js "all")) endpoint tag sort) unit view recharge
  | SetEndpointType v => MkShown (MkFilters search vendor group quota (str_or v (js "all")) tag sort) unit view recharge
  | SetTag v => MkShown (MkFilters search vendor group quota endpoint (str_or v FILTER_ALL) sort) unit view recharge
  | SetTokenUnit v => MkShown (MkFilters search vendor group quota endpoint tag sort) v view recharge
  | SetView v => MkShown (MkFilters search vendor group quota endpoint tag sort) unit v recharge
  | SetRecharge v => MkShown (MkFilters search vendor group quota endpoint tag sort) unit view v
  | ClearFilters =>
      MkShown (MkFilters search FILTER_ALL FILTER_ALL (js "all") (js "all") FILTER_ALL sort) unit view recharge
  | ClearSearch => MkShown (MkFilters [] vendor group quota endpoint tag sort) unit view recharge
  end.

Lemma or_text_unless x v : or_text (unless x v) x = str_or v x.
Proof. unfold unless. case_bool_decide as E; [subst; by destruct x|]. by destruct v. Qed.

Lemma choose_edit e s : shown_filters (updateFilters e s) = choose e (shown_filters s).
Proof.
  destruct s as [search sort vendor group quota endpoint tag unit view recharge].
  destruct e as [[|c v]|v|v|v|v|v|v|[]|[]|[]| |]; unfold shown_filters;
    cbn [updateFilters choose s_search s_sort s_vendor s_group s_quotaType s_endpointType s_tag s_tokenUnit s_view s_rechargePrice];
    rewrite ?or_text_unless; reflexivity.
Qed.

(** A key is only there for a value that is not the default. *)
Definition sparse (s : FilterState) : Prop :=
  s_search s <> Some [] /\ s_sort s <> Some (js "name") /\ s_vendor s <> Some FILTER_ALL /\ s_group s <> Some FILTER_ALL
  /\ s_quotaType s <> Some (js "all") /\ s_endpointType s <> Some (js "all") /\ s_tag s <> Some FILTER_ALL
  /\ s_tokenUnit s <> Some UnitM /\ s_view s <> Some Cards /\ s_rechargePrice s <> Some false.

Lemma unless_other x v : unless x v <> Some x.
Proof. unfold unless. case_bool_decide; congruence. Qed.

Lemma edit_sparse e s : sparse s -> sparse (updateFilters e s).
Proof.
  destruct s as [search sort vendor group quota endpoint tag unit view recharge]. unfold sparse.
  destruct e as [[|c v]|v|v|v|v|v|v|[]|[]|[]| |]; cbn;
    intros (? & ? & ? & ? & ? & ? & ? & ? & ? & ?); split_and!; (assumption || apply unless_other || discriminate).
Qed.

Lemma some_active s : hasActiveFilters s = true <-> (0 < activeFilterCount s)%nat.
Proof. unfold hasActiveFilters, activeFilterCount. repeat case_bool_decide; cbn; split; (done || lia). Qed.

Lemma count_one (P : Prop) `{Decision P} n :
  ((if negb (bool_decide P) then 1 else 0) + n = 0)%nat <-> P /\ n = 0%nat.
Proof. case_bool_decide; cbn; split; (tauto || lia). Qed.

Lemma count_last (P : Prop) `{Decision P} : (if negb (bool_decide P) then 1 else 0)%nat = 0%nat <-> P.
Proof. by case_bool_decide. Qed.

(** No filter is counted: all five are at their defaults. *)
Lemma none_active s :
  activeFilterCount s = 0%nat <->
  f_vendor (sh_filters (shown_filters s)) = FILTER_ALL /\ f_group (sh_filters (shown_filters s)) = FILTER_ALL
  /\ f_quotaType (sh_filters (shown_filters s)) = js "all" /\ f_endpointType (sh_filters (shown_filters s)) = js "all"
  /\ f_tag (sh_filters (shown_filters s)) = FILTER_ALL.
Proof. unfold activeFilterCount. rewrite <-!Nat.add_assoc, !count_one, count_last. tauto. Qed.

Lemma sortModels_nil locale_after sortBy : sortModels locale_after [] sortBy = [].
Proof. rewrite sortModels_order. by destruct (order_of _ _). Qed.

Lemma only_searched locale_after s models :
  activeFilterCount s = 0%nat ->
  filteredModels locale_after s models
  = sortModels locale_after (filterBySearch models (f_search (sh_filters (shown_filters s)))) (f_sortBy (sh_filters (shown_filters s))).
Proof.
  intros (H1 & H2 & H3 & H4 & H5)%none_active. unfold filteredModels, filterAndSortModels.
  unfold filterByVendor, filterByGroup, filterByQuotaType, filterByEndpointType, filterByTag.
  rewrite !bool_decide_eq_true_2 by done. destruct models; [|done].
  unfold filterBySearch. destruct (f_search _); by rewrite sortModels_nil.
Qed.

(** ** Prices *)

(** The ratio that a group has, if it has one that can be a least one. *)
Definition has_ratio_below (r : num) (ratios : jsobj) (group : jstr) : Prop :=
  oget group ratios <> VUndef /\ nltb (ratio_number (oget group ratios)) r = true.

Definition infinity : num := S754_infinity false.

(** The least ratio so far, of a group of the list. *)
Definition least_of (groups : list jstr) (ratios : jsobj) (best : option num) : Prop :=
  match best with
  | None => forall g, g ∈ groups -> ~ has_ratio_below infinity ratios g
  | Some r =>
      (exists g, g ∈ groups /\ oget g ratios <> VUndef /\ r = ratio_number (oget g ratios)) /\
      nltb r infinity = true /\ forall g, g ∈ groups -> ~ has_ratio_below r ratios g
  end.

Lemma min_step_undefined ratios best g : oget g ratios = VUndef -> min_step ratios best g = best.
Proof. intros E. unfold min_step. by rewrite E. Qed.

Lemma min_step_defined ratios best g :
  oget g ratios <> VUndef ->
  min_step ratios best g =
    if nltb (ratio_number (oget g ratios)) (default infinity best) then Some (ratio_number (oget g ratios)) else best.
Proof. intros E. unfold min_step. by destruct (oget g ratios), best. Qed.

Lemma min_step_least groups ratios best g :
  least_of groups ratios best -> least_of (groups ++ [g]) ratios (min_step ratios best g).
Proof.
  intros H.
  assert (Hsame : ~ has_ratio_below (default infinity best) ratios g -> least_of (groups ++ [g]) ratios best).
  { intros Hg. destruct best as [r|]; cbn [least_of default] in *.
    - destruct H as ((g0 & H1 & H2) & Hr & H3). split; [exists g0; split; [apply elem_of_app; by left|done]|]. split; [done|].
      intros x [Hx| ->%list_elem_of_singleton]%elem_of_app; [by apply H3|done].
    - intros x [Hx| ->%list_elem_of_singleton]%elem_of_app; [by apply H|done]. }
  assert (oget g ratios = VUndef \/ oget g ratios <> VUndef) as [E|E] by (destruct (oget g ratios); auto).
  { rewrite (min_step_undefined _ _ _ E). apply Hsame. by intros [? _]. }
  rewrite (min_step_defined _ _ _ E).
  destruct (nltb (ratio_number (oget g ratios)) (default infinity best)) eqn:El; [|apply Hsame; intros [_ H']; congruence].
  assert (Hold : forall x, x ∈ groups -> ~ has_ratio_below (default infinity best) ratios x) by (destruct best; [apply H|exact H]).
  cbn [least_of]. split; [exists g; split; [apply elem_of_app; right; by apply list_elem_of_singleton|done]|]. split.
  - destruct best as [r|]; [|exact El]. cbn in El. apply (nltb_trans _ r); [exact El|]. apply H.
  - intros x [Hx| ->%list_elem_of_singleton]%elem_of_app [Hu Hlt].
    + apply (Hold x Hx). split; [done|]. by apply (nltb_trans _ _ _ Hlt).
    + by rewrite nltb_irrefl in Hlt.
Qed.

Lemma fold_least ratios rest : forall groups best,
  least_of groups ratios best -> least_of (groups ++ rest) ratios (fold_left (min_step ratios) rest best).
Proof.
  induction rest as [|g rest IH]; intros groups best H; cbn [fold_left]; [by rewrite app_nil_r|].
  change (groups ++ g :: rest) with (groups ++ [g] ++ rest). rewrite app_assoc. apply IH. by apply min_step_least.
Qed.

(** The ratio of the list: that of a cheapest group. *)
Lemma min_ratio_cheapest groups ratios :
  (exists g, g ∈ groups /\ has_ratio_below infinity ratios g) ->
  exists g, g ∈ groups /\ getMinGroupRatio groups ratios = ratio_number (oget g ratios)
    /\ forall g', g' ∈ groups -> ~ has_ratio_below (ratio_number (oget g ratios)) ratios g'.
Proof.
  intros (g0 & Hin & Hb). pose proof (fold_least ratios groups [] None) as H. cbn [app] in H.
  assert (Hn : least_of [] ratios None) by (intros g Hg; by apply elem_of_nil in Hg). specialize (H Hn).
  unfold getMinGroupRatio. destruct groups as [|g1 groups]; [by apply elem_of_nil in Hin|].
  destruct (fold_left (min_step ratios) (g1 :: groups) None) as [r|]; cbn [least_of default] in *.
  - destruct H as ((g & H1 & H2 & H3) & _ & H4). exists g. split; [done|]. split; [done|]. by rewrite <-H3.
  - by destruct (H g0 Hin).
Qed.

(** ** Dynamic prices *)

Lemma partition_twice {A} (p : A -> bool) l :
  let s := List.filter p l ++ List.filter (fun x => negb (p x)) l in
  List.filter p s ++ List.filter (fun x => negb (p x)) s = s.
Proof.
  cbv zeta. rewrite !List.filter_app, !filter_filter.
  assert (Hn : forall q : A -> bool, (forall x, q x = false) -> List.filter q l = []).
  { intros q Hq. induction l as [|x l' IH]; [done|]. cbn. by rewrite Hq. }
  rewrite (Hn (fun x => negb (p x) && p x)), (Hn (fun x => p x && negb (p x))) by (intros x; by destruct (p x)).
  rewrite app_nil_r. cbn [app]. f_equal; apply List.filter_ext; intros x; by destruct (p x).
Qed.

Lemma above_zero x : is_finite x = true -> nleb x nzero = false -> positive_num x = true.
Proof. by destruct x as [[]|[]| |[] m e]. Qed.

Lemma entries_positive tier u r g :
  Forall (fun e => is_finite (e_value e) = true /\ positive_num (e_value e) = true) (getDynamicPriceEntries tier u r g).
Proof.
  destruct tier as [tier|]; [|constructor]. cbn [getDynamicPriceEntries]. rewrite sort_by_perm.
  apply List.Forall_flat_map, List.Forall_forall. intros v _. unfold price_entry.
  destruct (bv_field v) as [[|c f]|]; [constructor| |constructor].
  destruct (negb (is_finite _) || _) eqn:E; [constructor|]. apply orb_false_iff in E as [Ef Ez]. apply negb_false_iff in Ef.
  apply Forall_singleton. cbn [e_value]. split; [done|]. by apply above_zero.
Qed.

Lemma entries_primary_first tier u r g :
  let es := getDynamicPriceEntries tier u r g in es = List.filter is_primary es ++ List.filter (fun e => negb (is_primary e)) es.
Proof.
  destruct tier as [tier|]; [|done]. cbv zeta. cbn [getDynamicPriceEntries].
  rewrite (sort_by_condition _ is_primary) by done. by rewrite partition_twice.
Qed.

(** ** The properties *)

(** C9.  The catalogue lists exactly the models that match every filter, each
    as often as it is in the data, in the chosen order: by name, from the
    cheapest, from the dearest, and else in the order of the data. *)
Theorem listed_models (locale_after : jstr -> jstr -> bool) (models : list PricingModel) (f : Filters) :
  (forall a b, locale_after a b = true -> locale_after b a = false) ->
  let l := filterAndSortModels locale_after models f in
  l ≡ₚ List.filter (matches f) models
  /\ match order_of locale_after (f_sortBy f) with
     | Some after => in_order after l
     | None => l = List.filter (matches f) models
     end.
Proof.
  intros Hl. cbv zeta. unfold filterAndSortModels. rewrite filters_compose, sortModels_order.
  destruct (order_of locale_after (f_sortBy f)) as [after|] eqn:E; [|done].
  split; [apply sort_by_perm|]. apply sort_by_in_order. by apply (order_asymmetric _ _ _ Hl E).
Qed.

Definition sample_model (name : jstr) (ratio : Z) : PricingModel :=
  MkModel name None (Some (js "acme")) (Some (js "chat, Fast")) nzero (num_of_Z ratio) (num_of_Z 2) None None None None None None
    (Some [js "vip"; js "default"]) None (Some [(js "vip", VNum nzero); (js "default", VNum (num_of_Z 3))]) None None.

Lemma listed_models_witness :
  let models := [sample_model (js "b") 5; sample_model (js "a") 2] in
  let f := MkFilters [] (js "acme") (js "vip") (js "token") (js "all") (js "FAST") (js "price-low") in
  filterAndSortModels (fun a b => str_ltb b a) models f = [sample_model (js "a") 2; sample_model (js "b") 5]
  /\ filterAndSortModels (fun a b => str_ltb b a) models f ≡ₚ List.filter (matches f) models.
Proof.
  cbv zeta. split; [vm_compute; reflexivity|]. apply (listed_models (fun a b => str_ltb b a)).
  intros a b H. apply not_true_iff_false. intros H'. pose proof (str_ltb_trans _ _ _ H H') as E. by rewrite str_ltb_irrefl in E.
Defined.

(** C11.  The state of the filters has no key for a default, and the page never
    notices: after any sequence of edits it shows what was chosen last for each
    filter, the default for an empty choice.  Filters are said to be active
    exactly when one is counted; when none is, all are at their defaults and
    the list is the data searched and sorted, and clearing them leads there,
    with the search, the order and the display as they were. *)
Theorem filters_refined (locale_after : jstr -> jstr -> bool) (models : list PricingModel) (s : FilterState) (es : list filter_edit) :
  let s' := fold_left (fun s e => updateFilters e s) es s in
  let shown' := sh_filters (shown_filters s') in
  shown_filters s' = fold_left (fun x e => choose e x) es (shown_filters s)
  /\ (sparse s -> sparse s')
  /\ (hasActiveFilters s' = true <-> (0 < activeFilterCount s')%nat)
  /\ (activeFilterCount s' = 0%nat <->
        f_vendor shown' = FILTER_ALL /\ f_group shown' = FILTER_ALL /\ f_quotaType shown' = js "all"
        /\ f_endpointType shown' = js "all" /\ f_tag shown' = FILTER_ALL)
  /\ (activeFilterCount s' = 0%nat ->
        filteredModels locale_after s' models
        = sortModels locale_after (filterBySearch models (f_search shown')) (f_sortBy shown'))
  /\ activeFilterCount (updateFilters ClearFilters s') = 0%nat
  /\ f_search (sh_filters (shown_filters (updateFilters ClearFilters s'))) = f_search shown'
  /\ f_sortBy (sh_filters (shown_filters (updateFilters ClearFilters s'))) = f_sortBy shown'
  /\ sh_view (shown_filters (updateFilters ClearFilters s')) = sh_view (shown_filters s').
Proof.
  cbv zeta. split; [|split].
  - revert s. induction es as [|e es IH]; intros s; [done|]. cbn [fold_left]. by rewrite IH, choose_edit.
  - revert s. induction es as [|e es IH]; intros s Hs; [done|]. cbn [fold_left]. by apply IH, edit_sparse.
  - split; [apply some_active|]. split; [apply none_active|]. split; [apply only_searched|].
    rewrite none_active, choose_edit. destruct (shown_filters _) as [[] ? ? ?]. by split_and!.
Qed.

(** C10.  The price in the list is the price of the model in its cheapest
    group, for both ways of pricing, unless that group's ratio is zero. *)
Theorem list_price_cheapest (m : PricingModel) (type : PriceType) (u : TokenUnit) (r : Rates) (groups : list jstr) (ratios : jsobj) :
  enable_groups m = Some groups -> group_ratio m = Some ratios ->
  (exists g, g ∈ groups /\ has_ratio_below infinity ratios g) ->
  exists g, g ∈ groups /\ (forall g', g' ∈ groups -> ~ has_ratio_below (ratio_number (oget g ratios)) ratios g')
    /\ (truthy (oget g ratios) = true ->
        formatPrice m type u r = formatGroupPrice m g type u r ratios
        /\ formatRequestPrice m r = formatFixedPrice m g r ratios).
Proof.
  intros Hg Hr Hb. destruct (min_ratio_cheapest _ _ Hb) as (g & Hin & Hmin & Hleast). exists g. split; [done|]. split; [done|].
  intros Ht. unfold formatPrice, formatGroupPrice, formatRequestPrice, formatFixedPrice, ratio_or_one.
  rewrite Hg, Hr, Ht. change (default [] (Some groups)) with groups. change (default [] (Some ratios)) with ratios. by rewrite Hmin.
Qed.

Lemma list_price_cheapest_witness :
  exists g, g ∈ [js "default"]
    /\ (truthy (oget g [(js "default", VNum (num_of_Z 3))]) = true ->
        formatPrice (MkModel (js "a") None None None nzero (num_of_Z 5) nzero None None None None None None (Some [js "default"]) None
                       (Some [(js "default", VNum (num_of_Z 3))]) None None) P_input UnitM (MkRates false nzero nzero)
        = formatGroupPrice (MkModel (js "a") None None None nzero (num_of_Z 5) nzero None None None None None None (Some [js "default"]) None
                       (Some [(js "default", VNum (num_of_Z 3))]) None None) g P_input UnitM (MkRates false nzero nzero) [(js "default", VNum (num_of_Z 3))]).
Proof.
  destruct (list_price_cheapest (MkModel (js "a") None None None nzero (num_of_Z 5) nzero None None None None None None (Some [js "default"]) None
              (Some [(js "default", VNum (num_of_Z 3))]) None None) P_input UnitM (MkRates false nzero nzero)
              [js "default"] [(js "default", VNum (num_of_Z 3))] eq_refl eq_refl) as (g & Hin & _ & Hp).
  - exists (js "default"). split; [apply list_elem_of_here|]. split; [vm_compute; discriminate|vm_compute; reflexivity].
  - exists g. split; [exact Hin|]. intros Ht. exact (proj1 (Hp Ht)).
Defined.

(** The summary of a dynamic price shows only prices above zero, those of
    input and output first, and an expression that cannot be read as tiers
    shows none and is called special. *)
Theorem summary_sound (m : PricingModel) (u : TokenUnit) (r : Rates) (g : option num) (y : DynamicPricingSummary) :
  getDynamicPricingSummary m u r g = Ok (Some y) ->
  y_entries y = primaryEntries y ++ secondaryEntries y
  /\ Forall (fun e => is_finite (e_value e) = true /\ positive_num (e_value e) = true) (y_entries y)
  /\ (isSpecialExpression y = true -> tiers y = [] /\ y_entries y = []).
Proof.
  unfold getDynamicPricingSummary. destruct (isDynamicPricingModel m); [|discriminate]. cbn [negb].
  destruct (getDynamicPricingTiers m) as [ts|]; [|discriminate]. destruct (hasDynamicRequestRules m) as [rules|]; [|discriminate].
  cbn [res_bind]. intros [= <-]. cbn [y_entries primaryEntries secondaryEntries isSpecialExpression tiers].
  split; [apply entries_primary_first|]. split; [apply entries_positive|].
  intros [_ H]%andb_true_iff. apply bool_decide_eq_true in H. by destruct ts.
Qed.

Definition gives_summary (c : res (option DynamicPricingSummary)) : bool :=
  match c with Ok (Some y) => (0 <? length (y_entries y))%nat | _ => false end.

Lemma summary_sound_witness :
  exists y, getDynamicPricingSummary
      (MkModel (js "a") None None None nzero nzero nzero None None None None None None None None None
         (Some (js "tiered_expr")) (Some (jsq "tier(`base`, c * 8 + p * 2 + cr * 1)")))
      UnitM (MkRates false nzero nzero) None = Ok (Some y)
    /\ y_entries y <> [] /\ y_entries y = primaryEntries y ++ secondaryEntries y.
Proof.
  set (c := getDynamicPricingSummary _ _ _ _). assert (gives_summary c = true) as H by (vm_compute; reflexivity).
  destruct c as [[y|]|] eqn:E; try discriminate H. exists y. split; [reflexivity|].
  split; [intros Hy; cbn [gives_summary] in H; by rewrite Hy in H|]. exact (proj1 (summary_sound _ _ _ _ y E)).
Defined.

(** The rates never divide by zero. *)
Lemma rates_positive (price rate : option num) :
  let p := page_priceRate price in
  is_nan p = false -> is_nan (page_usdExchangeRate rate p) = false ->
  positive_num p = true /\ positive_num (page_usdExchangeRate rate p) = true.
Proof.
  assert (Hmax : forall x, is_nan (nmax x SMALLEST_RATE) = false -> positive_num (nmax x SMALLEST_RATE) = true).
  { intros x. set (y := SMALLEST_RATE). assert (Hy : positive_num y = true) by (vm_compute; reflexivity).
    assert (Hz : match y with S754_finite _ _ _ => True | _ => False end) by (vm_compute; exact I). clearbody y.
    unfold nmax. destruct (is_nan x || is_nan y) eqn:En; [done|]. intros _.
    destruct y as [| | |s n e]; try done. destruct x as [sx|sx| |sx mx ex];
      (match goal with |- context [nltb ?a ?b] => destruct (nltb a b) eqn:E; [exact Hy|] end).
    - cbv in Hy. destruct s; [discriminate Hy|]. discriminate E.
    - destruct s; [discriminate Hy|]. destruct sx; [discriminate E|reflexivity].
    - discriminate En.
    - destruct s; [discriminate Hy|]. destruct sx; [discriminate E|reflexivity]. }
  cbv zeta. intros H1 H2. split; by apply Hmax.
Qed.

(** A group with ratio 0: the list shows 0, the page of the model the price of
    the ratio 1. *)
Lemma zero_ratio :
  let m := sample_model (js "a") 2 in let r := MkRates false nzero nzero in
  formatPrice m P_input UnitM r = Some nzero
  /\ formatGroupPrice m (js "vip") P_input UnitM r (default [] (group_ratio m)) = Some (num_of_Z 4).
Proof. vm_compute. split; reflexivity. Qed.
