(* ===== verification/TableUrl.v ===== *)
(** * The state of a table in the URL (hooks/use-table-url-state.ts)

    Page, global filter and column filters of a table, which the hook reads
    from the search parameters and writes to them.  The router is a parameter:
    [route] is what the search parameters become when the page navigates to
    them, [same] whether it gives the page the object it had.  What is written
    to the URL is read back. *)
From S2P Require Import Prelude JsString JsNumber JsValue JsValueFacts.
Open Scope N_scope.

(** ** The configuration *)

Inductive filter_type := T_string | T_array.

(** A filter without a type is read as an array. *)
Record ColumnFilter := MkColumn {
  columnId : jstr; searchKey : jstr; c_type : option filter_type;
  serialize : jsval -> jsval; deserialize : jsval -> jsval
}.

Definition is_string_filter (c : ColumnFilter) : bool := match c_type c with Some T_string => true | _ => false end.

Record Config := MkConfig {
  pageKey : jstr; pageSizeKey : jstr; defaultPage : num; defaultPageSize : num;
  globalFilterEnabled : bool; globalFilterKey : jstr; trimGlobal : bool; columnFiltersCfg : list ColumnFilter
}.

(** The defaults of the options that are left out. *)
Definition default_config (columns : list ColumnFilter) : Config :=
  MkConfig (js "page") (js "pageSize") (num_of_Z 1) (num_of_Z 20) true (js "filter") true columns.

Record PaginationState := MkPagination { pageIndex : num; pageSize : num }.

(** ** The stored page size *)

(** [localStorage]: what is stored, and whether it can be used at all. *)
Record Storage := MkStorage { stored_text : option jstr; usable : bool }.

Definition getStoredPageSize (s : Storage) : option num :=
  if usable s then
    let n := parse_int (default [] (stored_text s)) in if nltb nzero n then Some n else None
  else None.

Definition setStoredPageSize (size : num) (s : Storage) : Storage :=
  if usable s then MkStorage (Some (num_to_str size)) true else s.

(** ** Reading the URL *)

Section table.
Context (cfg : Config).

(** The filter of a column for a deserialized value. *)
Definition read_value (c : ColumnFilter) (value : jsval) : list (jstr * jsval) :=
  if is_string_filter c then
    match vcoalesce value (VStr []) with
    | VStr s => match trim s with [] => [] | _ => [(columnId c, VStr s)] end
    | _ => []
    end
  else
    match vcoalesce value (VArr []) with
    | VArr (x :: l) => [(columnId c, VArr (x :: l))]
    | _ => []
    end.

(** The filter of a column that the search parameters carry. *)
Definition read_filter (search : jsobj) (c : ColumnFilter) : list (jstr * jsval) :=
  read_value c (deserialize c (oget (searchKey c) search)).

Definition initialColumnFilters (search : jsobj) : list (jstr * jsval) := flat_map (read_filter search) (columnFiltersCfg cfg).

(** [typeof v === 'number' ? v : d] *)
Definition number_or (v : jsval) (d : num) : num := match v with VNum x => x | _ => d end.

Definition pagination (search : jsobj) (s : Storage) : PaginationState :=
  MkPagination (nmax nzero (nsub (number_or (oget (pageKey cfg) search) (defaultPage cfg)) (num_of_Z 1)))
    (number_or (oget (pageSizeKey cfg) search) (default (defaultPageSize cfg) (getStoredPageSize s))).

Definition initialGlobalFilter (search : jsobj) : option jstr :=
  if globalFilterEnabled cfg then Some (match oget (globalFilterKey cfg) search with VStr s => s | _ => [] end) else None.

(** ** The state of the hook *)

Record Table := MkTable {
  search : jsobj; columnFilters : list (jstr * jsval); globalFilter : option jstr; storage : Storage
}.

Definition mount (s : jsobj) (st : Storage) : Table := MkTable s (initialColumnFilters s) (initialGlobalFilter s) st.

(** What navigates: nothing is said of the history. *)
Context (route : jsobj -> jsobj) (same : jsobj -> jsobj -> bool).

(** The search parameters change; the effect on [search] reads the column
    filters again. *)
Definition arrive (s : jsobj) (t : Table) : Table :=
  MkTable s (if same (search t) s then columnFilters t else initialColumnFilters s) (globalFilter t) (storage t).

Definition navigate (f : jsobj -> jsobj) (t : Table) : Table := arrive (route (f (search t))) t.

Definition shown_pagination (t : Table) : PaginationState := pagination (search t) (storage t).

Definition set_key (k : jstr) (v : jsval) (o : jsobj) : jsobj := ospread o [(k, v)].

Definition onPaginationChange (updater : PaginationState -> PaginationState) (t : Table) : Table :=
  let next := updater (shown_pagination t) in
  let nextPage := nadd (pageIndex next) (num_of_Z 1) in
  let nextPageSize := pageSize next in
  let t := if neqb nextPageSize (pageSize (shown_pagination t)) then t
           else MkTable (search t) (columnFilters t) (globalFilter t) (setStoredPageSize nextPageSize (storage t)) in
  navigate (fun prev => ospread prev [(pageKey cfg, if nleb nextPage (defaultPage cfg) then VUndef else VNum nextPage);
                                      (pageSizeKey cfg, VNum nextPageSize)]) t.

Definition onGlobalFilterChange (updater : jstr -> jstr) (t : Table) : Table :=
  if globalFilterEnabled cfg then
    let next := updater (default [] (globalFilter t)) in
    let value := if trimGlobal cfg then trim next else next in
    navigate (fun prev => ospread prev [(pageKey cfg, VUndef); (globalFilterKey cfg, match value with [] => VUndef | _ => VStr value end)])
      (MkTable (search t) (columnFilters t) (Some value) (storage t))
  else t.

Definition found (next : list (jstr * jsval)) (c : ColumnFilter) : jsval :=
  match List.find (fun f => bool_decide (f.1 = columnId c)) next with Some f => f.2 | None => VUndef end.

(** What a column filter puts into the search parameters. *)
Definition written (next : list (jstr * jsval)) (c : ColumnFilter) : jsval :=
  if is_string_filter c then
    match found next c with
    | VStr s => match trim s with [] => VUndef | _ => serialize c (VStr s) end
    | _ => VUndef
    end
  else
    match found next c with
    | VArr (x :: l) => serialize c (VArr (x :: l))
    | _ => VUndef
    end.

Definition filters_patch (next : list (jstr * jsval)) : jsobj :=
  obj_of (map (fun c => (searchKey c, written next c)) (columnFiltersCfg cfg)).

Definition onColumnFiltersChange (updater : list (jstr * jsval) -> list (jstr * jsval)) (t : Table) : Table :=
  let next := updater (columnFilters t) in
  navigate (fun prev => ospread (ospread prev [(pageKey cfg, VUndef)]) (filters_patch next))
    (MkTable (search t) next (globalFilter t) (storage t)).

Definition ensurePageInRange (pageCount : num) (last : bool) (t : Table) : Table :=
  let pageNum := number_or (oget (pageKey cfg) (search t)) (defaultPage cfg) in
  if nltb nzero pageCount && nltb pageCount pageNum then
    navigate (fun prev => ospread prev [(pageKey cfg, if last then VNum pageCount else VUndef)]) t
  else t.

(** What the hook gives to the table. *)
Definition shown_global (t : Table) : option jstr := if globalFilterEnabled cfg then Some (default [] (globalFilter t)) else None.

End table.

(** ** The columns of the usage logs
       (features/usage-logs/components/usage-logs-table.tsx) *)

Definition LOG_TYPE_ALL_VALUE : jstr := js "0".

(** [String(item) !== LOG_TYPE_ALL_VALUE].  The route admits only texts; an
    object that cannot be converted, which throws, is kept here. *)
Definition other_log_type (item : jsval) : bool :=
  match to_str item with Ok s => negb (bool_decide (s = LOG_TYPE_ALL_VALUE)) | Throw _ => true end.

Definition deserializeLogTypeFilter (value : jsval) : jsval :=
  let values := match value with VArr l => l | _ => if truthy value then [value] else [] end in
  VArr (List.filter other_log_type values).

Definition string_column (id key : jstr) : ColumnFilter := MkColumn id key (Some T_string) (fun v => v) (fun v => v).

Definition usage_log_columns (isAdmin : bool) : list ColumnFilter :=
  [ MkColumn (js "created_at") (js "type") (Some T_array) (fun v => v) deserializeLogTypeFilter;
    string_column (js "model_name") (js "model"); string_column (js "token_name") (js "token");
    string_column (js "group") (js "group") ]
  ++ (if isAdmin then [string_column (js "channel") (js "channel"); string_column (js "username") (js "username")] else []).

(** ** What is written is read back *)

Section facts.
Context (cfg : Config) (route : jsobj -> jsobj) (same : jsobj -> jsobj -> bool).

(** The router keeps what it is given, but for the keys that are set to
    [undefined]. *)
Definition routed (v : option jsval) : option jsval := match v with Some VUndef => None | x => x end.
Hypothesis Hroute : forall o k, olookup k (route o) = routed (olookup k o).

(** A key that no object inherits. *)
Definition own (k : jstr) : Prop := inherited k = VUndef.

Definition value_of (v : option jsval) : jsval := default VUndef v.

Lemma oget_own k o : own k -> oget k o = value_of (olookup k o).
Proof. unfold own, oget, value_of. intros ->. done. Qed.

Lemma oget_route k o : own k -> oget k (route o) = value_of (olookup k o).
Proof. intros Hk. rewrite oget_own, Hroute by done. by destruct (olookup k o) as [[]|]. Qed.

Lemma navigate_search f t : search (navigate cfg route same f t) = route (f (search t)).
Proof. done. Qed.

(** ** Column filters *)

(** The configurations that can be told apart in the URL. *)
Record separate : Prop := {
  sep_keys : NoDup (map searchKey (columnFiltersCfg cfg));
  sep_page : pageKey cfg ∉ map searchKey (columnFiltersCfg cfg);
  sep_own : forall c, c ∈ columnFiltersCfg cfg -> own (searchKey c);
  sep_own_page : own (pageKey cfg)
}.

(** The filters that are kept: texts that are not blank, lists that are not
    empty, in the order of the configuration. *)
Definition kept (next : list (jstr * jsval)) (c : ColumnFilter) : list (jstr * jsval) :=
  match is_string_filter c, found next c with
  | true, VStr s => match trim s with [] => [] | _ => [(columnId c, VStr s)] end
  | false, VArr (x :: l) => [(columnId c, VArr (x :: l))]
  | _, _ => []
  end.

(** A column without transformers, as nearly all of them are. *)
Definition plain (c : ColumnFilter) : Prop := (forall v, serialize c v = v) /\ (forall v, deserialize c v = v).

(** A column that shows no filter when the URL has no value for it. *)
Definition silent (c : ColumnFilter) : Prop := read_value c (deserialize c VUndef) = [].

(** A filter that is kept, after the transformers of its column. *)
Definition reread (next : list (jstr * jsval)) (c : ColumnFilter) : list (jstr * jsval) :=
  flat_map (fun f => read_value c (deserialize c (serialize c f.2))) (kept next c).

Lemma plain_silent c : plain c -> silent c.
Proof. intros [_ H]. unfold silent, read_value. rewrite H. by destruct (is_string_filter c). Qed.

Lemma plain_reread next c : plain c -> reread next c = kept next c.
Proof.
  intros [Hs Hd]. unfold reread, kept. destruct (is_string_filter c) eqn:Et, (found next c) as [| | | |s|[|x l]| |]; try done.
  - destruct (trim s) eqn:E; [done|]. cbn [flat_map snd]. rewrite Hs, Hd. unfold read_value. rewrite Et. cbn [vcoalesce].
    by rewrite E.
  - cbn [flat_map snd]. rewrite Hs, Hd. unfold read_value. by rewrite Et.
Qed.

Lemma read_written next c search :
  silent c -> oget (searchKey c) search = written next c -> read_filter search c = reread next c.
Proof.
  intros Hs H. unfold read_filter. rewrite H. clear H. unfold reread, kept, written.
  destruct (is_string_filter c), (found next c) as [| | | |s|[|x l]| |]; try exact Hs.
  - destruct (trim s); [exact Hs|]. cbn [flat_map snd]. by rewrite app_nil_r.
  - cbn [flat_map snd]. by rewrite app_nil_r.
Qed.

Lemma written_lookup next c :
  NoDup (map searchKey (columnFiltersCfg cfg)) -> c ∈ columnFiltersCfg cfg ->
  olookup (searchKey c) (filters_patch cfg next) = Some (written next c).
Proof.
  intros Hn Hc. unfold filters_patch. set (f := fun c => (searchKey c, written next c)).
  assert (Hk : okeys (map f (columnFiltersCfg cfg)) = map searchKey (columnFiltersCfg cfg)).
  { unfold okeys. rewrite map_map. done. }
  rewrite olookup_obj_of by (unfold okeys_nodup; by rewrite Hk). clear Hk.
  induction (columnFiltersCfg cfg) as [|d l IH]; [by apply elem_of_nil in Hc|].
  change (olookup (searchKey c) ((searchKey d, written next d) :: map f l) = Some (written next c)). cbn [olookup].
  apply NoDup_cons in Hn as [Hd Hn]. apply elem_of_cons in Hc as [->|Hc].
  - by rewrite bool_decide_eq_true_2.
  - rewrite bool_decide_eq_false_2; [by apply IH|]. intros E. apply Hd. rewrite <-E. apply list_elem_of_fmap. by exists c.
Qed.

Lemma patch_nodup next : okeys_nodup (filters_patch cfg next).
Proof. unfold filters_patch, obj_of. apply NoDup_ospread. constructor. Qed.

Lemma patch_other next k :
  NoDup (map searchKey (columnFiltersCfg cfg)) ->
  k ∉ map searchKey (columnFiltersCfg cfg) -> olookup k (filters_patch cfg next) = None.
Proof.
  intros Hn Hk. unfold filters_patch.
  assert (He : okeys (map (fun c => (searchKey c, written next c)) (columnFiltersCfg cfg)) = map searchKey (columnFiltersCfg cfg))
    by (unfold okeys; by rewrite map_map).
  rewrite olookup_obj_of by (unfold okeys_nodup; by rewrite He). apply olookup_None. by rewrite He.
Qed.

(** The search parameters after the column filters change. *)
Definition patched (next : list (jstr * jsval)) (o : jsobj) : jsobj :=
  ospread (ospread o [(pageKey cfg, VUndef)]) (filters_patch cfg next).

Lemma patched_column next o c :
  separate -> c ∈ columnFiltersCfg cfg -> olookup (searchKey c) (patched next o) = Some (written next c).
Proof.
  intros Hs Hc. unfold patched. rewrite olookup_ospread by apply patch_nodup. by rewrite written_lookup by (apply Hs || done).
Qed.

Lemma singleton_nodup (k : jstr) (v : jsval) : okeys_nodup [(k, v)].
Proof. apply NoDup_singleton. Qed.

Lemma patched_page next o : separate -> olookup (pageKey cfg) (patched next o) = Some VUndef.
Proof.
  intros Hs. unfold patched. rewrite olookup_ospread by apply patch_nodup. rewrite patch_other by apply Hs.
  rewrite olookup_ospread by apply singleton_nodup. cbn [olookup]. by rewrite bool_decide_eq_true_2.
Qed.

Lemma patched_other next o k :
  separate -> k <> pageKey cfg -> k ∉ map searchKey (columnFiltersCfg cfg) -> olookup k (patched next o) = olookup k o.
Proof.
  intros Hs Hp Hk. unfold patched. rewrite olookup_ospread by apply patch_nodup. rewrite patch_other by (apply Hs || done).
  rewrite olookup_ospread by apply singleton_nodup. cbn [olookup]. by rewrite bool_decide_eq_false_2.
Qed.

(** The router passes on what a key is given, but for [undefined]. *)
Definition passes (o : jsobj) (k : jstr) : Prop := olookup k (route o) = routed (olookup k o).

Lemma oget_passes k o : own k -> passes o k -> oget k (route o) = value_of (olookup k o).
Proof. intros Hk Hp. rewrite oget_own, Hp by done. by destruct (olookup k o) as [[]|]. Qed.

Lemma filters_read (next : list (jstr * jsval)) o :
  separate -> Forall (passes (patched next o)) (map searchKey (columnFiltersCfg cfg)) -> Forall silent (columnFiltersCfg cfg) ->
  initialColumnFilters cfg (route (patched next o)) = flat_map (reread next) (columnFiltersCfg cfg).
Proof.
  intros Hs Hp Hr. unfold initialColumnFilters.
  assert (H : forall c, c ∈ columnFiltersCfg cfg -> read_filter (route (patched next o)) c = reread next c).
  { intros c Hc. apply read_written; [by apply (proj1 (Forall_forall _ _) Hr)|].
    rewrite oget_passes; [|by apply Hs|apply (proj1 (Forall_forall _ _) Hp), list_elem_of_fmap; by exists c].
    by rewrite (patched_column next o c Hs Hc). }
  revert H. generalize (columnFiltersCfg cfg). intros l H. induction l as [|c l IH]; [done|]. cbn [flat_map].
  rewrite H by apply list_elem_of_here. f_equal. apply IH. intros d Hd. by apply H, list_elem_of_further.
Qed.

(** ** Pages *)

(** What the page shows after it goes to [next]. *)
Lemma page_read next t :
  own (pageKey cfg) -> own (pageSizeKey cfg) -> pageKey cfg <> pageSizeKey cfg ->
  let t' := onPaginationChange cfg route same (fun _ => next) t in
  let nextPage := nadd (pageIndex next) (num_of_Z 1) in
  shown_pagination cfg t' =
    MkPagination (nmax nzero (nsub (if nleb nextPage (defaultPage cfg) then defaultPage cfg else nextPage) (num_of_Z 1))) (pageSize next).
Proof.
  intros Hp Hz Hne. cbv zeta. unfold onPaginationChange, shown_pagination, pagination.
  set (t0 := if neqb _ _ then t else _). cbn [search navigate arrive storage].
  set (o := ospread (search t0) _).
  assert (Hn : okeys_nodup [(pageKey cfg, if nleb (nadd (pageIndex next) (num_of_Z 1)) (defaultPage cfg) then VUndef
                                          else VNum (nadd (pageIndex next) (num_of_Z 1)));
                            (pageSizeKey cfg, VNum (pageSize next))]).
  { apply NoDup_cons. split; [by intros E%list_elem_of_singleton|]. apply NoDup_singleton. }
  assert (H1 : olookup (pageKey cfg) o = Some (if nleb (nadd (pageIndex next) (num_of_Z 1)) (defaultPage cfg) then VUndef
                                          else VNum (nadd (pageIndex next) (num_of_Z 1)))).
  { unfold o. rewrite olookup_ospread by exact Hn. cbn [olookup]. by rewrite bool_decide_eq_true_2. }
  assert (H2 : olookup (pageSizeKey cfg) o = Some (VNum (pageSize next))).
  { unfold o. rewrite olookup_ospread by exact Hn. cbn [olookup]. rewrite bool_decide_eq_false_2 by congruence.
    by rewrite bool_decide_eq_true_2. }
  rewrite !oget_route, H1, H2 by done. cbn [value_of default from_option number_or].
  by destruct (nleb (nadd (pageIndex next) (num_of_Z 1)) (defaultPage cfg)).
Qed.

(** The page that the URL names. *)
Definition page_number (t : Table) : num := number_or (oget (pageKey cfg) (search t)) (defaultPage cfg).

Lemma page_ensured count last t :
  own (pageKey cfg) ->
  page_number (ensurePageInRange cfg route same count last t) =
    if nltb nzero count && nltb count (page_number t) then (if last then count else defaultPage cfg) else page_number t.
Proof.
  intros Hp. unfold ensurePageInRange. fold (page_number t).
  destruct (nltb nzero count && nltb count (page_number t)); [|done]. unfold page_number at 1. cbn [search navigate arrive].
  rewrite oget_route by done. rewrite olookup_ospread by apply singleton_nodup. cbn [olookup].
  rewrite bool_decide_eq_true_2 by done. by destruct last.
Qed.

End facts.

(** ** A router *)

(** The keys that are [undefined] are dropped. *)
Fixpoint drop_undefined (o : jsobj) : jsobj :=
  match o with
  | [] => []
  | (k, VUndef) :: o => odelete k (drop_undefined o)
  | (k, v) :: o => (k, v) :: drop_undefined o
  end.

Lemma drop_undefined_routed o k : olookup k (drop_undefined o) = routed (olookup k o).
Proof.
  induction o as [|[k' v] o IH]; [done|]. cbn [drop_undefined olookup].
  assert (Hd : olookup k (odelete k' (drop_undefined o)) = if bool_decide (k = k') then None else routed (olookup k o)).
  { rewrite olookup_odelete, IH. done. }
  destruct v; cbn [olookup]; rewrite ?Hd; by case_bool_decide.
Qed.

(** ** The properties *)

(** C12.  The column filters are in the URL: after they are changed, the search
    parameters are read as exactly the filters that restrict something (texts
    that are not blank, lists that are not empty), each after the transformers
    of its column, and so as they were when the columns have none; the first
    page is shown and no other parameter that the router passes on has changed.
    This is for columns with keys of their own that show no filter when their
    key is missing, and a router that passes on what the page and the columns
    write, without the keys that are [undefined]. *)
Theorem filters_read_back (cfg : Config) (route : jsobj -> jsobj) (same : jsobj -> jsobj -> bool)
    (updater : list (jstr * jsval) -> list (jstr * jsval)) (t : Table) :
  let next := updater (columnFilters t) in
  let columns := columnFiltersCfg cfg in
  let o := patched cfg next (search t) in
  separate cfg -> Forall (passes route o) (pageKey cfg :: map searchKey columns) -> Forall silent columns ->
  let t' := onColumnFiltersChange cfg route same updater t in
  initialColumnFilters cfg (search t') = flat_map (reread next) columns
  /\ (Forall plain columns -> initialColumnFilters cfg (search t') = flat_map (kept next) columns)
  /\ page_number cfg t' = defaultPage cfg
  /\ (forall k, k <> pageKey cfg -> k ∉ map searchKey columns -> passes route o k ->
        olookup k (search t') = routed (olookup k (search t)))
  /\ globalFilter t' = globalFilter t.
Proof.
  intros next columns o Hs [Hp Hc]%Forall_cons Hr t'. assert (E : search t' = route o) by done.
  pose proof (filters_read cfg route next (search t) Hs Hc Hr) as Hf. fold o columns in Hf. rewrite E. split; [done|]. split; [|split; [|split; [|done]]].
  - intros Hpl. rewrite Hf. clear -Hpl. induction Hpl as [|c l H _ IH]; [done|]. cbn [flat_map]. by rewrite IH, plain_reread.
  - unfold page_number. rewrite E, (oget_passes route) by (apply Hs || done). unfold o. by rewrite patched_page.
  - intros k Hk Hk' Hpk. rewrite Hpk. unfold o. by rewrite patched_other.
Qed.

Definition sample_search : jsobj := [(js "page", VNum (num_of_Z 7)); (js "filter", VStr (js "gpt"))].

(** The columns of the logs of an administrator: the type [0] of all types is
    no filter, whatever else is. *)
Lemma filters_read_back_witness :
  let cfg := default_config (usage_log_columns true) in
  let t := mount cfg sample_search (MkStorage None true) in
  let next := [(js "model_name", VStr (js "o3")); (js "created_at", VArr [VStr (js "0"); VStr (js "2")])] in
  let t' := onColumnFiltersChange cfg drop_undefined (fun _ _ => false) (fun _ => next) t in
  initialColumnFilters cfg (search t') = [(js "created_at", VArr [VStr (js "2")]); (js "model_name", VStr (js "o3"))]
  /\ page_number cfg t' = num_of_Z 1.
Proof.
  cbv zeta. set (cfg := default_config _). set (t := mount _ _ _). set (next := [_; _]).
  destruct (filters_read_back cfg drop_undefined (fun _ _ => false) (fun _ => next) t) as (H1 & _ & H2 & _).
  - split.
    + apply (bool_decide_eq_true_1 (NoDup (map searchKey (columnFiltersCfg cfg)))). vm_compute. reflexivity.
    + apply (bool_decide_eq_true_1 (pageKey cfg ∉ map searchKey (columnFiltersCfg cfg))). vm_compute. reflexivity.
    + apply (proj1 (Forall_forall (fun c => own (searchKey c)) (columnFiltersCfg cfg))). repeat constructor; vm_compute; reflexivity.
    + vm_compute. reflexivity.
  - apply Forall_forall. intros k _. apply drop_undefined_routed.
  - repeat constructor; vm_compute; reflexivity.
  - split; [rewrite H1; vm_compute; reflexivity|rewrite H2; reflexivity].
Defined.

(** A page that the table goes to is the page that is shown: for an index
    and a size that the arithmetic of the language adds and subtracts exactly,
    from the default page on; and a page beyond the last one is left for the
    first or the last, any other is not. *)
Theorem page_read_back (cfg : Config) (route : jsobj -> jsobj) (same : jsobj -> jsobj -> bool) (next : PaginationState) (t : Table) :
  (forall o k, olookup k (route o) = routed (olookup k o)) ->
  own (pageKey cfg) -> own (pageSizeKey cfg) -> pageKey cfg <> pageSizeKey cfg ->
  let nextPage := nadd (pageIndex next) (num_of_Z 1) in
  (nleb nextPage (defaultPage cfg) = true -> nextPage = defaultPage cfg) ->
  nmax nzero (nsub nextPage (num_of_Z 1)) = pageIndex next ->
  let t' := onPaginationChange cfg route same (fun _ => next) t in
  shown_pagination cfg t' = next
  /\ forall count last, page_number cfg (ensurePageInRange cfg route same count last t') =
       if nltb nzero count && nltb count (page_number cfg t') then (if last then count else defaultPage cfg) else page_number cfg t'.
Proof.
  intros Hroute Hp Hz Hne nextPage Hd He. cbv zeta. split; [|intros count last; by apply page_ensured].
  rewrite page_read by done. fold nextPage. destruct next as [index size]. f_equal.
  destruct (nleb nextPage (defaultPage cfg)) eqn:E; [rewrite <-Hd by done|]; exact He.
Qed.

Lemma page_read_back_witness :
  let cfg := default_config [] in
  let next := MkPagination (num_of_Z 4) (num_of_Z 50) in
  shown_pagination cfg (onPaginationChange cfg drop_undefined (fun _ _ => false) (fun _ => next) (mount cfg sample_search (MkStorage None true))) = next.
Proof.
  cbv zeta. refine (proj1 (page_read_back (default_config []) drop_undefined (fun _ _ => false) (MkPagination (num_of_Z 4) (num_of_Z 50))
    (mount (default_config []) sample_search (MkStorage None true)) drop_undefined_routed _ _ _ _ _)).
  - vm_compute. reflexivity.
  - vm_compute. reflexivity.
  - apply (bool_decide_eq_true_1 (pageKey (default_config []) <> pageSizeKey (default_config []))). vm_compute. reflexivity.
  - vm_compute. discriminate.
  - vm_compute. reflexivity.
Defined.

(** ** What the URL does not decide *)

(** Going back in the history, the column filters and the page follow the URL,
    the global filter does not. *)
Lemma global_filter_stays cfg (same : jsobj -> jsobj -> bool) s t :
  same (search t) s = false ->
  columnFilters (arrive cfg same s t) = initialColumnFilters cfg s /\ globalFilter (arrive cfg same s t) = globalFilter t.
Proof. unfold arrive. intros ->. done. Qed.

(** A column without a type never carries a text. *)
Lemma untyped_is_no_text c search s : c_type c = None -> deserialize c (oget (searchKey c) search) = VStr s -> read_filter search c = [].
Proof. unfold read_filter, read_value, is_string_filter. intros -> ->. done. Qed.
